(** * ODE data engine: a shallow embedding of the profiling and insight pipeline

    The development follows the TypeScript sources of the engine
    ([app/lib/charts.ts], [app/lib/eda.ts], [app/lib/kpis.ts],
    [app/lib/insights.ts], [app/lib/typeInference.ts], [app/lib/ask.ts]), the
    types and the store of [app/context/DatasetContext.tsx], and what the
    dashboard computes from them ([app/dashboard/page.tsx],
    [app/dashboard/_components/InteractiveCharts.tsx]).

    Numbers.  A JavaScript number that reaches the statistics is finite
    ([safeToNumberLoose] lets nothing else through), and is modelled as a
    rational [Q]: the arithmetic of the model is exact, where the source
    rounds to the nearest double and overflows to [Infinity].  [===] on
    numbers is [Qeq].  Counts and lengths are natural numbers.  The
    properties stated are meant to survive rounding: they are orders, bounds,
    counts and memberships, or repeat a formula as the source computes it;
    identities that hold in exact arithmetic only (of sums, means or bin
    edges) are left out.

    Strings.  A string is a sequence of code units below 256; the fixed
    texts of the templates that hold other characters are written in UTF-8
    and are only ever concatenated.

    Objects.  An object used as a record of columns is the list of its
    entries in the order of its keys; an array is a list; a [Set] or a [Map]
    is a list in the order of insertion.  A field that may be [null] or absent
    is an [option].

    Host.  What the engine that runs the code decides ([Date.parse], the
    locale, the time zone, the printing of numbers) and what is not rational
    ([Math.sqrt], [Math.log10]) is taken from a class [Host]; the general
    statements hold for every host, the examples run on the host of
    [StdHost]. *)

From Stdlib Require Import Ascii String.
From Stdlib Require Import List Bool Arith NArith ZArith QArith Qround Qabs Lia Lqa.
From Stdlib Require Import Sorting.Sorted Sorting.Permutation.
Import ListNotations.
Open Scope string_scope.
Open Scope Q_scope.

Set Implicit Arguments.

(** The concatenation of arrays; [++] is kept for strings. *)
Notation "xs +++ ys" := (List.app xs ys) (at level 60, right associativity).

(** ** Comparisons of numbers as the source writes them *)

Module Num.

Definition ltb (x y : Q) : bool := negb (Qle_bool y x).
Definition leb (x y : Q) : bool := Qle_bool x y.
Definition eqb (x y : Q) : bool := Qeq_bool x y.

(** [Math.max] and [Math.min] on two numbers. *)
Definition max (x y : Q) : Q := if ltb x y then y else x.
Definition min (x y : Q) : Q := if ltb y x then y else x.

(** [Math.floor] of a number that is used as an array index or a count. *)
Definition floor_nat (x : Q) : nat := Z.to_nat (Qfloor x).

(** The sum of an array, as [reduce((a, b) => a + b, 0)] computes it. *)
Definition sum (xs : list Q) : Q := fold_left Qplus xs 0.

(** A count or a length read as a number. *)
Definition ofNat (n : nat) : Q := inject_Z (Z.of_nat n).

End Num.

(** ** [Array.prototype.sort] with a comparator

    The sort of the language is stable; [sortBy le] is the stable insertion
    sort for the order [le], where [le a b] says that the comparator does not
    put [b] strictly before [a]. *)

Section Sort.
Variable A : Type.
Variable le : A -> A -> bool.

Fixpoint insertBy (x : A) (l : list A) : list A :=
  match l with
  | [] => [x]
  | y :: l' => if le x y then x :: l else y :: insertBy x l'
  end.

Definition sortBy (l : list A) : list A := fold_right insertBy [] l.
End Sort.

(** Numbers in ascending order: [xs.sort((a, b) => a - b)]. *)
Definition sortAsc (xs : list Q) : list Q := sortBy Num.leb xs.

(** ** Histogram and box helpers ([charts.ts]) *)

Definition chooseBins (n : nat) : nat :=
  if (n <=? 30)%nat then 8%nat
  else if (n <=? 200)%nat then 10%nat
  else if (n <=? 1000)%nat then 12%nat
  else 14%nat.

(** [sorted[i]]: the accesses of the source are all in range, the default is
    never read. *)
Definition at_ (sorted : list Q) (i : nat) : Q := nth i sorted 0.

(** [base] of [quantileSorted] for an array of [n] numbers. *)
Definition quantileBase (n : nat) (q : Q) : nat :=
  Num.floor_nat (Num.ofNat (n - 1) * q).

Definition quantileSorted (sorted : list Q) (q : Q) : option Q :=
  let n := length sorted in
  match n with
  | O => None
  | 1%nat => Some (at_ sorted 0)
  | _ =>
      let pos := Num.ofNat (n - 1) * q in
      let base := Num.floor_nat pos in
      let rest := pos - Num.ofNat base in
      let a := at_ sorted base in
      let b := at_ sorted (Nat.min (n - 1) (base + 1)) in
      Some (a + (b - a) * rest)
  end.

Record Box : Type := mkBox {
  bx_min : Q;
  bx_q1 : Q;
  bx_median : Q;
  bx_q3 : Q;
  bx_max : Q;
  bx_iqr : Q;
  bx_outliers : list Q;
  bx_total : nat
}.

Definition lowFence (q1 iqr : Q) : Q := q1 - (3 # 2) * iqr.
Definition highFence (q3 iqr : Q) : Q := q3 + (3 # 2) * iqr.

(** The test of the loop that collects the outliers:
    [v < lowFence || v > highFence]. *)
Definition isOutlier (lo hi v : Q) : bool := Num.ltb v lo || Num.ltb hi v.

Definition computeBox (values : list Q) : option Box :=
  let clean := sortAsc values in
  if (length clean <? 12)%nat then None
  else
    match quantileSorted clean (1 # 4), quantileSorted clean (1 # 2),
          quantileSorted clean (3 # 4) with
    | Some q1, Some median, Some q3 =>
        let iqr := q3 - q1 in
        let lo := lowFence q1 iqr in
        let hi := highFence q3 iqr in
        let outliers := filter (isOutlier lo hi) clean in
        let wMin :=
          match find (fun v => Num.leb lo v) clean with
          | Some v => v
          | None => at_ clean 0
          end in
        let wMax :=
          match find (fun v => Num.leb v hi) (rev clean) with
          | Some v => v
          | None => at_ clean (length clean - 1)
          end in
        Some (mkBox wMin q1 median q3 wMax iqr outliers (length clean))
    | _, _, _ => None
    end.

Record Histogram : Type := mkHistogram {
  hg_min : Q;
  hg_max : Q;
  hg_edges : list Q;
  hg_counts : list nat;
  hg_total : nat
}.

(** [counts[idx] += 1] for an index inside the array. *)
Fixpoint incrAt (i : nat) (counts : list nat) : list nat :=
  match counts, i with
  | [], _ => []
  | c :: cs, O => S c :: cs
  | c :: cs, S i' => c :: incrAt i' cs
  end.

(** [Math.min(bins - 1, Math.max(0, Math.floor(t * bins)))] with
    [t = (v - min) / span]. *)
Definition binIndex (bins : nat) (min span v : Q) : Z :=
  let t := (v - min) / span in
  Z.min (Z.of_nat bins - 1) (Z.max 0 (Qfloor (t * Num.ofNat bins))).

(** One turn of the counting loop.  A negative index (it takes [bins = 0])
    names no element of the array, which then keeps its elements. *)
Definition countValue (bins : nat) (min span : Q) (counts : list nat) (v : Q)
  : list nat :=
  let idx := binIndex bins min span v in
  if (idx <? 0)%Z then counts else incrAt (Z.to_nat idx) counts.

Definition computeHistogram (values : list Q) (bins : nat) : option Histogram :=
  let clean := sortAsc values in
  if (length clean =? 0)%nat then None
  else
    let min := at_ clean 0 in
    let max := at_ clean (length clean - 1) in
    let span := if Num.eqb (max - min) 0 then 1 else max - min in
    let edges :=
      map (fun i => min + (span * Num.ofNat i) / Num.ofNat bins) (seq 0 (bins + 1)) in
    let counts := fold_left (countValue bins min span) clean (repeat O bins) in
    Some (mkHistogram min max edges counts (length clean)).

(** ** Strings

    A string of the program is a Rocq [string]: a sequence of code units
    below 256 (Latin-1).  The functions below are the library functions and
    the regular-expression tests the sources use, on such strings. *)

Module Js.

Definition code (c : ascii) : N := N_of_ascii c.

(** [\s], and the characters [trim] removes. *)
Definition isSpace (c : ascii) : bool :=
  let n := code c in
  ((9 <=? n) && (n <=? 13) || (n =? 32) || (n =? 160))%N.

(** [\d] *)
Definition isDigit (c : ascii) : bool :=
  let n := code c in ((48 <=? n) && (n <=? 57))%N.

(** [[A-Za-z0-9\-_]] *)
Definition isTokenChar (c : ascii) : bool :=
  let n := code c in
  ((65 <=? n) && (n <=? 90) || (97 <=? n) && (n <=? 122) || isDigit c
   || (n =? 45) || (n =? 95))%N.

(** [[a-z0-9]] *)
Definition isLowerAlnum (c : ascii) : bool :=
  let n := code c in ((97 <=? n) && (n <=? 122))%N || isDigit c.

(** The line terminators, which [.] does not match. *)
Definition isLineTerminator (c : ascii) : bool :=
  let n := code c in ((n =? 10) || (n =? 13))%N.

Definition lowerChar (c : ascii) : ascii :=
  let n := code c in
  if ((65 <=? n) && (n <=? 90) || (192 <=? n) && (n <=? 214)
      || (216 <=? n) && (n <=? 222))%N
  then ascii_of_N (n + 32) else c.

Fixpoint toLowerCase (s : string) : string :=
  match s with
  | EmptyString => EmptyString
  | String c s' => String (lowerChar c) (toLowerCase s')
  end.

Fixpoint trimStart (s : string) : string :=
  match s with
  | String c s' => if isSpace c then trimStart s' else s
  | EmptyString => EmptyString
  end.

Fixpoint rev_append (s acc : string) : string :=
  match s with
  | EmptyString => acc
  | String c s' => rev_append s' (String c acc)
  end.

Definition rev (s : string) : string := rev_append s EmptyString.

Definition trimEnd (s : string) : string := rev (trimStart (rev s)).

Definition trim (s : string) : string := trimEnd (trimStart s).

Definition isEmpty (s : string) : bool :=
  match s with EmptyString => true | _ => false end.

Fixpoint startsWith (p s : string) : bool :=
  match p, s with
  | EmptyString, _ => true
  | String a p', String b s' => Ascii.eqb a b && startsWith p' s'
  | String _ _, EmptyString => false
  end.

Definition endsWith (p s : string) : bool := startsWith (rev p) (rev s).

Fixpoint includes (p s : string) : bool :=
  startsWith p s ||
  match s with
  | EmptyString => false
  | String _ s' => includes p s'
  end.

(** [s.replace(/[...]/g, "")]: every character of a class removed. *)
Fixpoint removeAll (cls : ascii -> bool) (s : string) : string :=
  match s with
  | EmptyString => EmptyString
  | String c s' => if cls c then removeAll cls s' else String c (removeAll cls s')
  end.

(** [s.replace(/\s+/g, " ")]: every run of white space becomes one space. *)
Fixpoint collapseSpaces (s : string) : string :=
  match s with
  | EmptyString => EmptyString
  | String c s' =>
      if isSpace c then
        match s' with
        | String d _ => if isSpace d then collapseSpaces s' else String " " (collapseSpaces s')
        | EmptyString => String " " EmptyString
        end
      else String c (collapseSpaces s')
  end.

(** [s.replace(/c/g, d)] for single characters. *)
Fixpoint replaceAllChar (c d : ascii) (s : string) : string :=
  match s with
  | EmptyString => EmptyString
  | String a s' =>
      String (if Ascii.eqb a c then d else a) (replaceAllChar c d s')
  end.

Fixpoint all (cls : ascii -> bool) (s : string) : bool :=
  match s with
  | EmptyString => true
  | String c s' => cls c && all cls s'
  end.

Fixpoint any (cls : ascii -> bool) (s : string) : bool :=
  match s with
  | EmptyString => false
  | String c s' => cls c || any cls s'
  end.

(** The longest prefix of characters of a class, and what follows it. *)
Fixpoint span (cls : ascii -> bool) (s : string) : string * string :=
  match s with
  | String c s' =>
      if cls c then let (a, b) := span cls s' in (String c a, b)
      else (EmptyString, s)
  | EmptyString => (EmptyString, EmptyString)
  end.

(** [s.slice(0, n)] *)
Fixpoint take (n : nat) (s : string) : string :=
  match n, s with
  | S n', String c s' => String c (take n' s')
  | _, _ => EmptyString
  end.

(** [s.slice(n)] *)
Fixpoint drop (n : nat) (s : string) : string :=
  match n, s with
  | S n', String _ s' => drop n' s'
  | _, _ => s
  end.

(** [xs.join(sep)] *)
Fixpoint join (sep : string) (xs : list string) : string :=
  match xs with
  | [] => EmptyString
  | [x] => x
  | x :: xs' => x ++ sep ++ join sep xs'
  end.

(** The value of a run of decimal digits. *)
Fixpoint digitsValue (acc : Z) (s : string) : Z :=
  match s with
  | EmptyString => acc
  | String c s' => digitsValue (10 * acc + Z.of_N (code c - 48)) s'
  end.

(** The double quote, which the templates of the sources put around names. *)
Definition quote : string := String (ascii_of_N 34) EmptyString.

End Js.

(** ** The functions of the host

    The builtins whose results the host fixes (locale, time zone, the engine's
    own date grammar) or that are not rational are parameters of the model:
    every definition below that calls one takes them from a [Host]. *)

Class Host : Type := {
  (** [String(v)] for a number *)
  numToString : Q -> string;
  (** [Date.parse(s)], [None] for [NaN]; a timestamp is in milliseconds *)
  dateParse : string -> option Z;
  (** [new Date(y, m, d).getTime()] *)
  localDate : Z -> Z -> Z -> Z;
  (** [d.getFullYear()], [d.getMonth()], [d.getDate()], [d.toISOString()] *)
  getFullYear : Z -> Z;
  getMonth : Z -> Z;
  getDate : Z -> Z;
  toISOString : Z -> string;
  (** [a.localeCompare(b)] *)
  localeCompare : string -> string -> Z;
  (** [Math.sqrt], [Math.log10] *)
  sqrt : Q -> Q;
  log10 : Q -> Q;
  (** [n.toLocaleString()], [n.toFixed(2)] *)
  toLocaleString : Q -> string;
  toFixed2 : Q -> string
}.

(** ** Cells and rows

    A cell holds [null] (or is absent: [undefined]), a finite number or a
    string, as the ingestion hands them over.  A row is an object: its keys
    in their order, each with its cell. *)

Inductive Cell : Type :=
| CNull
| CNum (n : Q)
| CStr (s : string).

Definition Row : Type := list (string * Cell).

(** [obj[key]] on an object given by its entries; [None] is [undefined]. *)
Fixpoint lookup {A : Type} (key : string) (obj : list (string * A)) : option A :=
  match obj with
  | [] => None
  | (k, v) :: obj' => if String.eqb k key then Some v else lookup key obj'
  end.

(** [row?.[col]] *)
Definition cell (row : Row) (col : string) : Cell :=
  match lookup col row with Some v => v | None => CNull end.

Definition isMissing (v : Cell) : bool :=
  match v with
  | CNull => true
  | CNum _ => false
  | CStr s => Js.isEmpty (Js.trim s)
  end.

(** [String(v)] for a cell that is not missing; the empty string for [null],
    where the sources convert [v ?? empty]. *)
Definition cellString `{Host} (v : Cell) : string :=
  match v with
  | CNull => ""
  | CNum n => numToString n
  | CStr s => s
  end.

(** *** Numbers written as text *)

(** [10 ** e] *)
Definition pow10 (e : Z) : Q :=
  if (e <? 0)%Z then 1 / inject_Z (10 ^ (- e)) else inject_Z (10 ^ e).

(** An optional sign: [true] for [-], and what follows it. *)
Definition optSign (s : string) : bool * string :=
  match s with
  | String "-" s' => (true, s')
  | String "+" s' => (false, s')
  | _ => (false, s)
  end.

(** The exponent part [(?:e[-+]?\d+)?$] of a numeric literal: its value when
    the text is such a part (the empty text is). *)
Definition exponentPart (s : string) : option Z :=
  match s with
  | EmptyString => Some 0%Z
  | String c s' =>
      if Ascii.eqb (Js.lowerChar c) "e" then
        let (neg, s1) := optSign s' in
        let (ds, rest) := Js.span Js.isDigit s1 in
        if Js.isEmpty ds || negb (Js.isEmpty rest) then None
        else Some (if neg then - Js.digitsValue 0 ds else Js.digitsValue 0 ds)%Z
      else None
  end.

(** [Number(s)] for a text that passes
    [/^[-+]?\d+(\.\d+)?(?:e[-+]?\d+)?$/i], and [None] for one that does not.
    The value is the exact decimal. *)
Definition strictNumber (s : string) : option Q :=
  let (neg, s1) := optSign s in
  let (int, s2) := Js.span Js.isDigit s1 in
  if Js.isEmpty int then None
  else
    let (frac, s3) :=
      match s2 with
      | String "." t =>
          let (ds, rest) := Js.span Js.isDigit t in
          if Js.isEmpty ds then (EmptyString, s2) else (ds, rest)
      | _ => (EmptyString, s2)
      end in
    match exponentPart s3 with
    | None => None
    | Some e =>
        let mant := Js.digitsValue 0 (int ++ frac) in
        let v := inject_Z mant * pow10 (e - Z.of_nat (String.length frac)) in
        Some (if neg then - v else v)
    end.

(** The currency signs of the character class that the code units of the
    model can hold: the dollar, the pound and the yen. *)
Definition isCurrency (c : ascii) : bool :=
  let n := Js.code c in ((n =? 36) || (n =? 163) || (n =? 165))%N.

(** [s.replace(/%$/, "")] *)
Definition dropPercent (s : string) : string :=
  match Js.rev s with
  | String "%" r => Js.rev r
  | _ => s
  end.

(** [s.match(/,(\d{1,3})$/)]: the text ends with a comma and one to three
    digits. *)
Definition endsCommaDigits (s : string) : bool :=
  let (ds, rest) := Js.span Js.isDigit (Js.rev s) in
  let k := String.length ds in
  (1 <=? k)%nat && (k <=? 3)%nat && Js.startsWith "," rest.

(** The separators of a numeric text made plain (both [safeToNumberLoose] and
    [looksNumeric] do this). *)
Definition normalizeSeparators (s : string) : string :=
  let hasComma := Js.includes "," s in
  let hasDot := Js.includes "." s in
  if hasComma && hasDot then Js.removeAll (Ascii.eqb ",") s
  else if hasComma && negb hasDot then
    if endsCommaDigits s then Js.replaceAllChar "," "." s
    else Js.removeAll (Ascii.eqb ",") s
  else s.

(** [s.slice(1, -1)] *)
Definition dropEnds (s : string) : string :=
  match s with
  | String _ s' =>
      match Js.rev s' with
      | String _ r => Js.rev r
      | EmptyString => EmptyString
      end
  | EmptyString => EmptyString
  end.

Definition safeToNumberLoose (v : Cell) : option Q :=
  if isMissing v then None
  else
    match v with
    | CNull => None
    | CNum n => Some n
    | CStr s0 =>
        let s := Js.trim s0 in
        if Js.isEmpty s then None
        else
          let negative := Js.startsWith "(" s && Js.endsWith ")" s in
          let s := if negative then Js.trim (dropEnds s) else s in
          let s := dropPercent (Js.removeAll Js.isSpace (Js.removeAll isCurrency s)) in
          if Js.isEmpty s then None
          else
            match strictNumber (normalizeSeparators s) with
            | None => None
            | Some n => Some (if negative then - n else n)
            end
    end.

(** ** The dataset profile ([context/DatasetContext.tsx]) *)

Record TopValue : Type := mkTop {
  tv_value : string;
  tv_count : nat;
  tv_pct : Q
}.

Record BaseEDA : Type := mkBase {
  be_missing : nat;
  be_uniqueCount : nat;
  (** [nonMissingCount?: number] *)
  be_nonMissingCount : option nat;
  (** [inferredAs?: "id"]: [true] when the field is there *)
  be_inferredAsId : bool
}.

Inductive ColumnEDA : Type :=
| NumericEDA (base : BaseEDA) (min max mean median stdev : option Q)
             (zeros negatives : nat)
| CategoricalEDA (base : BaseEDA) (topValues : list TopValue)
| DateEDA (base : BaseEDA) (min max : option string).

Record EDAResult : Type := mkEDA {
  duplicates : nat;
  emptyColumns : list string;
  constantColumns : list string;
  (** [Object.entries(columns)], in the order of the object's keys (no
      column is named like an array index, which would move it ahead) *)
  columns : list (string * ColumnEDA)
}.

Definition baseOf (info : ColumnEDA) : BaseEDA :=
  match info with
  | NumericEDA b _ _ _ _ _ _ _ => b
  | CategoricalEDA b _ => b
  | DateEDA b _ _ => b
  end.

Definition isNumericType (info : ColumnEDA) : bool :=
  match info with NumericEDA _ _ _ _ _ _ _ _ => true | _ => false end.

Definition isCategoricalType (info : ColumnEDA) : bool :=
  match info with CategoricalEDA _ _ => true | _ => false end.

Definition isDateType (info : ColumnEDA) : bool :=
  match info with DateEDA _ _ _ => true | _ => false end.

(** [info?.topValues]: absent on a profile that is not categorical. *)
Definition topValuesOf (info : ColumnEDA) : list TopValue :=
  match info with CategoricalEDA _ tv => tv | _ => [] end.

(** [info?.stdev], [info?.min], ... of a numeric profile. *)
Definition stdevOf (info : ColumnEDA) : option Q :=
  match info with NumericEDA _ _ _ _ _ sd _ _ => sd | _ => None end.
Definition minOf (info : ColumnEDA) : option Q :=
  match info with NumericEDA _ mn _ _ _ _ _ _ => mn | _ => None end.
Definition maxOf (info : ColumnEDA) : option Q :=
  match info with NumericEDA _ _ mx _ _ _ _ _ => mx | _ => None end.
Definition meanOf (info : ColumnEDA) : option Q :=
  match info with NumericEDA _ _ _ mean _ _ _ _ => mean | _ => None end.
Definition medianOf (info : ColumnEDA) : option Q :=
  match info with NumericEDA _ _ _ _ md _ _ _ => md | _ => None end.

(** [info?.min], [info?.max] of a date profile. *)
Definition dateMinOf (info : ColumnEDA) : option string :=
  match info with DateEDA _ mn _ => mn | _ => None end.
Definition dateMaxOf (info : ColumnEDA) : option string :=
  match info with DateEDA _ _ mx => mx | _ => None end.

(** [a / Math.max(1, b)] on two counts. *)
Definition ratioOf (a b : nat) : Q := Num.ofNat a / Num.ofNat (Nat.max 1 b).

(** ** Identifier-like columns ([charts.ts]) *)

(** [/(^id$|_id$| id$|uuid|guid|hash|token|key$|^key|identifier)/] on the
    name in lower case. *)
Definition nameHintsId (col : string) : bool :=
  let n := Js.toLowerCase col in
  String.eqb n "id" || Js.endsWith "_id" n || Js.endsWith " id" n
  || Js.includes "uuid" n || Js.includes "guid" n || Js.includes "hash" n
  || Js.includes "token" n || Js.endsWith "key" n || Js.startsWith "key" n
  || Js.includes "identifier" n.

Definition isIdLikeNumeric (col : string) (info : option ColumnEDA) (rowCount : nat)
  : bool :=
  if nameHintsId col then true
  else if match info with Some i => be_inferredAsId (baseOf i) | None => false end
  then true
  else
    let nn :=
      match info with
      | Some i => match be_nonMissingCount (baseOf i) with Some k => k | None => rowCount end
      | None => rowCount
      end in
    let unique := match info with Some i => be_uniqueCount (baseOf i) | None => O end in
    let ratio := ratioOf unique nn in
    (20 <=? unique)%nat && Num.ltb (98 # 100) ratio.

Definition isIdLikeCategorical (col : string) (info : option ColumnEDA) : bool :=
  if nameHintsId col then true
  else
    match info with
    | None => false
    | Some i =>
        if be_inferredAsId (baseOf i) then true
        else
          let nonMissing :=
            match be_nonMissingCount (baseOf i) with Some k => k | None => O end in
          let unique := be_uniqueCount (baseOf i) in
          if (nonMissing =? 0)%nat then false
          else Num.ltb (9 # 10) (ratioOf unique nonMissing)
    end.

Definition isNameListColumn (info : ColumnEDA) : bool :=
  let nonMissing :=
    match be_nonMissingCount (baseOf info) with Some k => k | None => O end in
  let unique := be_uniqueCount (baseOf info) in
  let dominance :=
    match topValuesOf info with t :: _ => tv_pct t | [] => 0 end in
  if (nonMissing =? 0)%nat then false
  else (50 <=? unique)%nat && Num.ltb (1 # 2) (ratioOf unique nonMissing)
       && Num.ltb dominance 40.

(** ** Dates ([charts.ts], [eda.ts]) *)

(** [[\/\-]] *)
Definition isDateSep (c : ascii) : bool :=
  let n := Js.code c in ((n =? 47) || (n =? 45))%N.

(** The groups of [/^(\d{1,2})[\/\-](\d{1,2})[\/\-](\d{2,4})$/]. *)
Definition matchDayMonthYear (s : string) : option (Z * Z * Z) :=
  let (d1, r1) := Js.span Js.isDigit s in
  match r1 with
  | String c1 r1' =>
      let (d2, r2) := Js.span Js.isDigit r1' in
      match r2 with
      | String c2 r2' =>
          let (d3, r3) := Js.span Js.isDigit r2' in
          let l1 := String.length d1 in
          let l2 := String.length d2 in
          let l3 := String.length d3 in
          if isDateSep c1 && isDateSep c2 && Js.isEmpty r3
             && (1 <=? l1)%nat && (l1 <=? 2)%nat
             && (1 <=? l2)%nat && (l2 <=? 2)%nat
             && (2 <=? l3)%nat && (l3 <=? 4)%nat
          then Some (Js.digitsValue 0 d1, Js.digitsValue 0 d2, Js.digitsValue 0 d3)
          else None
      | EmptyString => None
      end
  | EmptyString => None
  end.

Section Dates.
Context {H : Host}.

(** The timestamp of the [Date] that [safeToDateLoose] returns. *)
Definition safeToDateLoose (v : Cell) : option Z :=
  if isMissing v then None
  else
    let s := Js.trim (cellString v) in
    if Js.isEmpty s then None
    else
      match dateParse s with
      | Some t => Some t
      | None =>
          match matchDayMonthYear s with
          | Some (dd, m, y) =>
              let mm := (m - 1)%Z in
              let yy := if (y <? 100)%Z then (y + 2000)%Z else y in
              Some (localDate yy mm dd)
          | None => None
          end
      end.

(** [String(n).padStart(2, "0")] *)
Definition pad2 (n : Z) : string :=
  let s := numToString (inject_Z n) in
  if (String.length s <? 2)%nat then "0" ++ s else s.

Definition formatDayKey (d : Z) : string :=
  numToString (inject_Z (getFullYear d)) ++ "-" ++ pad2 (getMonth d + 1)
  ++ "-" ++ pad2 (getDate d).

Definition formatMonthKey (d : Z) : string :=
  numToString (inject_Z (getFullYear d)) ++ "-" ++ pad2 (getMonth d + 1).

End Dates.

(** ** Sampling and the fallback detection ([charts.ts]) *)

(** The elements at the indices [0], [step], [2 * step], ... *)
Fixpoint strideFrom {A : Type} (step k : nat) (l : list A) : list A :=
  match l with
  | [] => []
  | x :: l' =>
      match k with
      | O => x :: strideFrom step (step - 1) l'
      | S k' => strideFrom step k' l'
      end
  end.

Definition sampleRows (data : list Row) (n : nat) : list Row :=
  if (length data <=? n)%nat then data
  else
    let step := Nat.max 1 (length data / n) in
    firstn n (strideFrom step 0 data).

(** The size of [new Set(keys)]. *)
Fixpoint distinct (keys : list string) : list string :=
  match keys with
  | [] => []
  | k :: keys' =>
      let d := distinct keys' in
      if existsb (String.eqb k) d then d else k :: d
  end.

Definition distinctCount (keys : list string) : nat := length (distinct keys).

(** [new Set(xs)] and [set.add(x)], in insertion order. *)
Definition setAdd (x : string) (set : list string) : list string :=
  if existsb (String.eqb x) set then set else (set +++ [x]).

Definition setOf (xs : list string) : list string :=
  fold_left (fun set x => setAdd x set) xs [].

Definition setHas (x : string) (set : list string) : bool :=
  existsb (String.eqb x) set.

(** [results.sort((a, b) => b.score - a.score)] *)
Definition sortByScoreDesc {A : Type} (score : A -> Q) (xs : list A) : list A :=
  sortBy (fun a b => Num.leb (score b) (score a)) xs.

Section Detection.
Context {H : Host}.

(** The common body of [detectDateLikeColumns] and
    [detectNumericLikeColumns]: [parses] is the test on a cell, [minRatio] the
    share of parsed cells that is asked for, [bonus] the weight of the
    uniqueness in the score. *)
Definition detectColumns (parses : Cell -> bool) (minRatio bonus : Q)
    (data : list Row) (columns already : list string) : list string :=
  let s := sampleRows data 250 in
  let results :=
    flat_map (fun col =>
      if setHas col already then []
      else
        let present := filter (fun v => negb (isMissing v)) (map (fun row => cell row col) s) in
        let seen := length present in
        let ok := length (filter parses present) in
        let uniq := distinctCount (map cellString present) in
        if (seen <? 15)%nat then []
        else
          let ratio := ratioOf ok seen in
          let uniqRatio := ratioOf uniq seen in
          let score := ratio * 100 + Num.min bonus (uniqRatio * bonus) in
          if Num.leb minRatio ratio then [(col, score)] else [])
      columns in
  map fst (sortByScoreDesc snd results).

Definition detectDateLikeColumns (data : list Row) (columns alreadyDateCols : list string)
  : list string :=
  detectColumns (fun v => match safeToDateLoose v with Some _ => true | None => false end)
    (7 # 10) 20 data columns alreadyDateCols.

Definition detectNumericLikeColumns (data : list Row) (columns alreadyNumeric : list string)
  : list string :=
  detectColumns (fun v => match safeToNumberLoose v with Some _ => true | None => false end)
    (85 # 100) 10 data columns alreadyNumeric.

End Detection.

(** ** Time series ([charts.ts]) *)

Inductive Granularity : Type := Day | Month.

(** [Math.round] *)
Definition round (x : Q) : Z := Qfloor (x + (1 # 2)).

(** [agg.set(k, (agg.get(k) ?? 0) + y)] on a [Map], which keeps its keys in
    the order of their first insertion. *)
Fixpoint mapAdd (k : string) (y : Q) (agg : list (string * Q)) : list (string * Q) :=
  match agg with
  | [] => [(k, 0 + y)]
  | (k', v) :: agg' =>
      if String.eqb k' k then (k', v + y) :: agg' else (k', v) :: mapAdd k y agg'
  end.

(** [freq.set(key, (freq.get(key) ?? 0) + 1)] *)
Fixpoint mapCount (k : string) (freq : list (string * nat)) : list (string * nat) :=
  match freq with
  | [] => [(k, 1%nat)]
  | (k', c) :: freq' =>
      if String.eqb k' k then (k', S c) :: freq' else (k', c) :: mapCount k freq'
  end.

Section TimeSeries.
Context {H : Host}.

Definition buildTimeSeries (data : list Row) (dateCol numCol : string)
  : option (list (string * Q) * Granularity) :=
  let pairs :=
    flat_map (fun row =>
      match safeToDateLoose (cell row dateCol), safeToNumberLoose (cell row numCol) with
      | Some d, Some y => [(d, y)]
      | _, _ => []
      end) data in
  if (length pairs <? 20)%nat then None
  else
    let pairs := sortBy (fun a b => (fst a <=? fst b)%Z) pairs in
    let first := fst (nth 0 pairs (0%Z, 0)) in
    let last := fst (nth (length pairs - 1) pairs (0%Z, 0)) in
    let days := Z.max 1 (round (inject_Z (last - first) / inject_Z (1000 * 60 * 60 * 24))) in
    let granularity := if (days <=? 90)%Z then Day else Month in
    let keyFn := match granularity with Day => formatDayKey | Month => formatMonthKey end in
    let agg := fold_left (fun agg p => mapAdd (keyFn (fst p)) (snd p) agg) pairs [] in
    let points := sortBy (fun a b => (localeCompare (fst a) (fst b) <=? 0)%Z) agg in
    if (length points <? 8)%nat then None
    else Some (points, granularity).

End TimeSeries.

(** ** Relationships: scatter and correlation ([charts.ts]) *)

Definition mean (xs : list Q) : Q := Num.sum xs / Num.ofNat (Nat.max 1 (length xs)).

(** The three sums of the loop of [pearson]: [num], [dx] and [dy]. *)
Definition pearsonSums (mx my : Q) (x y : list Q) : Q * Q * Q :=
  fold_left (fun acc xy =>
      let '(num, dx, dy) := acc in
      let a := fst xy - mx in
      let b := snd xy - my in
      (num + a * b, dx + a * a, dy + b * b))
    (combine x y) (0, 0, 0).

Section Relationships.
Context {H : Host}.

Definition stdev (xs : list Q) : Q :=
  if (length xs <? 2)%nat then 0
  else
    let m := mean xs in
    let s := fold_left (fun s x => s + (x - m) * (x - m)) xs 0 in
    sqrt (s / Num.ofNat (length xs - 1)).

Definition pearson (x y : list Q) : option Q :=
  if negb (length x =? length y)%nat || (length x <? 8)%nat then None
  else
    let mx := mean x in
    let my := mean y in
    let '(num, dx, dy) := pearsonSums mx my x y in
    let den := sqrt (dx * dy) in
    if Num.eqb den 0 then None
    else Some (num / den).

Record Scatter : Type := mkScatter {
  sc_points : list (Q * Q);
  sc_correlation : option Q;
  sc_n : nat;
  sc_sx : Q;
  sc_sy : Q
}.

Definition buildScatter (data : list Row) (xCol yCol : string) : option Scatter :=
  let pts :=
    flat_map (fun row =>
      match safeToNumberLoose (cell row xCol), safeToNumberLoose (cell row yCol) with
      | Some x, Some y => [(x, y)]
      | _, _ => []
      end) data in
  let xs := map fst pts in
  let ys := map snd pts in
  if (length xs <? 30)%nat then None
  else
    let maxPts := 1200%nat in
    let points :=
      if (maxPts <? length xs)%nat
      then map (fun i => nth (i * length xs / maxPts) pts (0, 0)) (seq 0 maxPts)
      else pts in
    Some (mkScatter points (pearson xs ys) (length xs) (stdev xs) (stdev ys)).

(** The rows in which every column of [cols] holds a number, each as the
    numbers of its columns. *)
Fixpoint completeRow (row : Row) (cols : list string) : option (list Q) :=
  match cols with
  | [] => Some []
  | c :: cols' =>
      match safeToNumberLoose (cell row c) with
      | None => None
      | Some n =>
          match completeRow row cols' with
          | None => None
          | Some vals => Some (n :: vals)
          end
      end
  end.

Definition completeRows (data : list Row) (cols : list string) : list (list Q) :=
  flat_map (fun row =>
    match completeRow row cols with
    | Some (v :: vals) => [v :: vals]
    | _ => []
    end) data.

(** [series[cols[i]]]: the numbers of the [i]-th column over the complete
    rows ([cols] holds distinct names: it was read out of a [Set]). *)
Definition seriesOf (rows : list (list Q)) (i : nat) : list Q :=
  map (fun vals => nth i vals 0) rows.

Definition buildCorrMatrix (data : list Row) (cols : list string)
  : option (list (list Q) * nat) :=
  let rows := completeRows data cols in
  let n := match cols with [] => O | _ => length rows end in
  if (n <? 40)%nat then None
  else
    let idx := seq 0 (length cols) in
    let matrix :=
      map (fun i =>
        map (fun j =>
          match pearson (seriesOf rows i) (seriesOf rows j) with
          | None => 0
          | Some r => r
          end) idx) idx in
    Some (matrix, n).

End Relationships.

(** ** Chart specifications and the diversity rule ([charts.ts]) *)

Inductive ChartSpec : Type :=
| HistogramChart (column : string) (bins : nat) (edges : list Q) (counts : list nat)
                 (min max : Q) (total : nat)
| BoxChart (column : string) (min q1 median q3 max iqr : Q) (outliers : list Q)
           (total : nat)
| BarChart (column : string) (labels : list string) (counts : list nat) (maxBars : nat)
| TimeChart (column xColumn yColumn : string) (points : list (string * Q))
            (granularity : Granularity)
| ScatterChart (column xColumn yColumn : string) (points : list (Q * Q))
               (correlation : option Q)
| CorrChart (column : string) (columns : list string) (matrix : list (list Q)).

Inductive Purpose : Type := Distribution | Composition | Trend | Relationship.

Inductive ChartType : Type := THistogram | TBox | TBar | TTime | TScatter | TCorr.

(** [spec.type] *)
Definition chartType (spec : ChartSpec) : ChartType :=
  match spec with
  | HistogramChart _ _ _ _ _ _ _ => THistogram
  | BoxChart _ _ _ _ _ _ _ _ _ => TBox
  | BarChart _ _ _ _ => TBar
  | TimeChart _ _ _ _ _ => TTime
  | ScatterChart _ _ _ _ _ => TScatter
  | CorrChart _ _ _ => TCorr
  end.

Record Candidate : Type := mkCandidate {
  spec : ChartSpec;
  score : Q;
  purpose : Purpose
}.

Definition purposeEqb (p q : Purpose) : bool :=
  match p, q with
  | Distribution, Distribution | Composition, Composition
  | Trend, Trend | Relationship, Relationship => true
  | _, _ => false
  end.

Definition chartTypeEqb (s t : ChartType) : bool :=
  match s, t with
  | THistogram, THistogram | TBox, TBox | TBar, TBar
  | TTime, TTime | TScatter, TScatter | TCorr, TCorr => true
  | _, _ => false
  end.

(** [pMax[p] ?? 2] and [tMax[t] ?? 2] *)
Definition pMax (p : Purpose) : nat := 2.

Definition tMax (t : ChartType) : nat :=
  match t with
  | THistogram => 2 | TBar => 2 | TBox => 1 | TTime => 2 | TScatter => 1 | TCorr => 1
  end.

(** A candidate of the sorted array together with its position there: the
    position stands for the identity of the [spec] object, which is what
    [picks.includes(c.spec)] compares. *)
Abbreviation Indexed := (nat * Candidate)%type.

Definition indexed (cands : list Candidate) : list Indexed :=
  combine (seq 0 (length cands)) cands.

(** [purposeCount.get(p) ?? 0] and [typeCount.get(t) ?? 0], counted over the
    picks made so far. *)
Definition purposeCount (picks : list Indexed) (p : Purpose) : nat :=
  length (filter (fun c => purposeEqb (purpose (snd c)) p) picks).

Definition typeCount (picks : list Indexed) (t : ChartType) : nat :=
  length (filter (fun c => chartTypeEqb (chartType (spec (snd c))) t) picks).

Definition canTake (picks : list Indexed) (c : Candidate) : bool :=
  let p := purpose c in
  let t := chartType (spec c) in
  if (pMax p <=? purposeCount picks p)%nat then false
  else if (tMax t <=? typeCount picks t)%nat then false
  else true.

(** The first loop: candidates in the order of the sorted array, accepted
    under the caps until [max] are picked. *)
Definition takeDiverse (max : nat) (picks : list Indexed) (c : Indexed) : list Indexed :=
  if (max <=? length picks)%nat then picks
  else if negb (canTake picks (snd c)) then picks
  else (picks +++ [c]).

(** The second loop: the picks filled up to [min] with the candidates not
    picked yet, in the order of the sorted array. *)
Definition backfill (min : nat) (picks : list Indexed) (c : Indexed) : list Indexed :=
  if (min <=? length picks)%nat then picks
  else if existsb (fun p => (fst p =? fst c)%nat) picks then picks
  else (picks +++ [c]).

Definition pickDiverse (cands : list Candidate) (min max : nat) : list ChartSpec :=
  let sorted := indexed (sortByScoreDesc score cands) in
  let picks := fold_left (takeDiverse max) sorted [] in
  let picks :=
    if (length picks <? min)%nat then fold_left (backfill min) sorted picks
    else picks in
  firstn max (map (fun c => spec (snd c)) picks).

(** ** The chart generator ([charts.ts]) *)

(** The numbers of a column: the cells of the rows that
    [safeToNumberLoose] reads, in the order of the rows. *)
Definition columnNumbers (data : list Row) (col : string) : list Q :=
  flat_map (fun row =>
    match safeToNumberLoose (cell row col) with
    | Some n => [n]
    | None => []
    end) data.

(** [Math.min(...ys)] and [Math.max(...ys)] of an array that is not empty. *)
Definition minOfList (ys : list Q) : Q :=
  match ys with [] => 0 | y :: ys' => fold_left Num.min ys' y end.
Definition maxOfList (ys : list Q) : Q :=
  match ys with [] => 0 | y :: ys' => fold_left Num.max ys' y end.

(** A bar: its label and its count. *)
Abbreviation TopBarItem := (string * nat)%type.

(** The bars kept, and [Other] for what is left of [nonMissing]. *)
Definition withOther (bars : list TopBarItem) (nonMissing : nat) : list TopBarItem :=
  let shownSum := list_sum (map snd bars) in
  let other := (nonMissing - shownSum)%nat in
  if (0 <? other)%nat then (bars +++ [("Other", other)]) else bars.

Definition capTopValuesWithOther (info : ColumnEDA) (maxBars : nat) : list TopBarItem :=
  let nonMissing :=
    match be_nonMissingCount (baseOf info) with Some k => k | None => O end in
  let trimmed := map (fun t => (tv_value t, tv_count t)) (firstn maxBars (topValuesOf info)) in
  withOther trimmed nonMissing.

(** [numericCols[i]] with [numericCols[j]] for [i < j]. *)
Fixpoint pairsOf (cols : list string) : list (string * string) :=
  match cols with
  | [] => []
  | c :: cols' => (map (fun d => (c, d)) cols' +++ pairsOf cols')
  end.

Section Charts.
Context {H : Host}.

Definition histogramCandidate (col : string) (values : list Q) : list Candidate :=
  let bins := chooseBins (length values) in
  match computeHistogram values bins with
  | None => []
  | Some computed =>
      let spreadScore := log10 (hg_max computed - hg_min computed + 1) * 10 in
      let densityScore := log10 (Num.ofNat (hg_total computed) + 1) * 10 in
      [mkCandidate
         (HistogramChart col bins (hg_edges computed) (hg_counts computed)
            (hg_min computed) (hg_max computed) (hg_total computed))
         (densityScore + spreadScore) Distribution]
  end.

Definition boxCandidate (col : string) (values : list Q) : list Candidate :=
  match computeBox values with
  | None => []
  | Some box =>
      let outlierRate := ratioOf (length (bx_outliers box)) (bx_total box) in
      let iqr := Qabs (bx_iqr box) in
      let score :=
        log10 (Num.ofNat (bx_total box) + 1) * 10 + log10 (iqr + 1) * 12
        + Num.min 25 (outlierRate * 120) in
      [mkCandidate
         (BoxChart col (bx_min box) (bx_q1 box) (bx_median box) (bx_q3 box)
            (bx_max box) (bx_iqr box) (firstn 200 (bx_outliers box)) (bx_total box))
         score Distribution]
  end.

(** The turn of the loop [NUMERIC -> HISTOGRAM + BOX] for one column. *)
Definition numericCandidates (data : list Row) (eda : EDAResult) (col : string)
  : list Candidate :=
  let info := lookup col (columns eda) in
  if isIdLikeNumeric col info (length data) then []
  else
    let values := columnNumbers data col in
    if (length values <? 12)%nat then []
    else (histogramCandidate col values +++ boxCandidate col values).

Definition barCandidate (col : string) (bars : list TopBarItem) (maxBars : nat)
  : Candidate :=
  let sum := list_sum (map snd bars) in
  let total := if (sum =? 0)%nat then 1%nat else sum in
  let top := match bars with b :: _ => snd b | [] => O end in
  let dominance := Num.ofNat top / Num.ofNat total in
  let score := log10 (Num.ofNat total + 1) * 10 + dominance * 60 in
  mkCandidate (BarChart col (map fst bars) (map snd bars) maxBars) score Composition.

(** The turn of the loop [CATEGORICAL -> BAR] for one column. *)
Definition barCandidates (data : list Row) (eda : EDAResult)
    (numericSet dateSet : list string) (col : string) : list Candidate :=
  let info := lookup col (columns eda) in
  if setHas col numericSet || setHas col dateSet then []
  else if isIdLikeCategorical col info then []
  else if match info with Some i => isNameListColumn i | None => false end then []
  else
    let maxBars := 10%nat in
    let topValues := match info with Some i => topValuesOf i | None => [] end in
    match info, topValues with
    | Some i, _ :: _ =>
        let capped := capTopValuesWithOther i maxBars in
        match capped with
        | [] => []
        | _ => [barCandidate col capped maxBars]
        end
    | _, _ =>
        let present := filter (fun v => negb (isMissing v)) (map (fun row => cell row col) data) in
        let nonMissing := length present in
        let freq := fold_left (fun freq v => mapCount (cellString v) freq) present [] in
        match freq with
        | [] => []
        | _ =>
            let sorted := sortBy (fun a b => (snd b <=? snd a)%nat) freq in
            let top := withOther (firstn maxBars sorted) nonMissing in
            [barCandidate col top maxBars]
        end
    end.

(** The loop [DATE + NUMERIC -> TIME]. *)
Definition timeCandidates (data : list Row) (dateCols numericCols : list string)
  : list Candidate :=
  flat_map (fun dcol =>
    if nameHintsId dcol then []
    else
      flat_map (fun ncol =>
        match buildTimeSeries data dcol ncol with
        | None => []
        | Some (points, granularity) =>
            let ys := map snd points in
            let range := Qabs (maxOfList ys - minOfList ys) in
            let score := Num.ofNat (length points) * 2 + log10 (range + 1) * 12 in
            [mkCandidate
               (TimeChart (ncol ++ " over " ++ dcol) dcol ncol points granularity)
               score Trend]
        end) numericCols) dateCols.

(** The loop [NUMERIC + NUMERIC -> SCATTER], before the best one is kept. *)
Definition scatterCandidates (data : list Row) (numericCols : list string)
  : list Candidate :=
  flat_map (fun xy =>
    let xCol := fst xy in
    let yCol := snd xy in
    match buildScatter data xCol yCol with
    | None => []
    | Some built =>
        let rAbs := Qabs (match sc_correlation built with Some r => r | None => 0 end) in
        let varScore := log10 (sc_sx built + sc_sy built + 1) * 10 in
        let score := Num.ofNat (sc_n built) * (2 # 100) + rAbs * 80 + varScore in
        [mkCandidate
           (ScatterChart (yCol ++ " vs " ++ xCol) xCol yCol (sc_points built)
              (sc_correlation built))
           score Relationship]
    end) (pairsOf numericCols).

(** The columns of the correlation matrix: the ten best of the ranking. *)
Definition rankedColumns (eda : EDAResult) (numericCols : list string) : list string :=
  let scored :=
    map (fun c =>
      let info := lookup c (columns eda) in
      let sd := match info with
                | Some i => match stdevOf i with Some s => s | None => 0 end
                | None => 0
                end in
      let uniq := match info with Some i => be_uniqueCount (baseOf i) | None => O end in
      (c, log10 (sd + 1) * 10 + log10 (Num.ofNat uniq + 1) * 2)) numericCols in
  firstn 10 (map fst (sortByScoreDesc snd scored)).

(** [maxOff]: the largest absolute value off the diagonal. *)
Definition maxOffDiagonal (matrix : list (list Q)) (n : nat) : Q :=
  fold_left (fun maxOff i =>
    fold_left (fun maxOff j =>
      if (i =? j)%nat then maxOff
      else Num.max maxOff (Qabs (nth j (nth i matrix []) 0)))
      (seq 0 n) maxOff)
    (seq 0 n) 0.

Definition corrCandidates (data : list Row) (eda : EDAResult) (numericCols : list string)
  : list Candidate :=
  if (length numericCols <? 4)%nat then []
  else
    let ranked := rankedColumns eda numericCols in
    if (length ranked <? 4)%nat then []
    else
      match buildCorrMatrix data ranked with
      | None => []
      | Some (matrix, n) =>
          let maxOff := maxOffDiagonal matrix (length ranked) in
          let score :=
            Num.ofNat (length ranked) * 10 + Num.ofNat n * (3 # 100) + maxOff * 120 in
          [mkCandidate (CorrChart "Correlation (numeric)" ranked matrix) score Relationship]
      end.

(** The names of the columns of a profile that pass a test. *)
Definition columnsWhere (p : string -> ColumnEDA -> bool) (eda : EDAResult) : list string :=
  map fst (filter (fun e => p (fst e) (snd e)) (columns eda)).

(** [numericCols]: the numeric columns of the profile that are not
    identifier-like, then the columns that read as numbers. *)
Definition numericColumns (data : list Row) (eda : EDAResult) : list string :=
  let allCols := map fst (columns eda) in
  let numericColsFromEDA :=
    columnsWhere (fun c info =>
      isNumericType info && negb (isIdLikeNumeric c (Some info) (length data))) eda in
  let numericSet := setOf numericColsFromEDA in
  fold_left (fun set c => setAdd c set)
    (detectNumericLikeColumns data allCols numericSet) numericSet.

(** [dateCols]: the date columns of the profile, then the columns that read
    as dates. *)
Definition dateColumns (data : list Row) (eda : EDAResult) : list string :=
  let allCols := map fst (columns eda) in
  let dateSet := setOf (columnsWhere (fun _ info => isDateType info) eda) in
  fold_left (fun set c => setAdd c set)
    (detectDateLikeColumns data allCols dateSet) dateSet.

(** [catCols]: the categorical columns of the profile, then every column
    that is neither numeric nor a date. *)
Definition categoricalColumns (data : list Row) (eda : EDAResult) : list string :=
  let allCols := map fst (columns eda) in
  let numericSet := numericColumns data eda in
  let dateSet := dateColumns data eda in
  let catColsFromEDA := columnsWhere (fun _ info => isCategoricalType info) eda in
  let catFallback :=
    filter (fun c => negb (setHas c numericSet) && negb (setHas c dateSet)) allCols in
  setOf (catColsFromEDA +++ catFallback).

(** The candidates, in the order in which [generateCharts] pushes them. *)
Definition chartCandidates (data : list Row) (eda : EDAResult) : list Candidate :=
  let numericCols := numericColumns data eda in
  let dateCols := dateColumns data eda in
  let catCols := categoricalColumns data eda in
  (flat_map (numericCandidates data eda) numericCols
   +++ flat_map (barCandidates data eda numericCols dateCols) catCols
   +++ timeCandidates data dateCols numericCols
   +++ firstn 1 (sortByScoreDesc score (scatterCandidates data numericCols))
   +++ corrCandidates data eda numericCols).

Definition generateCharts (data : list Row) (eda : option EDAResult) : list ChartSpec :=
  match data, eda with
  | [], _ => []
  | _, None => []
  | _, Some eda => pickDiverse (chartCandidates data eda) 4 8
  end.

End Charts.

(** ** A host for the examples

    The examples below run the model on a host of their own: the time zone is
    UTC, [Date.parse] reads the date forms of the language standard ([YYYY],
    [YYYY-MM], [YYYY-MM-DD], and a day followed by [THH:mm], [THH:mm:ss] or
    [THH:mm:ss.sss] and an optional [Z] or [+HH:mm] / [-HH:mm], which is what
    [toISOString] prints) and nothing else, strings compare by their code
    units, numbers print in the en-US style, [Math.sqrt] is exact on the
    square of a rational (and rounds down to the denominator of its argument
    elsewhere), [Math.log10] is exact on the powers of ten and elsewhere the
    logarithm cut off after 64 binary digits of [log2]. *)

Module StdHost.

Definition digitChar (d : Z) : ascii := ascii_of_N (Z.to_N d + 48).

(** The decimal digits of a natural number; [fuel] bounds their count. *)
Fixpoint digitsOf (fuel : nat) (n : Z) (acc : string) : string :=
  match fuel with
  | O => acc
  | S fuel' =>
      let acc' := String (digitChar (n mod 10)) acc in
      if (n <? 10)%Z then acc' else digitsOf fuel' (n / 10) acc'
  end.

Definition natString (n : Z) : string := digitsOf (S (Z.to_nat (Z.log2 n))) n "".

(** The digits after the point of a fraction in [[0, 1)], at most [fuel]. *)
Fixpoint fractionDigits (fuel : nat) (x : Q) : string :=
  match fuel with
  | O => ""
  | S fuel' =>
      if Qeq_bool x 0 then ""
      else
        let y := x * 10 in
        let d := Qfloor y in
        String (digitChar d) (fractionDigits fuel' (y - inject_Z d))
  end.

Definition numString (x : Q) : string :=
  let a := Qabs x in
  let ip := Qfloor a in
  let fr := fractionDigits 20 (a - inject_Z ip) in
  (if Num.ltb x 0 then "-" else "") ++ natString ip
  ++ (if Js.isEmpty fr then "" else "." ++ fr).

(** Days from 1970-01-01 to a day of the civil calendar. *)
Definition daysFromCivil (y m d : Z) : Z :=
  let y' := if (m <=? 2)%Z then (y - 1)%Z else y in
  let era := (y' / 400)%Z in
  let yoe := (y' - era * 400)%Z in
  let mp := ((m + 9) mod 12)%Z in
  let doy := ((153 * mp + 2) / 5 + d - 1)%Z in
  let doe := (yoe * 365 + yoe / 4 - yoe / 100 + doy)%Z in
  (era * 146097 + doe - 719468)%Z.

(** The year, the month (from 1) and the day of a count of days. *)
Definition civilFromDays (z : Z) : Z * Z * Z :=
  let z := (z + 719468)%Z in
  let era := (z / 146097)%Z in
  let doe := (z - era * 146097)%Z in
  let yoe := ((doe - doe / 1460 + doe / 36524 - doe / 146096) / 365)%Z in
  let doy := (doe - (365 * yoe + yoe / 4 - yoe / 100))%Z in
  let mp := ((5 * doy + 2) / 153)%Z in
  let d := (doy - (153 * mp + 2) / 5 + 1)%Z in
  let m := (if (mp <? 10)%Z then mp + 3 else mp - 9)%Z in
  let y := (yoe + era * 400 + (if (m <=? 2)%Z then 1 else 0))%Z in
  (y, m, d).

Definition msPerDay : Z := 86400000.

Definition daysInMonth (y m : Z) : Z :=
  (daysFromCivil (if (m =? 12)%Z then y + 1 else y) (if (m =? 12)%Z then 1 else m + 1) 1
   - daysFromCivil y m 1)%Z.

(** The digits of a field of exactly [n] digits at the head of a text. *)
Definition field (n : nat) (s : string) : option (Z * string) :=
  let (ds, rest) := Js.span Js.isDigit (Js.take n s) in
  if (String.length ds =? n)%nat && Js.isEmpty rest
  then Some (Js.digitsValue 0 ds, Js.drop n s)
  else None.

(** The time of day [HH:mm], [HH:mm:ss] or [HH:mm:ss.sss] at the head of a
    text, in milliseconds, and the rest of the text. *)
Definition timeOfDay (s : string) : option (Z * string) :=
  match field 2 s with
  | Some (h, String ":" r1) =>
      match field 2 r1 with
      | None => None
      | Some (mi, r2) =>
          if ((23 <? h) || (59 <? mi))%Z then None
          else
            let hm := (h * 3600000 + mi * 60000)%Z in
            match r2 with
            | String ":" r3 =>
                match field 2 r3 with
                | None => None
                | Some (sec, r4) =>
                    if (59 <? sec)%Z then None
                    else
                      match r4 with
                      | String "." r5 =>
                          match field 3 r5 with
                          | None => None
                          | Some (ms, r6) => Some ((hm + sec * 1000 + ms)%Z, r6)
                          end
                      | _ => Some ((hm + sec * 1000)%Z, r4)
                      end
                end
            | _ => Some (hm, r2)
            end
      end
  | _ => None
  end.

(** The offset from UTC that ends a time: nothing (the local zone, UTC),
    [Z], [+HH:mm] or [-HH:mm], in milliseconds. *)
Definition zoneOffset (s : string) : option Z :=
  let hhmm (r : string) : option Z :=
    match field 2 r with
    | Some (h, String ":" r1) =>
        match field 2 r1 with
        | Some (mi, EmptyString) =>
            if ((23 <? h) || (59 <? mi))%Z then None
            else Some (h * 3600000 + mi * 60000)%Z
        | _ => None
        end
    | _ => None
    end in
  match s with
  | EmptyString => Some 0%Z
  | String "Z" EmptyString => Some 0%Z
  | String "+" r => hhmm r
  | String "-" r => option_map Z.opp (hhmm r)
  | _ => None
  end.

Definition parseIsoDate (s : string) : option Z :=
  match field 4 s with
  | None => None
  | Some (y, r) =>
      match r with
      | EmptyString => Some (daysFromCivil y 1 1 * msPerDay)%Z
      | String "-" r1 =>
          match field 2 r1 with
          | None => None
          | Some (m, r2) =>
              if ((m <? 1) || (12 <? m))%Z then None
              else
                match r2 with
                | EmptyString => Some (daysFromCivil y m 1 * msPerDay)%Z
                | String "-" r3 =>
                    match field 2 r3 with
                    | None => None
                    | Some (d, r4) =>
                        if ((d <? 1) || (daysInMonth y m <? d))%Z then None
                        else
                          let day := (daysFromCivil y m d * msPerDay)%Z in
                          match r4 with
                          | EmptyString => Some day
                          | String "T" r5 =>
                              match timeOfDay r5 with
                              | None => None
                              | Some (ms, r6) =>
                                  match zoneOffset r6 with
                                  | None => None
                                  | Some off => Some (day + ms - off)%Z
                                  end
                              end
                          | _ => None
                          end
                    end
                | _ => None
                end
          end
      | _ => None
      end
  end.

Definition utcDate (y m d : Z) : Z :=
  let y' := (y + m / 12)%Z in
  let m' := (m mod 12 + 1)%Z in
  ((daysFromCivil y' m' 1 + d - 1) * msPerDay)%Z.

Definition pad (n : nat) (x : Z) : string :=
  let s := natString x in
  Js.rev (Js.take n (Js.rev ("000" ++ s))).

Definition isoString (t : Z) : string :=
  let '(y, m, d) := civilFromDays (t / msPerDay) in
  let ms := (t mod msPerDay)%Z in
  pad 4 y ++ "-" ++ pad 2 m ++ "-" ++ pad 2 d ++ "T"
  ++ pad 2 (ms / 3600000) ++ ":" ++ pad 2 (ms / 60000 mod 60) ++ ":"
  ++ pad 2 (ms / 1000 mod 60) ++ "." ++ pad 3 (ms mod 1000) ++ "Z".

Definition compareStrings (a b : string) : Z :=
  match String.compare a b with Lt => (-1)%Z | Eq => 0%Z | Gt => 1%Z end.

Definition sqrtDown (x : Q) : Q :=
  Z.sqrt (Qnum x * Zpos (Qden x)) # Qden x.

(** The first [fuel] binary digits of [log2 m] for a mantissa [m] in
    [[1, 2)], kept as an integer over [2^80]: the square of the mantissa is at
    least [2] exactly when the next digit is [1]. *)
Fixpoint log2Digits (fuel : nat) (m acc : Z) : Z :=
  match fuel with
  | O => acc
  | S fuel' =>
      let m2 := (m * m / 2 ^ 80)%Z in
      if (2 ^ 81 <=? m2)%Z
      then log2Digits fuel' (m2 / 2) (2 * acc + 1)
      else log2Digits fuel' m2 (2 * acc)
  end.

(** [log2] of a positive rational, cut off after 64 binary digits. *)
Definition log2Down (x : Q) : Q :=
  let n := Qnum x in
  let d := Z.pos (Qden x) in
  let e0 := (Z.log2 n - Z.log2 d)%Z in
  let m0 := (if (0 <=? e0)%Z then n * 2 ^ 80 / (d * 2 ^ e0)
             else n * 2 ^ (80 - e0) / d)%Z in
  let (e, m) := if (m0 <? 2 ^ 80)%Z then ((e0 - 1)%Z, (2 * m0)%Z) else (e0, m0) in
  inject_Z e + (log2Digits 64 m 0 # 2 ^ 64).

(** [log10 2] to 32 decimal digits. *)
Definition log10Of2 : Q :=
  30102999566398119521373889472449 # 100000000000000000000000000000000.

(** [Math.log10] of a positive number ([0] stands for the results that are
    not finite numbers). *)
Definition log10Down (x : Q) : Q :=
  if Num.leb x 0 then 0
  else
    let r := log2Down x * log10Of2 in
    let k := Qfloor (r + (1 # 2)) in
    if Qeq_bool x (if (0 <=? k)%Z then inject_Z (10 ^ k) else / inject_Z (10 ^ (- k)))
    then inject_Z k
    else r.

(** Digits in groups of three. *)
Fixpoint groupFrom (fuel : nat) (n : Z) (acc : string) : string :=
  match fuel with
  | O => acc
  | S fuel' =>
      if (n <? 1000)%Z then natString n ++ acc
      else groupFrom fuel' (n / 1000) ("," ++ pad 3 (n mod 1000) ++ acc)
  end.

Definition localeString (x : Q) : string :=
  let a := Qabs x in
  let ip := Qfloor a in
  let fr := fractionDigits 3 (a - inject_Z ip) in
  (if Num.ltb x 0 then "-" else "") ++ groupFrom (S (Z.to_nat (Z.log2 ip))) ip ""
  ++ (if Js.isEmpty fr then "" else "." ++ fr).

Definition fixed2 (x : Q) : string :=
  let n := Qfloor (Qabs x * 100 + (1 # 2)) in
  (if Num.ltb x 0 && (0 <? n)%Z then "-" else "")
  ++ natString (n / 100) ++ "." ++ pad 2 (n mod 100).

Definition host : Host := {|
  numToString := numString;
  dateParse := parseIsoDate;
  localDate := utcDate;
  getFullYear := fun t => fst (fst (civilFromDays (t / msPerDay)));
  getMonth := fun t => (snd (fst (civilFromDays (t / msPerDay))) - 1)%Z;
  getDate := fun t => snd (civilFromDays (t / msPerDay));
  toISOString := isoString;
  localeCompare := compareStrings;
  sqrt := sqrtDown;
  log10 := log10Down;
  toLocaleString := localeString;
  toFixed2 := fixed2
|}.

End StdHost.

(** ** Type inference ([typeInference.ts]) *)

Inductive InferredType : Type :=
| InfNumeric | InfDate | InfCategorical | InfText | InfId.

(** [/^[-+]?(?:\d+\.?\d*|\d*\.?\d+)(?:e[-+]?\d+)?$/i]: whether the text
    matches (the number it then denotes is finite in the model). *)
Definition looseNumber (s : string) : bool :=
  let (_, s1) := optSign s in
  let (int, s2) := Js.span Js.isDigit s1 in
  let s3 := match s2 with String "." t => t | _ => s2 end in
  let (frac, s4) := Js.span Js.isDigit s3 in
  (negb (Js.isEmpty int) || negb (Js.isEmpty frac))
  && match exponentPart s4 with Some _ => true | None => false end.

Definition looksNumeric (raw : string) : bool :=
  let s := Js.trim raw in
  if Js.isEmpty s then false
  else
    let parenNeg :=
      Js.startsWith "(" s && Js.endsWith ")" s && (2 <=? String.length s)%nat
      && negb (Js.any Js.isLineTerminator (dropEnds s)) in
    let s := if parenNeg then "-" ++ dropEnds s else s in
    let s := Js.trim (Js.removeAll Js.isSpace (Js.removeAll isCurrency s)) in
    let s := dropPercent s in
    if Js.isEmpty s then false
    else looseNumber (normalizeSeparators s).

Section TypeInference.
Context {H : Host}.

(** [String(v ?? "").trim()] *)
Definition safeString (v : Cell) : string := Js.trim (cellString v).

Definition looksDate (raw : string) : bool :=
  let s := Js.trim raw in
  if Js.isEmpty s then false
  else match dateParse s with Some _ => true | None => false end.

(** The share of the texts that pass a test: [filter(p).length / length]. *)
Definition share (p : string -> bool) (xs : list string) : Q :=
  Num.ofNat (length (filter p xs)) / Num.ofNat (length xs).

Definition isLikelyID (values : list Cell) : bool :=
  let nonNull := filter (fun v => negb (isMissing v)) values in
  if (length nonNull <? 20)%nat then false
  else
    let asStr := filter (fun s => negb (Js.isEmpty s)) (map safeString nonNull) in
    if (length asStr <? 20)%nat then false
    else
      let unique := distinctCount asStr in
      let uniqRatio := Num.ofNat unique / Num.ofNat (length asStr) in
      let numericLike := share looksNumeric asStr in
      if Num.leb (85 # 100) numericLike then false
      else
        let dateLike := share looksDate asStr in
        if Num.leb (85 # 100) dateLike then false
        else
          let avgLen :=
            Num.ofNat (list_sum (map String.length asStr)) / Num.ofNat (length asStr) in
          let isToken := fun x => negb (Js.isEmpty x) && Js.all Js.isTokenChar x in
          let tokeny := share isToken asStr in
          let longAlphaNum :=
            share (fun x => isToken x && (6 <=? String.length x)%nat) asStr in
          Num.ltb (9 # 10) uniqRatio && Num.ltb (6 # 10) tokeny
          && (Num.leb avgLen 24 || Num.ltb (6 # 10) longAlphaNum).

Definition inferColumnType (values : list Cell) : InferredType :=
  let nonNull := filter (fun v => negb (isMissing v)) values in
  if (length nonNull =? 0)%nat then InfCategorical
  else
    let cleaned := filter (fun s => negb (Js.isEmpty s)) (map safeString nonNull) in
    let sample := firstn 250 cleaned in
    if isLikelyID (map CStr sample) then InfId
    else if Num.leb (8 # 10) (share looksNumeric sample) then InfNumeric
    else if Num.leb (8 # 10) (share looksDate sample) then InfDate
    else
      let avgLength :=
        Num.ofNat (list_sum (map String.length sample)) / Num.ofNat (length sample) in
      if Num.ltb 30 avgLength then InfText else InfCategorical.

End TypeInference.

(** ** The profile engine ([eda.ts]) *)

Module Eda.

Definition median (sorted : list Q) : option Q :=
  let n := length sorted in
  if (n =? 0)%nat then None
  else
    let mid := (n / 2)%nat in
    if (n mod 2 =? 0)%nat then Some ((at_ sorted (mid - 1) + at_ sorted mid) / 2)
    else Some (at_ sorted mid).

(** [Math.abs(n - Math.round(n)) < 1e-9] *)
Definition isIntegerLike (n : Q) : bool :=
  Num.ltb (Qabs (n - inject_Z (round n))) (1 # 1000000000).

(** [new Set(nums)], in insertion order. *)
Fixpoint distinctNumbers (seen nums : list Q) : list Q :=
  match nums with
  | [] => seen
  | n :: nums' =>
      if existsb (Num.eqb n) seen then distinctNumbers seen nums'
      else distinctNumbers (seen +++ [n]) nums'
  end.

Definition looksSequentialId (numsSorted : list Q) (uniqueCount : nat) : bool :=
  if (uniqueCount <? 30)%nat then false
  else if negb (length numsSorted =? uniqueCount)%nat then false
  else
    let N := length numsSorted in
    let steps := Nat.min 400 (N - 1) in
    let stride := Nat.max 1 ((N - 1) / steps) in
    let idx := strideFrom stride 0 (seq 0 (N - stride)) in
    let checked := length idx in
    let diffs := map (fun i => at_ numsSorted (i + stride) - at_ numsSorted i) idx in
    let nonDecreasing := length (filter (fun d => Num.leb 0 d) diffs) in
    let inc1 :=
      length (filter (fun d => Num.ltb (Qabs (d - Num.ofNat stride)) (1 # 1000000)) diffs) in
    if (checked =? 0)%nat then false
    else
      Num.ltb (98 # 100) (Num.ofNat nonDecreasing / Num.ofNat checked)
      && Num.ltb (85 # 100) (Num.ofNat inc1 / Num.ofNat checked).

Definition isIdLikeNumericColumn (col : string) (nums : list Q) (uniqueCount : nat) : bool :=
  if nameHintsId col then true
  else if (length nums <? 30)%nat then false
  else if Num.ltb (ratioOf uniqueCount (length nums)) (98 # 100) then false
  else
    let sampleN := Nat.min 500 (length nums) in
    let stride := Nat.max 1 (length nums / sampleN) in
    let sample := strideFrom stride 0 nums in
    let checked := length sample in
    let intOk := length (filter isIntegerLike sample) in
    if Num.ltb (ratioOf intOk checked) (98 # 100) then false
    else
      let sortedUnique := sortAsc (distinctNumbers [] nums) in
      if looksSequentialId sortedUnique (length sortedUnique) then true
      else
        let min := at_ sortedUnique 0 in
        let max := at_ sortedUnique (length sortedUnique - 1) in
        let range := Qabs (max - min) in
        Num.ltb 0 range && Num.leb range (Num.ofNat (length sortedUnique) * (12 # 10)).

Inductive DecidedType : Type := DecCategorical | DecId | DecDate | DecNumeric.

(** [Array.from(uniques.entries()).sort((a, b) => b[1] - a[1]).slice(0, 8)]
    with the percentages. *)
Definition topValuesFrom (uniques : list (string * nat)) (nonMissingCount : nat)
  : list TopValue :=
  map (fun e =>
      mkTop (fst e) (snd e)
        (Num.ofNat (snd e) / Num.ofNat (Nat.max 1 nonMissingCount) * 100))
    (firstn 8 (sortBy (fun a b => (snd b <=? snd a)%nat) uniques)).

Section Profile.
Context {H : Host}.

Definition stdev (vals : list Q) (mean : Q) : option Q :=
  if (length vals <? 2)%nat then None
  else
    let sumSq := fold_left (fun s v => s + (v - mean) * (v - mean)) vals 0 in
    Some (sqrt (sumSq / Num.ofNat (length vals - 1))).

(** [String(v ?? "")] for every column, joined by [||]. *)
Definition fingerprintRow (row : Row) (cols : list string) : string :=
  Js.join "||" (map (fun c => cellString (cell row c)) cols).

(** The decision of [decideType]; the [reason] it also returns is kept
    nowhere that is read. *)
Definition decideType (col : string) (values : list Cell) : DecidedType :=
  let nonMissing := filter (fun v => negb (isMissing v)) values in
  if (length nonMissing =? 0)%nat then DecCategorical
  else if nameHintsId col then DecId
  else if isLikelyID nonMissing then DecId
  else
    let N := length nonMissing in
    let nums := flat_map (fun v =>
      match safeToNumberLoose v with Some n => [n] | None => [] end) nonMissing in
    let numericOk := length nums in
    let dateOk :=
      length (filter (fun v =>
        match safeToDateLoose v with Some _ => true | None => false end) nonMissing) in
    let numericRatio := Num.ofNat numericOk / Num.ofNat N in
    let dateRatio := Num.ofNat dateOk / Num.ofNat N in
    let hinted := inferColumnType values in
    if Num.leb (7 # 10) numericRatio
       && isIdLikeNumericColumn col nums (length (distinctNumbers [] nums))
    then DecId
    else if Num.leb (85 # 100) dateRatio && Num.leb numericRatio dateRatio then DecDate
    else if Num.leb (85 # 100) numericRatio then DecNumeric
    else if match hinted with InfDate => true | _ => false end
            && Num.leb (7 # 10) dateRatio then DecDate
    else if match hinted with InfNumeric => true | _ => false end
            && Num.leb (7 # 10) numericRatio then DecNumeric
    else DecCategorical.

(** The profile of one column. *)
Definition profileColumn (data : list Row) (emptyColumns : list string) (col : string)
  : ColumnEDA :=
  let values := map (fun row => cell row col) data in
  let missing := length (filter isMissing values) in
  let nonMissingCount := (length data - missing)%nat in
  let present := filter (fun v => negb (isMissing v)) values in
  let uniques := fold_left (fun u v => mapCount (cellString v) u) present [] in
  let uniqueCount := length uniques in
  let decided := decideType col values in
  let isEmptyCol := existsb (String.eqb col) emptyColumns in
  match decided with
  | DecId =>
      CategoricalEDA (mkBase missing uniqueCount (Some nonMissingCount) true)
        (topValuesFrom uniques nonMissingCount)
  | _ =>
      if match decided with DecNumeric => negb isEmptyCol | _ => false end then
        let nums := sortAsc (columnNumbers data col) in
        let zeros := length (filter (fun n => Num.eqb n 0) nums) in
        let negatives := length (filter (fun n => Num.ltb n 0) nums) in
        let has := negb (length nums =? 0)%nat in
        let min := if has then Some (at_ nums 0) else None in
        let max := if has then Some (at_ nums (length nums - 1)) else None in
        let meanVal := if has then Some (Num.sum nums / Num.ofNat (length nums)) else None in
        let medianVal := if has then median nums else None in
        let stdevVal :=
          match meanVal with Some m => stdev nums m | None => None end in
        NumericEDA (mkBase missing uniqueCount (Some (length nums)) false)
          min max meanVal medianVal stdevVal zeros negatives
      else if match decided with DecDate => negb isEmptyCol | _ => false end then
        let dates := flat_map (fun v =>
          match safeToDateLoose v with Some d => [d] | None => [] end) values in
        let seenDate := distinctCount (map toISOString dates) in
        let dates := sortBy (fun a b => (a <=? b)%Z) dates in
        let has := negb (length dates =? 0)%nat in
        let min := if has then Some (toISOString (nth 0 dates 0%Z)) else None in
        let max :=
          if has then Some (toISOString (nth (length dates - 1) dates 0%Z)) else None in
        DateEDA (mkBase missing seenDate (Some (length dates)) false) min max
      else
        CategoricalEDA (mkBase missing uniqueCount (Some nonMissingCount) false)
          (topValuesFrom uniques nonMissingCount)
  end.

(** The count of the rows whose fingerprint was seen before. *)
Definition countDuplicates (fps : list string) : nat :=
  fst (fold_left (fun acc fp =>
         let '(dups, seen) := acc in
         if setHas fp seen then (S dups, seen) else (dups, fp :: seen))
       fps (O, [])).

Definition runEDA (data : list Row) : EDAResult :=
  match data with
  | [] => mkEDA 0 [] [] []
  | _ =>
      let columns := setOf (flat_map (fun row => map fst row) data) in
      let emptyColumns :=
        filter (fun col => forallb (fun row => isMissing (cell row col)) data) columns in
      let duplicates := countDuplicates (map (fun row => fingerprintRow row columns) data) in
      let constantColumns :=
        filter (fun col =>
          let present :=
            filter (fun v => negb (isMissing v)) (map (fun row => cell row col) data) in
          (0 <? length present)%nat
          && (distinctCount (map cellString present) =? 1)%nat) columns in
      mkEDA duplicates emptyColumns constantColumns
        (map (fun col => (col, profileColumn data emptyColumns col)) columns)
  end.

End Profile.

End Eda.
Import Eda.

(** ** The KPI selector ([kpis.ts]) *)

Inductive KPIType : Type :=
| KSum | KMean | KMin | KMax | KCount | KRate | KRange | KSpan | KTop.

Record KPI : Type := mkKPI {
  kpi_column : option string;
  kpi_label : string;
  kpi_value : string;
  kpi_type : KPIType
}.

(** [n % 1 === 0] *)
Definition isInteger (n : Q) : bool := Num.eqb n (inject_Z (Qfloor n)).

(** [" → "], the arrow of the ranges, in UTF-8. *)
Definition arrow : string := " → ".

Section KPIs.
Context {H : Host}.

Definition fmtPct (x : Q) : string := numToString (inject_Z (round x)) ++ "%".

Definition fmtCompact (n : Q) : string :=
  let abs := Qabs n in
  if Num.leb 1000000000 abs then toFixed2 (n / 1000000000) ++ "B"
  else if Num.leb 1000000 abs then toFixed2 (n / 1000000) ++ "M"
  else if Num.leb 1000 abs then toLocaleString (inject_Z (round n))
  else if isInteger n then toLocaleString n else toFixed2 n.

(** ID-like detection (never use these for KPIs). *)
Definition isIdLikeColumn (col : string) (info : ColumnEDA) (rowCount : nat) : bool :=
  if nameHintsId col then true
  else if be_inferredAsId (baseOf info) then true
  else
    let unique := be_uniqueCount (baseOf info) in
    let nn := match be_nonMissingCount (baseOf info) with Some k => k | None => rowCount end in
    let ratio := ratioOf unique nn in
    (20 <=? unique)%nat && Num.ltb (98 # 100) ratio.

(** Numeric column score for KPI relevance.  Higher is better. *)
Definition scoreNumericCol (col : string) (info : ColumnEDA) (rowCount : nat) : Q :=
  if isIdLikeColumn col info rowCount then 0
  else
    let nn := match be_nonMissingCount (baseOf info) with Some k => k | None => O end in
    if (nn <? 25)%nat then 0
    else
      match minOf info, maxOf info with
      | Some min, Some max =>
          let range := Qabs (max - min) in
          if Num.eqb range 0 then 1
          else
            let spread := match stdevOf info with Some sd => sd | None => range end in
            log10 (Num.ofNat nn + 1) * 12 + log10 (spread + 1) * 10
      | _, _ => 0
      end.

Record BestCategorical : Type := mkBestCat {
  bc_col : string;
  bc_top : TopValue;
  bc_score : Q
}.

Definition pickBestCategorical (eda : EDAResult) (rowCountHint : nat)
  : option BestCategorical :=
  fold_left (fun best e =>
      let col := fst e in
      let info := snd e in
      if negb (isCategoricalType info) then best
      else if isIdLikeColumn col info rowCountHint then best
      else
        let unique := be_uniqueCount (baseOf info) in
        let nn :=
          match be_nonMissingCount (baseOf info) with
          | Some O | None => rowCountHint
          | Some k => k
          end in
        match topValuesOf info with
        | [] => best
        | top :: _ =>
            let dominance := tv_pct top in
            let uniqueRatio :=
              if (0 <? nn)%nat then Num.ofNat unique / Num.ofNat nn else 0 in
            let looksNameList :=
              (50 <=? unique)%nat && Num.ltb (1 # 2) uniqueRatio && Num.ltb dominance 40 in
            if looksNameList then best
            else
              let score :=
                dominance * 2
                + (if (unique <=? 12)%nat then 30 else if (unique <=? 25)%nat then 15 else 0)
                + (if Num.ltb uniqueRatio (4 # 10) then 10 else 0) in
              match best with
              | Some b => if Num.ltb (bc_score b) score then Some (mkBestCat col top score) else best
              | None => Some (mkBestCat col top score)
              end
        end)
    (columns eda) None.

Record BestDate : Type := mkBestDate {
  bd_col : string;
  bd_min : string;
  bd_max : string;
  bd_days : Q
}.

Definition pickBestDate (eda : EDAResult) : option BestDate :=
  fold_left (fun best e =>
      let col := fst e in
      let info := snd e in
      if negb (isDateType info) then best
      else
        match dateMinOf info, dateMaxOf info with
        | Some min, Some max =>
            if Js.isEmpty min || Js.isEmpty max then best
            else
              match dateParse min, dateParse max with
              | Some a, Some b =>
                  let days := inject_Z (Z.abs (b - a)) / inject_Z (1000 * 60 * 60 * 24) in
                  match best with
                  | Some d =>
                      if Num.ltb (bd_days d) days then Some (mkBestDate col min max days)
                      else best
                  | None => Some (mkBestDate col min max days)
                  end
              | _, _ => best
              end
        | _, _ => best
        end)
    (columns eda) None.

(** The numeric story set: the numeric columns with a positive score, best
    first, five at most. *)
Definition numericKpiCandidates (eda : EDAResult) (rowCount : nat)
  : list (string * ColumnEDA * Q) :=
  firstn 5
    (sortByScoreDesc snd
       (filter (fun x => Num.ltb 0 (snd x))
          (map (fun e => (fst e, snd e, scoreNumericCol (fst e) (snd e) rowCount))
             (filter (fun e => isNumericType (snd e)) (columns eda))))).

(** The total, the average and the range of the first candidate with at
    least 25 numbers. *)
Fixpoint numericStory (data : list Row) (cands : list (string * ColumnEDA * Q))
  : list KPI :=
  match cands with
  | [] => []
  | (col, _, _) :: cands' =>
      let nums := columnNumbers data col in
      if (length nums <? 25)%nat then numericStory data cands'
      else
        let sum := Num.sum nums in
        let mean := sum / Num.ofNat (length nums) in
        let min := minOfList nums in
        let max := maxOfList nums in
        [mkKPI (Some col) ("Total " ++ col) (fmtCompact sum) KSum;
         mkKPI (Some col) ("Average " ++ col) (fmtCompact mean) KMean;
         mkKPI (Some col) (col ++ " range")
           (fmtCompact min ++ arrow ++ fmtCompact max) KRange]
  end.

(** The share of the missing cells, in percent, when the profile has a cell. *)
Definition missingRate (eda : EDAResult) (rowCount : nat) : option Q :=
  let totals :=
    fold_left (fun acc e =>
        let info := snd e in
        let missing := be_missing (baseOf info) in
        let nn :=
          match be_nonMissingCount (baseOf info) with
          | Some k => k
          | None => (rowCount - missing)%nat
          end in
        (fst acc + missing, snd acc + (missing + nn))%nat)
      (columns eda) (O, O) in
  if (0 <? snd totals)%nat
  then Some (Num.ofNat (fst totals) / Num.ofNat (snd totals) * 100)
  else None.

Definition generateKPIs (data : list Row) (eda : option EDAResult) : list KPI :=
  match data with
  | [] => []
  | _ =>
      let rowCount := length data in
      let rows := [mkKPI None "Rows" (toLocaleString (Num.ofNat rowCount)) KCount] in
      let rest :=
        match eda with
        | None => []
        | Some eda =>
            (if (0 <? duplicates eda)%nat
             then [mkKPI None "Duplicates" (toLocaleString (Num.ofNat (duplicates eda))) KCount]
             else [])
            +++ match missingRate eda rowCount with
               | Some missRate => [mkKPI None "Missing rate" (fmtPct missRate) KRate]
               | None => []
               end
            +++ numericStory data (numericKpiCandidates eda rowCount)
            +++ match pickBestCategorical eda rowCount with
               | Some bestCat =>
                   [mkKPI (Some (bc_col bestCat)) ("Top " ++ bc_col bestCat)
                      (tv_value (bc_top bestCat) ++ " ("
                       ++ numToString (inject_Z (round (tv_pct (bc_top bestCat)))) ++ "%)")
                      KTop]
               | None => []
               end
            +++ match pickBestDate eda with
               | Some bestDate =>
                   [mkKPI (Some (bd_col bestDate)) ("Date span (" ++ bd_col bestDate ++ ")")
                      (Js.take 10 (bd_min bestDate) ++ arrow ++ Js.take 10 (bd_max bestDate))
                      KSpan]
               | None => []
               end
        end in
      firstn 6 (rows +++ rest)
  end.

End KPIs.

(** ** The insight generator ([insights.ts]) *)

Inductive Severity : Type := Info | Warning | Positive.

Inductive Action : Type := Investigate | Segment | Clean | Monitor | Report.

Record Insight : Type := mkInsight {
  ins_id : string;
  ins_text : string;
  ins_severity : option Severity;
  ins_column : option string;
  ins_action : option Action;
  ins_suggestedQuestions : list string
}.

(** [num(v)] on a field that holds a number or [null]: [Number(null)] is
    [0], which is finite. *)
Definition orZero (v : option Q) : Q :=
  match v with Some n => n | None => 0 end.

Definition num (v : option Q) : option Q := Some (orZero v).

(** Normalize column keys for matching: lower case, trimmed, without
    [[_\s]] and then without what is left outside [[a-z0-9]]. *)
Definition normalizeKey (s : string) : string :=
  Js.removeAll (fun c => negb (Js.isLowerAlnum c))
    (Js.removeAll (fun c => Ascii.eqb c "_" || Js.isSpace c)
       (Js.trim (Js.toLowerCase s))).

Definition resolveColumn (raw : string) (columns : list (string * ColumnEDA))
  : option string :=
  let target := normalizeKey raw in
  if Js.isEmpty target then None
  else
    match find (fun e => String.eqb (normalizeKey (fst e)) target) columns with
    | Some e => Some (fst e)
    | None => None
    end.

Definition pushUnique (into : list Insight) (item : Insight) : list Insight :=
  if existsb (fun x => String.eqb (ins_id x) (ins_id item)) into then into
  else (into +++ [item]).

(** [weight[severity ?? "info"] ?? 2] *)
Definition weight (s : option Severity) : nat :=
  match s with
  | Some Warning => 0
  | Some Positive => 1
  | Some Info | None => 2
  end.

Definition sortBusiness (insights : list Insight) : list Insight :=
  sortBy (fun a b => (weight (ins_severity a) <=? weight (ins_severity b))%nat) insights.

Inductive SuggestKind : Type :=
| SOutlier | SDominance | SMissing | STime | SHeadline.

(** Suggested prompts from a column and an intent. *)
Definition suggest (col : option string) (kind : SuggestKind) : list string :=
  let c := match col with Some c => c | None => "" end in
  let base :=
    match kind with
    | SOutlier =>
        ["explain " ++ c; "distribution of " ++ c; "should i use mean or median";
         "are there any outliers"; "what risks do the outliers pose"]
    | SDominance =>
        ["top " ++ c; "distribution of " ++ c; "what stands out";
         "what decisions could be misleading"; "what would you investigate next"]
    | SMissing =>
        ["missing by column"; "is this dataset clean"; "are there any data quality risks";
         if Js.isEmpty c then "summarise dataset" else "explain " ++ c]
    | STime =>
        ["what is the time coverage of this dataset";
         "are there enough dates to analyse trends"; "is this data seasonal";
         "what would a time trend reveal here"]
    | SHeadline =>
        ["summarise dataset"; "what is the main metric"; "what stands out";
         "what would you highlight to executives"]
    end in
  setOf (filter (fun s => negb (Js.isEmpty s)) (map Js.trim base)).

(** A candidate of the numeric rule. *)
Record RiskItem : Type := mkRisk {
  risk_col : string;
  risk_score : Q;
  risk_insight : Insight
}.

(** [", "]-joined names, four at most, and the ellipsis when there are more. *)
Definition listNames (names : list string) : string :=
  Js.join ", " (firstn 4 names) ++ (if (4 <? length names)%nat then "…" else "").

Section Insights.
Context {H : Host}.

(** The main metric of the KPIs: the first sum with a column, else the first
    mean with one. *)
Definition findKpi (kpis : list KPI) (t : KPIType -> bool) : option KPI :=
  find (fun k =>
    t (kpi_type k)
    && match kpi_column k with Some c => negb (Js.isEmpty c) | None => false end) kpis.

Definition isSum (t : KPIType) : bool := match t with KSum => true | _ => false end.
Definition isMean (t : KPIType) : bool := match t with KMean => true | _ => false end.

Definition mainMetricColumn (eda : EDAResult) (kpis : list KPI) : option string :=
  let mainMetric :=
    match findKpi kpis isSum with
    | Some k => Some k
    | None => findKpi kpis isMean
    end in
  match mainMetric with
  | Some k =>
      match kpi_column k with
      | Some c => resolveColumn c (columns eda)
      | None => None
      end
  | None => None
  end.

(** 1) Data-quality warnings. *)
Definition qualityInsights (eda : EDAResult) : list Insight :=
  ((if (0 <? duplicates eda)%nat then
      [mkInsight "duplicates"
         ("Dataset contains " ++ toLocaleString (Num.ofNat (duplicates eda))
          ++ " duplicate row(s). Consider de-duplicating before analysis.")
         (Some Warning) None (Some Clean) (suggest None SMissing)]
    else [])
   +++ (if (0 <? length (emptyColumns eda))%nat then
         [mkInsight "empty-cols"
            ("Some columns are empty (all missing): " ++ listNames (emptyColumns eda)
             ++ ". Remove or fix them.")
            (Some Warning) None (Some Clean) (suggest None SMissing)]
       else [])
   +++ (if (0 <? length (constantColumns eda))%nat then
         [mkInsight "constant-cols"
            ("Some columns are constant (no variation): " ++ listNames (constantColumns eda)
             ++ ". They won’t help explain differences.")
            (Some Info) None (Some Clean)
            ["summarise dataset"; "what columns are most important";
             "what would you investigate next"]]
       else [])).

(** 2) Missingness, only if material. *)
Definition missingInsight (col : string) (info : ColumnEDA) : list Insight :=
  let missing := be_missing (baseOf info) in
  match be_nonMissingCount (baseOf info) with
  | None => []
  | Some nonMissingCount =>
      let totalApprox := (missing + nonMissingCount)%nat in
      if (0 <? totalApprox)%nat then
        let missPct := Num.ofNat missing / Num.ofNat totalApprox * 100 in
        if Num.leb 25 missPct then
          [mkInsight (col ++ "-missing")
             ("Column " ++ Js.quote ++ col ++ Js.quote ++ " has ~"
              ++ numToString (inject_Z (round missPct))
              ++ "% missing values. Any conclusions involving this column may be biased.")
             (Some (if Num.leb 40 missPct then Warning else Info))
             (Some col) (Some Clean) (suggest (Some col) SMissing)]
        else []
      else []
  end.

(** 3) Numeric: the candidates of one column.  [ratio] is
    [max / Math.max(1e-9, mean)]. *)
Definition outlierRatio (max mean : Q) : Q := max / Num.max (1 # 1000000000) mean.

Definition outlierItems (mainMetricCol : option string) (col : string) (info : ColumnEDA)
  : list RiskItem :=
  if negb (isNumericType info) then []
  else
    match num (maxOf info), num (meanOf info) with
    | Some max, Some mean =>
        if Num.eqb mean 0 then []
        else
          let ratio := outlierRatio max mean in
          let meanMedianGap :=
            match num (medianOf info) with
            | Some median =>
                if Num.ltb 0 median
                then Some (mean / Num.max (1 # 1000000000) median) else None
            | None => None
            end in
          let skewHint :=
            match meanMedianGap with Some g => Num.leb (11 # 10) g | None => false end in
          let strongOutlier := Num.leb 3 ratio in
          if negb strongOutlier then []
          else
            let isMain :=
              match mainMetricCol with Some m => String.eqb m col | None => false end in
            let metricTag := if isMain then "Main metric" else "Metric" in
            let baseText :=
              metricTag ++ " " ++ Js.quote ++ col ++ Js.quote
              ++ " has extreme values that may distort averages. "
              ++ "Use median/percentiles and segment (e.g., by category/country) before making decisions." in
            let score := (if isMain then 100 else 0) + ratio * 10 in
            ([mkRisk col score
                (mkInsight ("outlier-" ++ normalizeKey col) baseText (Some Warning)
                   (Some col) (Some Investigate) (suggest (Some col) SOutlier))]
             +++ (match num (minOf info) with
                 | Some min =>
                     if Num.ltb min 0 then
                       [mkRisk col (score - 20)
                          (mkInsight ("negatives-" ++ normalizeKey col)
                             (Js.quote ++ col ++ Js.quote
                              ++ " includes negative values. Confirm whether negatives represent refunds/credits or data errors.")
                             (Some Info) (Some col) (Some Investigate)
                             ["explain " ++ col; "distribution of " ++ col;
                              "are there any data quality risks"])]
                     else []
                 | None => []
                 end)
             +++ (if skewHint then
                   [mkRisk col (score - 25)
                      (mkInsight ("skew-" ++ normalizeKey col)
                         (Js.quote ++ col ++ Js.quote
                          ++ " appears right-skewed (mean > median). Median-based KPIs may be more stable for reporting.")
                         (Some Info) (Some col) (Some Monitor)
                         ["should i use mean or median"; "distribution of " ++ col;
                          "are extreme values affecting averages"])]
                 else []))
    | _, _ => []
    end.

Definition outlierCandidates (eda : EDAResult) (kpis : list KPI) : list RiskItem :=
  flat_map (fun e => outlierItems (mainMetricColumn eda kpis) (fst e) (snd e)) (columns eda).

(** The numeric risk items that are kept: the two best. *)
Definition keptOutlierItems (eda : EDAResult) (kpis : list KPI) : list RiskItem :=
  firstn 2 (sortByScoreDesc risk_score (outlierCandidates eda kpis)).

(** 4) Categorical: dominance. *)
Definition dominanceItems (col : string) (info : ColumnEDA) : list RiskItem :=
  if negb (isCategoricalType info) then []
  else
    match topValuesOf info with
    | [] => []
    | top :: _ =>
        let pct := tv_pct top in
        let uniqueCount := be_uniqueCount (baseOf info) in
        if Num.leb 70 pct && (2 <=? uniqueCount)%nat then
          [mkRisk col (pct * 2 - Num.ofNat uniqueCount)
             (mkInsight ("dominance-" ++ normalizeKey col)
                ("Column " ++ Js.quote ++ col ++ Js.quote ++ " is highly concentrated: "
                 ++ Js.quote ++ tv_value top ++ Js.quote ++ " accounts for ~"
                 ++ numToString (inject_Z (round pct)) ++ "%. "
                 ++ "This can hide smaller segments—break down key metrics by "
                 ++ Js.quote ++ col ++ Js.quote ++ " before concluding.")
                (Some Info) (Some col) (Some Segment) (suggest (Some col) SDominance))]
        else []
    end.

(** 5) Date coverage of the first date column. *)
Definition coverageInsight (eda : EDAResult) : list Insight :=
  match find (fun e => isDateType (snd e)) (columns eda) with
  | None => []
  | Some (dateCol, info) =>
      if Js.isEmpty dateCol then []
      else
        let uniq := be_uniqueCount (baseOf info) in
        match dateMinOf info, dateMaxOf info with
        | Some mn, Some mx =>
            let min := Js.take 10 mn in
            let max := Js.take 10 mx in
            if Js.isEmpty mn || Js.isEmpty mx || Js.isEmpty min || Js.isEmpty max then []
            else
              [mkInsight (dateCol ++ "-coverage")
                 ("Time coverage: " ++ Js.quote ++ dateCol ++ Js.quote ++ " spans "
                  ++ min ++ arrow ++ max ++ ". "
                  ++ (if (30 <=? uniq)%nat then
                        "Enough granularity (" ++ numToString (Num.ofNat uniq)
                        ++ " unique dates) for trend/seasonality checks via weekly/monthly aggregation."
                      else
                        "Date coverage exists but granularity is limited ("
                        ++ numToString (Num.ofNat uniq) ++ " unique dates)."))
                 (Some Info) (Some dateCol) (Some Monitor) (suggest (Some dateCol) STime)]
        | _, _ => []
        end
  end.

(** 7) One positive headline. *)
Definition headlineInsight (eda : EDAResult) (kpis : list KPI) : list Insight :=
  match findKpi kpis isSum with
  | Some sumKpi =>
      let c := match kpi_column sumKpi with Some c => c | None => "" end in
      let col := match resolveColumn c (columns eda) with Some r => r | None => c end in
      [mkInsight ("headline-total-" ++ normalizeKey col)
         ("Headline: Total " ++ col ++ " = " ++ kpi_value sumKpi
          ++ " (useful for top-line reporting).")
         (Some Positive) (Some col) (Some Report) (suggest (Some col) SHeadline)]
  | None =>
      match findKpi kpis isMean with
      | Some meanKpi =>
          let c := match kpi_column meanKpi with Some c => c | None => "" end in
          let col := match resolveColumn c (columns eda) with Some r => r | None => c end in
          [mkInsight ("headline-avg-" ++ normalizeKey col)
             ("Headline: Average " ++ col ++ " = " ++ kpi_value meanKpi
              ++ " (useful for baseline reporting).")
             (Some Positive) (Some col) (Some Report) (suggest (Some col) SHeadline)]
      | None => []
      end
  end.

(** The insights in the order in which the rules push them, each through
    [pushUnique]. *)
Definition collectedInsights (eda : EDAResult) (kpis : list KPI) : list Insight :=
  fold_left pushUnique
    (qualityInsights eda
     +++ flat_map (fun e => missingInsight (fst e) (snd e)) (columns eda)
     +++ map risk_insight (keptOutlierItems eda kpis)
     +++ map risk_insight
          (firstn 1 (sortByScoreDesc risk_score
             (flat_map (fun e => dominanceItems (fst e) (snd e)) (columns eda))))
     +++ coverageInsight eda
     +++ headlineInsight eda kpis)
    [].

Definition generateInsights (eda : EDAResult) (kpis : list KPI) : list Insight :=
  firstn 6 (sortBusiness (collectedInsights eda kpis)).

End Insights.

(** [normalizeKey] and [resolveColumn] of [insights.ts], for the statements
    that set them beside the functions that [ask.ts] has under these names. *)
Abbreviation insightsNormalizeKey := normalizeKey (only parsing).
Abbreviation insightsResolveColumn := resolveColumn (only parsing).

(** ** The query engine ([ask.ts]) *)

Module Ask.

Record Meta : Type := mkMeta {
  meta_rows : nat;
  meta_columns : nat;
  meta_missingValues : nat
}.

Record AnswerArgs : Type := mkArgs {
  arg_q : string;
  arg_meta : option Meta;
  arg_eda : option EDAResult;
  arg_kpis : list KPI;
  arg_charts : list ChartSpec;
  (** [insights ?? []]: the array may be absent *)
  arg_insights : option (list Insight)
}.

(** What a call does: it returns a string, or it raises (a method called on
    a value that is [undefined]). *)
Inductive Outcome : Type :=
| Returns (s : string)
| Raises.

Definition quoted (s : string) : string := Js.quote ++ s ++ Js.quote.

Definition newline : string := String (ascii_of_N 10) EmptyString.

(** [/^p\s/]: the text starts with [p] and a blank. *)
Definition startsWithThenSpace (p s : string) : bool :=
  Js.startsWith p s
  && match Js.drop (String.length p) s with
     | String c _ => Js.isSpace c
     | EmptyString => false
     end.

(** [/p\s+/] somewhere in the text. *)
Fixpoint includesThenSpace (p s : string) : bool :=
  startsWithThenSpace p s
  || match s with
     | EmptyString => false
     | String _ s' => includesThenSpace p s'
     end.

(** [/^\s*p\s+/] *)
Definition startsThenSpace (p s : string) : bool :=
  startsWithThenSpace p (Js.trimStart s).

(** [/a.*b/]: [a], and [b] after it on the same line. *)
Fixpoint includesThen (a b s : string) : bool :=
  (Js.startsWith a s
   && Js.includes b
        (fst (Js.span (fun c => negb (Js.isLineTerminator c))
                (Js.drop (String.length a) s))))
  || match s with
     | EmptyString => false
     | String _ s' => includesThen a b s'
     end.

(** [s.replace(/^p\s+/, "")] *)
Definition dropLead (p s : string) : string :=
  if startsWithThenSpace p s then Js.trimStart (Js.drop (String.length p) s) else s.

(** [s.replace(p, "")]: the first occurrence of a fixed text removed. *)
Fixpoint removeFirst (p s : string) : string :=
  if Js.startsWith p s then Js.drop (String.length p) s
  else
    match s with
    | EmptyString => EmptyString
    | String c s' => String c (removeFirst p s')
    end.

Definition isSummary (q : string) : bool :=
  Js.includes "summarise" q || Js.includes "summarize" q || Js.includes "summary" q
  || Js.includes "overview" q.

Definition isWhatStandsOut (q : string) : bool :=
  Js.includes "what stands out" q || Js.includes "stand out" q.

Definition isMainMetric (q : string) : bool :=
  Js.includes "main metric" q || Js.includes "primary metric" q
  || Js.includes "key metric" q.

Definition isTop (q : string) : bool := startsThenSpace "top" q.

Definition isExplain (q : string) : bool := startsThenSpace "explain" q.

Definition isDistribution (q : string) : bool :=
  includesThenSpace "distribution of" q || includesThenSpace "distribution" q
  || includesThenSpace "dist of" q.

Definition isOutliers (q : string) : bool :=
  Js.includes "outlier" q || Js.includes "anomal" q.

Definition isSkew (q : string) : bool :=
  Js.includes "skew" q || Js.includes "skewed" q || Js.includes "mean" q
  || Js.includes "median" q || Js.includes "average" q || Js.includes "robust" q.

Definition isTime (q : string) : bool :=
  Js.includes "time coverage" q || Js.includes "time range" q
  || Js.includes "date range" q || Js.includes "time trend" q
  || Js.includes "trend" q || Js.includes "time series" q || Js.includes "season" q.

Definition isKpiGap (q : string) : bool :=
  Js.includes "missing kpi" q || includesThen "kpi" "missing" q
  || Js.includes "what kpis" q || Js.includes "kpi gaps" q
  || Js.includes "dashboard kpis" q.

Definition isNextSteps (q : string) : bool :=
  Js.includes "what would you investigate next" q || Js.includes "investigate next" q
  || Js.includes "next steps" q || Js.includes "what next" q.

Definition isNotAnswerable (q : string) : bool :=
  Js.includes "cannot answer" q || Js.includes "can't answer" q
  || Js.includes "not answer" q || Js.includes "limitations" q
  || includesThen "what questions" "not" q.

Definition isDataImprove (q : string) : bool :=
  includesThen "what data" "improve" q || includesThen "add" "improve" q
  || Js.includes "improve decision" q || Js.includes "what would you add" q.

Definition isExec (q : string) : bool :=
  Js.includes "executive" q || Js.includes "stakeholder" q || Js.includes "highlight" q
  || Js.includes "warn" q || Js.includes "risk" q || Js.includes "assumption" q
  || Js.includes "mislead" q || Js.includes "mistake" q || Js.includes "decision" q.

(** Column normalisation: trimmed, lower case, the non-breaking space made a
    space, runs of white space made one space, then without [[_\s]] and
    without what is left outside [[a-z0-9]]. *)
Definition normalizeKey (s : string) : string :=
  Js.removeAll (fun c => negb (Js.isLowerAlnum c))
    (Js.removeAll (fun c => Ascii.eqb c "_" || Js.isSpace c)
       (Js.collapseSpaces
          (Js.replaceAllChar (ascii_of_N 160) " "
             (Js.toLowerCase (Js.trim s))))).

(** The column a phrase names: the exact match of the normalized keys first,
    then containment in either direction. *)
Definition resolveColumn (raw : string) (columns : list (string * ColumnEDA))
  : option string :=
  let rawStr := Js.trim raw in
  if Js.isEmpty rawStr then None
  else
    let target := normalizeKey rawStr in
    if Js.isEmpty target then None
    else
      match find (fun e => String.eqb (normalizeKey (fst e)) target) columns with
      | Some e => Some (fst e)
      | None =>
          match find (fun e =>
                  let nk := normalizeKey (fst e) in
                  Js.includes target nk || Js.includes nk target) columns with
          | Some e => Some (fst e)
          | None => None
          end
      end.

Definition firstDateColumn (columns : list (string * ColumnEDA)) : option string :=
  match find (fun e => isDateType (snd e)) columns with
  | Some e => Some (fst e)
  | None => None
  end.

Section Answers.
Context {H : Host}.

(** [fmtNum(v)] on a field that holds a number or [null]: [Number(null)] is
    [0]. *)
Definition fmtNum (v : option Q) : string :=
  let x := match v with Some n => n | None => 0 end in
  let abs := Qabs x in
  if Num.leb 1000000000 abs then toFixed2 (x / 1000000000) ++ "B"
  else if Num.leb 1000000 abs then toFixed2 (x / 1000000) ++ "M"
  else if Num.leb 1000 abs then toLocaleString (inject_Z (round x))
  else if isInteger x then toLocaleString x else toFixed2 x.

(** [fmtPct(v)] on the percentage of a top value that may be [undefined]. *)
Definition fmtPct (v : option Q) : string :=
  match v with
  | None => "—"
  | Some x => numToString (inject_Z (round x)) ++ "%"
  end.

Definition mainNumericFromKpis (kpis : list KPI) : option KPI :=
  match findKpi kpis isSum with
  | Some sum => Some sum
  | None => findKpi kpis isMean
  end.

(** [insights.map((i) => `• ${i.text}`).join("\n")] *)
Definition bullets (insights : list Insight) : string :=
  Js.join newline (map (fun i => "• " ++ ins_text i) insights).

Definition explainColumn (col : string) (info : ColumnEDA) : string :=
  let unique := numToString (Num.ofNat (be_uniqueCount (baseOf info))) in
  let missing := numToString (Num.ofNat (be_missing (baseOf info))) in
  match info with
  | NumericEDA _ min max mean median _ _ _ =>
      quoted col ++ " is a numeric column with " ++ unique ++ " unique values and "
      ++ missing ++ " missing values. It ranges from " ++ fmtNum min ++ " to "
      ++ fmtNum max ++ ". Mean: " ++ fmtNum mean
      ++ (if String.eqb (fmtNum median) "—" then "" else ", Median: " ++ fmtNum median)
      ++ "."
  | CategoricalEDA _ topValues =>
      let top := match topValues with t :: _ => Some t | [] => None end in
      quoted col ++ " is a categorical column with " ++ unique ++ " unique values and "
      ++ missing ++ " missing values. The most common value is "
      ++ quoted (match top with Some t => tv_value t | None => "—" end)
      ++ " (" ++ fmtPct (match top with Some t => Some (tv_pct t) | None => None end)
      ++ ")."
  | DateEDA _ min max =>
      quoted col ++ " is a date column. It spans from "
      ++ match min with Some m => m | None => "—" end ++ " to "
      ++ match max with Some m => m | None => "—" end ++ " with " ++ unique
      ++ " unique dates."
  end.

Definition describeDistribution (col : string) (info : ColumnEDA) : string :=
  match info with
  | NumericEDA _ min max mean median stdev _ _ =>
      let sd := match stdev with Some s => s | None => 0 end in
      let variation :=
        if negb (Num.eqb sd 0) && Num.ltb 0 sd then "noticeable variation"
        else "low variation" in
      "The distribution of " ++ quoted col ++ " spans from " ++ fmtNum min ++ " to "
      ++ fmtNum max ++ ". Mean: " ++ fmtNum mean
      ++ match median with Some _ => ", Median: " ++ fmtNum median | None => "" end
      ++ ", with " ++ variation ++ "."
  | CategoricalEDA _ topValues =>
      let top := match topValues with t :: _ => Some t | [] => None end in
      quoted col ++ " contains " ++ numToString (Num.ofNat (be_uniqueCount (baseOf info)))
      ++ " categories. The top category "
      ++ quoted (match top with Some t => tv_value t | None => "—" end)
      ++ " accounts for "
      ++ fmtPct (match top with Some t => Some (tv_pct t) | None => None end) ++ "."
  | DateEDA _ _ _ =>
      quoted col ++ " does not have a distribution suitable for analysis."
  end.

(** [columns[col]] for a column that [resolveColumn] found; the templates
    read it through [info?.], so that an absent profile reads as a profile
    without fields. *)
Definition describeUnknown (col : string) : string :=
  quoted col ++ " exists, but its type (unknown) isn’t supported for detailed explanation yet.".

Definition answerQuestion (args : AnswerArgs) : Outcome :=
  let query := Js.trim (arg_q args) in
  let queryLower := Js.toLowerCase query in
  let columns := match arg_eda args with Some eda => columns eda | None => [] end in
  let hasDate := existsb (fun e => isDateType (snd e)) columns in
  let numericCols := filter (fun e => isNumericType (snd e)) columns in
  let categoricalCols := filter (fun e => isCategoricalType (snd e)) columns in
  let mainNumeric := mainNumericFromKpis (arg_kpis args) in
  let mainColumn :=
    match mainNumeric with Some k => kpi_column k | None => None end in
  let outlierInsights :=
    filter (fun i => match ins_severity i with Some Warning => true | _ => false end)
      (match arg_insights args with Some l => l | None => [] end) in
  if isSummary queryLower then
    let main :=
      match mainColumn with
      | Some c => " The primary numeric signal appears to be " ++ quoted c ++ "."
      | None => ""
      end in
    let time := if hasDate then ", with a time dimension present." else "." in
    Returns
      ("This dataset contains "
       ++ match arg_meta args with
          | Some m => numToString (Num.ofNat (meta_rows m))
          | None => "undefined"
          end
       ++ " rows and "
       ++ match arg_meta args with
          | Some m => numToString (Num.ofNat (meta_columns m))
          | None => "undefined"
          end
       ++ " columns. It includes " ++ numToString (Num.ofNat (length numericCols))
       ++ " numeric columns and " ++ numToString (Num.ofNat (length categoricalCols))
       ++ " categorical columns" ++ time ++ main)
  else if isWhatStandsOut queryLower then
    if match arg_insights args with Some (_ :: _) => false | _ => true end
    then Returns "No strong anomalies or dominant patterns were detected."
    else
      match arg_insights args with
      | Some insights => Returns (bullets insights)
      | None => Raises
      end
  else if isMainMetric queryLower then
    match mainColumn with
    | Some c =>
        Returns ("The main metric appears to be " ++ quoted c
                 ++ ", based on scale and variation.")
    | None =>
        Returns "No clear primary metric could be identified without additional context."
    end
  else if isOutliers queryLower then
    match outlierInsights with
    | [] =>
        Returns "No significant outliers were detected based on basic statistical thresholds."
    | _ => Returns (bullets outlierInsights)
    end
  else if isSkew queryLower then
    match outlierInsights with
    | _ :: _ =>
        Returns "The main numeric columns appear skewed due to extreme values. Median-based analysis is recommended."
    | [] =>
        Returns "The numeric distributions do not appear heavily skewed; mean-based summaries should be generally fine."
    end
  else if isExplain queryLower then
    let raw := Js.trim (dropLead "explain" queryLower) in
    match resolveColumn raw columns with
    | None =>
        Returns ("I couldn’t find a matching column for " ++ quoted raw
                 ++ ". Try copying the column name from the EDA list.")
    | Some col =>
        match lookup col columns with
        | Some info => Returns (explainColumn col info)
        | None => Returns (describeUnknown col)
        end
    end
  else if isDistribution queryLower then
    let raw :=
      Js.trim (removeFirst "distribution"
                 (removeFirst "dist of" (removeFirst "distribution of" queryLower))) in
    match resolveColumn raw columns with
    | None =>
        Returns ("I couldn’t find a matching column for " ++ quoted raw
                 ++ ". Try: " ++ quoted "distribution of <exact column name>" ++ ".")
    | Some col =>
        match lookup col columns with
        | Some info => Returns (describeDistribution col info)
        | None =>
            Returns (quoted col ++ " does not have a distribution suitable for analysis.")
        end
    end
  else if isTop queryLower then
    let raw := Js.trim (dropLead "top" queryLower) in
    match resolveColumn raw columns with
    | None => Returns ("I couldn’t find a matching column for " ++ quoted raw ++ ".")
    | Some col =>
        let info := lookup col columns in
        if match info with Some i => (length (topValuesOf i) =? 0)%nat | None => true end
        then Returns ("Top values could not be determined for " ++ quoted col ++ ".")
        else
          match info with
          | Some i =>
              Returns
                ("Top values in " ++ quoted col ++ ": "
                 ++ Js.join ", "
                      (map (fun v => tv_value v ++ " (" ++ fmtPct (Some (tv_pct v)) ++ ")")
                         (firstn 5 (topValuesOf i))))
          | None => Raises
          end
    end
  else if isTime queryLower then
    if negb hasDate
    then Returns "This dataset does not contain a date column suitable for time analysis."
    else
      match firstDateColumn columns with
      | None => Returns "A date column was detected, but I couldn’t resolve it reliably."
      | Some dateCol =>
          if Js.isEmpty dateCol
          then Returns "A date column was detected, but I couldn’t resolve it reliably."
          else
            let info := lookup dateCol columns in
            let span :=
              "The dataset spans from "
              ++ match info with
                 | Some i => match dateMinOf i with Some m => m | None => "—" end
                 | None => "—"
                 end
              ++ " to "
              ++ match info with
                 | Some i => match dateMaxOf i with Some m => m | None => "—" end
                 | None => "—"
                 end
              ++ "." in
            let uniq :=
              " With "
              ++ match info with
                 | Some i => numToString (Num.ofNat (be_uniqueCount (baseOf i)))
                 | None => "—"
                 end
              ++ " unique dates, basic trend analysis is feasible." in
            if Js.includes "season" queryLower then
              Returns (span ++ uniq ++ " To confirm seasonality, you’d typically aggregate by week/month and compare recurring peaks across periods.")
            else if Js.includes "reveal" queryLower || Js.includes "appropriate" queryLower
                    || Js.includes "trend analysis" queryLower then
              Returns (span ++ uniq ++ " A sensible approach is to aggregate the main numeric metric by week/month and compare changes over time, then segment by key categories (country/device/category) to see drivers.")
            else Returns (span ++ uniq)
      end
  else if isKpiGap queryLower then
    Returns "Potential KPI gaps for a decision-ready dashboard include: growth rates (MoM/YoY), targets/benchmarks, profit or margin metrics, segmentation KPIs (by key categories), and trend KPIs (rolling averages). Without these, insights remain mostly descriptive."
  else if isNextSteps queryLower then
    Returns "Recommended next steps: segment the main metric by key categories (e.g., country/device/category), investigate extreme values, compare mean vs median trends, analyse time trends for shifts, and identify top contributors vs the long tail."
  else if isNotAnswerable queryLower then
    Returns "This dataset can describe what happened (totals, distributions, segments, trends), but it cannot reliably explain causality (why it happened), intent, or performance vs targets unless you add benchmarks, campaign context, or business rules."
  else if isDataImprove queryLower then
    Returns "To improve decision-making, add: targets/quotas, product/region hierarchy, customer IDs with lifecycle info, discount/promo flags, channel/source, and a clear profit/margin field. These unlock performance vs target, attribution, and actionable segmentation."
  else if isExec queryLower then
    Returns "Key considerations based on this dataset: outliers may distort averages (use medians + segmentation), dominant categories can hide minority behaviour, time trends are descriptive not explanatory, and this dataset supports monitoring and exploration—not causal claims."
  else
    Returns
      ("Based on the dataset structure and available statistics: the data supports descriptive analysis and high-level trend exploration. Outliers suggest caution when using averages, and dominant categories may hide smaller segments. If you want something specific, reference a column (e.g., "
       ++ quoted "explain cost" ++ ", " ++ quoted "top country" ++ ", "
       ++ quoted "distribution of order_value_EUR" ++ ", " ++ quoted "time coverage" ++ ").").

End Answers.

End Ask.
Import Ask.

(** ** Where a chart comes from

    What a candidate of [generateCharts] was computed from, by the type of its
    chart: a histogram and a box from the numbers of their column, a
    correlation matrix from [buildCorrMatrix] on its columns. *)

Section Origin.
Context {H : Host}.

Definition candidateOrigin (data : list Row) (c : Candidate) : Prop :=
  match spec c with
  | HistogramChart col bins edges counts min max total =>
      let values := columnNumbers data col in
      (12 <= length values)%nat /\
      bins = chooseBins (length values) /\
      exists h, computeHistogram values bins = Some h /\
        edges = hg_edges h /\ counts = hg_counts h /\
        min = hg_min h /\ max = hg_max h /\ total = hg_total h
  | BoxChart col min q1 median q3 max iqr outliers total =>
      exists box, computeBox (columnNumbers data col) = Some box /\
        min = bx_min box /\ q1 = bx_q1 box /\ median = bx_median box /\
        q3 = bx_q3 box /\ max = bx_max box /\ iqr = bx_iqr box /\
        outliers = firstn 200 (bx_outliers box) /\ total = bx_total box
  | CorrChart _ cols matrix =>
      exists n, buildCorrMatrix data cols = Some (matrix, n)
  | _ => True
  end.

End Origin.

(** ** Data sets of the examples *)

Module Samples.

(** The numbers of the data sets lie between 13 and 31 where they can: a
    date grammar that is lenient with lone numbers, and takes one for a
    month or (past 31) for a year, reads no date in the text of such a
    number.  The cells then read as numbers and as nothing else. *)

(** One column of numbers, a row for each. *)
Definition column (name : string) (values : list Q) : list Row :=
  map (fun v => [(name, CNum v)]) values.

(** Sixteen numbers: four times [13], twelve times [31]. *)
Definition gapRows : list Row :=
  column "x" (repeat 13 4 +++ repeat 31 12).



(** Twenty rows, three columns of small numbers. *)
Definition threeColumns : list Row :=
  map (fun i =>
         [("a", CNum (inject_Z (Z.of_nat (13 + i mod 5))));
          ("b", CNum (inject_Z (Z.of_nat (13 + (i * 3) mod 7))));
          ("c", CNum (inject_Z (Z.of_nat (13 + i mod 4))))])
    (seq 0 20).

(** Twenty rows of one column of texts: eighteen times the year [2020] and
    twice the day [2020-05-01]. *)
Definition yearRows : list Row :=
  map (fun i => [("year", CStr (if (i <? 18)%nat then "2020" else "2020-05-01"))])
    (seq 0 20).

(** Thirty rows: [order_id] counts from 1 to 30, [amount] holds numbers from
    13 to 25. *)
Definition orders : list Row :=
  map (fun i =>
         [("order_id", CNum (inject_Z (Z.of_nat i)));
          ("amount", CNum (inject_Z (Z.of_nat (13 + (i * 7) mod 13))))])
    (seq 1 30).

(** Twenty-five rows with the same [amount], and the profile of the column:
    numeric, not identifier-like, with [min = max]. *)
Definition flatRows : list Row := column "amount" (repeat 20 25).

Definition flatInfo : ColumnEDA :=
  NumericEDA (mkBase 0 1 (Some 25%nat) false)
    (Some 20) (Some 20) (Some 20) (Some 20) (Some 0) 0 0.

Definition flatProfile : EDAResult :=
  mkEDA 24 [] ["amount"] [("amount", flatInfo)].

(** The profile of four balances, three times [-20] and once [14]: the mean
    is [-11.5], the maximum [14], the standard deviation [17]. *)
Definition balanceInfo : ColumnEDA :=
  NumericEDA (mkBase 0 2 (Some 4%nat) false)
    (Some (-20)) (Some 14) (Some (-23 # 2)) (Some (-20)) (Some 17) 0 3.

Definition balanceProfile : EDAResult :=
  mkEDA 2 [] [] [("balance", balanceInfo)].

(** Forty-one rows, four columns.  In the first forty rows [a] is [13] and
    the other columns vary; in the last row [a] is [14] and [b] is missing. *)
Definition corrRows : list Row :=
  map (fun i =>
         [("a", CNum 13);
          ("b", CNum (inject_Z (Z.of_nat (13 + i mod 7))));
          ("c", CNum (inject_Z (Z.of_nat (13 + (i * i) mod 11))));
          ("d", CNum (inject_Z (Z.of_nat (13 + i mod 5))))])
    (seq 0 40)
  +++ [[("a", CNum 14); ("b", CNull); ("c", CNum 16); ("d", CNum 17)]].

End Samples.

(** ** Predicates of the statements *)

(** The elements of a list at the positions that a mask marks. *)
Definition marked (A : Type) (mask : list bool) (l : list A) : list A :=
  map snd (filter fst (combine mask l)).

(** The action [investigate], which the numeric rule alone gives (to the
    outlier warning and to the note on negative values). *)
Definition isInvestigate (i : Insight) : bool :=
  match ins_action i with Some Investigate => true | _ => false end.

(** A question is a time question when the time patterns match it and none of
    the intents that [answerQuestion] tests before does (the first match
    wins). *)
Definition isTimeQuestion (q : string) : bool :=
  let queryLower := Js.toLowerCase (Js.trim q) in
  negb (isSummary queryLower) && negb (isWhatStandsOut queryLower)
  && negb (isMainMetric queryLower) && negb (isOutliers queryLower)
  && negb (isSkew queryLower) && negb (isExplain queryLower)
  && negb (isDistribution queryLower) && negb (isTop queryLower)
  && isTime queryLower.

(** The profile of a call has a column typed as a date. *)
Definition hasDateColumn (eda : option EDAResult) : bool :=
  existsb (fun e => isDateType (snd e))
    (match eda with Some eda => columns eda | None => [] end).

Definition noDateSentence : string :=
  "This dataset does not contain a date column suitable for time analysis.".

(** ** Predicates of the further properties *)

(** The pairs that [buildTimeSeries] collects: the date and the number of
    every row in which both are read. *)
Definition timePairs `{Host} (data : list Row) (dateCol numCol : string) : list (Z * Q) :=
  flat_map (fun row =>
    match safeToDateLoose (cell row dateCol), safeToNumberLoose (cell row numCol) with
    | Some d, Some y => [(d, y)]
    | _, _ => []
    end) data.

(** The pairs that [buildScatter] collects. *)
Definition scatterPairs (data : list Row) (xCol yCol : string) : list (Q * Q) :=
  flat_map (fun row =>
    match safeToNumberLoose (cell row xCol), safeToNumberLoose (cell row yCol) with
    | Some x, Some y => [(x, y)]
    | _, _ => []
    end) data.

(** The cells of a column that the fallback detection looks at: those of the
    sampled rows that are not missing. *)
Definition sampledCells (data : list Row) (col : string) : list Cell :=
  filter (fun v => negb (isMissing v)) (map (fun row => cell row col) (sampleRows data 250)).

(** Whether a cell reads as a number, and as a date. *)
Definition readsAsNumber (v : Cell) : bool :=
  match safeToNumberLoose v with Some _ => true | None => false end.

Definition readsAsDate `{Host} (v : Cell) : bool :=
  match safeToDateLoose v with Some _ => true | None => false end.

(** The test of the fallback detection on a column: not detected before, at
    least 15 sampled cells, and the share [minRatio] of them read. *)
Definition detectable (parses : Cell -> bool) (minRatio : Q)
    (data : list Row) (already : list string) (col : string) : bool :=
  negb (setHas col already)
  && (15 <=? length (sampledCells data col))%nat
  && Num.leb minRatio
       (ratioOf (length (filter parses (sampledCells data col)))
                (length (sampledCells data col))).

(** The purpose that [generateCharts] gives to a chart of each type. *)
Definition purposeOfType (t : ChartType) : Purpose :=
  match t with
  | THistogram | TBox => Distribution
  | TBar => Composition
  | TTime => Trend
  | TScatter | TCorr => Relationship
  end.

(** The number of charts of a type. *)
Definition countType (t : ChartType) (charts : list ChartSpec) : nat :=
  length (filter (fun s => chartTypeEqb (chartType s) t) charts).

Section Shape.
Context {H : Host}.

(** What the loops of [generateCharts] establish for a candidate before they
    push it: where its columns come from, which tests they passed, how its
    label reads. *)
Definition candidateWellFormed (data : list Row) (eda : EDAResult) (c : Candidate) : Prop :=
  purpose c = purposeOfType (chartType (spec c)) /\
  match spec c with
  | HistogramChart col _ _ _ _ _ _
  | BoxChart col _ _ _ _ _ _ _ _ =>
      In col (numericColumns data eda) /\
      isIdLikeNumeric col (lookup col (columns eda)) (length data) = false
  | BarChart col labels counts maxBars =>
      In col (categoricalColumns data eda) /\
      setHas col (numericColumns data eda) = false /\
      setHas col (dateColumns data eda) = false /\
      isIdLikeCategorical col (lookup col (columns eda)) = false /\
      maxBars = 10%nat /\
      length labels = length counts /\
      (1 <= length labels)%nat /\ (length labels <= 11)%nat
  | TimeChart label xColumn yColumn points granularity =>
      In xColumn (dateColumns data eda) /\ In yColumn (numericColumns data eda) /\
      nameHintsId xColumn = false /\
      label = yColumn ++ " over " ++ xColumn /\
      buildTimeSeries data xColumn yColumn = Some (points, granularity)
  | ScatterChart label xColumn yColumn points correlation =>
      In (xColumn, yColumn) (pairsOf (numericColumns data eda)) /\
      label = yColumn ++ " vs " ++ xColumn /\
      exists built, buildScatter data xColumn yColumn = Some built /\
        points = sc_points built /\ correlation = sc_correlation built
  | CorrChart label cols matrix =>
      label = "Correlation (numeric)" /\
      cols = rankedColumns eda (numericColumns data eda) /\
      (4 <= length cols)%nat /\
      exists n, buildCorrMatrix data cols = Some (matrix, n)
  end.

End Shape.

(** ** The dataset store ([context/DatasetContext.tsx]) *)

Module Store.

(** The keys of all the rows, in the order in which they first appear. *)
Definition allKeys (data : list Row) : list string :=
  setOf (flat_map (fun row => map fst row) data).

Definition computeMissingValues (data : list Row) : nat :=
  match data with
  | [] => O
  | _ =>
      let keys := allKeys data in
      fold_left (fun missing row =>
          fold_left (fun missing k =>
              if isMissing (cell row k) then S missing else missing)
            keys missing)
        data O
  end.

Definition computeColumnsCount (data : list Row) : nat := length (allKeys data).

(** The counts of the [meta] argument, each of which may be absent; the
    file fields of [meta] pass through and are not read. *)
Record MetaArg : Type := mkMetaArg {
  given_rows : option nat;
  given_columns : option nat;
  given_missingValues : option nat
}.

(** The five state variables of the provider. *)
Record DatasetState : Type := mkState {
  st_data : option (list Row);
  st_meta : option Meta;
  st_eda : option EDAResult;
  st_kpis : list KPI;
  st_charts : list ChartSpec
}.

Section Setter.
Context {H : Host}.

(** The state after [setDataset(d, m, e, k, ch)]: [d] that is no array
    reads as no rows; an absent or empty [k] or [ch] is computed here. *)
Definition setDataset (d : option (list Row)) (m : option MetaArg)
    (e : option EDAResult) (k : option (list KPI)) (ch : option (list ChartSpec))
  : DatasetState :=
  let rows := match d with Some rows => rows | None => [] end in
  let given (field : MetaArg -> option nat) (computed : nat) : nat :=
    match m with
    | Some m => match field m with Some v => v | None => computed end
    | None => computed
    end in
  let metaSafe :=
    mkMeta (given given_rows (length rows))
      (given given_columns (computeColumnsCount rows))
      (given given_missingValues (computeMissingValues rows)) in
  let edaSafe := match e with Some e => e | None => runEDA rows end in
  let kpisSafe :=
    match k with
    | Some (x :: l) => x :: l
    | _ => generateKPIs rows (Some edaSafe)
    end in
  let chartsSafe :=
    match ch with
    | Some (x :: l) => x :: l
    | _ => generateCharts rows (Some edaSafe)
    end in
  mkState (Some rows) (Some metaSafe) (Some edaSafe) kpisSafe chartsSafe.

End Setter.

End Store.

(** ** The dashboard ([dashboard/page.tsx]) *)

Module Dashboard.

(** What the page reads from the store. *)
Record Page : Type := mkPage {
  pg_data : option (list Row);
  pg_meta : option Meta;
  pg_eda : option EDAResult
}.

(** [Boolean(data && meta && eda)] *)
Definition hasDataset (p : Page) : bool :=
  match pg_data p, pg_meta p, pg_eda p with
  | Some _, Some _, Some _ => true
  | _, _, _ => false
  end.

(** [/(^id$|_id$| id$|uuid|guid|hash|token|key$|^key|identifier)/] on a name
    that is already in lower case. *)
Definition idNamePattern (n : string) : bool :=
  String.eqb n "id" || Js.endsWith "_id" n || Js.endsWith " id" n
  || Js.includes "uuid" n || Js.includes "guid" n || Js.includes "hash" n
  || Js.includes "token" n || Js.endsWith "key" n || Js.startsWith "key" n
  || Js.includes "identifier" n.

Definition isIdLikeColumn (p : Page) (col : string) : bool :=
  if negb (hasDataset p) then false
  else
    let lower := Js.trim (Js.toLowerCase col) in
    if idNamePattern lower then true
    else
      match pg_eda p with
      | None => false
      | Some eda =>
          match lookup col (columns eda) with
          | None => false
          | Some info =>
              if be_inferredAsId (baseOf info) then true
              else
                let nonMissing :=
                  match be_nonMissingCount (baseOf info) with Some k => k | None => O end in
                let unique := be_uniqueCount (baseOf info) in
                if (nonMissing =? 0)%nat then false
                else (20 <=? unique)%nat && Num.ltb (98 # 100) (ratioOf unique nonMissing)
          end
      end.

(** [ch.column], a string on every chart: the column, or the label of a
    time, scatter or correlation chart. *)
Definition chartColumn (ch : ChartSpec) : string :=
  match ch with
  | HistogramChart c _ _ _ _ _ _ => c
  | BoxChart c _ _ _ _ _ _ _ _ => c
  | BarChart c _ _ _ => c
  | TimeChart c _ _ _ _ => c
  | ScatterChart c _ _ _ _ => c
  | CorrChart c _ _ => c
  end.

(** [ch.xColumn] and [ch.yColumn], on a time and a scatter chart. *)
Definition chartX (ch : ChartSpec) : option string :=
  match ch with
  | TimeChart _ x _ _ _ => Some x
  | ScatterChart _ x _ _ _ => Some x
  | _ => None
  end.

Definition chartY (ch : ChartSpec) : option string :=
  match ch with
  | TimeChart _ _ y _ _ => Some y
  | ScatterChart _ _ y _ _ => Some y
  | _ => None
  end.

(** [ch.columns], on a correlation chart. *)
Definition chartColumns (ch : ChartSpec) : option (list string) :=
  match ch with
  | CorrChart _ cols _ => Some cols
  | _ => None
  end.

(** No chart has a [dateColumn] or a [valueColumn]; the tests of these two
    fields never fire. *)
Definition chartUsesId (p : Page) (ch : ChartSpec) : bool :=
  if isIdLikeColumn p (chartColumn ch) then true
  else if match chartX ch with Some x => isIdLikeColumn p x | None => false end then true
  else if match chartY ch with Some y => isIdLikeColumn p y | None => false end then true
  else
    match chartColumns ch with
    | Some cols => existsb (isIdLikeColumn p) cols
    | None => false
    end.

Definition typeName (t : ChartType) : string :=
  match t with
  | THistogram => "histogram"
  | TBox => "box"
  | TBar => "bar"
  | TTime => "time"
  | TScatter => "scatter"
  | TCorr => "corr"
  end.

Definition keyOf (c : ChartSpec) : string :=
  typeName (chartType c) ++ "::" ++ chartColumn c ++ "::"
  ++ match chartX c with Some x => x | None => "" end ++ "::"
  ++ match chartY c with Some y => y | None => "" end.

(** [push(c)] on the picks and the keys seen; [c] may be [undefined]. *)
Definition push (st : list ChartSpec * list string) (c : option ChartSpec)
  : list ChartSpec * list string :=
  match c with
  | None => st
  | Some c =>
      let k := keyOf c in
      if setHas k (snd st) then st else ((fst st +++ [c]), setAdd k (snd st))
  end.

(** A loop [for (const c of clean) { if (pick.length >= n) break; push(c); }]:
    after the [break] nothing changes. *)
Definition pushUpTo (n : nat) (clean : list ChartSpec) (st : list ChartSpec * list string)
  : list ChartSpec * list string :=
  fold_left (fun st c => if (n <=? length (fst st))%nat then st else push st (Some c))
    clean st.

(** [a ?? b] *)
Definition orElse (a b : option ChartSpec) : option ChartSpec :=
  match a with Some _ => a | None => b end.

(** [order[severity ?? "info"] ?? 1] *)
Definition order (s : option Severity) : nat :=
  match s with
  | Some Warning => 0
  | Some Info | None => 1
  | Some Positive => 2
  end.

(** The insight shown when there is no other; it has no column, action or
    questions. *)
Definition fallbackInsight : Insight :=
  mkInsight "fallback-1"
    ("No major anomalies detected. Try asking " ++ Js.quote ++ "trend" ++ Js.quote
     ++ " or " ++ Js.quote ++ "top <column>" ++ Js.quote ++ ".")
    (Some Info) None None [].

Section PageValues.
Context {H : Host}.

Definition chosenCharts (p : Page) : list ChartSpec :=
  if negb (hasDataset p) then []
  else
    match pg_data p, pg_eda p with
    | Some data, Some eda =>
        let all := generateCharts data (Some eda) in
        let clean := filter (fun c => negb (chartUsesId p c)) all in
        let byType := fun t => filter (fun c => chartTypeEqb (chartType c) t) clean in
        let st := push ([], []) (hd_error (byType TTime)) in
        let st := push st (orElse (hd_error (byType TScatter)) (hd_error (byType TCorr))) in
        let st := push st (orElse (hd_error (byType THistogram)) (hd_error (byType TBox))) in
        let st := push st (hd_error (byType TBar)) in
        let st := pushUpTo 8 clean st in
        let st := if (length (fst st) <? 4)%nat then pushUpTo 4 clean st else st in
        let pick := fst st in
        if negb (length pick =? 0)%nat then firstn 8 pick
        else if negb (length clean =? 0)%nat then firstn 8 clean
        else firstn 8 all
    | _, _ => []
    end.

Definition visibleKpis (p : Page) : list KPI :=
  if negb (hasDataset p) then []
  else
    match pg_data p, pg_eda p with
    | Some data, Some eda => firstn 6 (generateKPIs data (Some eda))
    | _, _ => []
    end.

Definition insightsAll (p : Page) : list Insight :=
  if negb (hasDataset p) then []
  else
    match pg_eda p with
    | Some eda => generateInsights eda (visibleKpis p)
    | None => []
    end.

Definition insights (p : Page) : list Insight :=
  let sorted :=
    sortBy (fun a b => (order (ins_severity a) <=? order (ins_severity b))%nat)
      (insightsAll p) in
  let top := firstn 6 sorted in
  match top with
  | [] => [fallbackInsight]
  | _ => top
  end.

End PageValues.

End Dashboard.

(** What the loops of [chosenCharts] keep: the keys seen are the keys of the
    picks, without repeats, and every pick is one of [clean]. *)
Definition pickInvariant (clean : list ChartSpec) (st : list ChartSpec * list string)
  : Prop :=
  snd st = map Dashboard.keyOf (fst st) /\ NoDup (snd st) /\
  (forall c, In c (fst st) -> In c clean).

(** ** The bar chart of the dashboard ([_components/InteractiveCharts.tsx]) *)

Module Interactive.

Definition topNWithOther (rows : list TopBarItem) (n : nat) : list TopBarItem :=
  let sorted := sortBy (fun a b => (snd b <=? snd a)%nat) rows in
  let top := firstn n sorted in
  let rest := skipn n sorted in
  let other := list_sum (map snd rest) in
  if (0 <? other)%nat then (top +++ [("Other", other)]) else top.

(** [labels.map((l, i) => ({ label: String(l), count: Number(counts[i] ?? 0) }))] *)
Definition rawRows (labels : list string) (counts : list nat) : list TopBarItem :=
  map (fun e => (snd e, nth (fst e) counts O)) (combine (seq 0 (length labels)) labels).

(** The rows that [BarInteractive] draws for a bar chart. *)
Definition barRows (labels : list string) (counts : list nat) (maxBars : nat)
  : list TopBarItem :=
  topNWithOther (rawRows labels counts) (Nat.max 5 (Nat.min 12 maxBars)).

End Interactive.

(** ** A data set with a date, a category and two measures *)

Module Sales.

(** The day of row [i]: [2021-01-01] to [2021-01-31], then [2021-02-01] to
    [2021-02-09]. *)
Definition twoDigits (n : nat) : string :=
  String (ascii_of_nat (48 + n / 10)) (String (ascii_of_nat (48 + n mod 10)) EmptyString).

Definition day (i : nat) : string :=
  if (i <? 31)%nat then "2021-01-" ++ twoDigits (i + 1)
  else "2021-02-" ++ twoDigits (i - 30).

Definition region (i : nat) : string :=
  match (i mod 4)%nat with
  | O => "north"
  | 1%nat => "south"
  | _ => "east"
  end.

(** Forty rows: a day, a region, and two measures between 13 and 25. *)
Definition rows : list Row :=
  map (fun i =>
         [("day", CStr (day i));
          ("region", CStr (region i));
          ("amount", CNum (inject_Z (Z.of_nat (13 + (i * 7) mod 13))));
          ("units", CNum (inject_Z (Z.of_nat (13 + i mod 5))))])
    (seq 0 40).

End Sales.

(* ================================================================== *)
(** * Properties *)
(* ================================================================== *)

(** ** Numbers *)

Lemma ltb_lt x y : Num.ltb x y = true <-> x < y.
Proof.
  unfold Num.ltb. rewrite negb_true_iff. split; intro H.
  - apply Qnot_le_lt. intro L. apply Qle_bool_iff in L. congruence.
  - destruct (Qle_bool y x) eqn:E; [|reflexivity].
    apply Qle_bool_iff in E. exfalso. exact (Qlt_not_le _ _ H E).
Qed.

Lemma leb_le x y : Num.leb x y = true <-> x <= y.
Proof. apply Qle_bool_iff. Qed.

Lemma ltb_ge x y : Num.ltb x y = false <-> y <= x.
Proof.
  unfold Num.ltb. rewrite negb_false_iff. apply Qle_bool_iff.
Qed.

Lemma leb_gt x y : Num.leb x y = false <-> y < x.
Proof.
  unfold Num.leb. split; intro H.
  - apply Qnot_le_lt. intro L. apply Qle_bool_iff in L. congruence.
  - destruct (Qle_bool x y) eqn:E; [|reflexivity].
    apply Qle_bool_iff in E. exfalso. exact (Qlt_not_le _ _ H E).
Qed.

(** ** The stable sort *)

Section SortFacts.
Variable A : Type.
Variable le : A -> A -> bool.

Lemma insertBy_length x l : length (insertBy le x l) = S (length l).
Proof.
  induction l as [|y l IH]; simpl; [reflexivity|].
  destruct (le x y); simpl; congruence.
Qed.

Lemma sortBy_length l : length (sortBy le l) = length l.
Proof.
  induction l as [|x l IH]; simpl; [reflexivity|].
  rewrite insertBy_length. congruence.
Qed.

Lemma insertBy_In x y l : In y (insertBy le x l) <-> y = x \/ In y l.
Proof.
  induction l as [|z l IH]; simpl.
  - intuition congruence.
  - destruct (le x z); simpl; rewrite ?IH; intuition congruence.
Qed.

Lemma sortBy_In y l : In y (sortBy le l) <-> In y l.
Proof.
  induction l as [|x l IH]; simpl; [tauto|].
  rewrite insertBy_In, IH. intuition congruence.
Qed.

Hypothesis le_total : forall x y, le x y = false -> le y x = true.
Hypothesis le_trans : forall x y z, le x y = true -> le y z = true -> le x z = true.

Lemma insertBy_sorted x l :
  StronglySorted (fun a b => le a b = true) l ->
  StronglySorted (fun a b => le a b = true) (insertBy le x l).
Proof.
  induction 1 as [|y l Hs IH Hy]; simpl.
  - constructor; [constructor|constructor].
  - destruct (le x y) eqn:E.
    + constructor; [constructor; assumption|].
      constructor; [exact E|].
      rewrite Forall_forall in *. intros z Hz. eauto.
    + constructor; [exact IH|].
      rewrite Forall_forall in *. intros z Hz.
      apply insertBy_In in Hz. destruct Hz as [->|Hz]; auto.
Qed.

Lemma sortBy_sorted l : StronglySorted (fun a b => le a b = true) (sortBy le l).
Proof.
  induction l as [|x l IH]; simpl; [constructor|].
  apply insertBy_sorted, IH.
Qed.
End SortFacts.

(** ** Sorted arrays of numbers *)

Lemma leb_total x y : Num.leb x y = false -> Num.leb y x = true.
Proof.
  intro H. apply leb_gt in H. apply leb_le. apply Qlt_le_weak, H.
Qed.

Lemma leb_trans x y z :
  Num.leb x y = true -> Num.leb y z = true -> Num.leb x z = true.
Proof.
  rewrite !leb_le. apply Qle_trans.
Qed.

Lemma sortAsc_sorted xs : StronglySorted Qle (sortAsc xs).
Proof.
  pose proof (@sortBy_sorted Q Num.leb leb_total leb_trans xs) as H.
  unfold sortAsc. induction H as [|y l Hs IH Hy]; constructor; auto.
  rewrite Forall_forall in *. intros z Hz. apply leb_le. auto.
Qed.

Lemma sortAsc_length xs : length (sortAsc xs) = length xs.
Proof. apply sortBy_length. Qed.

Lemma sortAsc_In x xs : In x (sortAsc xs) <-> In x xs.
Proof. apply sortBy_In. Qed.

Lemma sorted_at_le l i j :
  StronglySorted Qle l -> (i <= j)%nat -> (j < length l)%nat ->
  at_ l i <= at_ l j.
Proof.
  unfold at_. intro H. revert i j.
  induction H as [|x l Hs IH Hx]; intros i j Hij Hj; simpl in Hj; [lia|].
  destruct i as [|i], j as [|j]; simpl; try lia.
  - apply Qle_refl.
  - rewrite Forall_forall in Hx. apply Hx. apply nth_In. lia.
  - apply IH; lia.
Qed.




(** ** Quantiles by linear interpolation *)

Lemma ofNat_nonneg n : 0 <= Num.ofNat n.
Proof.
  unfold Num.ofNat. change 0 with (inject_Z 0). rewrite <- Zle_Qle. lia.
Qed.

Lemma floor_nat_ofNat x : 0 <= x -> Num.ofNat (Num.floor_nat x) = inject_Z (Qfloor x).
Proof.
  intro H. unfold Num.ofNat, Num.floor_nat. rewrite Z2Nat.id; [reflexivity|].
  change 0%Z with (Qfloor 0). apply Qfloor_resp_le, H.
Qed.

Lemma interpolate_between a b r :
  a <= b -> 0 <= r -> r <= 1 -> a <= a + (b - a) * r /\ a + (b - a) * r <= b.
Proof.
  intros Hab H0 H1.
  assert (P1 : 0 <= (b - a) * r) by (apply Qmult_le_0_compat; lra).
  assert (P2 : 0 <= (b - a) * (1 - r)) by (apply Qmult_le_0_compat; lra).
  split; [lra|].
  setoid_replace (a + (b - a) * r) with (b - (b - a) * (1 - r)) by ring.
  lra.
Qed.


Lemma quantileBase_scaled n (a : Z) (d : positive) :
  (0 <= a)%Z ->
  quantileBase n (a # d) = Z.to_nat (Z.of_nat (n - 1) * a / Zpos d).
Proof.
  intros _. unfold quantileBase, Num.floor_nat, Num.ofNat, Qfloor, Qmult, inject_Z.
  simpl Qnum. simpl Qden. reflexivity.
Qed.




(** ** The box summary *)

Lemma at_In l i : (i < length l)%nat -> In (at_ l i) l.
Proof. intro H. unfold at_. apply nth_In, H. Qed.





(** ** The histogram *)

Lemma incrAt_length i counts : length (incrAt i counts) = length counts.
Proof.
  revert i. induction counts as [|c cs IH]; intros [|i]; simpl; auto.
Qed.

Lemma incrAt_sum i counts :
  (i < length counts)%nat -> list_sum (incrAt i counts) = S (list_sum counts).
Proof.
  revert i. induction counts as [|c cs IH]; intros [|i] H; simpl in *; try lia.
  rewrite IH by lia. lia.
Qed.

Lemma binIndex_range bins min span v :
  (1 <= bins)%nat ->
  (0 <= binIndex bins min span v < Z.of_nat bins)%Z.
Proof.
  intro H. unfold binIndex. lia.
Qed.

Lemma countValue_length bins min span counts v :
  length (countValue bins min span counts v) = length counts.
Proof.
  unfold countValue. destruct (_ <? 0)%Z; [reflexivity|apply incrAt_length].
Qed.

Lemma countValue_sum bins min span counts v :
  (1 <= bins)%nat -> length counts = bins ->
  list_sum (countValue bins min span counts v) = S (list_sum counts).
Proof.
  intros Hb Hl. unfold countValue.
  pose proof (binIndex_range min span v Hb) as Hr.
  destruct (_ <? 0)%Z eqn:E; [apply Z.ltb_lt in E; lia|].
  apply incrAt_sum. lia.
Qed.

Lemma counting_loop_sum bins min span clean counts :
  (1 <= bins)%nat -> length counts = bins ->
  list_sum (fold_left (countValue bins min span) clean counts)
    = (length clean + list_sum counts)%nat /\
  length (fold_left (countValue bins min span) clean counts) = bins.
Proof.
  intros Hb. revert counts.
  induction clean as [|v clean IH]; intros counts Hl; simpl; [auto|].
  destruct (IH (countValue bins min span counts v)) as [S1 L1].
  { rewrite countValue_length. exact Hl. }
  rewrite S1, countValue_sum by assumption. split; [lia|exact L1].
Qed.

Lemma list_sum_repeat_zero n : list_sum (repeat O n) = O.
Proof. induction n; simpl; auto. Qed.

(** Every value is counted in exactly one bin. *)
Lemma computeHistogram_sound values bins h :
  (1 <= bins)%nat ->
  computeHistogram values bins = Some h ->
  list_sum (hg_counts h) = hg_total h /\
  hg_total h = length values /\
  length (hg_counts h) = bins.
Proof.
  intros Hb H. unfold computeHistogram in H.
  pose proof (sortAsc_length values) as Hlen.
  destruct (length (sortAsc values) =? 0)%nat; [discriminate|].
  cbv zeta in H. injection H as <-. cbn [hg_counts hg_total].
  match goal with |- context [fold_left (countValue bins ?mn ?sp) ?l ?c] =>
    destruct (@counting_loop_sum bins mn sp l c Hb (repeat_length O bins)) as [S1 L1]
  end.
  rewrite list_sum_repeat_zero in S1.
  repeat split; [rewrite S1; lia|exact Hlen|exact L1].
Qed.

(** ** Arrays *)

Lemma firstn_In (A : Type) (x : A) n l : In x (firstn n l) -> In x l.
Proof.
  revert l. induction n as [|n IH]; intros [|y l]; simpl; try tauto.
  intros [->|Hx]; [now left|right; apply IH, Hx].
Qed.

(** Sorting permutes; filters and prefixes keep the order. *)
Lemma insertBy_perm (A : Type) (le : A -> A -> bool) x l :
  Permutation (insertBy le x l) (x :: l).
Proof.
  induction l as [|y l IH]; simpl; [apply Permutation_refl|].
  destruct (le x y); [apply Permutation_refl|].
  apply Permutation_trans with (y :: x :: l); [constructor; exact IH|apply perm_swap].
Qed.

Lemma sortBy_perm (A : Type) (le : A -> A -> bool) l : Permutation (sortBy le l) l.
Proof.
  induction l as [|x l IH]; simpl; [constructor|].
  apply Permutation_trans with (x :: sortBy le l); [apply insertBy_perm|].
  constructor. exact IH.
Qed.


Lemma firstn_sorted (A : Type) (R : A -> A -> Prop) n l :
  StronglySorted R l -> StronglySorted R (firstn n l).
Proof.
  intro Hs. revert n. induction Hs as [|x l Hs IH Hx]; intros [|n]; simpl; try constructor.
  - apply IH.
  - rewrite Forall_forall in *. intros y Hy. apply Hx. apply (firstn_In _ _ _ Hy).
Qed.

Lemma sorted_firstn_skipn (A : Type) (R : A -> A -> Prop) k l x y :
  StronglySorted R l -> In x (firstn k l) -> In y (skipn k l) -> R x y.
Proof.
  intro Hs. revert k. induction Hs as [|a l Hs IH Ha]; intros [|k]; simpl; try tauto.
  rewrite Forall_forall in Ha.
  intros [<-|Hx] Hy.
  - apply Ha. revert Hy. clear. revert l.
    induction k as [|k IHk]; intros [|b l]; simpl; auto.
  - eapply IH; eassumption.
Qed.

Lemma filter_perm_length (A : Type) (p : A -> bool) l l' :
  Permutation l l' -> length (filter p l) = length (filter p l').
Proof.
  induction 1; simpl; try congruence.
  - destruct (p x); simpl; congruence.
  - destruct (p x), (p y); reflexivity.
Qed.


Lemma Forall_flat_map (A B : Type) (P : B -> Prop) (f : A -> list B) l :
  (forall x, In x l -> Forall P (f x)) -> Forall P (flat_map f l).
Proof.
  intro Hf. apply Forall_forall. intros y Hy.
  apply in_flat_map in Hy. destruct Hy as (x & Hx & Hy).
  specialize (Hf x Hx). rewrite Forall_forall in Hf. auto.
Qed.

(** ** The diversity rule *)

Lemma sortByScoreDesc_In (A : Type) (f : A -> Q) (x : A) xs :
  In x (sortByScoreDesc f xs) <-> In x xs.
Proof. apply sortBy_In. Qed.

Lemma sortByScoreDesc_length (A : Type) (f : A -> Q) (xs : list A) :
  length (sortByScoreDesc f xs) = length xs.
Proof. apply sortBy_length. Qed.

Lemma sortByScoreDesc_sorted (A : Type) (f : A -> Q) (xs : list A) :
  StronglySorted (fun a b => f b <= f a) (sortByScoreDesc f xs).
Proof.
  unfold sortByScoreDesc.
  assert (T : forall x y : A, Num.leb (f y) (f x) = false -> Num.leb (f x) (f y) = true).
  { intros x y E. apply leb_total, E. }
  assert (Tr : forall x y z : A, Num.leb (f y) (f x) = true ->
               Num.leb (f z) (f y) = true -> Num.leb (f z) (f x) = true).
  { intros x y z E1 E2. eapply leb_trans; eassumption. }
  pose proof (@sortBy_sorted A (fun a b => Num.leb (f b) (f a)) T Tr xs) as S.
  induction S as [|y l Hs IH Hy]; constructor; auto.
  rewrite Forall_forall in *. intros z Hz. apply leb_le. auto.
Qed.

Lemma indexed_length cands : length (indexed cands) = length cands.
Proof.
  unfold indexed. rewrite length_combine, length_seq. apply Nat.min_id.
Qed.

Lemma indexed_fst cands : map fst (indexed cands) = seq 0 (length cands).
Proof.
  unfold indexed. generalize 0%nat.
  induction cands as [|c cands IH]; intro k; simpl; [reflexivity|].
  f_equal. apply IH.
Qed.

Lemma indexed_snd cands : map snd (indexed cands) = cands.
Proof.
  unfold indexed. generalize 0%nat.
  induction cands as [|c cands IH]; intro k; simpl; [reflexivity|].
  f_equal. apply IH.
Qed.

Lemma indexed_In cands c : In c (indexed cands) -> In (snd c) cands.
Proof.
  intro Hin. rewrite <- (indexed_snd cands). apply in_map, Hin.
Qed.

(** Both loops only ever push the candidate at hand. *)
Lemma takeDiverse_cases max picks c :
  takeDiverse max picks c = picks \/ takeDiverse max picks c = picks +++ [c].
Proof.
  unfold takeDiverse. destruct (max <=? length picks)%nat; [now left|].
  destruct (negb (canTake picks (snd c))); [now left|now right].
Qed.

Lemma backfill_cases min picks c :
  backfill min picks c = picks \/ backfill min picks c = picks +++ [c].
Proof.
  unfold backfill. destruct (min <=? length picks)%nat; [now left|].
  destruct (existsb _ picks); [now left|now right].
Qed.

Lemma loop_picks_from (step : list Indexed -> Indexed -> list Indexed) :
  (forall picks c, step picks c = picks \/ step picks c = picks +++ [c]) ->
  forall sorted picks x,
    In x (fold_left step sorted picks) -> In x picks \/ In x sorted.
Proof.
  intros Hstep sorted.
  induction sorted as [|c sorted IH]; intros picks x Hx; simpl in *; [now left|].
  apply IH in Hx. destruct Hx as [Hx|Hx]; [|now right; right].
  destruct (Hstep picks c) as [E|E]; rewrite E in Hx; [now left|].
  apply in_app_or in Hx. destruct Hx as [Hx|[<-|[]]]; [now left|now right; left].
Qed.

Lemma loop_picks_grow (step : list Indexed -> Indexed -> list Indexed) :
  (forall picks c, step picks c = picks \/ step picks c = picks +++ [c]) ->
  forall sorted picks,
    (length picks <= length (fold_left step sorted picks))%nat /\
    forall x, In x picks -> In x (fold_left step sorted picks).
Proof.
  intros Hstep sorted.
  induction sorted as [|c sorted IH]; intros picks; simpl; [auto|].
  destruct (IH (step picks c)) as [L K].
  destruct (Hstep picks c) as [E|E]; rewrite E in *.
  - auto.
  - rewrite length_app in L. simpl in L. split; [lia|].
    intros x Hx. apply K. apply in_or_app. now left.
Qed.

(** Every chart that [pickDiverse] returns is the specification of one of
    the candidates. *)
Lemma pickDiverse_from cands min max s :
  In s (pickDiverse cands min max) -> exists c, In c cands /\ spec c = s.
Proof.
  unfold pickDiverse. intro Hs.
  set (sorted := indexed (sortByScoreDesc score cands)) in *.
  apply firstn_In in Hs. apply in_map_iff in Hs. destruct Hs as (x & <- & Hx).
  assert (Hsorted : In x sorted).
  { destruct (length (fold_left (takeDiverse max) sorted []) <? min)%nat.
    - apply (loop_picks_from (backfill min) (backfill_cases min)) in Hx.
      destruct Hx as [Hx|Hx]; [|exact Hx].
      apply (loop_picks_from (takeDiverse max) (takeDiverse_cases max)) in Hx.
      destruct Hx as [[]|Hx]; exact Hx.
    - apply (loop_picks_from (takeDiverse max) (takeDiverse_cases max)) in Hx.
      destruct Hx as [[]|Hx]; exact Hx. }
  exists (snd x). split; [|reflexivity].
  apply indexed_In in Hsorted. apply sortByScoreDesc_In in Hsorted. exact Hsorted.
Qed.

Lemma pickDiverse_at_most cands min max :
  (length (pickDiverse cands min max) <= max)%nat.
Proof.
  unfold pickDiverse. apply firstn_le_length.
Qed.

(** The second loop stops short of [min] only when every candidate is
    picked. *)
Lemma backfill_fills min sorted picks :
  (min <= length (fold_left (backfill min) sorted picks))%nat \/
  forall c, In c sorted ->
    In (fst c) (map fst (fold_left (backfill min) sorted picks)).
Proof.
  revert picks. induction sorted as [|c sorted IH]; intro picks; simpl.
  - right. intros c [].
  - destruct (IH (backfill min picks c)) as [L|R]; [now left|].
    pose proof (loop_picks_grow (backfill min) (backfill_cases min) sorted
                  (backfill min picks c)) as [G K].
    unfold backfill in *.
    destruct (min <=? length picks)%nat eqn:E1.
    + left. apply Nat.leb_le in E1. lia.
    + destruct (existsb (fun p => (fst p =? fst c)%nat) picks) eqn:E2.
      * right. intros d [<-|Hd]; [|apply R, Hd].
        apply existsb_exists in E2. destruct E2 as (p & Hp & Ep).
        apply Nat.eqb_eq in Ep. rewrite <- Ep. apply in_map, K, Hp.
      * right. intros d [<-|Hd]; [|apply R, Hd].
        apply in_map, K. apply in_or_app. right. now left.
Qed.

Lemma pickDiverse_at_least cands min max :
  (min <= max)%nat -> (min <= length cands)%nat ->
  (min <= length (pickDiverse cands min max))%nat.
Proof.
  intros Hmm Hn. unfold pickDiverse.
  set (sorted := indexed (sortByScoreDesc score cands)).
  assert (Hlen : length sorted = length cands).
  { unfold sorted. rewrite indexed_length. apply sortByScoreDesc_length. }
  rewrite length_firstn, length_map.
  destruct (length (fold_left (takeDiverse max) sorted []) <? min)%nat eqn:E.
  - destruct (backfill_fills min sorted (fold_left (takeDiverse max) sorted []))
      as [L|R]; [lia|].
    assert (length sorted <=
            length (fold_left (backfill min) sorted
                      (fold_left (takeDiverse max) sorted [])))%nat.
    { rewrite <- (length_map fst sorted).
      rewrite <- (length_map fst (fold_left _ sorted _)).
      apply NoDup_incl_length.
      - unfold sorted. rewrite indexed_fst. apply seq_NoDup.
      - intros i Hi. apply in_map_iff in Hi. destruct Hi as (c & <- & Hc).
        apply R, Hc. }
    lia.
  - apply Nat.ltb_ge in E. lia.
Qed.

(** ** The two loops of [pickDiverse] *)

Lemma marked_cons (A : Type) (t : bool) mask (c : A) l :
  marked (t :: mask) (c :: l) = if t then c :: marked mask l else marked mask l.
Proof. unfold marked. simpl. destruct t; reflexivity. Qed.

Lemma marked_nil (A : Type) mask : marked mask (@nil A) = [].
Proof. unfold marked. destruct mask; reflexivity. Qed.

Lemma marked_map (A B : Type) (f : A -> B) mask l :
  marked mask (map f l) = map f (marked mask l).
Proof.
  revert mask. induction l as [|c l IH]; intros [|t mask]; try reflexivity.
  simpl map. rewrite !marked_cons, IH. destruct t; reflexivity.
Qed.

Lemma marked_In (A : Type) mask (l : list A) x : In x (marked mask l) -> In x l.
Proof.
  revert mask. induction l as [|c l IH]; intros [|t mask] Hx; try (destruct Hx; fail).
  rewrite marked_cons in Hx. destruct t.
  - destruct Hx as [<-|Hx]; [now left|right; eapply IH; exact Hx].
  - right. eapply IH. exact Hx.
Qed.

(** A loop that pushes the element at hand when a test of the picks made so
    far admits it: the picks it adds are the elements at the positions where
    the test held. *)
Lemma greedy_mask (A : Type) (ok : list A -> A -> bool) (step : list A -> A -> list A) :
  (forall picks c, step picks c = if ok picks c then picks +++ [c] else picks) ->
  forall l acc, exists mask,
    length mask = length l /\
    fold_left step l acc = acc +++ marked mask l /\
    forall i c, nth_error l i = Some c ->
      nth i mask false = ok (acc +++ marked (firstn i mask) (firstn i l)) c.
Proof.
  intros Hstep l. induction l as [|c l IH]; intro acc.
  - exists []. split; [reflexivity|]. split.
    + simpl. rewrite marked_nil, app_nil_r. reflexivity.
    + intros [|i] d E; discriminate E.
  - destruct (IH (step acc c)) as (mask & Hl & Hf & Hn).
    exists (ok acc c :: mask). split; [simpl; congruence|]. split.
    + cbn [fold_left]. rewrite Hf, marked_cons, Hstep.
      destruct (ok acc c); [rewrite <- app_assoc|]; reflexivity.
    + intros [|i] d E.
      * injection E as <-. cbn [nth firstn]. rewrite marked_nil, app_nil_r. reflexivity.
      * cbn [nth_error] in E. cbn [nth firstn]. rewrite (Hn i d E), marked_cons, Hstep.
        destruct (ok acc c); [rewrite <- app_assoc|]; reflexivity.
Qed.

Lemma first_loop_bound max sorted picks :
  (length picks <= max)%nat ->
  (length (fold_left (takeDiverse max) sorted picks) <= max)%nat.
Proof.
  revert picks. induction sorted as [|c sorted IH]; intros picks Hl; [exact Hl|].
  cbn [fold_left]. apply IH. unfold takeDiverse.
  destruct (max <=? length picks)%nat eqn:E; [exact Hl|]. apply Nat.leb_gt in E.
  destruct (negb (canTake picks (snd c))); [exact Hl|].
  rewrite length_app. cbn [length]. lia.
Qed.

Lemma backfill_full min sorted picks :
  (min <= length picks)%nat -> fold_left (backfill min) sorted picks = picks.
Proof.
  intro Hl. induction sorted as [|c sorted IH]; [reflexivity|].
  cbn [fold_left]. unfold backfill at 2.
  destruct (min <=? length picks)%nat eqn:E; [exact IH|].
  apply Nat.leb_gt in E. lia.
Qed.

Lemma existsb_index_In (picks : list Indexed) (c : Indexed) :
  existsb (fun p => (fst p =? fst c)%nat) picks = true <-> In (fst c) (map fst picks).
Proof.
  rewrite existsb_exists. split.
  - intros (p & Hp & E). apply Nat.eqb_eq in E. rewrite <- E. apply in_map, Hp.
  - intro Hin. apply in_map_iff in Hin. destruct Hin as (p & E & Hp).
    exists p. split; [exact Hp|]. apply Nat.eqb_eq, E.
Qed.

(** The second loop appends, in the order of the array, the candidates that
    the first loop did not pick, until [min] are picked. *)
Lemma backfill_appends min (picks : list Indexed) sorted :
  forall added,
    NoDup (map fst sorted) ->
    (forall c, In c sorted -> ~ In (fst c) (map fst added)) ->
    fold_left (backfill min) sorted (picks +++ added) =
      picks +++ added +++
      firstn (min - length (picks +++ added))
        (filter (fun c => negb (existsb (fun p => (fst p =? fst c)%nat) picks)) sorted).
Proof.
  induction sorted as [|c sorted IH]; intros added Hnd Hdis.
  - simpl. rewrite firstn_nil, app_nil_r. reflexivity.
  - cbn [fold_left]. cbn [map] in Hnd. apply NoDup_cons_iff in Hnd. destruct Hnd as [Hc Hnd].
    unfold backfill at 2.
    destruct (min <=? length (picks +++ added))%nat eqn:E.
    + apply Nat.leb_le in E. rewrite backfill_full by exact E.
      replace (min - length (picks +++ added))%nat with 0%nat by lia.
      cbn [firstn]. rewrite app_nil_r. reflexivity.
    + apply Nat.leb_gt in E. rewrite existsb_app.
      assert (Ha : existsb (fun p => (fst p =? fst c)%nat) added = false).
      { destruct (existsb (fun p => (fst p =? fst c)%nat) added) eqn:Ea; [|reflexivity].
        apply existsb_index_In in Ea. exfalso. apply (Hdis c); [now left|exact Ea]. }
      rewrite Ha, orb_false_r. cbn [filter].
      destruct (existsb (fun p => (fst p =? fst c)%nat) picks) eqn:Ep; cbn [negb].
      * apply IH; [exact Hnd|]. intros d Hd. apply Hdis. now right.
      * rewrite <- app_assoc. rewrite IH; [|exact Hnd|].
        -- rewrite !length_app. cbn [length].
           replace (min - (length picks + length added))%nat
             with (S (min - (length picks + (length added + 1))))%nat
             by (rewrite length_app in E; lia).
           cbn [firstn]. rewrite <- !app_assoc. reflexivity.
        -- intros d Hd Hin. rewrite map_app in Hin. apply in_app_or in Hin.
           destruct Hin as [Hin|[Hin|[]]].
           ++ apply (Hdis d); [now right|exact Hin].
           ++ apply Hc. cbn [map fst] in Hin. rewrite Hin. apply in_map, Hd.
Qed.

(** The candidates that the first loop did not pick are those at the
    positions it passed over. *)
Lemma unpicked_marked (sorted : list Indexed) :
  forall mask pre,
    length mask = length sorted ->
    NoDup (map fst sorted) ->
    (forall c, In c sorted -> ~ In (fst c) (map fst pre)) ->
    filter (fun c => negb (existsb (fun p => (fst p =? fst c)%nat) (pre +++ marked mask sorted)))
      sorted
    = marked (map negb mask) sorted.
Proof.
  induction sorted as [|c sorted IH]; intros mask pre Hl Hnd Hdis.
  - simpl. rewrite marked_nil. reflexivity.
  - destruct mask as [|t mask]; [discriminate Hl|]. injection Hl as Hl.
    cbn [map] in Hnd. apply NoDup_cons_iff in Hnd. destruct Hnd as [Hc Hnd].
    cbn [map]. rewrite !marked_cons. cbn [filter].
    assert (Hpre : existsb (fun p => (fst p =? fst c)%nat) pre = false).
    { destruct (existsb (fun p => (fst p =? fst c)%nat) pre) eqn:Ea; [|reflexivity].
      apply existsb_index_In in Ea. exfalso. apply (Hdis c); [now left|exact Ea]. }
    destruct t; cbn [negb].
    + rewrite existsb_app. cbn [existsb]. rewrite Nat.eqb_refl, orb_true_r. cbn [negb orb].
      replace (pre +++ c :: marked mask sorted) with ((pre +++ [c]) +++ marked mask sorted)
        by (rewrite <- app_assoc; reflexivity).
      apply IH; [exact Hl|exact Hnd|].
      intros d Hd Hin. rewrite map_app in Hin. apply in_app_or in Hin.
      destruct Hin as [Hin|[Hin|[]]].
      * apply (Hdis d); [now right|exact Hin].
      * apply Hc. cbn [map fst] in Hin. rewrite Hin. apply in_map, Hd.
    + rewrite existsb_app, Hpre. cbn [orb].
      assert (Hm : existsb (fun p => (fst p =? fst c)%nat) (marked mask sorted) = false).
      { destruct (existsb (fun p => (fst p =? fst c)%nat) (marked mask sorted)) eqn:Ea;
          [|reflexivity].
        apply existsb_index_In in Ea. exfalso. apply Hc.
        apply in_map_iff in Ea. destruct Ea as (p & Ep & Hp).
        rewrite <- Ep. apply in_map. eapply marked_In. exact Hp. }
      rewrite Hm. cbn [negb]. f_equal.
      apply IH; [exact Hl|exact Hnd|].
      intros d Hd. apply Hdis. now right.
Qed.

Lemma canTake_spec (picks : list Indexed) (c : Candidate) :
  canTake picks c = true <->
  (length (filter (fun d => purposeEqb (purpose d) (purpose c)) (map snd picks))
     < pMax (purpose c))%nat /\
  (length (filter (fun d => chartTypeEqb (chartType (spec d)) (chartType (spec c)))
             (map snd picks))
     < tMax (chartType (spec c)))%nat.
Proof.
  assert (P : forall p, purposeCount picks p
                = length (filter (fun d => purposeEqb (purpose d) p) (map snd picks))).
  { intro p. unfold purposeCount. induction picks as [|x picks IH]; [reflexivity|].
    simpl. destruct (purposeEqb (purpose (snd x)) p); simpl; rewrite IH; reflexivity. }
  assert (T : forall t, typeCount picks t
                = length (filter (fun d => chartTypeEqb (chartType (spec d)) t) (map snd picks))).
  { clear P. intro t. unfold typeCount. induction picks as [|x picks IH]; [reflexivity|].
    simpl. destruct (chartTypeEqb (chartType (spec (snd x))) t); simpl; rewrite IH; reflexivity. }
  unfold canTake. cbv zeta. rewrite <- P, <- T.
  destruct (pMax (purpose c) <=? purposeCount picks (purpose c))%nat eqn:E1.
  - apply Nat.leb_le in E1. split; [discriminate|]. intros [A _]. lia.
  - apply Nat.leb_gt in E1.
    destruct (tMax (chartType (spec c)) <=? typeCount picks (chartType (spec c)))%nat eqn:E2.
    + apply Nat.leb_le in E2. split; [discriminate|]. intros [_ B]. lia.
    + apply Nat.leb_gt in E2. split; [intros _; split; assumption|reflexivity].
Qed.

(** What [pickDiverse] returns: the picks of the first loop, made under the
    caps, then the first of the candidates it passed over. *)
Lemma pickDiverse_spec cands min max :
  (min <= max)%nat ->
  exists (sorted : list Candidate) (taken : list bool),
    sorted = sortByScoreDesc score cands /\
    length taken = length sorted /\
    (forall i c, nth_error sorted i = Some c ->
       let before := marked (firstn i taken) (firstn i sorted) in
       nth i taken false = true <->
       (length before < max)%nat /\
       (length (filter (fun d => purposeEqb (purpose d) (purpose c)) before)
          < pMax (purpose c))%nat /\
       (length (filter (fun d => chartTypeEqb (chartType (spec d)) (chartType (spec c))) before)
          < tMax (chartType (spec c)))%nat) /\
    pickDiverse cands min max =
      map spec (marked taken sorted
                +++ firstn (min - length (marked taken sorted))
                      (marked (map negb taken) sorted)).
Proof.
  intro Hmm.
  set (sortedC := sortByScoreDesc score cands).
  set (S := indexed sortedC).
  destruct (@greedy_mask Indexed
              (fun picks c => negb (max <=? length picks)%nat && canTake picks (snd c))
              (takeDiverse max)) with (l := S) (acc := @nil Indexed)
    as (mask & Hl & Hf & Hn).
  { intros picks c. unfold takeDiverse.
    destruct (max <=? length picks)%nat; [reflexivity|].
    destruct (canTake picks (snd c)); reflexivity. }
  cbn [app] in Hf, Hn.
  assert (HS : map snd S = sortedC) by apply indexed_snd.
  assert (HlS : length S = length sortedC) by apply indexed_length.
  assert (Hnd : NoDup (map fst S)).
  { unfold S. rewrite indexed_fst. apply seq_NoDup. }
  exists sortedC, mask. split; [reflexivity|]. split; [congruence|]. split.
  - intros i c Ei. cbv zeta.
    assert (Ex : exists x, nth_error S i = Some x /\ snd x = c).
    { rewrite <- HS in Ei. rewrite nth_error_map in Ei.
      destruct (nth_error S i) as [x|]; [|discriminate Ei].
      injection Ei as Ei. exists x. split; [reflexivity|exact Ei]. }
    destruct Ex as (x & Ex & <-).
    rewrite (Hn i x Ex).
    assert (Eb : marked (firstn i mask) (firstn i sortedC)
                 = map snd (marked (firstn i mask) (firstn i S))).
    { rewrite <- marked_map. rewrite <- firstn_map, HS. reflexivity. }
    rewrite Eb. rewrite length_map.
    rewrite andb_true_iff, negb_true_iff, Nat.leb_gt, canTake_spec. tauto.
  - unfold pickDiverse. cbv zeta. fold sortedC. fold S. rewrite Hf.
    assert (Ec : marked mask sortedC = map snd (marked mask S)).
    { rewrite <- marked_map, HS. reflexivity. }
    assert (Er : marked (map negb mask) sortedC = map snd (marked (map negb mask) S)).
    { rewrite <- marked_map, HS. reflexivity. }
    assert (Hb : (length (marked mask S) <= max)%nat).
    { rewrite <- Hf. apply first_loop_bound. simpl. lia. }
    rewrite Ec, Er, length_map.
    destruct (length (marked mask S) <? min)%nat eqn:E.
    + apply Nat.ltb_lt in E.
      pose proof (@backfill_appends min (marked mask S) S [] Hnd) as B.
      rewrite !app_nil_r in B. cbn [app] in B. rewrite B by (intros c _ []).
      pose proof (@unpicked_marked S mask [] Hl Hnd) as U. cbn [app] in U.
      rewrite U by (intros c _ []).
      rewrite firstn_all2.
      * rewrite firstn_map, <- map_app, map_map. reflexivity.
      * rewrite length_map, length_app, length_firstn. lia.
    + apply Nat.ltb_ge in E.
      replace (min - length (marked mask S))%nat with 0%nat by lia.
      cbn [firstn]. rewrite app_nil_r.
      rewrite firstn_all2 by (rewrite length_map; exact Hb).
      rewrite map_map. reflexivity.
Qed.

(** ** The candidates of the chart generator *)

Section ChartFacts.
Context {H : Host}.

Lemma numericCandidates_origin data eda col :
  Forall (candidateOrigin data) (numericCandidates data eda col).
Proof.
  unfold numericCandidates.
  destruct (isIdLikeNumeric col _ _); [constructor|].
  destruct (length (columnNumbers data col) <? 12)%nat eqn:E; [constructor|].
  apply Nat.ltb_ge in E. apply Forall_app. split.
  - unfold histogramCandidate.
    destruct (computeHistogram _ _) as [h|] eqn:Eh; constructor; [|constructor].
    unfold candidateOrigin. cbn [spec]. cbv zeta.
    split; [exact E|]. split; [reflexivity|].
    exists h. repeat split; auto.
  - unfold boxCandidate.
    destruct (computeBox _) as [box|] eqn:Eb; constructor; [|constructor].
    unfold candidateOrigin. cbn [spec]. exists box. repeat split; auto.
Qed.

Lemma barCandidates_origin data eda ns ds col :
  Forall (candidateOrigin data) (barCandidates data eda ns ds col).
Proof.
  unfold barCandidates.
  destruct (setHas col ns || setHas col ds); [constructor|].
  destruct (isIdLikeCategorical col _); [constructor|].
  destruct (match lookup col (columns eda) with Some i => isNameListColumn i | None => false end);
    [constructor|].
  destruct (lookup col (columns eda)) as [i|].
  - destruct (topValuesOf i).
    + destruct (fold_left _ _ _); constructor; [exact I|constructor].
    + destruct (capTopValuesWithOther i 10); constructor; [exact I|constructor].
  - destruct (fold_left _ _ _); constructor; [exact I|constructor].
Qed.

Lemma timeCandidates_origin data ds ns :
  Forall (candidateOrigin data) (timeCandidates data ds ns).
Proof.
  unfold timeCandidates. apply Forall_flat_map. intros d _.
  destruct (nameHintsId d); [constructor|].
  apply Forall_flat_map. intros n _.
  destruct (buildTimeSeries data d n) as [[points g]|]; constructor; [exact I|constructor].
Qed.

Lemma scatterCandidates_origin data ns :
  Forall (candidateOrigin data) (scatterCandidates data ns).
Proof.
  unfold scatterCandidates. apply Forall_flat_map. intros [x y] _.
  destruct (buildScatter data _ _); constructor; [exact I|constructor].
Qed.

Lemma corrCandidates_origin data eda ns :
  Forall (candidateOrigin data) (corrCandidates data eda ns).
Proof.
  unfold corrCandidates.
  destruct (length ns <? 4)%nat; [constructor|].
  destruct (length (rankedColumns eda ns) <? 4)%nat; [constructor|].
  destruct (buildCorrMatrix data _) as [[matrix n]|] eqn:E; constructor; [|constructor].
  unfold candidateOrigin. cbn [spec]. exists n. exact E.
Qed.

Lemma chartCandidates_origin data eda :
  Forall (candidateOrigin data) (chartCandidates data eda).
Proof.
  unfold chartCandidates. repeat (apply Forall_app; split).
  - apply Forall_flat_map. intros col _. apply numericCandidates_origin.
  - apply Forall_flat_map. intros col _. apply barCandidates_origin.
  - apply timeCandidates_origin.
  - apply Forall_forall. intros c Hc. apply firstn_In in Hc.
    apply sortByScoreDesc_In in Hc.
    pose proof (scatterCandidates_origin data (numericColumns data eda)) as F.
    rewrite Forall_forall in F. auto.
  - apply corrCandidates_origin.
Qed.

(** Every chart that [generateCharts] returns is the chart of a candidate. *)
Lemma generateCharts_from data eda s :
  In s (generateCharts data eda) ->
  exists e c, eda = Some e /\ data <> [] /\ In c (chartCandidates data e) /\ spec c = s.
Proof.
  unfold generateCharts. destruct data as [|row data]; [intros []|].
  destruct eda as [e|]; [|intros []].
  intro Hs. apply pickDiverse_from in Hs. destruct Hs as (c & Hc & <-).
  exists e, c. repeat split; auto. discriminate.
Qed.

Lemma generateCharts_origin data eda s :
  In s (generateCharts data eda) ->
  exists c, spec c = s /\ candidateOrigin data c.
Proof.
  intro Hs. apply generateCharts_from in Hs.
  destruct Hs as (e & c & _ & _ & Hc & <-).
  exists c. split; [reflexivity|].
  pose proof (chartCandidates_origin data e) as F.
  rewrite Forall_forall in F. auto.
Qed.

End ChartFacts.

(* ================================================================== *)
(** * The claims of the specification *)
(* ================================================================== *)

(** ** Box plots *)






(** ** The number of charts *)

(** C3.  [generateCharts] returns at most 8 charts, and at least 4 whenever
    its candidate pool holds at least 4 candidates.  The charts are those of
    the candidates picked in two passes over the pool in descending order of
    score.  The first pass picks a candidate exactly when fewer than 8 are
    picked so far and the picks so far hold fewer than [pMax] candidates of
    its purpose and fewer than [tMax] of its chart type.  When the first pass
    leaves fewer than 4 picks, the second pass appends the candidates that it
    passed over, best score first and whatever their purpose and type, until
    4 are picked or none is left. *)
Theorem C3_at_most_8_charts_and_at_least_4_when_possible
    {H : Host} (data : list Row) (eda : option EDAResult) :
  (length (generateCharts data eda) <= 8)%nat /\
  (forall e, data <> [] -> eda = Some e ->
     (4 <= length (chartCandidates data e))%nat ->
     (4 <= length (generateCharts data eda))%nat) /\
  (forall e, data <> [] -> eda = Some e ->
     exists (sorted : list Candidate) (taken : list bool),
       Permutation sorted (chartCandidates data e) /\
       StronglySorted (fun a b => score b <= score a) sorted /\
       length taken = length sorted /\
       (forall i c, nth_error sorted i = Some c ->
          let before := marked (firstn i taken) (firstn i sorted) in
          nth i taken false = true <->
          (length before < 8)%nat /\
          (length (filter (fun d => purposeEqb (purpose d) (purpose c)) before)
             < pMax (purpose c))%nat /\
          (length (filter (fun d => chartTypeEqb (chartType (spec d)) (chartType (spec c)))
                     before)
             < tMax (chartType (spec c)))%nat) /\
       let capped := marked taken sorted in
       let passedOver := marked (map negb taken) sorted in
       generateCharts data eda =
         map spec (capped +++ firstn (4 - length capped) passedOver)).
Proof.
  split; [|split].
  - unfold generateCharts. destruct data; [simpl; lia|].
    destruct eda; [apply pickDiverse_at_most|simpl; lia].
  - intros e Hd -> Hn. unfold generateCharts.
    destruct data; [congruence|].
    apply pickDiverse_at_least; [lia|exact Hn].
  - intros e Hd ->. unfold generateCharts.
    destruct data as [|row data]; [congruence|].
    destruct (@pickDiverse_spec (chartCandidates (row :: data) e) 4 8)
      as (sorted & taken & Es & Hl & Hn & Hp); [lia|].
    exists sorted, taken.
    split; [rewrite Es; unfold sortByScoreDesc; apply sortBy_perm|].
    split; [rewrite Es; apply sortByScoreDesc_sorted|].
    split; [exact Hl|]. split; [exact Hn|exact Hp].
Qed.

(** A data set of C3's theorem: three numeric columns give six candidates,
    all of them distributions, of which the caps admit two; four charts are
    returned, and all four are histograms or box plots. *)
Lemma C3_witness :
  (4 <= length (chartCandidates (H := StdHost.host) Samples.threeColumns
                  (runEDA (H := StdHost.host) Samples.threeColumns)))%nat /\
  length (generateCharts (H := StdHost.host) Samples.threeColumns
            (Some (runEDA (H := StdHost.host) Samples.threeColumns))) = 4%nat /\
  length (filter (fun s => match chartType s with THistogram | TBox => true | _ => false end)
            (generateCharts (H := StdHost.host) Samples.threeColumns
               (Some (runEDA (H := StdHost.host) Samples.threeColumns)))) = 4%nat /\
  (4 <= length (generateCharts (H := StdHost.host) Samples.threeColumns
                  (Some (runEDA (H := StdHost.host) Samples.threeColumns))))%nat.
Proof.
  assert (Hn : (4 <= length (chartCandidates (H := StdHost.host) Samples.threeColumns
                  (runEDA (H := StdHost.host) Samples.threeColumns)))%nat).
  { vm_compute. repeat constructor. }
  split; [exact Hn|]. split; [vm_compute; reflexivity|].
  split; [vm_compute; reflexivity|].
  refine (proj1 (proj2 (C3_at_most_8_charts_and_at_least_4_when_possible
                   (H := StdHost.host) Samples.threeColumns
                   (Some (runEDA (H := StdHost.host) Samples.threeColumns))))
                _ _ eq_refl Hn).
  discriminate.
Defined.

(** ** Histograms *)

Lemma lookup_map_key (A : Type) (f : string -> A) (key : string) (l : list string) v :
  lookup key (map (fun c => (c, f c)) l) = Some v -> v = f key.
Proof.
  induction l as [|c l IH]; simpl; [discriminate|].
  destruct (String.eqb c key) eqn:E.
  - apply String.eqb_eq in E. subst c. congruence.
  - exact IH.
Qed.

Section ProfileFacts.
Context {H : Host}.

(** The profile of a column that [runEDA] types as numeric counts the cells
    that read as numbers. *)
Lemma profileColumn_numeric data empties col :
  isNumericType (profileColumn data empties col) = true ->
  be_nonMissingCount (baseOf (profileColumn data empties col))
    = Some (length (columnNumbers data col)).
Proof.
  unfold profileColumn. cbv zeta.
  destruct (decideType col _); simpl; try discriminate;
    destruct (existsb _ empties); simpl; try discriminate.
  intros _. rewrite sortAsc_length. reflexivity.
Qed.

Lemma runEDA_numeric data col info :
  lookup col (columns (runEDA data)) = Some info ->
  isNumericType info = true ->
  be_nonMissingCount (baseOf info) = Some (length (columnNumbers data col)).
Proof.
  unfold runEDA. destruct data as [|row data]; [discriminate|].
  cbn [columns]. intros Hl Ht. apply lookup_map_key in Hl. subst info.
  apply profileColumn_numeric, Ht.
Qed.

End ProfileFacts.

(** C2, as the code has it.  For every histogram chart that [generateCharts]
    returns, the sum of its [counts] equals its [total], which is the number
    of cells of the column that read as numbers; when the profile of the data
    set types the column as numeric, this is the [nonMissingCount] that the
    profile records for it. *)
Theorem C2_histogram_counts_sum_to_total
    {H : Host} (data : list Row) (eda : option EDAResult)
    (column : string) (bins : nat) (edges : list Q) (counts : list nat)
    (min max : Q) (total : nat) :
  In (HistogramChart column bins edges counts min max total) (generateCharts data eda) ->
  list_sum counts = total /\
  total = length (columnNumbers data column) /\
  (forall info,
     lookup column (columns (runEDA data)) = Some info ->
     isNumericType info = true ->
     be_nonMissingCount (baseOf info) = Some total).
Proof.
  intro Hin. apply generateCharts_origin in Hin. destruct Hin as (c & Hs & Ho).
  unfold candidateOrigin in Ho. rewrite Hs in Ho. cbv zeta in Ho.
  destruct Ho as (Hn & Hbins & h & Hh & -> & -> & -> & -> & ->).
  assert (Hb : (1 <= bins)%nat).
  { rewrite Hbins. unfold chooseBins.
    repeat match goal with |- context [if ?b then _ else _] => destruct b end; lia. }
  destruct (computeHistogram_sound _ Hb Hh) as (S1 & T1 & _).
  split; [exact S1|]. split; [exact T1|].
  intros info Hl Ht. rewrite T1. apply runEDA_numeric; assumption.
Qed.

(** A histogram of C2's theorem: the chart of the sixteen numbers of
    [Samples.gapRows], a column that the profile types as numeric. *)
Lemma C2_witness :
  exists bins edges counts min max total info,
    In (HistogramChart "x" bins edges counts min max total)
       (generateCharts (H := StdHost.host) Samples.gapRows
          (Some (runEDA (H := StdHost.host) Samples.gapRows))) /\
    lookup "x" (columns (runEDA (H := StdHost.host) Samples.gapRows)) = Some info /\
    isNumericType info = true /\
    list_sum counts = total /\
    be_nonMissingCount (baseOf info) = Some total.
Proof.
  assert (Hin :
    In (HistogramChart "x" 8
          (map (fun i => 13 + ((31 - 13) * Num.ofNat i) / Num.ofNat 8) (seq 0 9))
          [4; 0; 0; 0; 0; 0; 0; 12]%nat 13 31 16)
       (generateCharts (H := StdHost.host) Samples.gapRows
          (Some (runEDA (H := StdHost.host) Samples.gapRows)))).
  { vm_compute. right. left. reflexivity. }
  destruct (lookup "x" (columns (runEDA (H := StdHost.host) Samples.gapRows)))
    as [info|] eqn:El; [|vm_compute in El; discriminate El].
  assert (Ht : isNumericType info = true).
  { vm_compute in El. injection El as <-. reflexivity. }
  do 6 eexists. exists info.
  split; [exact Hin|]. split; [reflexivity|]. split; [exact Ht|].
  pose proof (C2_histogram_counts_sum_to_total _ _ _ _ _ _ _ _ _ Hin) as T.
  split; [apply T|]. apply T; [exact El|exact Ht].
Defined.

(** C2 as the specification states it fails on a column that the profile
    does not type as numeric and the chart generator reads as numbers all the
    same.  Of twenty texts, eighteen times [2020] and twice [2020-05-01], all
    are dates and eighteen are numbers: the profile types the column as a date
    with [nonMissingCount = 20], the fallback detection (at least 85% of the
    cells read as numbers) gives it a histogram, of [total = 18]. *)
Lemma C2_counterexample_total_differs_from_nonMissingCount :
  exists bins edges counts min max total info,
    In (HistogramChart "year" bins edges counts min max total)
       (generateCharts (H := StdHost.host) Samples.yearRows
          (Some (runEDA (H := StdHost.host) Samples.yearRows))) /\
    lookup "year" (columns (runEDA (H := StdHost.host) Samples.yearRows)) = Some info /\
    total = 18%nat /\
    be_nonMissingCount (baseOf info) = Some 20%nat /\
    be_nonMissingCount (baseOf info) <> Some total.
Proof.
  exists 8%nat,
    (map (fun i => 2020 + ((1 * Num.ofNat i) / Num.ofNat 8)) (seq 0 9)),
    [18; 0; 0; 0; 0; 0; 0; 0]%nat, 2020, 2020, 18%nat,
    (DateEDA (mkBase 0 2 (Some 20%nat) false)
       (Some "2020-01-01T00:00:00.000Z") (Some "2020-05-01T00:00:00.000Z")).
  split; [vm_compute; left; reflexivity|].
  split; [vm_compute; reflexivity|].
  split; [reflexivity|]. split; [reflexivity|]. simpl. discriminate.
Qed.


(** ** KPIs *)

(** C4, as the code has it.  The KPI list has at most 6 entries; for every
    row set that is not empty its first entry is the row count, labelled
    [Rows].  (For an empty row set the list is empty.) *)
Theorem C4_kpis_at_most_6_and_rows_first_when_not_empty
    {H : Host} (data : list Row) (eda : option EDAResult) :
  (length (generateKPIs data eda) <= 6)%nat /\
  (data <> [] ->
   exists k rest,
     generateKPIs data eda = k :: rest /\
     kpi_label k = "Rows" /\ kpi_type k = KCount /\
     kpi_value k = toLocaleString (Num.ofNat (length data))) /\
  (data = [] -> generateKPIs data eda = []).
Proof.
  unfold generateKPIs. destruct data as [|row data].
  - split; [simpl; lia|]. split; [congruence|reflexivity].
  - split; [apply firstn_le_length|]. split; [|discriminate].
    intros _. cbn [firstn app]. eexists. eexists.
    split; [reflexivity|]. repeat split.
Qed.

(** The KPIs of the thirty orders of [Samples.orders]: the row count comes
    first. *)
Lemma C4_witness :
  exists k rest,
    generateKPIs (H := StdHost.host) Samples.orders
      (Some (runEDA (H := StdHost.host) Samples.orders)) = k :: rest /\
    kpi_label k = "Rows" /\ kpi_value k = "30".
Proof.
  destruct (proj1 (proj2 (C4_kpis_at_most_6_and_rows_first_when_not_empty
              (H := StdHost.host) Samples.orders
              (Some (runEDA (H := StdHost.host) Samples.orders)))))
    as (k & rest & E & L & _ & V).
  { discriminate. }
  exists k, rest. split; [exact E|]. split; [exact L|].
  rewrite V. vm_compute. reflexivity.
Defined.

(** C4 as the specification states it fails for the empty row set: the guard
    at the head of [generateKPIs] returns the empty list, which has no
    [Rows] entry. *)
Lemma C4_counterexample_empty_rows :
  generateKPIs (H := StdHost.host) [] (Some (mkEDA 0 [] [] [])) = [] /\
  ~ (exists k rest,
       generateKPIs (H := StdHost.host) [] (Some (mkEDA 0 [] [] [])) = k :: rest /\
       kpi_label k = "Rows").
Proof.
  split; [reflexivity|]. intros (k & rest & E & _). discriminate E.
Qed.

(** C8 at its failing input.  A numeric column with [min = max] gets the
    score [1] from [scoreNumericCol], not [0]; it passes the filter
    [score > 0] of the candidate set, and with 25 values it contributes the
    total, the average and the range. *)
Theorem C8_flat_column_scores_one_and_contributes_the_triad (H : Host) :
  scoreNumericCol "amount" Samples.flatInfo 25 = 1 /\
  map fst (numericKpiCandidates Samples.flatProfile 25) = [("amount", Samples.flatInfo)] /\
  map (fun k => (kpi_column k, kpi_label k, kpi_type k))
    (generateKPIs Samples.flatRows (Some Samples.flatProfile))
  = [(None, "Rows", KCount); (None, "Duplicates", KCount); (None, "Missing rate", KRate);
     (Some "amount", "Total amount", KSum); (Some "amount", "Average amount", KMean);
     (Some "amount", "amount range", KRange)].
Proof.
  repeat split; vm_compute; reflexivity.
Qed.


(** ** The identifier column of scenario B *)

(** C7 at its failing input, the thirty rows of [Samples.orders].  The
    profile stores [order_id] as a categorical column flagged as an
    identifier, no KPI and no insight is about it, and it has no histogram,
    box or bar; but [detectNumericLikeColumns] puts it back among the numeric
    columns, and the scatter loop pairs it with [amount]: the chart
    [order_id vs amount] is one of the candidates and of the charts
    returned. *)
Theorem C7_order_id_is_charted_in_a_scatter :
  let H := StdHost.host in
  let eda := runEDA Samples.orders in
  let kpis := generateKPIs Samples.orders (Some eda) in
  (exists base top,
     lookup "order_id" (columns eda) = Some (CategoricalEDA base top) /\
     be_inferredAsId base = true) /\
  forallb (fun k => match kpi_column k with
                    | Some c => negb (String.eqb c "order_id")
                    | None => true
                    end) kpis = true /\
  forallb (fun i => match ins_column i with
                    | Some c => negb (String.eqb c "order_id")
                    | None => true
                    end) (generateInsights eda kpis) = true /\
  forallb (fun c => match spec c with
                    | HistogramChart col _ _ _ _ _ _
                    | BoxChart col _ _ _ _ _ _ _ _
                    | BarChart col _ _ _ => negb (String.eqb col "order_id")
                    | _ => true
                    end) (chartCandidates Samples.orders eda) = true /\
  In "order_id" (numericColumns Samples.orders eda) /\
  (exists points correlation,
     In (ScatterChart "order_id vs amount" "amount" "order_id" points correlation)
        (map spec (chartCandidates Samples.orders eda)) /\
     In (ScatterChart "order_id vs amount" "amount" "order_id" points correlation)
        (generateCharts Samples.orders (Some eda))).
Proof.
  cbv zeta.
  split; [do 2 eexists; split; vm_compute; reflexivity|].
  split; [vm_compute; reflexivity|].
  split; [vm_compute; reflexivity|].
  split; [vm_compute; reflexivity|].
  split; [vm_compute; right; left; reflexivity|].
  assert (E : exists s,
    nth_error (generateCharts (H := StdHost.host) Samples.orders
                 (Some (runEDA (H := StdHost.host) Samples.orders))) 2 = Some s /\
    nth_error (map spec (chartCandidates (H := StdHost.host) Samples.orders
                 (runEDA (H := StdHost.host) Samples.orders))) 2 = Some s /\
    match s with
    | ScatterChart c x y _ _ =>
        c = "order_id vs amount" /\ x = "amount" /\ y = "order_id"
    | _ => False
    end).
  { vm_compute. eexists. repeat split. }
  destruct E as (s & E1 & E2 & Es).
  destruct s as [| | | | c x y points correlation |]; try contradiction.
  destruct Es as (-> & -> & ->).
  exists points, correlation. split; eapply nth_error_In; eassumption.
Qed.


(** ** Insights *)

Lemma filter_length_le (A : Type) (p : A -> bool) l :
  (length (filter p l) <= length l)%nat.
Proof.
  induction l as [|x l IH]; simpl; [lia|]. destruct (p x); simpl; lia.
Qed.

Lemma filter_firstn_length (A : Type) (p : A -> bool) n l :
  (length (filter p (firstn n l)) <= length (filter p l))%nat.
Proof.
  revert l. induction n as [|n IH]; intros [|x l]; simpl; try lia.
  specialize (IH l). destruct (p x); simpl; lia.
Qed.

Lemma filter_insertBy_length (A : Type) (le : A -> A -> bool) (p : A -> bool) x l :
  length (filter p (insertBy le x l)) = length (filter p (x :: l)).
Proof.
  induction l as [|y l IH]; simpl; [reflexivity|].
  destruct (le x y); simpl; [reflexivity|].
  simpl in IH. destruct (p y), (p x); simpl in *; lia.
Qed.

Lemma filter_sortBy_length (A : Type) (le : A -> A -> bool) (p : A -> bool) l :
  length (filter p (sortBy le l)) = length (filter p l).
Proof.
  induction l as [|x l IH]; simpl; [reflexivity|].
  rewrite filter_insertBy_length. simpl. destruct (p x); simpl; lia.
Qed.

Lemma pushUnique_cases into item :
  pushUnique into item = into \/ pushUnique into item = into +++ [item].
Proof.
  unfold pushUnique. destruct (existsb _ into); [now left|now right].
Qed.

Lemma pushUnique_fold_In items into i :
  In i (fold_left pushUnique items into) -> In i into \/ In i items.
Proof.
  revert into. induction items as [|x items IH]; intros into Hi; simpl in *; [now left|].
  apply IH in Hi. destruct Hi as [Hi|Hi]; [|now right; right].
  destruct (pushUnique_cases into x) as [E|E]; rewrite E in Hi; [now left|].
  apply in_app_or in Hi. destruct Hi as [Hi|[<-|[]]]; [now left|now right; left].
Qed.

Lemma pushUnique_fold_filter (p : Insight -> bool) items into :
  (length (filter p (fold_left pushUnique items into))
   <= length (filter p into) + length (filter p items))%nat.
Proof.
  revert into. induction items as [|x items IH]; intro into; simpl; [lia|].
  specialize (IH (pushUnique into x)).
  destruct (pushUnique_cases into x) as [E|E]; rewrite E in *.
  - destruct (p x); simpl; lia.
  - rewrite filter_app, length_app in IH. simpl in IH.
    destruct (p x); simpl in *; lia.
Qed.

(** In an array sorted for [R], an element of the first [k] is [R]-related
    to every element after them. *)

Lemma filter_none (A : Type) (p : A -> bool) l :
  Forall (fun x => p x = false) l -> filter p l = [].
Proof.
  induction 1 as [|x l Hx Hl IH]; simpl; [reflexivity|]. rewrite Hx. exact IH.
Qed.

Section InsightFacts.
Context {H : Host}.

Lemma qualityInsights_action eda :
  Forall (fun i => isInvestigate i = false) (qualityInsights eda).
Proof.
  unfold qualityInsights.
  repeat (apply Forall_app; split);
    match goal with |- Forall _ (if ?b then _ else _) => destruct b end;
    repeat constructor.
Qed.

Lemma missingInsight_action col info :
  Forall (fun i => isInvestigate i = false) (missingInsight col info).
Proof.
  unfold missingInsight.
  destruct (be_nonMissingCount (baseOf info)); [|constructor].
  destruct (0 <? _)%nat; [|constructor].
  destruct (Num.leb 25 _); repeat constructor.
Qed.

Lemma dominanceItems_action col info :
  Forall (fun r => isInvestigate (risk_insight r) = false) (dominanceItems col info).
Proof.
  unfold dominanceItems.
  destruct (negb (isCategoricalType info)); [constructor|].
  destruct (topValuesOf info); [constructor|].
  destruct (_ && _); repeat constructor.
Qed.

Lemma coverageInsight_action eda :
  Forall (fun i => isInvestigate i = false) (coverageInsight eda).
Proof.
  unfold coverageInsight.
  destruct (find _ (columns eda)) as [[dateCol info]|]; [|constructor].
  destruct (Js.isEmpty dateCol); [constructor|].
  destruct (dateMinOf info); [|constructor].
  destruct (dateMaxOf info); [|constructor].
  destruct (_ || _); repeat constructor.
Qed.

Lemma headlineInsight_action eda kpis :
  Forall (fun i => isInvestigate i = false) (headlineInsight eda kpis).
Proof.
  unfold headlineInsight.
  destruct (findKpi kpis isSum); [repeat constructor|].
  destruct (findKpi kpis isMean); repeat constructor.
Qed.

(** The rules other than the numeric one give no insight to investigate. *)
Lemma otherRules_action eda kpis :
  Forall (fun i => isInvestigate i = false)
    (map risk_insight
       (firstn 1 (sortByScoreDesc risk_score
          (flat_map (fun e => dominanceItems (fst e) (snd e)) (columns eda))))
     +++ coverageInsight eda +++ headlineInsight eda kpis).
Proof.
  repeat (apply Forall_app; split).
  - apply Forall_forall. intros i Hi. apply in_map_iff in Hi.
    destruct Hi as (r & <- & Hr). apply firstn_In in Hr.
    apply sortByScoreDesc_In in Hr. apply in_flat_map in Hr.
    destruct Hr as (e & _ & Hr).
    pose proof (dominanceItems_action (fst e) (snd e)) as F.
    rewrite Forall_forall in F. auto.
  - apply coverageInsight_action.
  - apply headlineInsight_action.
Qed.

Lemma firstRules_action eda :
  Forall (fun i => isInvestigate i = false)
    (qualityInsights eda
     +++ flat_map (fun e => missingInsight (fst e) (snd e)) (columns eda)).
Proof.
  apply Forall_app; split; [apply qualityInsights_action|].
  apply Forall_flat_map. intros e _. apply missingInsight_action.
Qed.

(** An insight to investigate of the output is one of the numeric risk items
    that were kept, and there are at most two of them. *)
Lemma generateInsights_investigate eda kpis :
  (length (filter isInvestigate (generateInsights eda kpis)) <= 2)%nat /\
  forall i, In i (generateInsights eda kpis) -> isInvestigate i = true ->
    In i (map risk_insight (keptOutlierItems eda kpis)).
Proof.
  pose proof (firstRules_action eda) as F1.
  pose proof (otherRules_action eda kpis) as F2.
  unfold generateInsights, collectedInsights.
  set (A := qualityInsights eda
            +++ flat_map (fun e => missingInsight (fst e) (snd e)) (columns eda)) in F1.
  set (B := map risk_insight
              (firstn 1 (sortByScoreDesc risk_score
                 (flat_map (fun e => dominanceItems (fst e) (snd e)) (columns eda))))
            +++ coverageInsight eda +++ headlineInsight eda kpis) in F2.
  set (K := map risk_insight (keptOutlierItems eda kpis)).
  match goal with |- context [fold_left pushUnique ?L []] =>
    replace L with (A +++ K +++ B)
      by (unfold A, K, B; rewrite <- !app_assoc; reflexivity)
  end.
  split.
  - eapply Nat.le_trans; [apply filter_firstn_length|].
    unfold sortBusiness. rewrite filter_sortBy_length.
    eapply Nat.le_trans; [apply pushUnique_fold_filter|].
    rewrite !filter_app, !length_app.
    rewrite (filter_none _ F1), (filter_none _ F2). simpl.
    eapply Nat.le_trans; [rewrite Nat.add_0_r; apply filter_length_le|].
    unfold K, keptOutlierItems. rewrite length_map. apply firstn_le_length.
  - intros i Hi Hinv. apply firstn_In in Hi.
    unfold sortBusiness in Hi. apply sortBy_In in Hi.
    apply pushUnique_fold_In in Hi. destruct Hi as [[]|Hi].
    rewrite Forall_forall in F1, F2.
    apply in_app_or in Hi. destruct Hi as [Hi|Hi].
    { apply F1 in Hi. congruence. }
    apply in_app_or in Hi. destruct Hi as [Hi|Hi]; [exact Hi|].
    apply F2 in Hi. congruence.
Qed.

(** The numeric rule on one column: the outlier warning is there exactly
    when the mean is not [0] and [max / Math.max(1e-9, mean)] is at least
    [3]; it is the first item, it is about the column, and its score is
    [(100 if main metric else 0) + 10 * ratio]. *)
Lemma outlierItems_warning main col info :
  let max := orZero (maxOf info) in
  let mean := orZero (meanOf info) in
  let flagged :=
    isNumericType info = true /\ ~ mean == 0 /\ 3 <= outlierRatio max mean in
  ((exists r, In r (outlierItems main col info) /\
              ins_severity (risk_insight r) = Some Warning) <-> flagged) /\
  (forall r, In r (outlierItems main col info) ->
     ins_severity (risk_insight r) = Some Warning ->
     risk_col r = col /\ ins_column (risk_insight r) = Some col /\
     risk_score r =
       (if match main with Some m => String.eqb m col | None => false end
        then 100 else 0) + outlierRatio max mean * 10).
Proof.
  cbv zeta. unfold outlierItems, num.
  destruct (isNumericType info) eqn:Et; cbn [negb].
  2:{ split; [split|].
      - intros (r & [] & _).
      - intros (Hf & _). discriminate Hf.
      - intros r []. }
  destruct (Num.eqb (orZero (meanOf info)) 0) eqn:Em.
  { unfold Num.eqb in Em. apply Qeq_bool_iff in Em.
    split; [split|].
    - intros (r & [] & _).
    - intros (_ & Hn & _). contradiction.
    - intros r []. }
  assert (Hm : ~ orZero (meanOf info) == 0).
  { unfold Num.eqb in Em. intro E. apply Qeq_bool_iff in E. congruence. }
  destruct (Num.leb 3 (outlierRatio (orZero (maxOf info)) (orZero (meanOf info)))) eqn:Er;
    cbn [negb].
  2:{ apply leb_gt in Er. split; [split|].
      - intros (r & [] & _).
      - intros (_ & _ & Hr). exfalso. exact (Qlt_not_le _ _ Er Hr).
      - intros r []. }
  apply leb_le in Er. split; [split|].
  - intros _. repeat split; auto.
  - intros _. eexists. split; [left; reflexivity|reflexivity].
  - intros r Hr Hw. destruct Hr as [<-|Hr]; [repeat split|].
    exfalso. cbv beta iota in Hr. rewrite app_nil_l in Hr.
    apply in_app_or in Hr. destruct Hr as [Hr|Hr].
    + destruct (Num.ltb (orZero (minOf info)) 0); [|destruct Hr].
      destruct Hr as [<-|[]]. discriminate Hw.
    + match type of Hr with In _ (if ?b then _ else _) => destruct b end;
        [|destruct Hr].
      destruct Hr as [<-|[]]. discriminate Hw.
Qed.

End InsightFacts.


(** C5.  The numeric rule of [generateInsights] departs from the rule of the
    specification for a column whose mean is negative.  It skips a column
    whose mean is [0] and divides the maximum by [Math.max(1e-9, mean)], which
    is [1e-9] for every mean below [0]: such a column gets the outlier warning
    whenever its maximum is [1] or more, though its mean is not above [0]
    (the ratio next to it, of the mean to the median, is computed only for a
    median above [0]).  The balances [-20], [-20], [-20] and [14] have the
    mean [-11.5] and the maximum [14], and [generateInsights] returns the
    warning [outlier-balance] for them.

    The rest of the rule is as specified.  A warning among the candidates
    belongs to a numeric column of the profile whose mean is not [0], and its
    score is [(100 if the column is the main metric of the KPIs else 0)
    + 10 * ratio].  The candidates are ranked by score and the best two are
    kept: no candidate left out scores more than one that is kept, and the
    output holds at most two insights to investigate, each the insight of a
    candidate that was kept. *)
Theorem C5_negative_mean_is_flagged_as_an_outlier :
  (forall (H : Host) (eda : EDAResult) (kpis : list KPI)
      (col : string) (info : ColumnEDA) (max mean : Q),
     In (col, info) (columns eda) -> isNumericType info = true ->
     maxOf info = Some max -> meanOf info = Some mean ->
     mean < 0 -> 1 <= max ->
     exists r, In r (outlierCandidates eda kpis) /\
       risk_col r = col /\
       ins_severity (risk_insight r) = Some Warning /\
       ins_column (risk_insight r) = Some col) /\
  (exists i,
     In i (generateInsights (H := StdHost.host) Samples.balanceProfile []) /\
     ins_id i = "outlier-balance" /\ ins_severity i = Some Warning /\
     ins_column i = Some "balance" /\
     lookup "balance" (columns Samples.balanceProfile) = Some Samples.balanceInfo /\
     meanOf Samples.balanceInfo = Some (-23 # 2) /\
     maxOf Samples.balanceInfo = Some 14 /\
     ~ (0 < orZero (meanOf Samples.balanceInfo) /\
        3 <= orZero (maxOf Samples.balanceInfo) / orZero (meanOf Samples.balanceInfo))) /\
  (forall (H : Host) (eda : EDAResult) (kpis : list KPI) (r : RiskItem),
     In r (outlierCandidates eda kpis) ->
     ins_severity (risk_insight r) = Some Warning ->
     exists col info,
       In (col, info) (columns eda) /\ isNumericType info = true /\
       ~ orZero (meanOf info) == 0 /\
       ins_column (risk_insight r) = Some col /\
       risk_score r =
         (if match mainMetricColumn eda kpis with
             | Some m => String.eqb m col
             | None => false
             end
          then 100 else 0)
         + orZero (maxOf info) / Num.max (1 # 1000000000) (orZero (meanOf info)) * 10) /\
  (forall (H : Host) (eda : EDAResult) (kpis : list KPI),
     let kept := keptOutlierItems eda kpis in
     (length kept <= 2)%nat /\
     (forall r, In r kept -> In r (outlierCandidates eda kpis)) /\
     (forall r r', In r kept -> In r' (outlierCandidates eda kpis) -> ~ In r' kept ->
        risk_score r' <= risk_score r) /\
     (length (filter isInvestigate (generateInsights eda kpis)) <= 2)%nat /\
     (forall i, In i (generateInsights eda kpis) -> isInvestigate i = true ->
        In i (map risk_insight kept))).
Proof.
  split; [|split; [|split]].
  - intros H eda kpis col info max mean Hin Hnum Hmax Hmean Hneg Hbig.
    destruct (outlierItems_warning (mainMetricColumn eda kpis) col info) as [A B].
    cbv zeta in A, B. rewrite Hmax, Hmean in A, B. cbn [orZero] in A, B.
    destruct (proj2 A) as (r & Hr & Hw).
    { split; [exact Hnum|]. split; [intro E; rewrite E in Hneg; discriminate Hneg|].
      unfold outlierRatio, Num.max.
      destruct (Num.ltb (1 # 1000000000) mean) eqn:E.
      - apply ltb_lt in E. exfalso.
        assert (0 < mean) by (eapply Qlt_trans; [|exact E]; reflexivity).
        exact (Qlt_irrefl _ (Qlt_trans _ _ _ H0 Hneg)).
      - setoid_replace (max / (1 # 1000000000)) with (max * 1000000000) by (field; discriminate).
        apply Qle_trans with (1 * 1000000000); [discriminate|].
        apply Qmult_le_compat_r; [exact Hbig|discriminate]. }
    destruct (B r Hr Hw) as (Ec & Ei & _).
    exists r. split; [|repeat split; assumption].
    unfold outlierCandidates. apply in_flat_map. exists (col, info). split; assumption.
  - assert (E : exists i,
      nth_error (generateInsights (H := StdHost.host) Samples.balanceProfile []) 1
        = Some i /\
      ins_id i = "outlier-balance" /\ ins_severity i = Some Warning /\
      ins_column i = Some "balance").
    { vm_compute. eexists. repeat split. }
    destruct E as (i & Ei & E1 & E2 & E3).
    exists i. split; [eapply nth_error_In; exact Ei|].
    repeat (split; [assumption|]). repeat (split; [reflexivity|]).
    intros [Hpos _]. vm_compute in Hpos. discriminate Hpos.
  - intros H eda kpis r Hr Hw.
    unfold outlierCandidates in Hr. apply in_flat_map in Hr.
    destruct Hr as ([col info] & Hin & Hr). cbn [fst snd] in Hr.
    destruct (outlierItems_warning (mainMetricColumn eda kpis) col info) as [A B].
    cbv zeta in A, B.
    destruct (proj1 A) as (Hnum & Hm & _); [exists r; split; assumption|].
    destruct (B r Hr Hw) as (_ & Ei & Es).
    exists col, info. repeat split; try assumption.
  - intros H eda kpis. cbv zeta. split; [|split; [|split]].
    + unfold keptOutlierItems. apply firstn_le_length.
    + intros r Hr. unfold keptOutlierItems in Hr. apply firstn_In in Hr.
      apply sortByScoreDesc_In in Hr. exact Hr.
    + intros r r' Hr Hr' Hn. unfold keptOutlierItems in *.
      set (S := sortByScoreDesc risk_score (outlierCandidates eda kpis)) in *.
      assert (Hs : In r' (skipn 2 S)).
      { apply (sortByScoreDesc_In risk_score) in Hr'. fold S in Hr'.
        rewrite <- (firstn_skipn 2 S) in Hr'. apply in_app_or in Hr'.
        destruct Hr' as [Hr'|Hr']; [contradiction|exact Hr']. }
      exact (@sorted_firstn_skipn _ _ 2 _ _ _ (sortByScoreDesc_sorted risk_score _) Hr Hs).
    + apply generateInsights_investigate.
Qed.


(** ** The correlation matrix *)

Lemma Qmult_comm_eq (x y : Q) : x * y = y * x.
Proof.
  unfold Qmult. f_equal; [apply Z.mul_comm|apply Pos.mul_comm].
Qed.

Lemma pearsonSums_swap mx my x y :
  forall num dx dy,
    pearsonSums mx my x y = (num, dx, dy) ->
    pearsonSums my mx y x = (num, dy, dx).
Proof.
  unfold pearsonSums.
  assert (G : forall (x y : list Q) a b c num dx dy,
    fold_left (fun acc xy =>
        let '(num, dx, dy) := acc in
        let a := fst xy - mx in
        let b := snd xy - my in
        (num + a * b, dx + a * a, dy + b * b)) (combine x y) (a, b, c) = (num, dx, dy) ->
    fold_left (fun acc xy =>
        let '(num, dx, dy) := acc in
        let a := fst xy - my in
        let b := snd xy - mx in
        (num + a * b, dx + a * a, dy + b * b)) (combine y x) (a, c, b) = (num, dy, dx)).
  { clear x y. induction x as [|u x IH]; intros [|v y] a b c num dx dy; simpl;
      try (intro E; injection E as <- <- <-; reflexivity).
    intro E. rewrite (Qmult_comm_eq (v - my) (u - mx)). apply IH. exact E. }
  intros num dx dy E. apply G. exact E.
Qed.

Section CorrFacts.
Context {H : Host}.

Lemma pearson_sym x y : pearson x y = pearson y x.
Proof.
  unfold pearson.
  rewrite (Nat.eqb_sym (length y) (length x)).
  destruct (length x =? length y)%nat eqn:E; simpl; [|reflexivity].
  apply Nat.eqb_eq in E. rewrite <- E.
  destruct (length x <? 8)%nat; [reflexivity|].
  destruct (pearsonSums (mean x) (mean y) x y) as [[num dx] dy] eqn:Es.
  rewrite (pearsonSums_swap _ _ _ _ Es).
  rewrite (Qmult_comm_eq dy dx). reflexivity.
Qed.

Lemma nth_map_seq (A : Type) (g : nat -> A) n i d :
  (i < n)%nat -> nth i (map g (seq 0 n)) d = g i.
Proof.
  intro Hi. rewrite (nth_indep _ d (g 0%nat)) by (rewrite length_map, length_seq; exact Hi).
  rewrite map_nth. rewrite seq_nth by exact Hi. reflexivity.
Qed.

(** The entry of the matrix of [buildCorrMatrix] at [(i, j)]. *)
Lemma buildCorrMatrix_entry data cols matrix n i j :
  buildCorrMatrix data cols = Some (matrix, n) ->
  (i < length cols)%nat -> (j < length cols)%nat ->
  nth j (nth i matrix []) 0 =
    match pearson (seriesOf (completeRows data cols) i)
                  (seriesOf (completeRows data cols) j) with
    | None => 0
    | Some r => r
    end /\
  (40 <= length (completeRows data cols))%nat.
Proof.
  unfold buildCorrMatrix. intros E Hi Hj.
  assert (Hn : match cols with [] => O | _ => length (completeRows data cols) end
               = length (completeRows data cols)).
  { destruct cols; [simpl in Hi; lia|reflexivity]. }
  rewrite Hn in E. clear Hn.
  destruct (length (completeRows data cols) <? 40)%nat eqn:En; [discriminate|].
  apply Nat.ltb_ge in En. injection E as <- <-.
  split; [|exact En].
  rewrite (nth_map_seq _ [] Hi). rewrite (nth_map_seq _ 0 Hj). reflexivity.
Qed.

(** The sum of squared deviations. *)
Lemma square_nonneg (a : Q) : 0 <= a * a.
Proof.
  unfold Qle, Qmult. simpl. nia.
Qed.

Lemma square_pos (a : Q) : ~ a == 0 -> 0 < a * a.
Proof.
  unfold Qlt, Qeq, Qmult. simpl. nia.
Qed.

Lemma squares_ge m xs acc :
  acc <= fold_left (fun s x => s + (x - m) * (x - m)) xs acc.
Proof.
  revert acc. induction xs as [|x xs IH]; intro acc; simpl; [apply Qle_refl|].
  eapply Qle_trans; [|apply IH].
  pose proof (square_nonneg (x - m)). lra.
Qed.

Lemma squares_gt m xs acc x :
  In x xs -> ~ x == m ->
  acc < fold_left (fun s x => s + (x - m) * (x - m)) xs acc.
Proof.
  revert acc. induction xs as [|y xs IH]; intros acc Hin Hne; simpl; [destruct Hin|].
  destruct Hin as [->|Hin].
  - eapply Qlt_le_trans; [|apply squares_ge].
    assert (0 < (x - m) * (x - m)).
    { apply square_pos. intro E. apply Hne. lra. }
    lra.
  - eapply Qle_lt_trans; [|apply IH; assumption].
    pose proof (square_nonneg (y - m)). lra.
Qed.

Lemma pearsonSums_self m xs :
  let d := fold_left (fun s x => s + (x - m) * (x - m)) xs 0 in
  pearsonSums m m xs xs = (d, d, d).
Proof.
  cbv zeta. unfold pearsonSums.
  assert (G : forall acc,
    fold_left (fun acc xy =>
        let '(num, dx, dy) := acc in
        let a := fst xy - m in
        let b := snd xy - m in
        (num + a * b, dx + a * a, dy + b * b)) (combine xs xs) (acc, acc, acc)
    = (fold_left (fun s x => s + (x - m) * (x - m)) xs acc,
       fold_left (fun s x => s + (x - m) * (x - m)) xs acc,
       fold_left (fun s x => s + (x - m) * (x - m)) xs acc)).
  { induction xs as [|x xs IH]; intro acc; simpl; [reflexivity|]. apply IH. }
  apply G.
Qed.

(** The correlation of a series with itself is [1] when the series is long
    enough and not constant, on a host whose square root undoes a square. *)
Lemma pearson_self xs a b :
  (forall x, 0 <= x -> sqrt (x * x) == x) ->
  (8 <= length xs)%nat -> In a xs -> In b xs -> ~ a == b ->
  exists r, pearson xs xs = Some r /\ r == 1.
Proof.
  intros Hsqrt Hlen Ha Hb Hab. unfold pearson.
  rewrite Nat.eqb_refl. simpl.
  destruct (length xs <? 8)%nat eqn:E; [apply Nat.ltb_lt in E; lia|].
  rewrite pearsonSums_self. cbv zeta.
  set (d := fold_left (fun s x => s + (x - mean xs) * (x - mean xs)) xs 0).
  assert (Hd : 0 < d).
  { assert (Hx : exists x, In x xs /\ ~ x == mean xs).
    { destruct (Qeq_dec a (mean xs)) as [Ea|Na]; [|eauto].
      exists b. split; [exact Hb|]. intro Eb. apply Hab. rewrite Ea, Eb. reflexivity. }
    destruct Hx as (x & Hx & Nx). unfold d. apply squares_gt with (x := x); assumption. }
  assert (Hden : sqrt (d * d) == d) by (apply Hsqrt; lra).
  destruct (Num.eqb (sqrt (d * d)) 0) eqn:Ez.
  - unfold Num.eqb in Ez. apply Qeq_bool_iff in Ez. rewrite Hden in Ez. lra.
  - eexists. split; [reflexivity|]. rewrite Hden. field. lra.
Qed.

(** The correlation of a series with itself, where it is defined, is [1]. *)
Lemma pearson_self_cases xs :
  (forall x, 0 <= x -> sqrt (x * x) == x) ->
  match pearson xs xs with
  | None => True
  | Some r => r == 1
  end.
Proof.
  intros Hsqrt. unfold pearson.
  rewrite Nat.eqb_refl. simpl.
  destruct (length xs <? 8)%nat; [exact I|].
  rewrite pearsonSums_self. cbv zeta.
  set (d := fold_left (fun s x => s + (x - mean xs) * (x - mean xs)) xs 0).
  assert (Hd : 0 <= d) by (unfold d; apply squares_ge).
  assert (Hden : sqrt (d * d) == d) by (apply Hsqrt; exact Hd).
  destruct (Num.eqb (sqrt (d * d)) 0) eqn:Ez; [exact I|].
  assert (Hn : ~ d == 0).
  { intro E. unfold Num.eqb in Ez.
    assert (Et : Qeq_bool (sqrt (d * d)) 0 = true).
    { apply Qeq_bool_iff. rewrite Hden. exact E. }
    congruence. }
  rewrite Hden. field. exact Hn.
Qed.

Lemma seriesOf_In rows i row :
  In row rows -> In (nth i row 0) (seriesOf rows i).
Proof.
  intro Hr. unfold seriesOf. apply in_map_iff. exists row. split; [reflexivity|exact Hr].
Qed.

End CorrFacts.

(** The square root of the host of the examples undoes a square. *)
Lemma sqrtDown_square x : 0 <= x -> StdHost.sqrtDown (x * x) == x.
Proof.
  intro Hx. destruct x as [n d]. unfold StdHost.sqrtDown, Qmult. cbn [Qnum Qden].
  assert (Hn : (0 <= n)%Z).
  { unfold Qle in Hx. simpl in Hx. lia. }
  replace (n * n * Z.pos (d * d))%Z with ((n * Z.pos d) * (n * Z.pos d))%Z
    by (rewrite Pos2Z.inj_mul; ring).
  rewrite Z.sqrt_square by lia.
  unfold Qeq. cbn [Qnum Qden]. rewrite Pos2Z.inj_mul. ring.
Qed.


(** C6, as the code has it.  The matrix of every correlation chart that
    [generateCharts] returns is symmetric.  Its diagonal entry for a column is
    [1] when the column takes at least two distinct values among the rows the
    matrix is computed from: the rows in which every selected column holds a
    number.  The diagonal entry of any selected column is [1] or [0]: it is
    [0] where [pearson] returns [null] for the column against itself.  (The
    square root of the host is taken to undo a square, as the correctly
    rounded one does.) *)
Theorem C6_correlation_matrix_symmetric_with_unit_diagonal
    {H : Host} (data : list Row) (eda : option EDAResult)
    (name : string) (cols : list string) (matrix : list (list Q)) :
  In (CorrChart name cols matrix) (generateCharts data eda) ->
  (forall i j, (i < length cols)%nat -> (j < length cols)%nat ->
     nth j (nth i matrix []) 0 = nth i (nth j matrix []) 0) /\
  ((forall x, 0 <= x -> sqrt (x * x) == x) ->
   forall i r1 r2, (i < length cols)%nat ->
     In r1 (completeRows data cols) -> In r2 (completeRows data cols) ->
     ~ nth i r1 0 == nth i r2 0 ->
     nth i (nth i matrix []) 0 == 1) /\
  ((forall x, 0 <= x -> sqrt (x * x) == x) ->
   forall i, (i < length cols)%nat ->
     nth i (nth i matrix []) 0 == 1 \/
     (nth i (nth i matrix []) 0 = 0 /\
      pearson (seriesOf (completeRows data cols) i)
              (seriesOf (completeRows data cols) i) = None)).
Proof.
  intro Hin. apply generateCharts_origin in Hin. destruct Hin as (c & Hs & Ho).
  unfold candidateOrigin in Ho. rewrite Hs in Ho. destruct Ho as (n & Hb).
  split; [|split].
  - intros i j Hi Hj.
    destruct (buildCorrMatrix_entry _ _ Hb Hi Hj) as [E1 _].
    destruct (buildCorrMatrix_entry _ _ Hb Hj Hi) as [E2 _].
    rewrite E1, E2, pearson_sym. reflexivity.
  - intros Hsqrt i r1 r2 Hi H1 H2 Hne.
    destruct (buildCorrMatrix_entry _ _ Hb Hi Hi) as [E Hn].
    rewrite E.
    destruct (@pearson_self H (seriesOf (completeRows data cols) i)
                (nth i r1 0) (nth i r2 0) Hsqrt) as (r & Er & Hr).
    + unfold seriesOf. rewrite length_map. lia.
    + apply seriesOf_In, H1.
    + apply seriesOf_In, H2.
    + exact Hne.
    + rewrite Er. exact Hr.
  - intros Hsqrt i Hi.
    destruct (buildCorrMatrix_entry _ _ Hb Hi Hi) as [E _].
    rewrite E.
    pose proof (@pearson_self_cases H (seriesOf (completeRows data cols) i) Hsqrt) as Hc.
    destruct (pearson (seriesOf (completeRows data cols) i)
                (seriesOf (completeRows data cols) i)) as [r|].
    + left. exact Hc.
    + right. split; reflexivity.
Qed.

(** A matrix of C6's theorem: the chart of [Samples.corrRows], whose
    columns include [b] and [c]; the two entries of the matrix for the pair
    are equal and the entry of [b] on the diagonal is [1]. *)
Lemma C6_witness :
  exists name cols matrix i j,
    In (CorrChart name cols matrix)
       (generateCharts (H := StdHost.host) Samples.corrRows
          (Some (runEDA (H := StdHost.host) Samples.corrRows))) /\
    nth_error cols i = Some "b" /\ nth_error cols j = Some "c" /\
    nth j (nth i matrix []) 0 = nth i (nth j matrix []) 0 /\
    nth i (nth i matrix []) 0 == 1.
Proof.
  assert (E : exists s,
    In s (generateCharts (H := StdHost.host) Samples.corrRows
            (Some (runEDA (H := StdHost.host) Samples.corrRows))) /\
    match s with
    | CorrChart _ cols _ => cols = ["c"; "b"; "d"; "a"]
    | _ => False
    end).
  { vm_compute. eexists. split; [left; reflexivity|reflexivity]. }
  destruct E as (s & Es & Ec).
  destruct s as [| | | | | name cols matrix]; try (exfalso; exact Ec).
  subst cols.
  exists name, ["c"; "b"; "d"; "a"], matrix, 1%nat, 0%nat.
  split; [exact Es|]. split; [reflexivity|]. split; [reflexivity|].
  destruct (C6_correlation_matrix_symmetric_with_unit_diagonal
              (H := StdHost.host) _ _ _ _ _ Es) as (Sym & Diag & _).
  split.
  - apply Sym; simpl; lia.
  - apply (Diag sqrtDown_square 1%nat [13; 13; 13; 13] [14; 14; 14; 13]).
    + simpl. lia.
    + vm_compute. left. reflexivity.
    + vm_compute. right. left. reflexivity.
    + vm_compute. discriminate.
Defined.

(** C6 as the specification states it fails for a column with two distinct
    values of which only one occurs in the rows that are complete.  In
    [Samples.corrRows] the column [a] holds [13] in forty rows and [14] in the
    row where [b] is missing; over the forty complete rows it is constant
    (their sum [520] and their mean [13] are exact), [pearson] returns [null]
    for it, and its diagonal entry is [0]. *)
Lemma C6_counterexample_diagonal_zero :
  exists name cols matrix i,
    In (CorrChart name cols matrix)
       (generateCharts (H := StdHost.host) Samples.corrRows
          (Some (runEDA (H := StdHost.host) Samples.corrRows))) /\
    nth_error cols i = Some "a" /\
    In 13 (columnNumbers Samples.corrRows "a") /\
    In 14 (columnNumbers Samples.corrRows "a") /\
    nth i (nth i matrix []) 0 = 0 /\
    ~ nth i (nth i matrix []) 0 == 1.
Proof.
  assert (E : exists s,
    In s (generateCharts (H := StdHost.host) Samples.corrRows
            (Some (runEDA (H := StdHost.host) Samples.corrRows))) /\
    match s with
    | CorrChart _ cols matrix =>
        cols = ["c"; "b"; "d"; "a"] /\ nth 3 (nth 3 matrix []) 0 = 0
    | _ => False
    end).
  { vm_compute. eexists. split; [left; reflexivity|split; reflexivity]. }
  destruct E as (s & Es & Ec).
  destruct s as [| | | | | name cols matrix]; try (exfalso; exact Ec).
  destruct Ec as [-> Ez].
  exists name, ["c"; "b"; "d"; "a"], matrix, 3%nat.
  split; [exact Es|]. split; [reflexivity|].
  split; [vm_compute; left; reflexivity|].
  split; [apply (nth_error_In _ 40); vm_compute; reflexivity|].
  split; [exact Ez|].
  rewrite Ez. discriminate.
Qed.


(** ** The query engine *)

(** One step into the answer: the test or the value at the head decides. *)
Ltac answer_step :=
  match goal with
  | |- exists s, (if ?b then _ else _) = Returns s => destruct b eqn:?
  | |- exists s, match ?x with _ => _ end = Returns s => destruct x eqn:?
  | |- exists s, Returns _ = Returns s => eexists; reflexivity
  end.

(** C9.  [answerQuestion] returns a string for every input: no path of it
    raises, and where the data of the requested facet is absent the answer is
    a sentence.  For a profile with no column typed as a date, a time question
    (one that the time patterns match and none of the intents tested before
    them) gets the fixed sentence on the missing date column; the question
    [time trend] of scenario E is such a question. *)
Theorem C9_answerQuestion_returns_a_string_and_the_no_date_sentence
    {H : Host} (args : AnswerArgs) :
  (exists s, answerQuestion args = Returns s) /\
  (hasDateColumn (arg_eda args) = false ->
   isTimeQuestion (arg_q args) = true ->
   answerQuestion args = Returns noDateSentence) /\
  (hasDateColumn (arg_eda args) = false ->
   arg_q args = "time trend" ->
   answerQuestion args = Returns noDateSentence).
Proof.
  assert (T : hasDateColumn (arg_eda args) = false ->
              isTimeQuestion (arg_q args) = true ->
              answerQuestion args = Returns noDateSentence).
  { unfold hasDateColumn, isTimeQuestion. cbv zeta. intros Hd Hq.
    repeat (apply andb_true_iff in Hq; destruct Hq as [Hq ?]).
    repeat match goal with
           | E : negb _ = true |- _ => apply negb_true_iff in E
           end.
    unfold answerQuestion. cbv zeta.
    repeat match goal with
           | E : ?c = false |- context [if ?c then _ else _] => rewrite E
           end.
    match goal with E : isTime _ = true |- _ => rewrite E end.
    rewrite Hd. reflexivity. }
  split; [|split; [exact T|]].
  - unfold answerQuestion. cbv zeta.
    repeat answer_step.
    + (* [insights.map] after the test of [insights?.length] *)
      exfalso. congruence.
    + (* [info.topValues.slice] after the test of [info?.topValues?.length] *)
      exfalso. congruence.
  - intros Hd Hq. apply T; [exact Hd|]. rewrite Hq. vm_compute. reflexivity.
Qed.

(** Scenario E on the thirty orders of [Samples.orders], whose profile has
    no date column. *)
Lemma C9_witness :
  answerQuestion (H := StdHost.host)
    (mkArgs "time trend" (Some (mkMeta 30 2 0))
       (Some (runEDA (H := StdHost.host) Samples.orders)) [] [] (Some []))
  = Returns noDateSentence.
Proof.
  apply (proj2 (proj2 (C9_answerQuestion_returns_a_string_and_the_no_date_sentence
                         (H := StdHost.host) _))).
  - vm_compute. reflexivity.
  - reflexivity.
Defined.

(* ================================================================== *)
(** * Further properties of the code *)
(* ================================================================== *)

(** ** The histogram *)

Lemma sortAsc_bounds values v :
  In v values ->
  at_ (sortAsc values) 0 <= v /\ v <= at_ (sortAsc values) (length (sortAsc values) - 1).
Proof.
  intro Hv. apply sortAsc_In in Hv.
  destruct (In_nth _ _ 0 Hv) as (i & Hi & E).
  change (nth i (sortAsc values) 0) with (at_ (sortAsc values) i) in E.
  rewrite <- E. split; apply sorted_at_le; try apply sortAsc_sorted; lia.
Qed.

Lemma histogram_span_pos mn mx :
  mn <= mx -> 0 < (if Num.eqb (mx - mn) 0 then 1 else mx - mn).
Proof.
  intro L. unfold Num.eqb. destruct (Qeq_bool (mx - mn) 0) eqn:E; [reflexivity|].
  apply Qeq_bool_neq in E. lra.
Qed.

(** X1.  A histogram of [bins >= 1] bins has [bins + 1] edges in ascending
    order, of which the first is [min]; its [min] and [max] are values of the
    input and bound every value, and [total] counts the values. *)
Theorem histogram_edges_ascend_from_the_minimum values bins h :
  (1 <= bins)%nat ->
  computeHistogram values bins = Some h ->
  length (hg_edges h) = S bins /\
  In (hg_min h) values /\ In (hg_max h) values /\
  (forall v, In v values -> hg_min h <= v /\ v <= hg_max h) /\
  nth 0 (hg_edges h) 0 == hg_min h /\
  (forall i, (i < bins)%nat -> nth i (hg_edges h) 0 <= nth (S i) (hg_edges h) 0) /\
  hg_total h = length values.
Proof.
  intros Hb Hh. unfold computeHistogram in Hh. cbv zeta in Hh.
  destruct (length (sortAsc values) =? 0)%nat eqn:En; [discriminate|].
  apply Nat.eqb_neq in En. injection Hh as <-. cbn [hg_edges hg_min hg_max hg_total].
  set (clean := sortAsc values) in *.
  set (mn := at_ clean 0). set (mx := at_ clean (length clean - 1)).
  assert (Hle : mn <= mx).
  { apply sorted_at_le; [apply sortAsc_sorted|lia|lia]. }
  pose proof (histogram_span_pos Hle) as Hs.
  set (span := if Num.eqb (mx - mn) 0 then 1 else mx - mn) in *.
  assert (HB : 0 < Num.ofNat bins).
  { unfold Num.ofNat. replace 0 with (inject_Z 0) by reflexivity.
    rewrite <- Zlt_Qlt. lia. }
  split; [rewrite length_map, length_seq; lia|].
  split; [apply (proj1 (sortAsc_In mn values)); apply at_In; fold clean; lia|].
  split; [apply (proj1 (sortAsc_In mx values)); apply at_In; fold clean; lia|].
  split; [intros v Hv; apply sortAsc_bounds, Hv|].
  split.
  { rewrite nth_map_seq by lia. unfold Num.ofNat. simpl inject_Z.
    field. intro E. rewrite E in HB. inversion HB. }
  split; [|apply sortAsc_length].
  intros i Hi. rewrite !nth_map_seq by lia.
  assert (E : Num.ofNat (S i) == Num.ofNat i + 1).
  { unfold Num.ofNat. rewrite Nat2Z.inj_succ, <- Z.add_1_r, inject_Z_plus. reflexivity. }
  rewrite E.
  assert (D : mn + span * (Num.ofNat i + 1) / Num.ofNat bins
              == mn + span * Num.ofNat i / Num.ofNat bins + span / Num.ofNat bins).
  { field. intro E'. rewrite E' in HB. inversion HB. }
  rewrite D.
  assert (P : 0 < span / Num.ofNat bins).
  { apply Qlt_shift_div_l; [exact HB|]. lra. }
  lra.
Qed.

Lemma nth_incrAt i j counts :
  (j < length counts)%nat ->
  nth i (incrAt j counts) O = (nth i counts O + if (i =? j)%nat then 1 else 0)%nat.
Proof.
  revert i j. induction counts as [|c cs IH]; intros i j Hj; [simpl in Hj; lia|].
  destruct j as [|j]; destruct i as [|i]; simpl; try lia.
  apply IH. simpl in Hj. lia.
Qed.

Lemma counting_loop_nth bins mn span clean counts i :
  (1 <= bins)%nat -> length counts = bins -> (i < bins)%nat ->
  nth i (fold_left (countValue bins mn span) clean counts) O
  = (nth i counts O
     + length (filter (fun v => (binIndex bins mn span v =? Z.of_nat i)%Z) clean))%nat.
Proof.
  intros Hb. revert counts. induction clean as [|v clean IH]; intros counts Hl Hi.
  - simpl. lia.
  - cbn [fold_left filter].
    rewrite IH; [|rewrite countValue_length; exact Hl|exact Hi].
    unfold countValue.
    pose proof (binIndex_range mn span v Hb) as R.
    destruct (binIndex bins mn span v <? 0)%Z eqn:E; [apply Z.ltb_lt in E; lia|].
    rewrite nth_incrAt by lia.
    destruct (binIndex bins mn span v =? Z.of_nat i)%Z eqn:E1.
    + apply Z.eqb_eq in E1. rewrite E1, Nat2Z.id, Nat.eqb_refl. simpl. lia.
    + apply Z.eqb_neq in E1.
      destruct (i =? Z.to_nat (binIndex bins mn span v))%nat eqn:E2; [|lia].
      apply Nat.eqb_eq in E2. lia.
Qed.

Lemma filter_length_implied (A : Type) (p q : A -> bool) l :
  (forall x, In x l -> p x = true -> q x = true) ->
  (length (filter p l) <= length (filter q l))%nat.
Proof.
  induction l as [|x l IH]; intro Hpq; [apply Nat.le_refl|].
  assert (IH' : (length (filter p l) <= length (filter q l))%nat).
  { apply IH. intros y Hy. apply Hpq. now right. }
  cbn [filter]. destruct (p x) eqn:Ep.
  - rewrite (Hpq x (or_introl eq_refl) Ep). cbn [length]. lia.
  - destruct (q x); cbn [length]; lia.
Qed.

Lemma filter_all_length (A : Type) (p : A -> bool) l :
  (forall x, In x l -> p x = true) -> length (filter p l) = length l.
Proof.
  induction l as [|x l IH]; intro Hall; [reflexivity|].
  cbn [filter]. rewrite (Hall x (or_introl eq_refl)). cbn [length]. f_equal.
  apply IH. intros y Hy. apply Hall. now right.
Qed.

(** The bin of a value equal to the minimum is the first. *)
Lemma binIndex_of_min bins mn span v :
  (1 <= bins)%nat -> 0 < span -> v == mn -> binIndex bins mn span v = 0%Z.
Proof.
  intros Hb Hs Ev. unfold binIndex. cbv zeta.
  assert (E : (v - mn) / span * Num.ofNat bins == 0).
  { rewrite Ev. field. intro E. rewrite E in Hs. inversion Hs. }
  rewrite E. change (Qfloor 0) with 0%Z. lia.
Qed.

(** The bin of a value equal to the maximum is the last, when the span is
    [max - min]. *)
Lemma binIndex_of_max bins mn mx v :
  (1 <= bins)%nat -> mn < mx -> v == mx ->
  binIndex bins mn (mx - mn) v = (Z.of_nat bins - 1)%Z.
Proof.
  intros Hb Hs Ev. unfold binIndex. cbv zeta.
  assert (E : (v - mn) / (mx - mn) * Num.ofNat bins == inject_Z (Z.of_nat bins)).
  { rewrite Ev. unfold Num.ofNat. field. lra. }
  rewrite E, Qfloor_Z. lia.
Qed.

(** X2.  A histogram of [bins >= 1] bins has [bins] counts.  The values
    equal to [min] are counted in the first bin; when [min < max], the values
    equal to [max] are counted in the last bin; when all the values are
    equal, the first bin counts them all. *)
Theorem histogram_end_values_fall_in_the_end_bins values bins h :
  (1 <= bins)%nat ->
  computeHistogram values bins = Some h ->
  length (hg_counts h) = bins /\
  (length (filter (fun v => Num.eqb v (hg_min h)) values) <= nth 0 (hg_counts h) O)%nat /\
  (hg_min h < hg_max h ->
   (length (filter (fun v => Num.eqb v (hg_max h)) values)
      <= nth (bins - 1) (hg_counts h) O)%nat) /\
  (hg_min h == hg_max h -> nth 0 (hg_counts h) O = length values).
Proof.
  intros Hb Hh. unfold computeHistogram in Hh. cbv zeta in Hh.
  destruct (length (sortAsc values) =? 0)%nat eqn:En; [discriminate|].
  apply Nat.eqb_neq in En. injection Hh as <-. cbn [hg_counts hg_min hg_max].
  set (clean := sortAsc values) in *.
  set (mn := at_ clean 0). set (mx := at_ clean (length clean - 1)).
  assert (Hle : mn <= mx).
  { apply sorted_at_le; [apply sortAsc_sorted|lia|lia]. }
  pose proof (histogram_span_pos Hle) as Hs.
  set (span := if Num.eqb (mx - mn) 0 then 1 else mx - mn) in *.
  assert (Hperm : Permutation clean values) by (unfold clean, sortAsc; apply sortBy_perm).
  split; [apply (@counting_loop_sum bins mn span clean (repeat O bins) Hb (repeat_length O bins))|].
  split; [|split].
  - rewrite counting_loop_nth; [|exact Hb|apply repeat_length|lia].
    rewrite nth_repeat. cbn [Nat.add].
    rewrite <- (@filter_perm_length _ (fun v => Num.eqb v mn) _ _ Hperm).
    apply filter_length_implied. intros v _ Ev.
    unfold Num.eqb in Ev. apply Qeq_bool_iff in Ev.
    apply Z.eqb_eq. apply binIndex_of_min; assumption.
  - intro Hlt.
    rewrite counting_loop_nth; [|exact Hb|apply repeat_length|lia].
    rewrite nth_repeat. cbn [Nat.add].
    rewrite <- (@filter_perm_length _ (fun v => Num.eqb v mx) _ _ Hperm).
    apply filter_length_implied. intros v _ Ev.
    unfold Num.eqb in Ev. apply Qeq_bool_iff in Ev.
    apply Z.eqb_eq.
    assert (Esp : span = mx - mn).
    { unfold span, Num.eqb. destruct (Qeq_bool (mx - mn) 0) eqn:E; [|reflexivity].
      apply Qeq_bool_iff in E. lra. }
    rewrite Esp, Nat2Z.inj_sub by exact Hb. apply binIndex_of_max; assumption.
  - intro Heq.
    rewrite counting_loop_nth; [|exact Hb|apply repeat_length|lia].
    rewrite nth_repeat. cbn [Nat.add].
    rewrite <- (sortAsc_length values). fold clean.
    assert (Hall : forall v, In v clean ->
              (binIndex bins mn span v =? Z.of_nat 0)%Z = true).
    { intros v Hv. apply Z.eqb_eq. apply binIndex_of_min; [exact Hb|exact Hs|].
      apply (sortAsc_In v values) in Hv.
      destruct (sortAsc_bounds values v Hv) as [L U]. fold clean mn in L. fold clean mx in U.
      lra. }
    apply filter_all_length, Hall.
Qed.

(** ** Quantiles and the box summary *)

Lemma quantileSorted_eq l q :
  (2 <= length l)%nat ->
  quantileSorted l q =
    Some (at_ l (quantileBase (length l) q)
          + (at_ l (Nat.min (length l - 1) (quantileBase (length l) q + 1))
             - at_ l (quantileBase (length l) q))
            * (Num.ofNat (length l - 1) * q
               - Num.ofNat (quantileBase (length l) q))).
Proof.
  intro Hl. destruct l as [|x [|y l]]; simpl in Hl; try lia. reflexivity.
Qed.

Lemma floor_nat_le x y : x <= y -> (Num.floor_nat x <= Num.floor_nat y)%nat.
Proof.
  intro L. unfold Num.floor_nat. pose proof (Qfloor_resp_le _ _ L). lia.
Qed.

Lemma quantile_position n q :
  0 <= q -> q <= 1 ->
  let pos := Num.ofNat (n - 1) * q in
  let base := quantileBase n q in
  (base <= n - 1)%nat /\ 0 <= pos - Num.ofNat base /\ pos - Num.ofNat base <= 1.
Proof.
  intros Hq0 Hq1 pos base.
  pose proof (ofNat_nonneg (n - 1)) as Hn.
  assert (P0 : 0 <= pos) by (apply Qmult_le_0_compat; assumption).
  assert (P1 : pos <= Num.ofNat (n - 1)).
  { unfold pos.
    assert (0 <= Num.ofNat (n - 1) * (1 - q)) by (apply Qmult_le_0_compat; lra).
    lra. }
  assert (Eb : Num.ofNat base = inject_Z (Qfloor pos)).
  { apply floor_nat_ofNat, P0. }
  split.
  - unfold base, quantileBase. fold pos. unfold Num.floor_nat.
    apply Qfloor_resp_le in P1. unfold Num.ofNat in P1. rewrite Qfloor_Z in P1. lia.
  - rewrite Eb. pose proof (Qfloor_le pos). pose proof (Qlt_floor pos) as L.
    rewrite inject_Z_plus in L. change (inject_Z 1) with 1 in L. split; lra.
Qed.

(** X3.  On a sorted array that is not empty, [quantileSorted] returns a
    number for every [q] in [0, 1]: the first element at 0, the last at 1,
    and in between a value that does not decrease with [q] and stays
    between the two. *)
Theorem quantileSorted_monotone_between_the_ends l :
  StronglySorted Qle l -> l <> [] ->
  (exists v0 v1,
     quantileSorted l 0 = Some v0 /\ v0 == at_ l 0 /\
     quantileSorted l 1 = Some v1 /\ v1 == at_ l (length l - 1)) /\
  (forall q q', 0 <= q -> q <= q' -> q' <= 1 ->
     exists v v',
       quantileSorted l q = Some v /\ quantileSorted l q' = Some v' /\
       at_ l 0 <= v /\ v <= v' /\ v' <= at_ l (length l - 1)).
Proof.
  intros Hs Hl.
  destruct (Nat.eq_dec (length l) 1) as [E1|E1].
  { destruct l as [|x [|y l]]; simpl in E1; try lia; try congruence.
    split.
    - exists x, x. repeat split; reflexivity.
    - intros q q' _ _ _. exists x, x. cbn. repeat split; apply Qle_refl. }
  assert (Hn : (2 <= length l)%nat).
  { destruct l; [congruence|simpl in *; lia]. }
  split.
  - exists (at_ l (quantileBase (length l) 0)
            + (at_ l (Nat.min (length l - 1) (quantileBase (length l) 0 + 1))
               - at_ l (quantileBase (length l) 0))
              * (Num.ofNat (length l - 1) * 0 - Num.ofNat (quantileBase (length l) 0))),
           (at_ l (quantileBase (length l) 1)
            + (at_ l (Nat.min (length l - 1) (quantileBase (length l) 1 + 1))
               - at_ l (quantileBase (length l) 1))
              * (Num.ofNat (length l - 1) * 1 - Num.ofNat (quantileBase (length l) 1))).
    split; [apply quantileSorted_eq, Hn|].
    assert (B0 : quantileBase (length l) 0 = O).
    { rewrite (quantileBase_scaled (length l) (a := 0) 1) by lia.
      rewrite Z.mul_0_r. reflexivity. }
    assert (B1 : quantileBase (length l) 1 = (length l - 1)%nat).
    { rewrite (quantileBase_scaled (length l) (a := 1) 1) by lia.
      rewrite Z.mul_1_r, Z.div_1_r. apply Nat2Z.id. }
    split; [rewrite B0; unfold Num.ofNat; simpl inject_Z; ring|].
    split; [apply quantileSorted_eq, Hn|].
    rewrite B1. ring.
  - intros q q' Hq0 Hqq Hq1.
    rewrite !quantileSorted_eq by exact Hn.
    do 2 eexists. split; [reflexivity|]. split; [reflexivity|].
    destruct (@quantile_position (length l) q) as (Hb & R0 & R1); [lra|lra|].
    destruct (@quantile_position (length l) q') as (Hb' & R0' & R1'); [lra|lra|].
    set (n := length l) in *.
    set (base := quantileBase n q) in *. set (base' := quantileBase n q') in *.
    set (pos := Num.ofNat (n - 1) * q) in *. set (pos' := Num.ofNat (n - 1) * q') in *.
    assert (Hpos : pos <= pos').
    { unfold pos, pos'. pose proof (ofNat_nonneg (n - 1)).
      assert (0 <= Num.ofNat (n - 1) * (q' - q)) by (apply Qmult_le_0_compat; lra).
      lra. }
    assert (Hbb : (base <= base')%nat).
    { unfold base, base', quantileBase. apply floor_nat_le. exact Hpos. }
    assert (Hab : at_ l base <= at_ l (Nat.min (n - 1) (base + 1))).
    { apply sorted_at_le; [exact Hs|lia|unfold n in *; lia]. }
    assert (Hab' : at_ l base' <= at_ l (Nat.min (n - 1) (base' + 1))).
    { apply sorted_at_le; [exact Hs|lia|unfold n in *; lia]. }
    destruct (interpolate_between Hab R0 R1) as [I1 I2].
    destruct (interpolate_between Hab' R0' R1') as [I1' I2'].
    split.
    { apply Qle_trans with (at_ l base); [|exact I1].
      apply sorted_at_le; [exact Hs|lia|unfold n in *; lia]. }
    split.
    { destruct (Nat.eq_dec base base') as [Eb|Nb].
      - rewrite <- Eb in *.
        assert (0 <= (at_ l (Nat.min (n - 1) (base + 1)) - at_ l base)
                     * ((pos' - Num.ofNat base) - (pos - Num.ofNat base))).
        { apply Qmult_le_0_compat; lra. }
        lra.
      - apply Qle_trans with (at_ l (Nat.min (n - 1) (base + 1))); [exact I2|].
        apply Qle_trans with (at_ l base'); [|exact I1'].
        apply sorted_at_le; [exact Hs|lia|unfold n in *; lia]. }
    apply Qle_trans with (at_ l (Nat.min (n - 1) (base' + 1))); [exact I2'|].
    apply sorted_at_le; [exact Hs|lia|unfold n in *; lia].
Qed.


Lemma filter_partition_length (A : Type) (p : A -> bool) l :
  (length (filter p l) + length (filter (fun x => negb (p x)) l))%nat = length l.
Proof.
  induction l as [|a l IH]; simpl; [reflexivity|].
  destruct (p a); simpl; lia.
Qed.


(** ** The time series *)

Lemma mapAdd_keys k y agg :
  map fst (mapAdd k y agg)
  = if existsb (String.eqb k) (map fst agg) then map fst agg else map fst agg +++ [k].
Proof.
  induction agg as [|[k' v] agg IH]; simpl; [reflexivity|].
  rewrite (String.eqb_sym k k').
  destruct (String.eqb k' k) eqn:E; simpl; [reflexivity|].
  rewrite IH. destruct (existsb (String.eqb k) (map fst agg)); reflexivity.
Qed.

Lemma mapAdd_NoDup k y agg :
  NoDup (map fst agg) -> NoDup (map fst (mapAdd k y agg)).
Proof.
  intro Hn. rewrite mapAdd_keys.
  destruct (existsb (String.eqb k) (map fst agg)) eqn:E; [exact Hn|].
  apply NoDup_app; [exact Hn|repeat constructor; intros []|].
  intros x Hx [E'|[]]. subst x.
  assert (C : existsb (String.eqb k) (map fst agg) = true).
  { apply existsb_exists. exists k. split; [exact Hx|apply String.eqb_refl]. }
  congruence.
Qed.

Lemma mapAdd_In k y agg k' :
  In k' (map fst (mapAdd k y agg)) <-> k' = k \/ In k' (map fst agg).
Proof.
  rewrite mapAdd_keys.
  destruct (existsb (String.eqb k) (map fst agg)) eqn:E.
  - split; [intro Hk; now right|]. intros [->|Hk]; [|exact Hk].
    apply existsb_exists in E. destruct E as (x & Hx & Ex).
    apply String.eqb_eq in Ex. subst x. exact Hx.
  - rewrite in_app_iff. cbn [In]. split.
    + intros [Hk|[<-|[]]]; [now right|now left].
    + intros [->|Hk]; [right; now left|now left].
Qed.

Lemma mapAdd_length k y agg : (length (mapAdd k y agg) <= S (length agg))%nat.
Proof.
  induction agg as [|[k' v] agg IH]; simpl; [lia|].
  destruct (String.eqb k' k); simpl; lia.
Qed.

Lemma aggregate_invariant (key : Z -> string) pairs agg :
  NoDup (map fst agg) ->
  let out := fold_left (fun agg p => mapAdd (key (fst p)) (snd p) agg) pairs agg in
  NoDup (map fst out) /\
  (forall k, In k (map fst out) <->
             In k (map fst agg) \/ exists p, In p pairs /\ key (fst p) = k) /\
  (length out <= length agg + length pairs)%nat.
Proof.
  revert agg. induction pairs as [|p pairs IH]; intros agg Hn; cbn [fold_left map length].
  - split; [exact Hn|]. split; [|lia].
    intro k. split; [intro Hk; now left|]. intros [Hk|(p & [] & _)]. exact Hk.
  - destruct (IH (mapAdd (key (fst p)) (snd p) agg) (@mapAdd_NoDup (key (fst p)) (snd p) agg Hn)) as (N & K & L).
    cbv zeta in *. split; [exact N|]. split.
    + intro k. rewrite K, mapAdd_In. split.
      * intros [[->|Hk]|(q & Hq & Eq)].
        -- right. exists p. split; [now left|reflexivity].
        -- now left.
        -- right. exists q. split; [now right|exact Eq].
      * intros [Hk|(q & [<-|Hq] & Eq)].
        -- left. now right.
        -- left. left. symmetry. exact Eq.
        -- right. exists q. split; assumption.
    + pose proof (mapAdd_length (key (fst p)) (snd p) agg). lia.
Qed.

Section TimeSeriesFacts.
Context {H : Host}.

(** X5.  A time series that [buildTimeSeries] returns was built from at
    least 20 rows with a date and a number; it has at least 8 points and no
    more points than such rows, and one point for each key: the keys of the
    points are the day keys (the month keys, for the granularity [month]) of
    the dates of these rows. *)
Theorem buildTimeSeries_aggregates_the_pairs data dateCol numCol points g :
  buildTimeSeries data dateCol numCol = Some (points, g) ->
  let pairs := timePairs data dateCol numCol in
  let keyFn := match g with Day => formatDayKey | Month => formatMonthKey end in
  (20 <= length pairs)%nat /\
  (8 <= length points)%nat /\ (length points <= length pairs)%nat /\
  NoDup (map fst points) /\
  (forall k, In k (map fst points) <-> exists p, In p pairs /\ keyFn (fst p) = k).
Proof.
  unfold buildTimeSeries. fold (timePairs data dateCol numCol). cbv zeta.
  set (pairs := timePairs data dateCol numCol).
  destruct (length pairs <? 20)%nat eqn:E20; [discriminate|].
  apply Nat.ltb_ge in E20.
  set (sorted := sortBy (fun a b : Z * Q => (fst a <=? fst b)%Z) pairs).
  set (gran := if (Z.max 1 _ <=? 90)%Z then Day else Month).
  set (key := match gran with Day => formatDayKey | Month => formatMonthKey end).
  set (agg := fold_left (fun agg p => mapAdd (key (fst p)) (snd p) agg) sorted []).
  destruct (length (sortBy _ agg) <? 8)%nat eqn:E8; [discriminate|].
  apply Nat.ltb_ge in E8. intro E. injection E as <- <-. fold key.
  destruct (@aggregate_invariant key sorted [] (NoDup_nil _)) as (N & K & L).
  cbv zeta in N, K, L. fold agg in N, K, L.
  assert (Ps : Permutation sorted pairs) by apply sortBy_perm.
  split; [exact E20|]. split; [exact E8|]. split.
  { rewrite sortBy_length. simpl in L. rewrite (Permutation_length Ps) in L. exact L. }
  split.
  { apply (Permutation_NoDup (l := map fst agg)); [|exact N].
    apply Permutation_map, Permutation_sym, sortBy_perm. }
  intro k.
  assert (Pk : In k (map fst (sortBy (fun a b => (localeCompare (fst a) (fst b) <=? 0)%Z) agg))
               <-> In k (map fst agg)).
  { split; apply Permutation_in, Permutation_map;
      [apply sortBy_perm|apply Permutation_sym, sortBy_perm]. }
  rewrite Pk, K. cbn [map In]. split.
  - intros [[]|(p & Hp & Ep)]. exists p. split; [|exact Ep].
    apply (Permutation_in _ Ps), Hp.
  - intros (p & Hp & Ep). right. exists p. split; [|exact Ep].
    apply (Permutation_in _ (Permutation_sym Ps)), Hp.
Qed.

End TimeSeriesFacts.

(** ** Scatter plots and the correlation matrix *)

Section RelationshipFacts.
Context {H : Host}.

(** X6.  [buildScatter] returns [null] exactly when fewer than 30 rows have
    a number in both columns.  Otherwise [n] counts these rows, the points
    are [min 1200 n] of their pairs (all of them, in order, when [n <= 1200]),
    and the correlation is [pearson] of all the pairs, sampled or not. *)
Theorem buildScatter_points_are_pairs data xCol yCol :
  let pairs := scatterPairs data xCol yCol in
  (buildScatter data xCol yCol = None <-> (length pairs < 30)%nat) /\
  (forall b, buildScatter data xCol yCol = Some b ->
     sc_n b = length pairs /\ (30 <= sc_n b)%nat /\
     length (sc_points b) = Nat.min 1200 (sc_n b) /\
     (forall p, In p (sc_points b) -> In p pairs) /\
     ((sc_n b <= 1200)%nat -> sc_points b = pairs) /\
     sc_correlation b = pearson (map fst pairs) (map snd pairs)).
Proof.
  cbv zeta. unfold buildScatter. cbv zeta. fold (scatterPairs data xCol yCol).
  set (pairs := scatterPairs data xCol yCol).
  assert (El : length (map fst pairs) = length pairs) by apply length_map.
  rewrite !El.
  set (idx := seq 0 1200).
  assert (Li : length idx = 1200%nat) by apply length_seq.
  assert (Hi : forall i, In i idx -> (i < 1200)%nat).
  { intros i Hin. apply in_seq in Hin. lia. }
  clearbody idx.
  set (points := if (1200 <? length pairs)%nat
                 then map (fun i => nth (i * length pairs / 1200) pairs (0, 0)) idx
                 else pairs).
  assert (P1 : length points = Nat.min 1200 (length pairs)).
  { unfold points. destruct (1200 <? length pairs)%nat eqn:E.
    - apply Nat.ltb_lt in E. rewrite length_map, Li. lia.
    - apply Nat.ltb_ge in E. lia. }
  assert (P2 : forall p, In p points -> In p pairs).
  { unfold points. destruct (1200 <? length pairs)%nat eqn:E; [|tauto].
    apply Nat.ltb_lt in E. intros p Hp. apply in_map_iff in Hp.
    destruct Hp as (i & <- & Hin). apply Hi in Hin. apply nth_In.
    apply Nat.Div0.div_lt_upper_bound. nia. }
  assert (P3 : (length pairs <= 1200)%nat -> points = pairs).
  { unfold points. destruct (1200 <? length pairs)%nat eqn:E; [|reflexivity].
    apply Nat.ltb_lt in E. lia. }
  clearbody points.
  destruct (length pairs <? 30)%nat eqn:E30.
  - apply Nat.ltb_lt in E30. split; [split; [intros _; exact E30|reflexivity]|].
    intros b Hb. discriminate Hb.
  - apply Nat.ltb_ge in E30. split; [split; [discriminate|lia]|].
    intros b Hb. injection Hb as <-. cbn [sc_n sc_points sc_correlation].
    repeat split; assumption.
Qed.

(** What [buildCorrMatrix] returns; the chart generator's matrices are read
    off this too. *)
Lemma buildCorrMatrix_facts data cols :
  (buildCorrMatrix data cols = None <->
   cols = [] \/ (length (completeRows data cols) < 40)%nat) /\
  (forall matrix n, buildCorrMatrix data cols = Some (matrix, n) ->
     n = length (completeRows data cols) /\ (40 <= n)%nat /\
     length matrix = length cols /\
     Forall (fun row => length row = length cols) matrix /\
     Forall (fun row => length row = length cols) (completeRows data cols)).
Proof.
  assert (Hrows : Forall (fun row => length row = length cols) (completeRows data cols)).
  { unfold completeRows. apply Forall_flat_map. intros row _.
    destruct (completeRow row cols) as [[|v vals]|] eqn:E; constructor; [|constructor].
    clear - E. revert v vals E. induction cols as [|c cols IH]; intros v vals E.
    - simpl in E. discriminate.
    - simpl in E. destruct (safeToNumberLoose (cell row c)); [|discriminate].
      destruct (completeRow row cols) as [vs|] eqn:E'; [|discriminate].
      injection E as <- <-. destruct vs as [|w ws].
      + destruct cols; [reflexivity|]. simpl in E'.
        destruct (safeToNumberLoose (cell row s)); [|discriminate].
        destruct (completeRow row cols); discriminate.
      + simpl. f_equal. apply (IH w ws eq_refl). }
  unfold buildCorrMatrix. cbv zeta.
  set (rows := completeRows data cols) in *.
  set (idx := seq 0 (length cols)).
  assert (Li : length idx = length cols) by apply length_seq.
  clearbody idx.
  set (matrix := map (fun i => map (fun j =>
                   match pearson (seriesOf rows i) (seriesOf rows j) with
                   | Some r => r
                   | None => 0
                   end) idx) idx).
  assert (M1 : length matrix = length cols).
  { unfold matrix. rewrite length_map. exact Li. }
  assert (M2 : Forall (fun row => length row = length cols) matrix).
  { apply Forall_forall. intros row Hr. unfold matrix in Hr. apply in_map_iff in Hr.
    destruct Hr as (i & <- & _). rewrite length_map. exact Li. }
  clearbody matrix.
  destruct cols as [|c cols].
  - cbn [Nat.ltb Nat.leb]. split; [split; [intros _; left; reflexivity|reflexivity]|].
    intros m n Hm. discriminate.
  - destruct (length rows <? 40)%nat eqn:E.
    + apply Nat.ltb_lt in E. split; [split; [intros _; right; exact E|reflexivity]|].
      intros m n Hm. discriminate.
    + apply Nat.ltb_ge in E. split.
      * split; [discriminate|]. intros [C|C]; [discriminate C|lia].
      * intros m n Hm. injection Hm as <- <-.
        repeat split; assumption.
Qed.

(** X7.  [buildCorrMatrix] returns [null] exactly when it gets no column or
    fewer than 40 rows have a number in every column.  Otherwise [n] counts
    these rows and the matrix has one row and one entry in each row for every
    column. *)
Theorem buildCorrMatrix_is_square data cols :
  (buildCorrMatrix data cols = None <->
   cols = [] \/ (length (completeRows data cols) < 40)%nat) /\
  (forall matrix n, buildCorrMatrix data cols = Some (matrix, n) ->
     n = length (completeRows data cols) /\ (40 <= n)%nat /\
     length matrix = length cols /\
     Forall (fun row => length row = length cols) matrix /\
     Forall (fun row => length row = length cols) (completeRows data cols)).
Proof. exact (buildCorrMatrix_facts data cols). Qed.

End RelationshipFacts.

Section PearsonFacts.
Context {H : Host}.

(** X8.  [pearson] is symmetric in its two series.  It returns [null] for
    two series of different lengths and for fewer than 8 pairs.  The
    correlation of a series with itself, where it is not [null], is [1] (the
    square root of the host is taken to undo a square, as the correctly
    rounded one does). *)
Theorem pearson_is_symmetric_and_null_for_short_series x y :
  pearson x y = pearson y x /\
  (length x <> length y \/ (length x < 8)%nat -> pearson x y = None) /\
  ((forall z, 0 <= z -> sqrt (z * z) == z) ->
   forall r, pearson x x = Some r -> r == 1).
Proof.
  split; [apply pearson_sym|]. split.
  - intros Hs. unfold pearson.
    destruct (length x =? length y)%nat eqn:E1; [|reflexivity].
    apply Nat.eqb_eq in E1. cbn [negb orb].
    destruct (length x <? 8)%nat eqn:E2; [reflexivity|].
    apply Nat.ltb_ge in E2. lia.
  - intros Hsqrt r Er.
    pose proof (@pearson_self_cases H x Hsqrt) as Hc. rewrite Er in Hc. exact Hc.
Qed.

End PearsonFacts.

(** ** The fallback detection *)

Section DetectionFacts.
Context {H : Host}.

Lemma detectColumns_perm parses minRatio bonus data columns already :
  Permutation (detectColumns parses minRatio bonus data columns already)
              (filter (detectable parses minRatio data already) columns).
Proof.
  unfold detectColumns. cbv zeta.
  match goal with |- Permutation (map fst (sortByScoreDesc snd ?r)) _ => set (results := r) end.
  apply Permutation_trans with (map fst results).
  { apply Permutation_map. unfold sortByScoreDesc. apply sortBy_perm. }
  assert (E : map fst results = filter (detectable parses minRatio data already) columns).
  { unfold results. clear results. induction columns as [|col columns IH]; [reflexivity|].
    cbn [flat_map filter]. rewrite map_app, IH. unfold detectable at 2.
    fold (sampledCells data col).
    destruct (setHas col already); cbn [negb andb app map]; [reflexivity|].
    destruct (length (sampledCells data col) <? 15)%nat eqn:E15.
    - apply Nat.ltb_lt in E15.
      destruct (15 <=? length (sampledCells data col))%nat eqn:E'; [|reflexivity].
      apply Nat.leb_le in E'. lia.
    - apply Nat.ltb_ge in E15. apply Nat.leb_le in E15. rewrite E15. cbn [andb].
      destruct (Num.leb minRatio _); reflexivity. }
  rewrite E. apply Permutation_refl.
Qed.

Lemma detectColumns_from parses minRatio bonus data columns already col :
  In col (detectColumns parses minRatio bonus data columns already) -> In col columns.
Proof.
  intro Hin. apply (Permutation_in _ (detectColumns_perm _ _ _ _ _ _)) in Hin.
  apply filter_In in Hin. tauto.
Qed.

(** X9.  The fallback detection returns exactly the columns that were not
    detected before, have at least 15 sampled cells that are not missing, and
    of these at least 85% that read as a number (70% that read as a date);
    from column names without repeats it returns no column twice. *)
Theorem detected_columns_are_new_and_dense data columns already :
  (forall col, In col (detectNumericLikeColumns data columns already) <->
     In col columns /\ detectable readsAsNumber (85 # 100) data already col = true) /\
  (forall col, In col (detectDateLikeColumns data columns already) <->
     In col columns /\ detectable readsAsDate (7 # 10) data already col = true) /\
  (NoDup columns ->
     NoDup (detectNumericLikeColumns data columns already) /\
     NoDup (detectDateLikeColumns data columns already)).
Proof.
  pose proof (detectColumns_perm readsAsNumber (85 # 100) 10 data columns already) as Pn.
  pose proof (detectColumns_perm readsAsDate (7 # 10) 20 data columns already) as Pd.
  split; [|split].
  - intro col. unfold detectNumericLikeColumns. fold readsAsNumber. split.
    + intro Hin. apply (Permutation_in _ Pn) in Hin. apply filter_In in Hin. exact Hin.
    + intro Hc. apply (Permutation_in _ (Permutation_sym Pn)). apply filter_In. exact Hc.
  - intro col. unfold detectDateLikeColumns. fold readsAsDate. split.
    + intro Hin. apply (Permutation_in _ Pd) in Hin. apply filter_In in Hin. exact Hin.
    + intro Hc. apply (Permutation_in _ (Permutation_sym Pd)). apply filter_In. exact Hc.
  - intro Hn. split.
    + apply (Permutation_NoDup (Permutation_sym Pn)), NoDup_filter, Hn.
    + apply (Permutation_NoDup (Permutation_sym Pd)), NoDup_filter, Hn.
Qed.

End DetectionFacts.

(** ** Sets kept as arrays *)

Lemma setHas_In x set : setHas x set = true <-> In x set.
Proof.
  unfold setHas. rewrite existsb_exists. split.
  - intros (y & Hy & E). apply String.eqb_eq in E. subst y. exact Hy.
  - intro Hx. exists x. split; [exact Hx|apply String.eqb_refl].
Qed.

Lemma setAdd_In x y set : In x (setAdd y set) <-> x = y \/ In x set.
Proof.
  unfold setAdd. fold (setHas y set).
  destruct (setHas y set) eqn:E.
  - apply setHas_In in E. split; [tauto|]. intros [->|Hx]; assumption.
  - rewrite in_app_iff. simpl. split; [intros [Hx|[->|[]]]; tauto|intros [->|Hx]; tauto].
Qed.

Lemma setAdd_NoDup y set : NoDup set -> NoDup (setAdd y set).
Proof.
  intro Hn. unfold setAdd. fold (setHas y set).
  destruct (setHas y set) eqn:E; [exact Hn|].
  apply NoDup_app; [exact Hn|repeat constructor; intros []|].
  intros x Hx [E'|[]]. subst x. apply setHas_In in Hx. congruence.
Qed.

Lemma setAdd_fold_In x xs set :
  In x (fold_left (fun set c => setAdd c set) xs set) <-> In x set \/ In x xs.
Proof.
  revert set. induction xs as [|y xs IH]; intro set; simpl; [tauto|].
  rewrite IH, setAdd_In. split; [intros [[->|Hx]|Hx]; tauto|intros [Hx|[->|Hx]]; tauto].
Qed.

Lemma setAdd_fold_NoDup xs set :
  NoDup set -> NoDup (fold_left (fun set c => setAdd c set) xs set).
Proof.
  revert set. induction xs as [|y xs IH]; intros set Hn; simpl; [exact Hn|].
  apply IH, setAdd_NoDup, Hn.
Qed.

Lemma setOf_In x xs : In x (setOf xs) <-> In x xs.
Proof. unfold setOf. rewrite setAdd_fold_In. simpl. tauto. Qed.

Lemma setOf_NoDup xs : NoDup (setOf xs).
Proof. unfold setOf. apply setAdd_fold_NoDup. constructor. Qed.

Lemma pairsOf_In x y cols :
  In (x, y) (pairsOf cols) -> In x cols /\ In y cols /\ (NoDup cols -> x <> y).
Proof.
  induction cols as [|c cols IH]; simpl; [tauto|].
  rewrite in_app_iff, in_map_iff. intros [(d & E & Hd)|Hp].
  - injection E as <- <-. split; [tauto|]. split; [tauto|].
    intros Hn <-. inversion Hn. contradiction.
  - destruct (IH Hp) as (Hx & Hy & Hn). split; [tauto|]. split; [tauto|].
    intro Hn'. inversion Hn'. auto.
Qed.

(** ** The columns of the chart generator *)

Section ColumnFacts.
Context {H : Host}.

Lemma columnsWhere_In p eda c :
  In c (columnsWhere p eda) -> In c (map fst (columns eda)).
Proof.
  unfold columnsWhere. intro Hc. apply in_map_iff in Hc.
  destruct Hc as (e & <- & He). apply filter_In in He. apply in_map, He.
Qed.

Lemma numericColumns_known data eda c :
  In c (numericColumns data eda) -> In c (map fst (columns eda)).
Proof.
  unfold numericColumns. cbv zeta. rewrite setAdd_fold_In, setOf_In.
  intros [Hc|Hc]; [eapply columnsWhere_In, Hc|].
  unfold detectNumericLikeColumns in Hc. apply detectColumns_from in Hc. exact Hc.
Qed.

Lemma numericColumns_NoDup data eda : NoDup (numericColumns data eda).
Proof. unfold numericColumns. apply setAdd_fold_NoDup, setOf_NoDup. Qed.

Lemma dateColumns_known data eda c :
  In c (dateColumns data eda) -> In c (map fst (columns eda)).
Proof.
  unfold dateColumns. cbv zeta. rewrite setAdd_fold_In, setOf_In.
  intros [Hc|Hc]; [eapply columnsWhere_In, Hc|].
  unfold detectDateLikeColumns in Hc. apply detectColumns_from in Hc. exact Hc.
Qed.

Lemma categoricalColumns_known data eda c :
  In c (categoricalColumns data eda) -> In c (map fst (columns eda)).
Proof.
  unfold categoricalColumns. cbv zeta. rewrite setOf_In, in_app_iff.
  intros [Hc|Hc]; [eapply columnsWhere_In, Hc|].
  apply filter_In in Hc. tauto.
Qed.

Lemma rankedColumns_perm eda numericCols :
  exists l, Permutation l numericCols /\ rankedColumns eda numericCols = firstn 10 l.
Proof.
  unfold rankedColumns. cbv zeta.
  match goal with |- context [sortByScoreDesc snd ?s] => set (scored := s) end.
  exists (map fst (sortByScoreDesc snd scored)). split; [|reflexivity].
  apply Permutation_trans with (map fst scored).
  - apply Permutation_map. unfold sortByScoreDesc. apply sortBy_perm.
  - unfold scored. rewrite map_map. cbn [fst]. rewrite map_id. apply Permutation_refl.
Qed.

Lemma firstn_NoDup (A : Type) n (l : list A) : NoDup l -> NoDup (firstn n l).
Proof.
  intro Hn. rewrite <- (firstn_skipn n l) in Hn. apply NoDup_app_remove_r in Hn. exact Hn.
Qed.

Lemma rankedColumns_facts eda numericCols :
  NoDup numericCols ->
  NoDup (rankedColumns eda numericCols) /\
  (length (rankedColumns eda numericCols) <= 10)%nat /\
  (forall c, In c (rankedColumns eda numericCols) -> In c numericCols).
Proof.
  intro Hn. destruct (rankedColumns_perm eda numericCols) as (l & P & ->).
  split; [apply firstn_NoDup, (Permutation_NoDup (Permutation_sym P)), Hn|].
  split; [apply firstn_le_length|].
  intros c Hc. apply firstn_In in Hc. apply (Permutation_in _ P), Hc.
Qed.

End ColumnFacts.

(** ** The candidates are well formed *)

Section ShapeFacts.
Context {H : Host}.

Lemma numericCandidates_wf data eda col :
  In col (numericColumns data eda) ->
  Forall (candidateWellFormed data eda) (numericCandidates data eda col).
Proof.
  intro Hc. unfold numericCandidates. cbv zeta.
  destruct (isIdLikeNumeric col (lookup col (columns eda)) (length data)) eqn:Ei;
    [constructor|].
  destruct (length (columnNumbers data col) <? 12)%nat; [constructor|].
  apply Forall_app. split.
  - unfold histogramCandidate. cbv zeta.
    destruct (computeHistogram _ _); constructor; [|constructor].
    split; [reflexivity|]. cbn. split; assumption.
  - unfold boxCandidate.
    destruct (computeBox _); constructor; [|constructor].
    split; [reflexivity|]. cbn. split; assumption.
Qed.

Lemma withOther_length bars nonMissing :
  (length bars <= length (withOther bars nonMissing) <= S (length bars))%nat.
Proof.
  unfold withOther. cbv zeta. destruct (0 <? _)%nat; [rewrite length_app; simpl; lia|lia].
Qed.

Lemma fallback_bars_length (le : string * nat -> string * nat -> bool) e freq n :
  (1 <= length (withOther (firstn 10 (sortBy le (e :: freq))) n) <= 11)%nat.
Proof.
  pose proof (withOther_length (firstn 10 (sortBy le (e :: freq))) n) as L.
  assert (L2 : (1 <= length (firstn 10 (sortBy le (e :: freq))) <= 10)%nat).
  { rewrite length_firstn, sortBy_length. cbn [length]. lia. }
  lia.
Qed.

Lemma barCandidate_wf data eda col bars :
  In col (categoricalColumns data eda) ->
  setHas col (numericColumns data eda) = false ->
  setHas col (dateColumns data eda) = false ->
  isIdLikeCategorical col (lookup col (columns eda)) = false ->
  (1 <= length bars <= 11)%nat ->
  candidateWellFormed data eda (barCandidate col bars 10).
Proof.
  intros. unfold barCandidate. cbv zeta. split; [reflexivity|]. cbn.
  rewrite !length_map. repeat split; try assumption; lia.
Qed.

Lemma barCandidates_wf data eda col :
  In col (categoricalColumns data eda) ->
  Forall (candidateWellFormed data eda)
    (barCandidates data eda (numericColumns data eda) (dateColumns data eda) col).
Proof.
  intro Hc. unfold barCandidates. cbv zeta.
  destruct (setHas col (numericColumns data eda)) eqn:E1; [constructor|].
  destruct (setHas col (dateColumns data eda)) eqn:E2; [constructor|]. cbn [orb].
  destruct (isIdLikeCategorical col (lookup col (columns eda))) eqn:E3; [constructor|].
  destruct (match lookup col (columns eda) with
            | Some i => isNameListColumn i | None => false end); [constructor|].
  destruct (lookup col (columns eda)) as [i|] eqn:El.
  - destruct (topValuesOf i) as [|t ts] eqn:Et.
    + match goal with |- Forall _ (match ?f with [] => _ | _ => _ end) =>
        destruct f as [|e freq] eqn:Ef end; [constructor|].
      constructor; [|constructor]. apply barCandidate_wf; [assumption|assumption|assumption|rewrite El; exact E3|].
      apply fallback_bars_length.
    + destruct (capTopValuesWithOther i 10) as [|b bs] eqn:Ec; [constructor|].
      constructor; [|constructor]. apply barCandidate_wf; [assumption|assumption|assumption|rewrite El; exact E3|].
      rewrite <- Ec. unfold capTopValuesWithOther. cbv zeta.
      match goal with |- context [withOther ?b ?n] =>
        pose proof (withOther_length b n) as L; set (w := withOther b n) in * end.
      rewrite length_map, length_firstn, Et in L. simpl length in L.
      split; lia.
  - match goal with |- Forall _ (match ?f with [] => _ | _ => _ end) =>
      destruct f as [|e freq] eqn:Ef end; [constructor|].
    constructor; [|constructor]. apply barCandidate_wf; [assumption|assumption|assumption|rewrite El; exact E3|].
    apply fallback_bars_length.
Qed.

Lemma timeCandidates_wf data eda :
  Forall (candidateWellFormed data eda)
    (timeCandidates data (dateColumns data eda) (numericColumns data eda)).
Proof.
  unfold timeCandidates. apply Forall_flat_map. intros dcol Hd.
  destruct (nameHintsId dcol) eqn:En; [constructor|].
  apply Forall_flat_map. intros ncol Hn.
  destruct (buildTimeSeries data dcol ncol) as [[points g]|] eqn:Eb; [|constructor].
  constructor; [|constructor]. split; [reflexivity|]. cbn. repeat split; assumption.
Qed.

Lemma scatterCandidates_wf data eda :
  Forall (candidateWellFormed data eda) (scatterCandidates data (numericColumns data eda)).
Proof.
  unfold scatterCandidates. apply Forall_flat_map. intros [x y] Hp. cbn [fst snd].
  destruct (buildScatter data x y) as [built|] eqn:Eb; [|constructor].
  constructor; [|constructor]. split; [reflexivity|]. cbn.
  split; [exact Hp|]. split; [reflexivity|]. exists built. repeat split. exact Eb.
Qed.

Lemma corrCandidates_wf data eda :
  Forall (candidateWellFormed data eda) (corrCandidates data eda (numericColumns data eda)).
Proof.
  unfold corrCandidates. cbv zeta.
  destruct (length (numericColumns data eda) <? 4)%nat; [constructor|].
  destruct (length (rankedColumns eda (numericColumns data eda)) <? 4)%nat eqn:E4;
    [constructor|].
  apply Nat.ltb_ge in E4.
  destruct (buildCorrMatrix data _) as [[matrix n]|] eqn:Eb; [|constructor].
  constructor; [|constructor]. split; [reflexivity|]. cbn.
  split; [reflexivity|]. split; [reflexivity|]. split; [exact E4|]. exists n. exact Eb.
Qed.

Lemma chartCandidates_wf data eda :
  Forall (candidateWellFormed data eda) (chartCandidates data eda).
Proof.
  unfold chartCandidates. cbv zeta. repeat (apply Forall_app; split).
  - apply Forall_flat_map. intros col Hc. apply numericCandidates_wf, Hc.
  - apply Forall_flat_map. intros col Hc. apply barCandidates_wf, Hc.
  - apply timeCandidates_wf.
  - apply Forall_forall. intros c Hc. apply firstn_In, sortByScoreDesc_In in Hc.
    pose proof (scatterCandidates_wf data eda) as F. rewrite Forall_forall in F.
    apply F, Hc.
  - apply corrCandidates_wf.
Qed.

Lemma generateCharts_wf data eda s :
  In s (generateCharts data eda) ->
  exists e c, eda = Some e /\ data <> [] /\ spec c = s /\ candidateWellFormed data e c.
Proof.
  intro Hs. apply generateCharts_from in Hs.
  destruct Hs as (e & c & -> & Hd & Hc & Es). exists e, c.
  repeat split; try assumption.
  - pose proof (chartCandidates_wf data e) as F. rewrite Forall_forall in F.
    apply (F c Hc).
  - pose proof (chartCandidates_wf data e) as F. rewrite Forall_forall in F.
    apply (F c Hc).
Qed.

End ShapeFacts.

(** ** The diversity caps *)

Lemma takeDiverse_caps max picks c :
  (forall p, (purposeCount picks p <= pMax p)%nat) ->
  (forall t, (typeCount picks t <= tMax t)%nat) ->
  (forall p, (purposeCount (takeDiverse max picks c) p <= pMax p)%nat) /\
  (forall t, (typeCount (takeDiverse max picks c) t <= tMax t)%nat).
Proof.
  intros Hp Ht. unfold takeDiverse.
  destruct (max <=? length picks)%nat; [split; assumption|].
  destruct (canTake picks (snd c)) eqn:E; [|split; assumption]. cbn [negb].
  unfold canTake in E. cbv zeta in E.
  destruct (pMax (purpose (snd c)) <=? purposeCount picks (purpose (snd c)))%nat eqn:E1;
    [discriminate|].
  destruct (tMax (chartType (spec (snd c))) <=? typeCount picks (chartType (spec (snd c))))%nat
    eqn:E2; [discriminate|].
  apply Nat.leb_gt in E1, E2.
  split.
  - intro p. unfold purposeCount in *. rewrite filter_app, length_app. cbn [filter].
    destruct (purposeEqb (purpose (snd c)) p) eqn:Ep; cbn [length]; [|specialize (Hp p); lia].
    assert (purpose (snd c) = p) by (destruct (purpose (snd c)), p; try discriminate; reflexivity).
    subst p. lia.
  - intro t. unfold typeCount in *. rewrite filter_app, length_app. cbn [filter].
    destruct (chartTypeEqb (chartType (spec (snd c))) t) eqn:Et; cbn [length];
      [|specialize (Ht t); lia].
    assert (chartType (spec (snd c)) = t)
      by (destruct (chartType (spec (snd c))), t; try discriminate; reflexivity).
    subst t. lia.
Qed.

Lemma first_loop_caps max sorted picks :
  (forall p, (purposeCount picks p <= pMax p)%nat) ->
  (forall t, (typeCount picks t <= tMax t)%nat) ->
  (forall p, (purposeCount (fold_left (takeDiverse max) sorted picks) p <= pMax p)%nat) /\
  (forall t, (typeCount (fold_left (takeDiverse max) sorted picks) t <= tMax t)%nat).
Proof.
  revert picks. induction sorted as [|c sorted IH]; intros picks Hp Ht; [split; assumption|].
  cbn [fold_left]. destruct (@takeDiverse_caps max picks c Hp Ht) as [Hp' Ht']. apply IH; assumption.
Qed.

Lemma backfill_bound min sorted picks :
  (length picks <= min)%nat -> (length (fold_left (backfill min) sorted picks) <= min)%nat.
Proof.
  revert picks. induction sorted as [|c sorted IH]; intros picks Hl; [exact Hl|].
  cbn [fold_left]. apply IH. unfold backfill.
  destruct (min <=? length picks)%nat eqn:E; [exact Hl|]. apply Nat.leb_gt in E.
  destruct (existsb _ picks); [exact Hl|]. rewrite length_app. cbn [length]. lia.
Qed.

Lemma pickDiverse_caps cands min max :
  (min < length (pickDiverse cands min max))%nat ->
  exists picks : list Indexed,
    pickDiverse cands min max = map (fun c => spec (snd c)) picks /\
    (forall c, In c picks -> In (snd c) cands) /\
    (forall p, (purposeCount picks p <= pMax p)%nat) /\
    (forall t, (typeCount picks t <= tMax t)%nat).
Proof.
  unfold pickDiverse. cbv zeta.
  set (sorted := indexed (sortByScoreDesc score cands)).
  set (picks1 := fold_left (takeDiverse max) sorted []).
  intro Hl.
  destruct (@first_loop_caps max sorted []) as [Hp Ht];
    [intro p; apply Nat.le_0_l|intro t; apply Nat.le_0_l|]. fold picks1 in Hp, Ht.
  assert (Hfrom : forall c, In c picks1 -> In (snd c) cands).
  { intros c Hc. unfold picks1 in Hc.
    apply (loop_picks_from (takeDiverse max) (takeDiverse_cases max)) in Hc.
    destruct Hc as [[]|Hc]. apply indexed_In in Hc. apply sortByScoreDesc_In in Hc. exact Hc. }
  destruct (length picks1 <? min)%nat eqn:E.
  - apply Nat.ltb_lt in E. exfalso. cbv iota in Hl.
    pose proof (@backfill_bound min sorted picks1 ltac:(lia)) as B.
    rewrite length_firstn, length_map in Hl. lia.
  - cbv iota. exists (firstn max picks1). split; [apply firstn_map|].
    split; [intros c Hc; apply Hfrom, (firstn_In _ _ _ Hc)|].
    split.
    + intro p. unfold purposeCount in *.
      pose proof (filter_firstn_length (fun c : Indexed => purposeEqb (purpose (snd c)) p)
                    max picks1). specialize (Hp p). lia.
    + intro t. unfold typeCount in *.
      pose proof (filter_firstn_length
                    (fun c : Indexed => chartTypeEqb (chartType (spec (snd c))) t)
                    max picks1). specialize (Ht t). lia.
Qed.

Section CapFacts.
Context {H : Host}.

Lemma countType_picks (picks : list Indexed) t :
  countType t (map (fun c => spec (snd c)) picks) = typeCount picks t.
Proof.
  unfold countType, typeCount. induction picks as [|c picks IH]; [reflexivity|].
  cbn [map filter]. destruct (chartTypeEqb (chartType (spec (snd c))) t); cbn [length]; lia.
Qed.

Lemma purpose_count_of_types (picks : list Indexed) p t1 t2 :
  t1 <> t2 -> purposeOfType t1 = p -> purposeOfType t2 = p ->
  (forall c, In c picks -> purpose (snd c) = purposeOfType (chartType (spec (snd c)))) ->
  (typeCount picks t1 + typeCount picks t2 <= purposeCount picks p)%nat.
Proof.
  intros Hne H1 H2. unfold typeCount, purposeCount.
  induction picks as [|c picks IH]; intro Hw; [simpl; lia|].
  assert (IH' := IH (fun c' Hc' => Hw c' (or_intror Hc'))).
  pose proof (Hw c (or_introl eq_refl)) as Ec. cbn [filter]. rewrite Ec.
  destruct (chartType (spec (snd c))), t1, t2, p; cbn in *;
    try congruence; try discriminate; lia.
Qed.

(** X10.  When [generateCharts] returns more than the minimum of 4 charts,
    the diversity caps hold: at most 2 distribution charts (histograms and
    boxes) with at most 1 box, at most 2 bars, at most 2 time series, and at
    most 2 relationship charts with at most 1 scatter and 1 correlation
    matrix. *)
Theorem generateCharts_keeps_the_caps_beyond_the_minimum data eda :
  let charts := generateCharts data eda in
  (4 < length charts)%nat ->
  (countType THistogram charts + countType TBox charts <= 2)%nat /\
  (countType TBox charts <= 1)%nat /\
  (countType TBar charts <= 2)%nat /\
  (countType TTime charts <= 2)%nat /\
  (countType TScatter charts + countType TCorr charts <= 2)%nat /\
  (countType TScatter charts <= 1)%nat /\
  (countType TCorr charts <= 1)%nat.
Proof.
  cbv zeta. unfold generateCharts.
  destruct data as [|row data]; [simpl; lia|].
  destruct eda as [e|]; [|simpl; lia].
  set (rows := row :: data). intro Hl.
  destruct (@pickDiverse_caps _ _ _ Hl) as (picks & -> & Hfrom & Hp & Ht).
  assert (Hw : forall c, In c picks ->
             purpose (snd c) = purposeOfType (chartType (spec (snd c)))).
  { intros c Hc. pose proof (chartCandidates_wf rows e) as F.
    rewrite Forall_forall in F. apply (F _ (Hfrom c Hc)). }
  rewrite !countType_picks.
  pose proof (@purpose_count_of_types picks Distribution THistogram TBox
                ltac:(discriminate) eq_refl eq_refl Hw).
  pose proof (@purpose_count_of_types picks Relationship TScatter TCorr
                ltac:(discriminate) eq_refl eq_refl Hw).
  pose proof (Hp Distribution). pose proof (Hp Relationship).
  pose proof (Ht TBox). pose proof (Ht TBar). pose proof (Ht TTime).
  pose proof (Ht TScatter). pose proof (Ht TCorr).
  unfold pMax, tMax in *. repeat split; lia.
Qed.

End CapFacts.

Section ChartColumnFacts.
Context {H : Host}.

Lemma isIdLikeNumeric_name col info n :
  isIdLikeNumeric col info n = false -> nameHintsId col = false.
Proof. unfold isIdLikeNumeric. destruct (nameHintsId col); [discriminate|reflexivity]. Qed.

Lemma isIdLikeCategorical_name col info :
  isIdLikeCategorical col info = false -> nameHintsId col = false.
Proof. unfold isIdLikeCategorical. destruct (nameHintsId col); [discriminate|reflexivity]. Qed.

(** X11.  No histogram, box or bar of [generateCharts] is on a column that
    [isIdLikeNumeric] (for a bar, [isIdLikeCategorical]) takes for an
    identifier, in particular not on one whose name hints at an identifier;
    and no time series has such a name on its date axis.  (Scatter plots and
    correlation matrices are not constrained.) *)
Theorem generateCharts_never_plots_identifier_columns data e chart :
  In chart (generateCharts data (Some e)) ->
  match chart with
  | HistogramChart col _ _ _ _ _ _
  | BoxChart col _ _ _ _ _ _ _ _ =>
      nameHintsId col = false /\
      isIdLikeNumeric col (lookup col (columns e)) (length data) = false
  | BarChart col _ _ _ =>
      nameHintsId col = false /\
      isIdLikeCategorical col (lookup col (columns e)) = false
  | TimeChart _ xColumn _ _ _ => nameHintsId xColumn = false
  | ScatterChart _ _ _ _ _ | CorrChart _ _ _ => True
  end.
Proof.
  intro Hin. destruct (generateCharts_wf _ _ _ Hin) as (e' & c & E & _ & <- & _ & W).
  injection E as <-.
  destruct (spec c); try exact I.
  - destruct W as (_ & W). split; [exact (isIdLikeNumeric_name _ _ _ W)|exact W].
  - destruct W as (_ & W). split; [exact (isIdLikeNumeric_name _ _ _ W)|exact W].
  - destruct W as (_ & _ & _ & W & _). split; [exact (isIdLikeCategorical_name _ _ W)|exact W].
  - destruct W as (_ & _ & W & _). exact W.
Qed.

(** X12.  Every column of a chart of [generateCharts] is a column of the
    profile.  A time series is labelled [y over x] and a scatter plot
    [y vs x], with [x] and [y] different columns; a correlation matrix is
    labelled [Correlation (numeric)], is over 4 to 10 different columns and
    is square. *)
Theorem generateCharts_charts_are_over_profile_columns data e chart :
  In chart (generateCharts data (Some e)) ->
  let known c := In c (map fst (columns e)) in
  match chart with
  | HistogramChart col _ _ _ _ _ _
  | BoxChart col _ _ _ _ _ _ _ _
  | BarChart col _ _ _ => known col
  | TimeChart label xColumn yColumn _ _ =>
      known xColumn /\ known yColumn /\ label = yColumn ++ " over " ++ xColumn
  | ScatterChart label xColumn yColumn _ _ =>
      known xColumn /\ known yColumn /\ xColumn <> yColumn /\
      label = yColumn ++ " vs " ++ xColumn
  | CorrChart label cols matrix =>
      label = "Correlation (numeric)" /\
      (forall c, In c cols -> known c) /\ NoDup cols /\
      (4 <= length cols)%nat /\ (length cols <= 10)%nat /\
      length matrix = length cols /\
      (forall row, In row matrix -> length row = length cols)
  end.
Proof.
  intro Hin. cbv zeta.
  destruct (generateCharts_wf _ _ _ Hin) as (e' & c & E & _ & <- & _ & W).
  injection E as <-.
  destruct (spec c).
  - apply (numericColumns_known data), W.
  - apply (numericColumns_known data), W.
  - apply (categoricalColumns_known data), W.
  - destruct W as (Hx & Hy & _ & L & _).
    split; [apply (dateColumns_known data), Hx|].
    split; [apply (numericColumns_known data), Hy|exact L].
  - destruct W as (Hp & L & _). apply pairsOf_In in Hp. destruct Hp as (Hx & Hy & Hn).
    split; [apply (numericColumns_known data), Hx|].
    split; [apply (numericColumns_known data), Hy|].
    split; [apply Hn, numericColumns_NoDup|exact L].
  - destruct W as (L & -> & H4 & n & B).
    destruct (rankedColumns_facts e (numericColumns_NoDup data e)) as (Hnd & H10 & Hfrom).
    split; [exact L|].
    split; [intros col Hc; apply (numericColumns_known data), Hfrom, Hc|].
    split; [exact Hnd|]. split; [exact H4|]. split; [exact H10|].
    destruct (proj2 (buildCorrMatrix_facts data _) _ _ B) as (_ & _ & M1 & M2 & _).
    split; [exact M1|]. rewrite Forall_forall in M2. exact M2.
Qed.

End ChartColumnFacts.

Lemma withOther_sum bars nonMissing :
  list_sum (map snd (withOther bars nonMissing))
  = Nat.max nonMissing (list_sum (map snd bars)).
Proof.
  unfold withOther. cbv zeta.
  destruct (0 <? nonMissing - list_sum (map snd bars))%nat eqn:E.
  - apply Nat.ltb_lt in E. rewrite map_app, list_sum_app. cbn [map snd list_sum fold_right]. lia.
  - apply Nat.ltb_ge in E. lia.
Qed.

(** X13.  [capTopValuesWithOther] keeps the first [maxBars] top values in
    their order and adds one bar [Other] exactly when they count fewer than
    [nonMissingCount]; the counts of the bars then add up to
    [nonMissingCount], and to the sum of the kept counts otherwise. *)
Theorem capTopValuesWithOther_accounts_for_the_rest info maxBars :
  let nonMissing := match be_nonMissingCount (baseOf info) with Some k => k | None => O end in
  let shown := firstn maxBars (topValuesOf info) in
  let bars := capTopValuesWithOther info maxBars in
  firstn (length shown) bars = map (fun t => (tv_value t, tv_count t)) shown /\
  (length bars <= S maxBars)%nat /\
  list_sum (map snd bars) = Nat.max nonMissing (list_sum (map tv_count shown)) /\
  (bars = map (fun t => (tv_value t, tv_count t)) shown
     <-> (nonMissing <= list_sum (map tv_count shown))%nat) /\
  ((list_sum (map tv_count shown) < nonMissing)%nat ->
     bars = (map (fun t => (tv_value t, tv_count t)) shown
             +++ [("Other", (nonMissing - list_sum (map tv_count shown))%nat)])).
Proof.
  cbv zeta. unfold capTopValuesWithOther. cbv zeta.
  set (nonMissing := match be_nonMissingCount (baseOf info) with Some k => k | None => O end).
  set (shown := firstn maxBars (topValuesOf info)).
  set (trimmed := map (fun t => (tv_value t, tv_count t)) shown).
  assert (Es : map snd trimmed = map tv_count shown)
    by (unfold trimmed; rewrite map_map; reflexivity).
  assert (El : length trimmed = length shown) by (unfold trimmed; apply length_map).
  assert (Hs : (length shown <= maxBars)%nat) by (unfold shown; apply firstn_le_length).
  split; [|split; [|split; [|split]]].
  - unfold withOther. cbv zeta. destruct (0 <? _)%nat.
    + rewrite <- El, firstn_app, Nat.sub_diag, firstn_all. cbn [firstn]. apply app_nil_r.
    + rewrite <- El. apply firstn_all.
  - unfold withOther. cbv zeta. destruct (0 <? _)%nat;
      [rewrite length_app; cbn [length]|]; lia.
  - rewrite withOther_sum, Es. reflexivity.
  - unfold withOther. cbv zeta. rewrite Es.
    destruct (0 <? nonMissing - list_sum (map tv_count shown))%nat eqn:E.
    + apply Nat.ltb_lt in E. split; [|lia]. intro A.
      apply (f_equal (@length _)) in A. rewrite length_app in A. cbn [length] in A. lia.
    + apply Nat.ltb_ge in E. split; [lia|reflexivity].
  - intro Hlt. unfold withOther. cbv zeta. rewrite Es.
    destruct (0 <? nonMissing - list_sum (map tv_count shown))%nat eqn:E; [reflexivity|].
    apply Nat.ltb_ge in E. lia.
Qed.

(** ** Frequency maps *)

Lemma mapCount_keys k freq :
  map fst (mapCount k freq)
  = if existsb (String.eqb k) (map fst freq) then map fst freq else (map fst freq +++ [k]).
Proof.
  induction freq as [|[k' v] freq IH]; simpl; [reflexivity|].
  rewrite (String.eqb_sym k k').
  destruct (String.eqb k' k) eqn:E; simpl; [reflexivity|].
  rewrite IH. destruct (existsb (String.eqb k) (map fst freq)); reflexivity.
Qed.

Lemma existsb_eqb_In k (l : list string) : existsb (String.eqb k) l = true <-> In k l.
Proof.
  rewrite existsb_exists. split.
  - intros (x & Hx & E). apply String.eqb_eq in E. subst x. exact Hx.
  - intro Hk. exists k. split; [exact Hk|apply String.eqb_refl].
Qed.

Lemma mapCount_NoDup k freq :
  NoDup (map fst freq) -> NoDup (map fst (mapCount k freq)).
Proof.
  intro Hn. rewrite mapCount_keys.
  destruct (existsb (String.eqb k) (map fst freq)) eqn:E; [exact Hn|].
  apply NoDup_app; [exact Hn|repeat constructor; intros []|].
  intros x Hx [E'|[]]. subst x. apply existsb_eqb_In in Hx. congruence.
Qed.

Lemma mapCount_sum k freq :
  list_sum (map snd (mapCount k freq)) = S (list_sum (map snd freq)).
Proof.
  induction freq as [|[k' v] freq IH]; simpl; [reflexivity|].
  destruct (String.eqb k' k); simpl; [reflexivity|]. rewrite IH. lia.
Qed.

Lemma mapCount_pos k freq :
  Forall (fun e : string * nat => (1 <= snd e)%nat) freq ->
  Forall (fun e : string * nat => (1 <= snd e)%nat) (mapCount k freq).
Proof.
  induction 1 as [|[k' v] freq Hv Hf IH]; simpl; [repeat constructor|].
  destruct (String.eqb k' k); constructor; simpl in *; auto; lia.
Qed.

Lemma count_invariant (A : Type) (key : A -> string) xs freq :
  NoDup (map fst freq) ->
  Forall (fun e : string * nat => (1 <= snd e)%nat) freq ->
  let out := fold_left (fun u v => mapCount (key v) u) xs freq in
  NoDup (map fst out) /\
  list_sum (map snd out) = (list_sum (map snd freq) + length xs)%nat /\
  Forall (fun e : string * nat => (1 <= snd e)%nat) out /\
  (forall k, In k (map fst out) <-> In k (map fst freq) \/ In k (map key xs)).
Proof.
  revert freq. induction xs as [|x xs IH]; intros freq Hn Hp; cbn [fold_left length map].
  - split; [exact Hn|]. split; [lia|]. split; [exact Hp|]. intro k. simpl. tauto.
  - destruct (IH (mapCount (key x) freq) (@mapCount_NoDup (key x) freq Hn)
                 (@mapCount_pos (key x) freq Hp)) as (N & S & P & K).
    cbv zeta in *. split; [exact N|]. split; [rewrite S, mapCount_sum; lia|].
    split; [exact P|]. intro k. rewrite K, mapCount_keys.
    destruct (existsb (String.eqb (key x)) (map fst freq)) eqn:E.
    + apply existsb_eqb_In in E. simpl. intuition (subst; auto).
    + rewrite in_app_iff. simpl. intuition (subst; auto).
Qed.

Lemma pos_length_le_sum (freq : list (string * nat)) :
  Forall (fun e : string * nat => (1 <= snd e)%nat) freq ->
  (length freq <= list_sum (map snd freq))%nat.
Proof. induction 1 as [|e freq He Hf IH]; simpl; lia. Qed.

Lemma In_le_sum (freq : list (string * nat)) e :
  In e freq -> (snd e <= list_sum (map snd freq))%nat.
Proof.
  induction freq as [|e' freq IH]; simpl; [tauto|].
  intros [->|Hin]; [lia|]. specialize (IH Hin). lia.
Qed.

Lemma list_sum_perm l l' : Permutation l l' -> list_sum l = list_sum l'.
Proof. induction 1; simpl; lia. Qed.

Lemma list_sum_firstn n l : (list_sum (firstn n l) <= list_sum l)%nat.
Proof.
  revert n. induction l as [|x l IH]; intros [|n]; simpl; try lia.
  specialize (IH n). lia.
Qed.

Lemma firstn_NoDup' (A : Type) n (l : list A) : NoDup l -> NoDup (firstn n l).
Proof.
  intro Hn. rewrite <- (firstn_skipn n l) in Hn. apply NoDup_app_remove_r in Hn. exact Hn.
Qed.

Lemma map_sorted (A B : Type) (R : A -> A -> Prop) (S : B -> B -> Prop) (f : A -> B) l :
  (forall a b, R a b -> S (f a) (f b)) ->
  StronglySorted R l -> StronglySorted S (map f l).
Proof.
  intros Hf Hs. induction Hs as [|x l Hs IH Hx]; simpl; constructor; [exact IH|].
  rewrite Forall_forall in *. intros y Hy. apply in_map_iff in Hy.
  destruct Hy as (a & <- & Ha). apply Hf, Hx, Ha.
Qed.

(** ** The most frequent values *)

Lemma topValuesFrom_facts uniques k :
  NoDup (map fst uniques) ->
  Forall (fun e : string * nat => (1 <= snd e)%nat) uniques ->
  list_sum (map snd uniques) = k ->
  let tops := topValuesFrom uniques k in
  (length tops <= 8)%nat /\ (length tops <= length uniques)%nat /\
  NoDup (map tv_value tops) /\
  StronglySorted ge (map tv_count tops) /\
  (list_sum (map tv_count tops) <= k)%nat /\
  ((length uniques <= 8)%nat -> list_sum (map tv_count tops) = k) /\
  (forall t, In t tops ->
     In (tv_value t, tv_count t) uniques /\
     (1 <= tv_count t)%nat /\ (tv_count t <= k)%nat /\
     tv_pct t == Num.ofNat (tv_count t) / Num.ofNat k * 100 /\
     0 < tv_pct t /\ tv_pct t <= 100).
Proof.
  intros Hn Hp Hk. cbv zeta. unfold topValuesFrom.
  set (le := fun a b : string * nat => (snd b <=? snd a)%nat).
  set (sorted := sortBy le uniques).
  assert (P : Permutation sorted uniques) by apply sortBy_perm.
  assert (Ss : StronglySorted (fun a b => le a b = true) sorted).
  { apply sortBy_sorted.
    - intros x y. unfold le. rewrite Nat.leb_gt, Nat.leb_le. lia.
    - intros x y z. unfold le. rewrite !Nat.leb_le. lia. }
  set (f := fun e : string * nat =>
         mkTop (fst e) (snd e) (Num.ofNat (snd e) / Num.ofNat (Nat.max 1 k) * 100)).
  assert (Ev : map tv_value (map f (firstn 8 sorted)) = map fst (firstn 8 sorted))
    by (rewrite map_map; reflexivity).
  assert (Ec : map tv_count (map f (firstn 8 sorted)) = map snd (firstn 8 sorted))
    by (rewrite map_map; reflexivity).
  split; [rewrite length_map; apply firstn_le_length|].
  split; [rewrite length_map, length_firstn, <- (Permutation_length P); lia|].
  split.
  { rewrite Ev, <- firstn_map. apply firstn_NoDup'.
    apply (Permutation_NoDup (Permutation_map fst (Permutation_sym P))), Hn. }
  split.
  { rewrite Ec. apply map_sorted with (R := fun a b => le a b = true).
    - intros a b. unfold le. rewrite Nat.leb_le. lia.
    - apply firstn_sorted, Ss. }
  assert (Esum : list_sum (map snd sorted) = k).
  { rewrite <- Hk. apply list_sum_perm, Permutation_map, P. }
  split.
  { rewrite Ec, <- firstn_map, <- Esum. apply list_sum_firstn. }
  split.
  { intro H8. rewrite Ec, firstn_all2; [exact Esum|].
    rewrite (Permutation_length P). exact H8. }
  intros t Ht. apply in_map_iff in Ht. destruct Ht as (e & <- & He).
  apply firstn_In in He. apply (Permutation_in _ P) in He.
  assert (H1 : (1 <= snd e)%nat) by (rewrite Forall_forall in Hp; apply Hp, He).
  assert (H2 : (snd e <= k)%nat) by (rewrite <- Hk; apply In_le_sum, He).
  unfold f. cbn [tv_value tv_count tv_pct].
  split; [destruct e; exact He|]. split; [exact H1|]. split; [exact H2|].
  assert (Em : Nat.max 1 k = k) by lia. rewrite Em.
  assert (Kp : 0 < Num.ofNat k).
  { unfold Num.ofNat. change 0 with (inject_Z 0). rewrite <- Zlt_Qlt. lia. }
  assert (Cp : 0 < Num.ofNat (snd e)).
  { unfold Num.ofNat. change 0 with (inject_Z 0). rewrite <- Zlt_Qlt. lia. }
  assert (Cl : Num.ofNat (snd e) <= Num.ofNat k).
  { unfold Num.ofNat. rewrite <- Zle_Qle. lia. }
  split; [reflexivity|].
  split.
  - apply Qmult_lt_0_compat; [|reflexivity].
    apply Qlt_shift_div_l; [exact Kp|]. lra.
  - assert (D : Num.ofNat (snd e) / Num.ofNat k <= 1).
    { apply Qle_shift_div_r; [exact Kp|]. lra. }
    lra.
Qed.

(** ** The counts of a column profile *)

Lemma filter_map_length (A B : Type) (f : A -> B) (p : B -> bool) l :
  length (filter p (map f l)) = length (filter (fun x => p (f x)) l).
Proof.
  induction l as [|x l IH]; simpl; [reflexivity|]. destruct (p (f x)); simpl; congruence.
Qed.

Lemma flat_map_option_length (A B : Type) (f : A -> option B) (p : A -> bool) l :
  (forall x, p x = false -> f x = None) ->
  (length (flat_map (fun x => match f x with Some y => [y] | None => [] end) l)
   <= length (filter p l))%nat.
Proof.
  intro Hf. induction l as [|x l IH]; simpl; [lia|].
  rewrite length_app. destruct (p x) eqn:E.
  - destruct (f x); simpl; lia.
  - rewrite (Hf x E). simpl. lia.
Qed.

Lemma distinct_In k keys : In k (distinct keys) <-> In k keys.
Proof.
  induction keys as [|x keys IH]; simpl; [tauto|].
  destruct (existsb (String.eqb x) (distinct keys)) eqn:E.
  - apply existsb_eqb_In in E. rewrite IH in *. intuition (subst; auto).
  - simpl. rewrite IH. tauto.
Qed.

Lemma distinct_NoDup keys : NoDup (distinct keys).
Proof.
  induction keys as [|x keys IH]; simpl; [constructor|].
  destruct (existsb (String.eqb x) (distinct keys)) eqn:E; [exact IH|].
  constructor; [|exact IH]. intro Hx. apply existsb_eqb_In in Hx. congruence.
Qed.

Lemma distinctCount_le keys : (distinctCount keys <= length keys)%nat.
Proof.
  unfold distinctCount. induction keys as [|x keys IH]; simpl; [lia|].
  destruct (existsb (String.eqb x) (distinct keys)); simpl; lia.
Qed.

Lemma disjoint_filters_length (A : Type) (p q : A -> bool) l :
  (forall x, p x = true -> q x = false) ->
  (length (filter p l) + length (filter q l) <= length l)%nat.
Proof.
  intro Hd. induction l as [|x l IH]; simpl; [lia|].
  destruct (p x) eqn:E; [rewrite (Hd x E)|destruct (q x)]; simpl; lia.
Qed.

Lemma safeToNumberLoose_missing v : isMissing v = true -> safeToNumberLoose v = None.
Proof. intro E. unfold safeToNumberLoose. rewrite E. reflexivity. Qed.

Section ProfileCounts.
Context {H : Host}.

Lemma safeToDateLoose_missing v : isMissing v = true -> safeToDateLoose v = None.
Proof. intro E. unfold safeToDateLoose. rewrite E. reflexivity. Qed.

Lemma columnNumbers_length data col :
  (length (columnNumbers data col)
   <= length (filter (fun row => negb (isMissing (cell row col))) data))%nat.
Proof.
  unfold columnNumbers.
  apply (flat_map_option_length (fun row => safeToNumberLoose (cell row col))).
  intros row E. apply safeToNumberLoose_missing. apply negb_false_iff, E.
Qed.

(** X14.  In the profile of a column, [missing] is the number of rows whose
    cell is missing, [nonMissingCount] is there and no more than the other
    rows, and [uniqueCount] is no more than these either.  A categorical
    profile has [missing + nonMissingCount] rows and at most 8 top values,
    of different texts, in descending order of their counts, each with a
    count of at least 1 and the percentage [count / nonMissingCount * 100] in
    (0, 100]; their counts add up to [nonMissingCount] at most, and exactly
    when there are at most 8 different values.  A numeric profile counts the
    cells that read as numbers, and [zeros + negatives] is no more; a date
    profile has no more different dates than dates. *)
Theorem profileColumn_counts_add_up data empties col :
  let info := profileColumn data empties col in
  let missing := be_missing (baseOf info) in
  missing = length (filter (fun row => isMissing (cell row col)) data) /\
  exists k,
    be_nonMissingCount (baseOf info) = Some k /\
    (missing + k <= length data)%nat /\
    (be_uniqueCount (baseOf info) + missing <= length data)%nat /\
    match info with
    | CategoricalEDA b tops =>
        (missing + k)%nat = length data /\
        (length tops <= 8)%nat /\ (length tops <= be_uniqueCount b)%nat /\
        NoDup (map tv_value tops) /\
        StronglySorted ge (map tv_count tops) /\
        (list_sum (map tv_count tops) <= k)%nat /\
        ((be_uniqueCount b <= 8)%nat -> list_sum (map tv_count tops) = k) /\
        (forall t, In t tops ->
           (1 <= tv_count t)%nat /\ (tv_count t <= k)%nat /\
           tv_pct t == Num.ofNat (tv_count t) / Num.ofNat k * 100 /\
           0 < tv_pct t /\ tv_pct t <= 100)
    | NumericEDA b _ _ _ _ _ zeros negatives =>
        k = length (columnNumbers data col) /\ (zeros + negatives <= k)%nat
    | DateEDA b _ _ => (be_uniqueCount b <= k)%nat
    end.
Proof.
  cbv zeta. unfold profileColumn. cbv zeta.
  set (values := map (fun row => cell row col) data).
  set (missing := length (filter isMissing values)).
  set (present := filter (fun v => negb (isMissing v)) values).
  set (uniques := fold_left (fun u v => mapCount (cellString v) u) present []).
  assert (Em : missing = length (filter (fun row => isMissing (cell row col)) data))
    by apply filter_map_length.
  assert (Ep : (missing + length present)%nat = length data).
  { unfold missing, present. rewrite filter_partition_length. apply length_map. }
  destruct (@count_invariant Cell cellString present [] (NoDup_nil _) (Forall_nil _))
    as (Un & Us & Up & _).
  cbv zeta in Un, Us, Up. fold uniques in Un, Us, Up. cbn [map list_sum fold_right Nat.add] in Us.
  assert (Ul : (length uniques <= length present)%nat).
  { rewrite <- Us. apply pos_length_le_sum, Up. }
  assert (Ek : (length data - missing)%nat = length present) by lia.
  assert (Cat : forall flag,
    let info := CategoricalEDA (mkBase missing (length uniques)
                   (Some (length data - missing)%nat) flag)
                   (topValuesFrom uniques (length data - missing)) in
    be_missing (baseOf info) = length (filter (fun row => isMissing (cell row col)) data) /\
    exists k,
      be_nonMissingCount (baseOf info) = Some k /\
      (be_missing (baseOf info) + k <= length data)%nat /\
      (be_uniqueCount (baseOf info) + be_missing (baseOf info) <= length data)%nat /\
      (be_missing (baseOf info) + k)%nat = length data /\
      (length (topValuesFrom uniques (length data - missing)) <= 8)%nat /\
      (length (topValuesFrom uniques (length data - missing)) <= length uniques)%nat /\
      NoDup (map tv_value (topValuesFrom uniques (length data - missing))) /\
      StronglySorted ge (map tv_count (topValuesFrom uniques (length data - missing))) /\
      (list_sum (map tv_count (topValuesFrom uniques (length data - missing))) <= k)%nat /\
      ((length uniques <= 8)%nat ->
         list_sum (map tv_count (topValuesFrom uniques (length data - missing))) = k) /\
      (forall t, In t (topValuesFrom uniques (length data - missing)) ->
         (1 <= tv_count t)%nat /\ (tv_count t <= k)%nat /\
         tv_pct t == Num.ofNat (tv_count t) / Num.ofNat k * 100 /\
         0 < tv_pct t /\ tv_pct t <= 100)).
  { intro flag. cbv zeta. cbn [baseOf be_missing be_nonMissingCount be_uniqueCount].
    split; [exact Em|]. exists (length data - missing)%nat.
    assert (Hk : list_sum (map snd uniques) = (length data - missing)%nat) by lia.
    destruct (topValuesFrom_facts Un Up Hk) as (T1 & T2 & T3 & T4 & T5 & T6 & T7).
    cbv zeta in T1, T2, T3, T4, T5, T6, T7.
    split; [reflexivity|]. split; [lia|]. split; [lia|]. split; [lia|].
    split; [exact T1|]. split; [exact T2|]. split; [exact T3|]. split; [exact T4|].
    split; [exact T5|]. split; [exact T6|].
    intros t Ht. destruct (T7 t Ht) as (_ & R). exact R. }
  destruct (decideType col values) eqn:Ed; cbn [negb andb];
    try exact (Cat true); try exact (Cat false);
    destruct (existsb (String.eqb col) empties); cbn [negb];
    try exact (Cat false).
  - (* date *)
    cbn [baseOf be_missing be_nonMissingCount be_uniqueCount].
    split; [exact Em|].
    set (dates := flat_map (fun v => match safeToDateLoose v with
                                     | Some d => [d] | None => [] end) values).
    exists (length (sortBy (fun a b => (a <=? b)%Z) dates)).
    rewrite sortBy_length.
    assert (Dl : (length dates <= length present)%nat).
    { unfold dates, present.
      apply (flat_map_option_length safeToDateLoose (fun v => negb (isMissing v))).
      intros v E. apply safeToDateLoose_missing, negb_false_iff, E. }
    pose proof (distinctCount_le (map toISOString dates)) as Dd.
    rewrite length_map in Dd.
    split; [reflexivity|]. split; [lia|]. split; [lia|]. exact Dd.
  - (* numeric *)
    cbn [baseOf be_missing be_nonMissingCount be_uniqueCount].
    split; [exact Em|].
    exists (length (sortAsc (columnNumbers data col))).
    rewrite sortAsc_length.
    pose proof (columnNumbers_length data col) as Nl.
    rewrite <- (filter_map_length (fun row => cell row col) (fun v => negb (isMissing v)))
      in Nl. fold values in Nl. fold present in Nl.
    split; [reflexivity|]. split; [lia|]. split; [lia|]. split; [reflexivity|].
    rewrite <- (sortAsc_length (columnNumbers data col)).
    apply disjoint_filters_length.
    intros n E. apply Qeq_bool_iff in E. apply ltb_ge. rewrite E. apply Qle_refl.
Qed.

End ProfileCounts.

(** ** The median of a sorted array *)

Lemma filter_prefix_length (p : Q -> bool) l n :
  (n <= length l)%nat -> (forall j, (j < n)%nat -> p (at_ l j) = true) ->
  (n <= length (filter p l))%nat.
Proof.
  revert n. induction l as [|x l IH]; intros n Hn Hp; simpl in *; [lia|].
  destruct n as [|n]; [lia|].
  pose proof (Hp O ltac:(lia)) as H0. unfold at_ in H0. simpl in H0. rewrite H0. simpl.
  apply le_n_S, IH; [lia|]. intros j Hj. apply (Hp (S j)). lia.
Qed.

Lemma filter_suffix_length (p : Q -> bool) l i :
  (forall j, (i <= j)%nat -> (j < length l)%nat -> p (at_ l j) = true) ->
  (length l - i <= length (filter p l))%nat.
Proof.
  revert i. induction l as [|x l IH]; intros i Hp; simpl in *; [lia|].
  destruct i as [|i].
  - pose proof (Hp O ltac:(lia) ltac:(lia)) as H0. unfold at_ in H0. simpl in H0.
    rewrite H0. simpl. apply le_n_S.
    specialize (IH O). rewrite Nat.sub_0_r in IH. apply IH.
    intros j _ Hj. apply (Hp (S j)); lia.
  - specialize (IH i). assert (length l - i <= length (filter p l))%nat.
    { apply IH. intros j Hij Hj. apply (Hp (S j)); lia. }
    destruct (p x); simpl; lia.
Qed.

Lemma median_between sorted :
  StronglySorted Qle sorted -> sorted <> [] ->
  exists d i j, median sorted = Some d /\
    (i <= j)%nat /\ (j < length sorted)%nat /\
    (length sorted <= 2 * (i + 1))%nat /\ (length sorted <= 2 * (length sorted - j))%nat /\
    at_ sorted i <= d /\ d <= at_ sorted j.
Proof.
  intros Hs Hne. unfold median. cbv zeta.
  assert (Hl : (0 < length sorted)%nat) by (destruct sorted; [congruence|simpl; lia]).
  destruct (length sorted =? 0)%nat eqn:E0; [apply Nat.eqb_eq in E0; lia|].
  pose proof (Nat.div_mod_eq (length sorted) 2) as Hd.
  pose proof (Nat.mod_upper_bound (length sorted) 2 ltac:(lia)) as Hm.
  destruct (length sorted mod 2 =? 0)%nat eqn:E2.
  - apply Nat.eqb_eq in E2. eexists.
    exists (length sorted / 2 - 1)%nat, (length sorted / 2)%nat.
    split; [reflexivity|].
    split; [lia|]. split; [lia|]. split; [lia|]. split; [lia|].
    assert (L : at_ sorted (length sorted / 2 - 1) <= at_ sorted (length sorted / 2))
      by (apply sorted_at_le; [exact Hs|lia|lia]).
    split.
    + apply Qle_shift_div_l; [reflexivity|]. lra.
    + apply Qle_shift_div_r; [reflexivity|]. lra.
  - apply Nat.eqb_neq in E2. eexists.
    exists (length sorted / 2)%nat, (length sorted / 2)%nat.
    split; [reflexivity|].
    split; [lia|]. split; [lia|]. split; [lia|]. split; [lia|].
    split; apply Qle_refl.
Qed.

(** X15.  [median] returns [null] exactly on the empty array.  On a sorted
    array its result lies between the first and the last element, at least
    half of the elements are at most the result and at least half are at
    least the result; on an odd length it is an element of the array. *)
Theorem median_splits_a_sorted_array_in_halves sorted :
  StronglySorted Qle sorted ->
  (median sorted = None <-> sorted = []) /\
  (forall d, median sorted = Some d ->
     at_ sorted 0 <= d /\ d <= at_ sorted (length sorted - 1) /\
     (length sorted <= 2 * length (filter (fun v => Num.leb v d) sorted))%nat /\
     (length sorted <= 2 * length (filter (fun v => Num.leb d v) sorted))%nat /\
     (Nat.odd (length sorted) = true -> In d sorted)).
Proof.
  intro Hs. split.
  - split.
    + intro E. destruct sorted as [|x l]; [reflexivity|].
      destruct (@median_between (x :: l) Hs ltac:(discriminate)) as (d & _ & _ & E' & _).
      congruence.
    + intros ->. reflexivity.
  - intros d E. assert (Hne : sorted <> []) by (intros ->; discriminate).
    destruct (median_between Hs Hne) as (d' & i & j & E' & Hij & Hj & Hi2 & Hj2 & Li & Lj).
    assert (d' = d) by congruence. subst d'.
    split; [apply Qle_trans with (at_ sorted i); [apply sorted_at_le; [exact Hs|lia|lia]|exact Li]|].
    split; [apply Qle_trans with (at_ sorted j); [exact Lj|apply sorted_at_le; [exact Hs|lia|lia]]|].
    split; [|split].
    + assert ((i + 1) <= length (filter (fun v => Num.leb v d) sorted))%nat; [|lia].
      apply filter_prefix_length; [lia|]. intros k Hk. apply leb_le.
      apply Qle_trans with (at_ sorted i); [apply sorted_at_le; [exact Hs|lia|lia]|exact Li].
    + assert (length sorted - j <= length (filter (fun v => Num.leb d v) sorted))%nat; [|lia].
      apply filter_suffix_length. intros k Hk Hk'. apply leb_le.
      apply Qle_trans with (at_ sorted j); [exact Lj|apply sorted_at_le; [exact Hs|lia|lia]].
    + intro Ho. unfold median in E. cbv zeta in E.
      destruct (length sorted =? 0)%nat eqn:E0; [discriminate|].
      apply Nat.eqb_neq in E0.
      rewrite <- Nat.negb_even in Ho. apply negb_true_iff in Ho.
      assert (Em : (length sorted mod 2 =? 0)%nat = false).
      { apply Nat.eqb_neq. intro M. apply Nat.Div0.mod_divides in M.
        destruct M as (c & M). rewrite M, Nat.even_mul in Ho. discriminate. }
      rewrite Em in E.
      assert (Ed : d = at_ sorted (length sorted / 2)) by congruence.
      rewrite Ed. apply at_In.
      pose proof (Nat.div_mod_eq (length sorted) 2).
      pose proof (Nat.mod_upper_bound (length sorted) 2 ltac:(lia)). lia.
Qed.

(** ** The numeric summary of a column *)

Lemma flat_map_filter (A B : Type) (f : A -> list B) (p : A -> bool) l :
  (forall x, p x = false -> f x = []) -> flat_map f (filter p l) = flat_map f l.
Proof.
  intro Hf. induction l as [|x l IH]; simpl; [reflexivity|].
  destruct (p x) eqn:E; simpl; [congruence|]. rewrite (Hf x E). exact IH.
Qed.

Lemma ratio_zero n : Num.ofNat 0 / Num.ofNat n == 0.
Proof. unfold Num.ofNat at 1. simpl. unfold Qdiv. ring. Qed.

Section NumericSummary.
Context {H : Host}.

Lemma decideType_numbers col data :
  flat_map (fun v => match safeToNumberLoose v with Some n => [n] | None => [] end)
    (filter (fun v => negb (isMissing v)) (map (fun row => cell row col) data))
  = columnNumbers data col.
Proof.
  unfold columnNumbers. rewrite flat_map_filter.
  - rewrite flat_map_concat_map, map_map, <- flat_map_concat_map. reflexivity.
  - intros v E. apply negb_false_iff in E. rewrite (safeToNumberLoose_missing _ E).
    reflexivity.
Qed.

Lemma decideType_numeric_has_numbers col data :
  decideType col (map (fun row => cell row col) data) = DecNumeric ->
  columnNumbers data col <> [].
Proof.
  unfold decideType. cbv zeta. rewrite decideType_numbers.
  set (values := map (fun row => cell row col) data).
  set (nonMissing := filter (fun v => negb (isMissing v)) values).
  intros D Hn. revert D. rewrite Hn. cbn [length].
  assert (Z7 : Num.leb (7 # 10) (Num.ofNat 0 / Num.ofNat (length nonMissing)) = false).
  { apply leb_gt. rewrite ratio_zero. reflexivity. }
  assert (Z85 : Num.leb (85 # 100) (Num.ofNat 0 / Num.ofNat (length nonMissing)) = false).
  { apply leb_gt. rewrite ratio_zero. reflexivity. }
  rewrite Z7, Z85. cbn [andb]. rewrite !andb_false_r.
  destruct (length nonMissing =? 0)%nat; [discriminate|].
  destruct (nameHintsId col); [discriminate|].
  destruct (isLikelyID nonMissing); [discriminate|].
  repeat match goal with
         | |- context [if ?c then _ else _] => destruct c; try discriminate
         end.
Qed.

(** X16.  A numeric profile always has numbers behind it: [min], [max],
    [mean] and [median] are all there, [min] and [max] are numbers of the
    column that bound all its numbers, the median lies between them, [stdev]
    is [null] exactly for a single number, [zeros] and [negatives] count the
    numbers that are 0 and below 0, and the profile is not marked as an
    identifier. *)
Theorem profileColumn_numeric_summary_is_ordered
    data empties col b mn mx mean md sd zeros negatives :
  profileColumn data empties col = NumericEDA b mn mx mean md sd zeros negatives ->
  let nums := columnNumbers data col in
  exists lo hi m d,
    mn = Some lo /\ mx = Some hi /\ mean = Some m /\ md = Some d /\
    In lo nums /\ In hi nums /\ (forall v, In v nums -> lo <= v /\ v <= hi) /\
    lo <= d /\ d <= hi /\
    (sd = None <-> length nums = 1%nat) /\
    zeros = length (filter (fun n => Num.eqb n 0) nums) /\
    negatives = length (filter (fun n => Num.ltb n 0) nums) /\
    be_inferredAsId b = false.
Proof.
  unfold profileColumn. cbv zeta.
  destruct (decideType col (map (fun row => cell row col) data)) eqn:Ed; cbn [negb andb];
    try discriminate;
    destruct (existsb (String.eqb col) empties); cbn [negb]; try discriminate.
  pose proof (decideType_numeric_has_numbers _ _ Ed) as Hne.
  set (nums := columnNumbers data col) in *.
  set (sorted := sortAsc nums).
  assert (Ps : Permutation sorted nums) by apply sortBy_perm.
  assert (Ss : StronglySorted Qle sorted) by apply sortAsc_sorted.
  assert (Ls : length sorted = length nums) by apply sortAsc_length.
  assert (Hl : (0 < length nums)%nat) by (destruct nums; [congruence|simpl; lia]).
  assert (E0 : (length sorted =? 0)%nat = false) by (apply Nat.eqb_neq; lia).
  rewrite E0. cbn [negb].
  destruct (@median_between sorted Ss) as (d & i & j & Emd & Hij & Hj & _ & _ & Li & Lj).
  { intro E. rewrite E in Ls. simpl in Ls. lia. }
  rewrite Emd. intro E. injection E as <- <- <- <- <- <- <- <-.
  assert (Hb : forall v, In v nums ->
            at_ sorted 0 <= v /\ v <= at_ sorted (length sorted - 1))
    by (intros v Hv; apply sortAsc_bounds, Hv).
  exists (at_ sorted 0), (at_ sorted (length sorted - 1)),
    (Num.sum sorted / Num.ofNat (length sorted)), d.
  repeat (split; [reflexivity|]).
  split; [apply (proj1 (sortAsc_In _ nums)), at_In; fold sorted; lia|].
  split; [apply (proj1 (sortAsc_In _ nums)), at_In; fold sorted; lia|].
  split; [exact Hb|].
  split; [apply Qle_trans with (at_ sorted i); [apply sorted_at_le; [exact Ss|lia|lia]|exact Li]|].
  split; [apply Qle_trans with (at_ sorted j); [exact Lj|apply sorted_at_le; [exact Ss|lia|lia]]|].
  split.
  { unfold stdev. fold sorted. rewrite Ls. destruct (length nums <? 2)%nat eqn:E2.
    - apply Nat.ltb_lt in E2. split; [lia|reflexivity].
    - apply Nat.ltb_ge in E2. split; [discriminate|lia]. }
  split; [apply filter_perm_length, Ps|].
  split; [apply filter_perm_length, Ps|reflexivity].
Qed.

End NumericSummary.

(** ** The profile of a dataset *)

Lemma countDuplicates_invariant fps dups seen :
  NoDup seen ->
  let out := fold_left (fun acc fp =>
               let '(dups, seen) := acc in
               if setHas fp seen then (S dups, seen) else (dups, fp :: seen))
             fps (dups, seen) in
  NoDup (snd out) /\
  (fst out + length (snd out))%nat = (dups + length seen + length fps)%nat /\
  (forall k, In k (snd out) <-> In k seen \/ In k fps).
Proof.
  revert dups seen. induction fps as [|fp fps IH]; intros dups seen Hn; cbn [fold_left].
  - cbv zeta. cbn [fst snd length]. split; [exact Hn|]. split; [lia|]. intro k. simpl. tauto.
  - destruct (setHas fp seen) eqn:E.
    + destruct (IH (S dups) seen Hn) as (N & L & K). cbv zeta in *.
      split; [exact N|]. split; [cbn [length]; lia|].
      intro k. rewrite K. apply setHas_In in E. simpl. intuition (subst; auto).
    + assert (Hn' : NoDup (fp :: seen)).
      { constructor; [|exact Hn]. intro Hin. apply setHas_In in Hin. congruence. }
      destruct (IH dups (fp :: seen) Hn') as (N & L & K). cbv zeta in *.
      split; [exact N|]. split; [cbn [length] in *; lia|].
      intro k. rewrite K. simpl. tauto.
Qed.

Lemma countDuplicates_distinct fps :
  (countDuplicates fps + distinctCount fps)%nat = length fps.
Proof.
  unfold countDuplicates.
  destruct (@countDuplicates_invariant fps O [] (NoDup_nil _)) as (N & L & K).
  cbv zeta in N, L, K.
  set (out := fold_left _ fps (O, [])) in *.
  assert (E : length (snd out) = distinctCount fps).
  { unfold distinctCount. apply Nat.le_antisymm; apply NoDup_incl_length.
    - exact N.
    - intros k Hk. apply distinct_In. apply K in Hk. simpl in Hk. tauto.
    - apply distinct_NoDup.
    - intros k Hk. apply (proj1 (distinct_In _ _)) in Hk. apply K. right. exact Hk. }
  cbn [length] in L. lia.
Qed.

Lemma distinct_nonempty keys : keys <> [] -> (1 <= distinctCount keys)%nat.
Proof.
  intro Hne. destruct keys as [|k keys]; [congruence|].
  unfold distinctCount. assert (Hin : In k (distinct (k :: keys))) by (apply distinct_In; left; reflexivity).
  destruct (distinct (k :: keys)); [destruct Hin|simpl; lia].
Qed.

Lemma lookup_map_In (A : Type) (f : string -> A) (key : string) (l : list string) :
  In key l -> lookup key (map (fun c => (c, f c)) l) = Some (f key).
Proof.
  induction l as [|c l IH]; intro Hc; [destruct Hc|]. cbn [map lookup].
  destruct (String.eqb c key) eqn:E.
  - apply String.eqb_eq in E. subst c. reflexivity.
  - destruct Hc as [->|Hc]; [rewrite String.eqb_refl in E; discriminate|].
    apply IH. exact Hc.
Qed.

Lemma lookup_map_absent (A : Type) (f : string -> A) (key : string) (l : list string) :
  ~ In key l -> lookup key (map (fun c => (c, f c)) l) = None.
Proof.
  induction l as [|c l IH]; intro Hc; [reflexivity|]. cbn [map lookup].
  destruct (String.eqb c key) eqn:E.
  - apply String.eqb_eq in E. subst c. exfalso. apply Hc. left. reflexivity.
  - apply IH. intro Hin. apply Hc. right. exact Hin.
Qed.

Section DatasetProfile.
Context {H : Host}.

(** X17.  The profile of [runEDA] has one column for each key that occurs in
    a row, none twice, holding the profile of that column; no other name is
    profiled.  [emptyColumns] are exactly the columns all of whose cells are
    missing, [constantColumns] are columns that are not empty, and
    [duplicates] is the number of rows less the number of different row
    fingerprints, so fewer than the rows when there is one. *)
Theorem runEDA_profiles_every_key_once data :
  let eda := runEDA data in
  let names := map fst (columns eda) in
  NoDup names /\
  (forall col, In col names <-> exists row, In row data /\ In col (map fst row)) /\
  (forall col, In col names ->
     lookup col (columns eda) = Some (profileColumn data (emptyColumns eda) col)) /\
  (forall col, ~ In col names -> lookup col (columns eda) = None) /\
  (forall col, In col (emptyColumns eda) <->
     In col names /\ forall row, In row data -> isMissing (cell row col) = true) /\
  (forall col, In col (constantColumns eda) ->
     In col names /\ ~ In col (emptyColumns eda)) /\
  (duplicates eda + distinctCount (map (fun row => fingerprintRow row names) data))%nat
    = length data /\
  (data <> [] -> (duplicates eda < length data)%nat).
Proof.
  cbv zeta. unfold runEDA. destruct data as [|row0 data].
  { cbn [columns map emptyColumns constantColumns duplicates length].
    split; [constructor|]. split; [intro col; split; [intros []|intros (r & [] & _)]|].
    split; [intros col []|]. split; [reflexivity|].
    split; [intro col; split; [intros []|intros ([] & _)]|].
    split; [intros col []|]. split; [reflexivity|congruence]. }
  set (rows := row0 :: data).
  set (cols := setOf (flat_map (fun row => map fst row) rows)).
  cbn [columns emptyColumns constantColumns duplicates].
  set (empties := filter (fun col => forallb (fun row => isMissing (cell row col)) rows) cols).
  assert (En : map fst (map (fun col => (col, profileColumn rows empties col)) cols) = cols).
  { rewrite map_map. apply map_id. }
  rewrite En.
  assert (Hempty : forall col, In col empties <->
            In col cols /\ forall row, In row rows -> isMissing (cell row col) = true).
  { intro col. unfold empties. rewrite filter_In, forallb_forall. tauto. }
  split; [apply setOf_NoDup|].
  split.
  { intro col. unfold cols. rewrite setOf_In, in_flat_map. tauto. }
  split.
  { intros col Hc. apply (lookup_map_In (profileColumn rows empties)), Hc. }
  split.
  { intros col Hc. apply (lookup_map_absent (profileColumn rows empties)), Hc. }
  split; [exact Hempty|].
  split.
  { intros col Hc. apply filter_In in Hc. destruct Hc as (Hc & Hp).
    split; [exact Hc|]. intro He. apply Hempty in He. destruct He as (_ & He).
    apply andb_true_iff in Hp. destruct Hp as (Hp & _). apply Nat.ltb_lt in Hp.
    assert (F : filter (fun v => negb (isMissing v)) (map (fun row => cell row col) rows) = []).
    { apply filter_none. rewrite Forall_forall. intros v Hv. apply in_map_iff in Hv.
      destruct Hv as (r & <- & Hr). rewrite (He r Hr). reflexivity. }
    rewrite F in Hp. simpl in Hp. lia. }
  pose proof (countDuplicates_distinct (map (fun row => fingerprintRow row cols) rows)) as D.
  rewrite length_map in D.
  split; [exact D|].
  intros _.
  assert (1 <= distinctCount (map (fun row => fingerprintRow row cols) rows))%nat
    by (apply distinct_nonempty; discriminate).
  lia.
Qed.

(** ** Identifiers and empty columns in the profile *)

(** X18.  A column profile is marked [inferredAs: id] exactly when
    [decideType] decides [id], and is then stored as categorical; this is the
    case of every column whose name hints at an identifier and that has a
    value.  A column without any value gets the categorical profile with
    0 unique values, 0 as [nonMissingCount] and no top value; a column listed
    as empty is never numeric or a date. *)
Theorem profileColumn_stores_identifiers_as_categorical data empties col :
  let info := profileColumn data empties col in
  let values := map (fun row => cell row col) data in
  (be_inferredAsId (baseOf info) = true <-> decideType col values = DecId) /\
  (be_inferredAsId (baseOf info) = true -> isCategoricalType info = true) /\
  (nameHintsId col = true ->
     (exists row, In row data /\ isMissing (cell row col) = false) ->
     be_inferredAsId (baseOf info) = true) /\
  ((forall row, In row data -> isMissing (cell row col) = true) ->
     info = CategoricalEDA (mkBase (length data) 0 (Some 0%nat) false) []) /\
  (In col empties -> isCategoricalType info = true).
Proof.
  cbv zeta.
  assert (A : be_inferredAsId (baseOf (profileColumn data empties col)) = true <->
              decideType col (map (fun row => cell row col) data) = DecId).
  { unfold profileColumn. cbv zeta.
    destruct (decideType col _); cbn [negb andb];
      try (destruct (existsb (String.eqb col) empties); cbn [negb]);
      cbn [baseOf be_inferredAsId]; split; intro E; try discriminate; reflexivity. }
  split; [exact A|].
  split.
  { unfold profileColumn. cbv zeta.
    destruct (decideType col _); cbn [negb andb];
      try (destruct (existsb (String.eqb col) empties); cbn [negb]);
      cbn [baseOf be_inferredAsId isCategoricalType]; intro E; try discriminate; reflexivity. }
  split.
  { intros Hn (row & Hr & Hm). apply A. unfold decideType. cbv zeta.
    assert (Hin : In (cell row col)
              (filter (fun v => negb (isMissing v)) (map (fun row => cell row col) data))).
    { apply filter_In.
      split; [exact (in_map (fun r => cell r col) data row Hr)|rewrite Hm; reflexivity]. }
    destruct (filter _ (map _ data)) as [|v vs]; [destruct Hin|].
    cbn [length Nat.eqb]. rewrite Hn. reflexivity. }
  split.
  { intro Hall. unfold profileColumn. cbv zeta.
    assert (F : filter (fun v => negb (isMissing v)) (map (fun row => cell row col) data) = []).
    { apply filter_none. rewrite Forall_forall. intros v Hv. apply in_map_iff in Hv.
      destruct Hv as (r & <- & Hr). rewrite (Hall r Hr). reflexivity. }
    assert (M : length (filter isMissing (map (fun row => cell row col) data)) = length data).
    { pose proof (filter_partition_length isMissing (map (fun row => cell row col) data)) as P.
      rewrite F, length_map in P. simpl in P. lia. }
    assert (D : decideType col (map (fun row => cell row col) data) = DecCategorical).
    { unfold decideType. cbv zeta. rewrite F. reflexivity. }
    rewrite D, F, M. cbn [negb andb fold_left length]. rewrite Nat.sub_diag. reflexivity. }
  intro Hin. unfold profileColumn. cbv zeta.
  assert (E : existsb (String.eqb col) empties = true) by (apply existsb_eqb_In, Hin).
  rewrite E. destruct (decideType col _); reflexivity.
Qed.

End DatasetProfile.

(** ** The KPI selector *)

Section KpiFacts.
Context {H : Host}.

Lemma scoreNumericCol_pos col info n :
  0 < scoreNumericCol col info n ->
  isIdLikeColumn col info n = false /\
  exists k mn mx, be_nonMissingCount (baseOf info) = Some k /\ (25 <= k)%nat /\
    minOf info = Some mn /\ maxOf info = Some mx.
Proof.
  unfold scoreNumericCol. destruct (isIdLikeColumn col info n); [intro C; inversion C|].
  cbv zeta. intro Hp. split; [reflexivity|].
  destruct (be_nonMissingCount (baseOf info)) as [k|]; [|simpl in Hp; inversion Hp].
  destruct (k <? 25)%nat eqn:E; [inversion Hp|]. apply Nat.ltb_ge in E.
  destruct (minOf info) as [mn|]; [|inversion Hp].
  destruct (maxOf info) as [mx|]; [|inversion Hp].
  exists k, mn, mx. repeat split; [exact E].
Qed.

Lemma numericKpiCandidates_In eda n col info s :
  In (col, info, s) (numericKpiCandidates eda n) ->
  In (col, info) (columns eda) /\ isNumericType info = true /\
  s = scoreNumericCol col info n /\ 0 < s.
Proof.
  unfold numericKpiCandidates. intro Hin. apply firstn_In in Hin.
  apply sortByScoreDesc_In in Hin. apply filter_In in Hin. destruct Hin as (Hin & Hp).
  apply in_map_iff in Hin. destruct Hin as ((c, i) & E & Hin). cbn [fst snd] in E.
  injection E as -> -> <-. apply filter_In in Hin. destruct Hin as (Hin & Ht).
  cbn [snd] in *. apply ltb_lt in Hp. repeat split; assumption.
Qed.

Lemma numericStory_In data cands k :
  In k (numericStory data cands) ->
  exists col info s, In (col, info, s) cands /\
    (25 <= length (columnNumbers data col))%nat /\
    kpi_column k = Some col /\
    (kpi_type k = KSum \/ kpi_type k = KMean \/ kpi_type k = KRange).
Proof.
  induction cands as [|[[col info] s] cands IH]; cbn [numericStory]; [intros []|].
  destruct (length (columnNumbers data col) <? 25)%nat eqn:E.
  - intro Hin. destruct (IH Hin) as (c & i & s' & Hc & R). exists c, i, s'.
    split; [right; exact Hc|exact R].
  - apply Nat.ltb_ge in E. cbv zeta. intro Hin. exists col, info, s.
    split; [left; reflexivity|]. split; [exact E|].
    destruct Hin as [<-|[<-|[<-|[]]]]; cbn [kpi_column kpi_type]; auto.
Qed.

Lemma pickBestCategorical_from n cols best b :
  (forall b0, best = Some b0 ->
     exists info rest, In (bc_col b0, info) cols /\ isCategoricalType info = true /\
       isIdLikeColumn (bc_col b0) info n = false /\ topValuesOf info = bc_top b0 :: rest) ->
  forall done,
  (forall e, In e done -> In e cols) ->
  fold_left (fun best e =>
      let col := fst e in
      let info := snd e in
      if negb (isCategoricalType info) then best
      else if isIdLikeColumn col info n then best
      else
        let unique := be_uniqueCount (baseOf info) in
        let nn :=
          match be_nonMissingCount (baseOf info) with
          | Some O | None => n
          | Some k => k
          end in
        match topValuesOf info with
        | [] => best
        | top :: _ =>
            let dominance := tv_pct top in
            let uniqueRatio :=
              if (0 <? nn)%nat then Num.ofNat unique / Num.ofNat nn else 0 in
            let looksNameList :=
              (50 <=? unique)%nat && Num.ltb (1 # 2) uniqueRatio && Num.ltb dominance 40 in
            if looksNameList then best
            else
              let score :=
                dominance * 2
                + (if (unique <=? 12)%nat then 30 else if (unique <=? 25)%nat then 15 else 0)
                + (if Num.ltb uniqueRatio (4 # 10) then 10 else 0) in
              match best with
              | Some b => if Num.ltb (bc_score b) score then Some (mkBestCat col top score) else best
              | None => Some (mkBestCat col top score)
              end
        end)
    done best = Some b ->
  exists info rest, In (bc_col b, info) cols /\ isCategoricalType info = true /\
    isIdLikeColumn (bc_col b) info n = false /\ topValuesOf info = bc_top b :: rest.
Proof.
  intros Hbest done. revert best Hbest.
  induction done as [|[col info] done IH]; intros best Hbest Hsub; cbn [fold_left].
  - intro E. apply Hbest, E.
  - apply IH; [|intros e He; apply Hsub; right; exact He].
    cbv zeta. cbn [fst snd].
    destruct (isCategoricalType info) eqn:Et; cbn [negb]; [|exact Hbest].
    destruct (isIdLikeColumn col info n) eqn:Ei; [exact Hbest|].
    destruct (topValuesOf info) as [|top rest] eqn:Ev; [exact Hbest|].
    destruct (_ && _ && _); [exact Hbest|].
    assert (New : forall sc b0, Some (mkBestCat col top sc) = Some b0 ->
              exists info rest, In (bc_col b0, info) cols /\ isCategoricalType info = true /\
                isIdLikeColumn (bc_col b0) info n = false /\
                topValuesOf info = bc_top b0 :: rest).
    { intros sc b0 E. injection E as <-. cbn [bc_col bc_top]. exists info, rest.
      split; [apply Hsub; left; reflexivity|]. repeat split; assumption. }
    destruct best as [b1|]; [|apply New].
    destruct (Num.ltb (bc_score b1) _); [apply New|exact Hbest].
Qed.

Lemma pickBestCategorical_some eda n b :
  pickBestCategorical eda n = Some b ->
  exists info rest, In (bc_col b, info) (columns eda) /\ isCategoricalType info = true /\
    isIdLikeColumn (bc_col b) info n = false /\ topValuesOf info = bc_top b :: rest.
Proof.
  unfold pickBestCategorical. apply pickBestCategorical_from.
  - intros b0 E. discriminate.
  - intros e He. exact He.
Qed.

Lemma pickBestDate_from cols best b :
  (forall b0, best = Some b0 ->
     exists info, In (bd_col b0, info) cols /\ isDateType info = true /\
       dateMinOf info = Some (bd_min b0) /\ dateMaxOf info = Some (bd_max b0)) ->
  forall done,
  (forall e, In e done -> In e cols) ->
  fold_left (fun best e =>
      let col := fst e in
      let info := snd e in
      if negb (isDateType info) then best
      else
        match dateMinOf info, dateMaxOf info with
        | Some min, Some max =>
            if Js.isEmpty min || Js.isEmpty max then best
            else
              match dateParse min, dateParse max with
              | Some a, Some b =>
                  let days := inject_Z (Z.abs (b - a)) / inject_Z (1000 * 60 * 60 * 24) in
                  match best with
                  | Some d =>
                      if Num.ltb (bd_days d) days then Some (mkBestDate col min max days)
                      else best
                  | None => Some (mkBestDate col min max days)
                  end
              | _, _ => best
              end
        | _, _ => best
        end)
    done best = Some b ->
  exists info, In (bd_col b, info) cols /\ isDateType info = true /\
    dateMinOf info = Some (bd_min b) /\ dateMaxOf info = Some (bd_max b).
Proof.
  intros Hbest done. revert best Hbest.
  induction done as [|[col info] done IH]; intros best Hbest Hsub; cbn [fold_left].
  - intro E. apply Hbest, E.
  - apply IH; [|intros e He; apply Hsub; right; exact He].
    cbv zeta. cbn [fst snd].
    destruct (isDateType info) eqn:Et; cbn [negb]; [|exact Hbest].
    destruct (dateMinOf info) as [mn|] eqn:Emn; [|exact Hbest].
    destruct (dateMaxOf info) as [mx|] eqn:Emx; [|exact Hbest].
    destruct (Js.isEmpty mn || Js.isEmpty mx); [exact Hbest|].
    destruct (dateParse mn) as [a|]; [|exact Hbest].
    destruct (dateParse mx) as [z|]; [|exact Hbest].
    assert (New : forall days b0, Some (mkBestDate col mn mx days) = Some b0 ->
              exists info, In (bd_col b0, info) cols /\ isDateType info = true /\
                dateMinOf info = Some (bd_min b0) /\ dateMaxOf info = Some (bd_max b0)).
    { intros days b0 E. injection E as <-. cbn [bd_col bd_min bd_max]. exists info.
      split; [apply Hsub; left; reflexivity|]. repeat split; assumption. }
    destruct best as [b1|]; [|apply New].
    destruct (Num.ltb (bd_days b1) _); [apply New|exact Hbest].
Qed.

Lemma pickBestDate_some eda b :
  pickBestDate eda = Some b ->
  exists info, In (bd_col b, info) (columns eda) /\ isDateType info = true /\
    dateMinOf info = Some (bd_min b) /\ dateMaxOf info = Some (bd_max b).
Proof.
  unfold pickBestDate. apply pickBestDate_from.
  - intros b0 E. discriminate.
  - intros e He. exact He.
Qed.

(** X19.  A total, an average or a range among the KPIs is on a numeric
    column of the profile that [isIdLikeColumn] does not take for an
    identifier, that scores above 0 and has at least 25 numbers in the data;
    a top value is on a categorical column that is not identifier-like and
    has a top value; a date span is on a date column.  The counts and the
    rate have no column, and no KPI is a minimum or a maximum. *)
Theorem generateKPIs_never_reports_identifier_columns data eda k :
  In k (generateKPIs data (Some eda)) ->
  match kpi_type k with
  | KSum | KMean | KRange =>
      exists col info, kpi_column k = Some col /\ In (col, info) (columns eda) /\
        isNumericType info = true /\ isIdLikeColumn col info (length data) = false /\
        0 < scoreNumericCol col info (length data) /\
        (25 <= length (columnNumbers data col))%nat
  | KTop =>
      exists col info, kpi_column k = Some col /\ In (col, info) (columns eda) /\
        isCategoricalType info = true /\ isIdLikeColumn col info (length data) = false /\
        topValuesOf info <> []
  | KSpan =>
      exists col info, kpi_column k = Some col /\ In (col, info) (columns eda) /\
        isDateType info = true
  | KCount | KRate => kpi_column k = None
  | KMin | KMax => False
  end.
Proof.
  unfold generateKPIs. destruct data as [|row data]; [intros []|].
  set (rows := row :: data). cbv zeta. intro Hin. apply firstn_In in Hin.
  rewrite !in_app_iff in Hin.
  destruct Hin as [Hin|[Hin|[Hin|[Hin|[Hin|Hin]]]]].
  - destruct Hin as [<-|[]]. reflexivity.
  - destruct (0 <? duplicates eda)%nat; [|destruct Hin]. destruct Hin as [<-|[]]. reflexivity.
  - destruct (missingRate eda (length rows)); [|destruct Hin].
    destruct Hin as [<-|[]]. reflexivity.
  - apply numericStory_In in Hin. destruct Hin as (col & info & s & Hc & H25 & Ek & Et).
    apply numericKpiCandidates_In in Hc. destruct Hc as (Hc & Hn & -> & Hp).
    destruct (scoreNumericCol_pos _ _ _ Hp) as (Hid & _).
    assert (G : exists col info, kpi_column k = Some col /\ In (col, info) (columns eda) /\
        isNumericType info = true /\ isIdLikeColumn col info (length rows) = false /\
        0 < scoreNumericCol col info (length rows) /\
        (25 <= length (columnNumbers rows col))%nat).
    { exists col, info. repeat split; assumption. }
    destruct Et as [->|[->| ->]]; exact G.
  - destruct (pickBestCategorical eda (length rows)) as [b|] eqn:E; [|destruct Hin].
    destruct Hin as [<-|[]]. cbn [kpi_type kpi_column].
    destruct (pickBestCategorical_some _ _ E) as (info & rest & Hc & Ht & Hid & Ev).
    exists (bc_col b), info. repeat split; try assumption. rewrite Ev. discriminate.
  - destruct (pickBestDate eda) as [b|] eqn:E; [|destruct Hin].
    destruct Hin as [<-|[]]. cbn [kpi_type kpi_column].
    destruct (pickBestDate_some _ E) as (info & Hc & Ht & _).
    exists (bd_col b), info. repeat split; assumption.
Qed.

Lemma missing_totals cols n acc :
  let out := fold_left (fun acc e =>
        let info := snd e in
        let missing := be_missing (baseOf info) in
        let nn :=
          match be_nonMissingCount (baseOf info) with
          | Some k => k
          | None => (n - missing)%nat
          end in
        (fst acc + missing, snd acc + (missing + nn))%nat)
      cols acc in
  (fst acc <= snd acc)%nat ->
  (fst out <= snd out)%nat /\ (snd acc <= snd out)%nat /\
  (fst out = fst acc + list_sum (map (fun e : string * ColumnEDA => be_missing (baseOf (snd e))) cols))%nat.
Proof.
  revert acc. induction cols as [|e cols IH]; intros acc; cbn [fold_left map list_sum fold_right].
  - cbv zeta. lia.
  - cbv zeta. intro Hacc.
    match goal with |- context [fold_left ?f cols ?a] => specialize (IH a) end.
    cbv zeta in IH. cbn [fst snd] in IH.
    destruct IH as (I1 & I2 & I3); [lia|]. cbn [fst snd]. unfold list_sum in I3. lia.
Qed.

(** X20.  The missing rate of the KPIs, when it is computed, lies between 0
    and 100, and is 0 exactly when no column of the profile has a missing
    cell; it is left out only when no column has one. *)
Theorem missingRate_is_a_percentage eda n :
  let missing := list_sum (map (fun e => be_missing (baseOf (snd e))) (columns eda)) in
  match missingRate eda n with
  | Some r => 0 <= r /\ r <= 100 /\ (r == 0 <-> missing = O)
  | None => missing = O
  end.
Proof.
  cbv zeta. unfold missingRate. cbv zeta.
  destruct (@missing_totals (columns eda) n (O, O)) as (T1 & _ & T3); [simpl; lia|].
  cbv zeta in T1, T3. cbn [fst snd Nat.add] in T3.
  set (out := fold_left _ (columns eda) (O, O)) in *.
  destruct (0 <? snd out)%nat eqn:E.
  - apply Nat.ltb_lt in E. rewrite <- T3.
    assert (Sp : 0 < Num.ofNat (snd out)).
    { unfold Num.ofNat. change 0 with (inject_Z 0). rewrite <- Zlt_Qlt. lia. }
    assert (Fp : 0 <= Num.ofNat (fst out)) by apply ofNat_nonneg.
    assert (Fl : Num.ofNat (fst out) <= Num.ofNat (snd out)).
    { unfold Num.ofNat. rewrite <- Zle_Qle. lia. }
    assert (D0 : 0 <= Num.ofNat (fst out) / Num.ofNat (snd out)).
    { apply Qle_shift_div_l; [exact Sp|]. lra. }
    assert (D1 : Num.ofNat (fst out) / Num.ofNat (snd out) <= 1).
    { apply Qle_shift_div_r; [exact Sp|]. lra. }
    split; [lra|]. split; [lra|]. split.
    + intro Z. assert (Z' : Num.ofNat (fst out) / Num.ofNat (snd out) == 0) by lra.
      assert (Z2 : Num.ofNat (fst out) == 0).
      { rewrite <- (Qmult_div_r (Num.ofNat (fst out)) (Num.ofNat (snd out))) by lra.
        rewrite Z'. ring. }
      unfold Num.ofNat in Z2. change 0 with (inject_Z 0) in Z2.
      apply (proj1 (inject_Z_injective _ _)) in Z2. lia.
    + intro Z. rewrite Z. unfold Num.ofNat at 1. simpl. unfold Qdiv. ring.
  - apply Nat.ltb_ge in E. lia.
Qed.

End KpiFacts.

(** ** The insight list *)

Lemma pushUnique_NoDup into item :
  NoDup (map ins_id into) -> NoDup (map ins_id (pushUnique into item)).
Proof.
  intro Hn. unfold pushUnique.
  destruct (existsb (fun x => String.eqb (ins_id x) (ins_id item)) into) eqn:E; [exact Hn|].
  rewrite map_app. apply NoDup_app; [exact Hn|repeat constructor; intros []|].
  intros x Hx [E'|[]]. cbn [map] in E'. subst x. apply in_map_iff in Hx.
  destruct Hx as (i & Ei & Hi).
  assert (C : existsb (fun x => String.eqb (ins_id x) (ins_id item)) into = true).
  { apply existsb_exists. exists i. split; [exact Hi|]. apply String.eqb_eq, Ei. }
  congruence.
Qed.

Lemma pushUnique_fold_NoDup items into :
  NoDup (map ins_id into) -> NoDup (map ins_id (fold_left pushUnique items into)).
Proof.
  revert into. induction items as [|x items IH]; intros into Hn; [exact Hn|].
  cbn [fold_left]. apply IH, pushUnique_NoDup, Hn.
Qed.

Lemma sortBusiness_perm l : Permutation (sortBusiness l) l.
Proof. apply sortBy_perm. Qed.

Lemma sortBusiness_sorted l :
  StronglySorted (fun a b => (weight (ins_severity a) <= weight (ins_severity b))%nat)
    (sortBusiness l).
Proof.
  unfold sortBusiness.
  pose proof (@sortBy_sorted Insight
    (fun a b => (weight (ins_severity a) <=? weight (ins_severity b))%nat)) as S.
  eapply (@map_sorted Insight Insight _ _ (fun x => x)) in S.
  - rewrite map_id in S. exact S.
  - intros a b E. apply Nat.leb_le, E.
  - intros x y. rewrite Nat.leb_gt, Nat.leb_le. lia.
  - intros x y z. rewrite !Nat.leb_le. lia.
Qed.

Section InsightListFacts.
Context {H : Host}.

(** X21.  [generateInsights] returns the first 6 of the collected insights
    (all of them when there are no more): no id twice, warnings before
    positive notes before information, and nothing left out is more severe
    than anything returned. *)
Theorem generateInsights_lists_the_most_severe_six_once eda kpis :
  let collected := collectedInsights eda kpis in
  let out := generateInsights eda kpis in
  (length out <= 6)%nat /\
  length out = Nat.min 6 (length collected) /\
  NoDup (map ins_id out) /\
  StronglySorted (fun a b => (weight (ins_severity a) <= weight (ins_severity b))%nat) out /\
  (forall i, In i out -> In i collected) /\
  (forall i j, In i collected -> ~ In i out -> In j out ->
     (weight (ins_severity j) <= weight (ins_severity i))%nat) /\
  ((length collected <= 6)%nat -> Permutation out collected).
Proof.
  cbv zeta. unfold generateInsights.
  set (collected := collectedInsights eda kpis).
  pose proof (sortBusiness_perm collected) as P.
  pose proof (sortBusiness_sorted collected) as S.
  assert (Nc : NoDup (map ins_id collected)).
  { unfold collected, collectedInsights. apply pushUnique_fold_NoDup. constructor. }
  split; [apply firstn_le_length|].
  split; [rewrite length_firstn, (Permutation_length P); reflexivity|].
  split.
  { rewrite <- firstn_map. apply firstn_NoDup'.
    apply (Permutation_NoDup (Permutation_map ins_id (Permutation_sym P))), Nc. }
  split; [apply firstn_sorted, S|].
  split; [intros i Hi; apply (Permutation_in _ P), (firstn_In _ _ _ Hi)|].
  split.
  { intros i j Hi Hni Hj.
    apply (Permutation_in _ (Permutation_sym P)) in Hi.
    rewrite <- (firstn_skipn 6 (sortBusiness collected)) in Hi.
    apply in_app_or in Hi. destruct Hi as [Hi|Hi]; [contradiction|].
    exact (@sorted_firstn_skipn _ _ 6 _ j i S Hj Hi). }
  intro Hl. rewrite firstn_all2; [exact P|]. rewrite (Permutation_length P). exact Hl.
Qed.

End InsightListFacts.

(** ** Strings: trimming and normalised keys *)

Lemma string_app_assoc (a b c : string) : ((a ++ b) ++ c)%string = (a ++ b ++ c)%string.
Proof. induction a as [|x a IH]; simpl; [reflexivity|]. rewrite IH. reflexivity. Qed.

Lemma string_app_nil_r (a : string) : (a ++ "")%string = a.
Proof. induction a as [|x a IH]; simpl; [reflexivity|]. rewrite IH. reflexivity. Qed.

Lemma rev_append_spec s acc : Js.rev_append s acc = (Js.rev s ++ acc)%string.
Proof.
  unfold Js.rev. revert acc. induction s as [|c s IH]; intro acc; simpl; [reflexivity|].
  rewrite (IH (String c acc)), (IH (String c EmptyString)), string_app_assoc. reflexivity.
Qed.

Lemma rev_cons c s : Js.rev (String c s) = (Js.rev s ++ String c "")%string.
Proof. unfold Js.rev at 1. simpl. apply rev_append_spec. Qed.

Lemma rev_app a b : Js.rev (a ++ b) = (Js.rev b ++ Js.rev a)%string.
Proof.
  induction a as [|c a IH]; simpl.
  - symmetry. apply string_app_nil_r.
  - rewrite !rev_cons, IH, string_app_assoc. reflexivity.
Qed.

Lemma rev_involutive s : Js.rev (Js.rev s) = s.
Proof.
  induction s as [|c s IH]; [reflexivity|].
  rewrite rev_cons, rev_app, IH. reflexivity.
Qed.

Lemma all_app cls a b : Js.all cls (a ++ b) = Js.all cls a && Js.all cls b.
Proof.
  induction a as [|c a IH]; simpl; [reflexivity|]. rewrite IH, andb_assoc. reflexivity.
Qed.

Lemma all_rev cls s : Js.all cls (Js.rev s) = Js.all cls s.
Proof.
  induction s as [|c s IH]; [reflexivity|].
  rewrite rev_cons, all_app, IH. simpl. rewrite andb_true_r. apply andb_comm.
Qed.

Lemma trimStart_split s :
  exists pre, s = (pre ++ Js.trimStart s)%string /\ Js.all Js.isSpace pre = true.
Proof.
  induction s as [|c s (pre & E & A)]; simpl.
  - exists ""%string. split; reflexivity.
  - destruct (Js.isSpace c) eqn:Ec.
    + exists (String c pre). simpl. rewrite Ec, A, <- E. split; reflexivity.
    + exists ""%string. split; reflexivity.
Qed.

Lemma trimEnd_split s :
  exists post, s = (Js.trimEnd s ++ post)%string /\ Js.all Js.isSpace post = true.
Proof.
  unfold Js.trimEnd. destruct (trimStart_split (Js.rev s)) as (pre & E & A).
  exists (Js.rev pre). split; [|rewrite all_rev; exact A].
  rewrite <- rev_app, <- E. symmetry. apply rev_involutive.
Qed.

Lemma trim_split s :
  exists pre post, s = (pre ++ Js.trim s ++ post)%string /\
    Js.all Js.isSpace pre = true /\ Js.all Js.isSpace post = true.
Proof.
  unfold Js.trim. destruct (trimStart_split s) as (pre & E & A).
  destruct (trimEnd_split (Js.trimStart s)) as (post & E' & A').
  exists pre, post. split; [|split; assumption]. rewrite <- E'. exact E.
Qed.

Lemma removeAll_app cls a b :
  Js.removeAll cls (a ++ b) = (Js.removeAll cls a ++ Js.removeAll cls b)%string.
Proof.
  induction a as [|c a IH]; simpl; [reflexivity|].
  destruct (cls c); simpl; rewrite IH; reflexivity.
Qed.

Lemma removeAll_all cls a : Js.all cls a = true -> Js.removeAll cls a = ""%string.
Proof.
  induction a as [|c a IH]; simpl; [reflexivity|].
  destruct (cls c); simpl; [exact IH|discriminate].
Qed.

Lemma removeAll_none cls a :
  Js.all (fun c => negb (cls c)) a = true -> Js.removeAll cls a = a.
Proof.
  induction a as [|c a IH]; simpl; [reflexivity|].
  destruct (cls c); simpl; [discriminate|]. intro E. rewrite (IH E). reflexivity.
Qed.

Lemma removeAll_absorbs (p q : ascii -> bool) s :
  (forall c, p c = true -> q c = true) ->
  Js.removeAll q (Js.removeAll p s) = Js.removeAll q s.
Proof.
  intro Hpq. induction s as [|c s IH]; simpl; [reflexivity|].
  destruct (p c) eqn:Ep.
  - rewrite (Hpq c Ep). exact IH.
  - simpl. rewrite IH. reflexivity.
Qed.

Lemma all_weaken (p q : ascii -> bool) s :
  (forall c, p c = true -> q c = true) -> Js.all p s = true -> Js.all q s = true.
Proof.
  intro Hpq. induction s as [|c s IH]; simpl; [reflexivity|].
  intro E. apply andb_true_iff in E. destruct E as (Ec & Es).
  rewrite (Hpq c Ec), (IH Es). reflexivity.
Qed.

Lemma removeAll_keeps cls s : Js.all (fun c => negb (cls c)) (Js.removeAll cls s) = true.
Proof.
  induction s as [|c s IH]; simpl; [reflexivity|].
  destruct (cls c) eqn:E; [exact IH|]. simpl. rewrite E, IH. reflexivity.
Qed.

Lemma toLowerCase_app a b :
  Js.toLowerCase (a ++ b) = (Js.toLowerCase a ++ Js.toLowerCase b)%string.
Proof. induction a as [|c a IH]; simpl; [reflexivity|]. rewrite IH. reflexivity. Qed.

(** The facts on single characters, checked on each of the 256. *)
Lemma space_not_alnum c : Js.isSpace c = true -> Js.isLowerAlnum c = false.
Proof. destruct c as [[] [] [] [] [] [] [] []]; vm_compute; congruence. Qed.

Lemma space_lower_not_alnum c :
  Js.isSpace c = true -> Js.isLowerAlnum (Js.lowerChar c) = false.
Proof. destruct c as [[] [] [] [] [] [] [] []]; vm_compute; congruence. Qed.

Lemma alnum_lowerChar c : Js.isLowerAlnum c = true -> Js.lowerChar c = c.
Proof. destruct c as [[] [] [] [] [] [] [] []]; vm_compute; congruence. Qed.

Lemma underscore_not_alnum c : Ascii.eqb c "_" = true -> Js.isLowerAlnum c = false.
Proof. intro E. apply Ascii.eqb_eq in E. subst c. reflexivity. Qed.

Lemma toLowerCase_spaces a :
  Js.all Js.isSpace a = true ->
  Js.removeAll (fun c => negb (Js.isLowerAlnum c)) (Js.toLowerCase a) = ""%string.
Proof.
  induction a as [|c a IH]; simpl; [reflexivity|].
  intro E. apply andb_true_iff in E. destruct E as (Ec & Ea).
  rewrite (space_lower_not_alnum _ Ec). simpl. exact (IH Ea).
Qed.

Lemma removeAll_trim s :
  Js.removeAll (fun c => negb (Js.isLowerAlnum c)) (Js.trim s)
  = Js.removeAll (fun c => negb (Js.isLowerAlnum c)) s.
Proof.
  destruct (trim_split s) as (pre & post & E & A & B).
  assert (Z : forall a, Js.all Js.isSpace a = true ->
            Js.removeAll (fun c => negb (Js.isLowerAlnum c)) a = ""%string).
  { intros a Ha. apply removeAll_all. revert Ha. apply all_weaken.
    intros c Hc. rewrite (space_not_alnum _ Hc). reflexivity. }
  rewrite E at 2. rewrite !removeAll_app, (Z pre A), (Z post B), string_app_nil_r.
  reflexivity.
Qed.

Lemma lower_trim s :
  Js.removeAll (fun c => negb (Js.isLowerAlnum c)) (Js.toLowerCase (Js.trim s))
  = Js.removeAll (fun c => negb (Js.isLowerAlnum c)) (Js.toLowerCase s).
Proof.
  destruct (trim_split s) as (pre & post & E & A & B).
  rewrite E at 2. rewrite !toLowerCase_app, !removeAll_app.
  rewrite (toLowerCase_spaces _ A), (toLowerCase_spaces _ B), string_app_nil_r.
  reflexivity.
Qed.

Lemma removeAll_collapseSpaces s :
  Js.removeAll (fun c => negb (Js.isLowerAlnum c)) (Js.collapseSpaces s)
  = Js.removeAll (fun c => negb (Js.isLowerAlnum c)) s.
Proof.
  induction s as [|c s IH]; [reflexivity|]. cbn [Js.collapseSpaces].
  destruct (Js.isSpace c) eqn:Ec.
  - cbn [Js.removeAll]. rewrite (space_not_alnum _ Ec). cbn [negb].
    destruct s as [|d s']; [reflexivity|].
    destruct (Js.isSpace d); [exact IH|]. cbn [Js.removeAll] in *.
    change (negb (Js.isLowerAlnum " ")) with true. cbn iota. exact IH.
  - cbn [Js.removeAll]. rewrite IH. reflexivity.
Qed.

Lemma removeAll_replaceNbsp s :
  Js.removeAll (fun c => negb (Js.isLowerAlnum c))
    (Js.replaceAllChar (ascii_of_N 160) " " s)
  = Js.removeAll (fun c => negb (Js.isLowerAlnum c)) s.
Proof.
  induction s as [|c s IH]; [reflexivity|]. cbn [Js.replaceAllChar Js.removeAll].
  destruct (Ascii.eqb c (ascii_of_N 160)) eqn:E.
  - apply Ascii.eqb_eq in E. subst c.
    change (negb (Js.isLowerAlnum " ")) with true.
    change (negb (Js.isLowerAlnum (ascii_of_N 160))) with true. cbn iota. exact IH.
  - rewrite IH. reflexivity.
Qed.

Lemma separators_not_alnum c :
  Ascii.eqb c "_" || Js.isSpace c = true -> negb (Js.isLowerAlnum c) = true.
Proof.
  intro E. apply orb_true_iff in E. destruct E as [E|E];
    [rewrite (underscore_not_alnum _ E)|rewrite (space_not_alnum _ E)]; reflexivity.
Qed.

Lemma normalizeKey_spec s :
  insightsNormalizeKey s
  = Js.removeAll (fun c => negb (Js.isLowerAlnum c)) (Js.toLowerCase s).
Proof.
  unfold insightsNormalizeKey.
  rewrite (removeAll_absorbs _ _ _ separators_not_alnum). apply removeAll_trim.
Qed.

Lemma ask_normalizeKey_spec s :
  Ask.normalizeKey s
  = Js.removeAll (fun c => negb (Js.isLowerAlnum c)) (Js.toLowerCase s).
Proof.
  unfold Ask.normalizeKey.
  rewrite (removeAll_absorbs _ _ _ separators_not_alnum).
  rewrite removeAll_collapseSpaces, removeAll_replaceNbsp. apply lower_trim.
Qed.

Lemma toLowerCase_alnum s :
  Js.all Js.isLowerAlnum s = true -> Js.toLowerCase s = s.
Proof.
  induction s as [|c s IH]; simpl; [reflexivity|].
  intro E. apply andb_true_iff in E. destruct E as (Ec & Es).
  rewrite (alnum_lowerChar _ Ec), (IH Es). reflexivity.
Qed.

Lemma normalizeKey_alnum s : Js.all Js.isLowerAlnum (insightsNormalizeKey s) = true.
Proof.
  rewrite normalizeKey_spec.
  pose proof (removeAll_keeps (fun c => negb (Js.isLowerAlnum c)) (Js.toLowerCase s)) as K.
  revert K. apply all_weaken. intros c. rewrite negb_involutive. auto.
Qed.

(** X22.  [normalizeKey] of [insights.ts] is the text in lower case with
    everything but [a-z0-9] removed, and [normalizeKey] of [ask.ts], written
    differently, returns the same; the result holds only such characters,
    normalising it again or trimming first changes nothing. *)
Theorem normalizeKey_keeps_lowercase_letters_and_digits s :
  insightsNormalizeKey s
    = Js.removeAll (fun c => negb (Js.isLowerAlnum c)) (Js.toLowerCase s) /\
  Ask.normalizeKey s = insightsNormalizeKey s /\
  Js.all Js.isLowerAlnum (insightsNormalizeKey s) = true /\
  insightsNormalizeKey (insightsNormalizeKey s) = insightsNormalizeKey s /\
  insightsNormalizeKey (Js.trim s) = insightsNormalizeKey s.
Proof.
  split; [apply normalizeKey_spec|].
  split; [rewrite ask_normalizeKey_spec, normalizeKey_spec; reflexivity|].
  split; [apply normalizeKey_alnum|].
  split.
  - pose proof (normalizeKey_alnum s) as A.
    rewrite (normalizeKey_spec (insightsNormalizeKey s)), (toLowerCase_alnum _ A).
    apply removeAll_none. revert A. apply all_weaken. intros c ->. reflexivity.
  - rewrite !normalizeKey_spec. apply lower_trim.
Qed.

(** ** Resolving a column name *)

Lemma NoDup_map_eq (A B : Type) (f : A -> B) l x y :
  NoDup (map f l) -> In x l -> In y l -> f x = f y -> x = y.
Proof.
  induction l as [|a l IH]; simpl; [tauto|].
  intros Hn Hx Hy E. inversion Hn as [|? ? Hnot Hn']. subst.
  destruct Hx as [->|Hx], Hy as [->|Hy]; auto.
  - exfalso. apply Hnot. rewrite E. apply in_map, Hy.
  - exfalso. apply Hnot. rewrite <- E. apply in_map, Hx.
Qed.

Lemma find_ext (A : Type) (p q : A -> bool) l :
  (forall x, p x = q x) -> find p l = find q l.
Proof.
  intro E. induction l as [|a l IH]; simpl; [reflexivity|].
  rewrite E, IH. reflexivity.
Qed.

Lemma find_exists (A : Type) (p : A -> bool) l x :
  In x l -> p x = true -> exists y, find p l = Some y.
Proof.
  intros Hx Hp. destruct (find p l) as [y|] eqn:E; [exists y; reflexivity|].
  rewrite (find_none _ _ E x Hx) in Hp. discriminate.
Qed.

Lemma isEmpty_false s : Js.isEmpty s = false <-> s <> ""%string.
Proof. destruct s; simpl; split; congruence. Qed.

Lemma trim_nonempty_key s : insightsNormalizeKey s <> ""%string -> Js.isEmpty (Js.trim s) = false.
Proof.
  intro Hk. apply isEmpty_false. intro E. apply Hk.
  rewrite normalizeKey_spec, <- lower_trim, E. reflexivity.
Qed.

(** X23.  A column that [resolveColumn] of [insights.ts] returns is a column
    of the profile with the normalised key of the query, which is not empty;
    [resolveColumn] of [ask.ts] returns a column with that key, or one whose
    key contains it or is contained in it.  Both return nothing for an empty
    key.  When a column has the key of the query both return the same
    column, the only one with this key when no two keys coincide. *)
Theorem resolveColumn_returns_a_column_with_the_same_key
    (raw : string) (cols : list (string * ColumnEDA)) :
  let key := insightsNormalizeKey in
  (forall c, insightsResolveColumn raw cols = Some c ->
     In c (map fst cols) /\ key c = key raw /\ key raw <> ""%string) /\
  (forall c, Ask.resolveColumn raw cols = Some c ->
     In c (map fst cols) /\ key raw <> ""%string /\
     (key c = key raw \/ Js.includes (key raw) (key c) = true
      \/ Js.includes (key c) (key raw) = true)) /\
  (key raw = ""%string ->
     insightsResolveColumn raw cols = None /\ Ask.resolveColumn raw cols = None) /\
  ((exists c, In c (map fst cols) /\ key c = key raw) -> key raw <> ""%string ->
     exists c, insightsResolveColumn raw cols = Some c /\ Ask.resolveColumn raw cols = Some c /\
       In c (map fst cols) /\ key c = key raw /\
       (NoDup (map key (map fst cols)) -> forall c', In c' (map fst cols) ->
          key c' = key raw -> c' = c)).
Proof.
  cbv zeta.
  assert (Fx : find (fun e : string * ColumnEDA =>
                 String.eqb (Ask.normalizeKey (fst e)) (Ask.normalizeKey (Js.trim raw))) cols
               = find (fun e => String.eqb (insightsNormalizeKey (fst e)) (insightsNormalizeKey raw))
                   cols).
  { apply find_ext. intro e.
    rewrite !ask_normalizeKey_spec, !normalizeKey_spec, lower_trim. reflexivity. }
  assert (Ka : Ask.normalizeKey (Js.trim raw) = insightsNormalizeKey raw).
  { rewrite ask_normalizeKey_spec, normalizeKey_spec. apply lower_trim. }
  split; [|split; [|split]].
  - intros c. unfold insightsResolveColumn. cbv zeta.
    destruct (Js.isEmpty (insightsNormalizeKey raw)) eqn:E; cbv beta iota; [discriminate|].
    remember (find (fun e : string * ColumnEDA =>
                String.eqb (insightsNormalizeKey (fst e)) (insightsNormalizeKey raw)) cols)
      as found eqn:F. symmetry in F.
    destruct found as [e|]; cbv beta iota; [|discriminate].
    intro R. injection R as <-. apply find_some in F. destruct F as (Hin & Hk).
    apply String.eqb_eq in Hk.
    split; [apply in_map, Hin|]. split; [exact Hk|]. apply isEmpty_false, E.
  - intros c. unfold Ask.resolveColumn. cbv zeta.
    destruct (Js.isEmpty (Js.trim raw)); cbv beta iota; [discriminate|].
    rewrite Fx, Ka. clear Fx.
    destruct (Js.isEmpty (insightsNormalizeKey raw)) eqn:E; cbv beta iota; [discriminate|].
    apply isEmpty_false in E.
    remember (find (fun e : string * ColumnEDA =>
                String.eqb (insightsNormalizeKey (fst e)) (insightsNormalizeKey raw)) cols)
      as found eqn:F. symmetry in F.
    destruct found as [e|]; cbv beta iota.
    + intro R. injection R as <-. apply find_some in F. destruct F as (Hin & Hk).
      apply String.eqb_eq in Hk. split; [apply in_map, Hin|]. split; [exact E|].
      left. exact Hk.
    + clear F. destruct (find _ cols) as [e|] eqn:F2; cbv beta iota; [|discriminate].
      intro R. injection R as <-. apply find_some in F2. destruct F2 as (Hin & Hk).
      cbv zeta in Hk. rewrite !ask_normalizeKey_spec, <- !normalizeKey_spec in Hk.
      split; [apply in_map, Hin|]. split; [exact E|]. right.
      apply orb_true_iff in Hk. exact Hk.
  - intro E. unfold insightsResolveColumn, Ask.resolveColumn. cbv zeta.
    rewrite Ka, E. split; [reflexivity|]. destruct (Js.isEmpty (Js.trim raw)); reflexivity.
  - intros (c0 & Hc0 & Ek) Hne.
    apply in_map_iff in Hc0. destruct Hc0 as (e0 & <- & He0).
    destruct (@find_exists _
      (fun e : string * ColumnEDA => String.eqb (insightsNormalizeKey (fst e)) (insightsNormalizeKey raw))
      cols e0 He0) as (e & F); [apply String.eqb_eq, Ek|].
    exists (fst e). unfold insightsResolveColumn, Ask.resolveColumn. cbv zeta.
    rewrite (@trim_nonempty_key raw Hne), Fx, Ka, F.
    apply isEmpty_false in Hne. rewrite Hne.
    apply find_some in F. destruct F as (Hin & Hk). apply String.eqb_eq in Hk.
    split; [reflexivity|]. split; [reflexivity|].
    split; [apply in_map, Hin|]. split; [exact Hk|].
    intros Hn c' Hc' Ek'.
    apply (NoDup_map_eq insightsNormalizeKey (map fst cols)); try assumption.
    + apply in_map, Hin.
    + congruence.
Qed.

(** ** The dataset store *)

Lemma count_as_sum (A : Type) (q : A -> bool) l :
  length (filter q l) = list_sum (map (fun x => if q x then 1%nat else O) l).
Proof.
  induction l as [|x l IH]; simpl; [reflexivity|].
  destruct (q x); simpl; rewrite IH; reflexivity.
Qed.

Lemma list_sum_map_add (A : Type) (f g : A -> nat) l :
  list_sum (map (fun x => (f x + g x)%nat) l) = (list_sum (map f l) + list_sum (map g l))%nat.
Proof. induction l as [|x l IH]; simpl; [reflexivity|]. rewrite IH. lia. Qed.

Lemma list_sum_map_ext (A : Type) (f g : A -> nat) l :
  (forall x, f x = g x) -> list_sum (map f l) = list_sum (map g l).
Proof. intro E. induction l as [|x l IH]; simpl; [reflexivity|]. rewrite E, IH. reflexivity. Qed.

Lemma list_sum_map_le (A : Type) (f : A -> nat) b l :
  (forall x, (f x <= b)%nat) -> (list_sum (map f l) <= length l * b)%nat.
Proof.
  intro Hb. induction l as [|x l IH]; simpl; [lia|]. specialize (Hb x). lia.
Qed.

Lemma count_exchange (A B : Type) (p : A -> B -> bool) rows keys :
  list_sum (map (fun row => length (filter (fun k => p row k) keys)) rows)
  = list_sum (map (fun k => length (filter (fun row => p row k) rows)) keys).
Proof.
  induction rows as [|row rows IH]; cbn [map list_sum fold_right].
  - induction keys as [|k keys IHk]; simpl; [reflexivity|]. exact IHk.
  - fold (list_sum (map (fun row => length (filter (fun k => p row k) keys)) rows)).
    rewrite IH, count_as_sum, <- list_sum_map_add. apply list_sum_map_ext.
    intro k. cbn [filter]. destruct (p row k); reflexivity.
Qed.

Lemma missing_loops rows keys m :
  fold_left (fun missing row =>
      fold_left (fun missing k =>
          if isMissing (cell row k) then S missing else missing)
        keys missing)
    rows m
  = (m + list_sum (map (fun row =>
           length (filter (fun k => isMissing (cell row k)) keys)) rows))%nat.
Proof.
  assert (Inner : forall row ks m,
    fold_left (fun missing k => if isMissing (cell row k) then S missing else missing) ks m
    = (m + length (filter (fun k => isMissing (cell row k)) ks))%nat).
  { intros row ks. induction ks as [|k ks IH]; intro m0; simpl; [lia|].
    rewrite IH. destruct (isMissing (cell row k)); simpl; lia. }
  revert m. induction rows as [|row rows IH]; intro m; cbn [fold_left map list_sum fold_right].
  - lia.
  - rewrite IH, Inner. unfold list_sum. lia.
Qed.

Section StoreFacts.
Context {H : Host}.

Lemma profileColumn_missing data empties col :
  be_missing (baseOf (profileColumn data empties col))
  = length (filter (fun row => isMissing (cell row col)) data).
Proof.
  rewrite <- (filter_map_length (fun row => cell row col) isMissing).
  unfold profileColumn. cbv zeta.
  destruct (decideType col _); cbn [negb andb]; try reflexivity;
    destruct (existsb (String.eqb col) empties); reflexivity.
Qed.

Lemma runEDA_names data : map fst (columns (runEDA data)) = Store.allKeys data.
Proof.
  unfold runEDA, Store.allKeys. destruct data as [|row data]; [reflexivity|].
  cbn [columns]. rewrite map_map. apply map_id.
Qed.

Lemma computeMissingValues_profile data :
  Store.computeMissingValues data
  = list_sum (map (fun c => be_missing (baseOf (snd c))) (columns (runEDA data))).
Proof.
  unfold Store.computeMissingValues, runEDA. destruct data as [|row0 data]; [reflexivity|].
  set (rows := row0 :: data). fold (Store.allKeys rows). cbn [columns].
  rewrite missing_loops, count_exchange, map_map. cbn [snd Nat.add].
  apply list_sum_map_ext. intro k. symmetry. apply profileColumn_missing.
Qed.

Lemma computeMissingValues_bound data :
  (Store.computeMissingValues data <= length data * Store.computeColumnsCount data)%nat.
Proof.
  unfold Store.computeMissingValues, Store.computeColumnsCount.
  destruct data as [|row0 data]; [simpl; lia|].
  set (rows := row0 :: data). rewrite missing_loops. cbn [Nat.add].
  apply list_sum_map_le. intro row. apply filter_length_le.
Qed.

Lemma generateCharts_at_most_8 data eda : (length (generateCharts data eda) <= 8)%nat.
Proof.
  unfold generateCharts. destruct data; [simpl; lia|]. destruct eda; [|simpl; lia].
  apply pickDiverse_at_most.
Qed.

Lemma generateKPIs_at_most_6 data eda : (length (generateKPIs data eda) <= 6)%nat.
Proof.
  unfold generateKPIs. destruct data; [simpl; lia|]. apply firstn_le_length.
Qed.

(** X24.  [setDataset] called without the counts of [meta] stores the rows
    and a [meta] that agrees with the profile of the rows: as many columns as
    [runEDA] profiles, and as many missing values as its columns count
    together, at most rows times columns.  It stores the profile given, or
    that of [runEDA]; KPIs and charts that are given and not empty are stored
    as they are, and the others are generated from the rows and the stored
    profile, 6 KPIs and 8 charts at most. *)
Theorem setDataset_computes_a_consistent_state d e k ch :
  let rows := match d with Some rows => rows | None => [] end in
  let profile := runEDA rows in
  let st := Store.setDataset d None e k ch in
  Store.st_data st = Some rows /\
  (exists meta, Store.st_meta st = Some meta /\
     meta_rows meta = length rows /\
     meta_columns meta = length (columns profile) /\
     meta_missingValues meta
       = list_sum (map (fun c => be_missing (baseOf (snd c))) (columns profile)) /\
     (meta_missingValues meta <= meta_rows meta * meta_columns meta)%nat) /\
  (exists eda, Store.st_eda st = Some eda /\
     (e = None -> eda = profile) /\ (forall given, e = Some given -> eda = given) /\
     (k = None \/ k = Some [] -> Store.st_kpis st = generateKPIs rows (Some eda)) /\
     (ch = None \/ ch = Some [] -> Store.st_charts st = generateCharts rows (Some eda))) /\
  (forall x l, k = Some (x :: l) -> Store.st_kpis st = x :: l) /\
  (forall x l, ch = Some (x :: l) -> Store.st_charts st = x :: l) /\
  (k = None \/ k = Some [] -> (length (Store.st_kpis st) <= 6)%nat) /\
  (ch = None \/ ch = Some [] -> (length (Store.st_charts st) <= 8)%nat).
Proof.
  cbv zeta. unfold Store.setDataset. cbv zeta.
  set (rows := match d with Some rows => rows | None => [] end).
  cbn [Store.st_data Store.st_meta Store.st_eda Store.st_kpis Store.st_charts].
  split; [reflexivity|].
  split.
  { eexists. split; [reflexivity|]. cbn [meta_rows meta_columns meta_missingValues].
    split; [reflexivity|].
    split; [unfold Store.computeColumnsCount; rewrite <- runEDA_names; apply length_map|].
    split; [apply computeMissingValues_profile|apply computeMissingValues_bound]. }
  split.
  { eexists. split; [reflexivity|].
    split; [intros ->; reflexivity|]. split; [intros given ->; reflexivity|].
    split; intros [->| ->]; reflexivity. }
  split; [intros x l ->; reflexivity|]. split; [intros x l ->; reflexivity|].
  split; intros [->| ->]; try apply generateKPIs_at_most_6; apply generateCharts_at_most_8.
Qed.

End StoreFacts.

(** ** The charts of the dashboard *)

Lemma hd_error_In (A : Type) (l : list A) x : hd_error l = Some x -> In x l.
Proof. destruct l; simpl; [discriminate|]. intro E. injection E as ->. left. reflexivity. Qed.

Section PickFacts.
Variable clean : list ChartSpec.

Lemma push_invariant st c :
  pickInvariant clean st -> (forall c', c = Some c' -> In c' clean) ->
  pickInvariant clean (Dashboard.push st c).
Proof.
  intros (E & N & Hin) Hc. unfold Dashboard.push. destruct c as [c|]; [|repeat split; assumption].
  cbv zeta. destruct (setHas (Dashboard.keyOf c) (snd st)) eqn:Eh; [repeat split; assumption|].
  unfold pickInvariant. cbn [fst snd]. unfold setAdd. unfold setHas in Eh. rewrite Eh.
  split; [rewrite map_app, E; reflexivity|]. split.
  - apply NoDup_app; [exact N|repeat constructor; intros []|].
    intros x Hx [E'|[]]. subst x. apply existsb_eqb_In in Hx. congruence.
  - intros c' Hc'. apply in_app_or in Hc'. destruct Hc' as [Hc'|[<-|[]]]; [apply Hin, Hc'|].
    apply Hc. reflexivity.
Qed.

Lemma push_grows st c k : In k (snd st) -> In k (snd (Dashboard.push st c)).
Proof.
  unfold Dashboard.push. destruct c as [c|]; [|auto]. cbv zeta.
  destruct (setHas (Dashboard.keyOf c) (snd st)) eqn:Eh; [auto|].
  cbn [snd]. unfold setAdd. unfold setHas in Eh. rewrite Eh. intro Hk.
  apply in_or_app. left. exact Hk.
Qed.

Lemma push_length st c : (length (fst st) <= length (fst (Dashboard.push st c)))%nat.
Proof.
  unfold Dashboard.push. destruct c as [c|]; [|lia]. cbv zeta.
  destruct (setHas (Dashboard.keyOf c) (snd st)); [lia|]. cbn [fst].
  rewrite length_app. lia.
Qed.

Lemma push_sees st c : In (Dashboard.keyOf c) (snd (Dashboard.push st (Some c))).
Proof.
  unfold Dashboard.push. cbv zeta.
  destruct (setHas (Dashboard.keyOf c) (snd st)) eqn:Eh; [apply setHas_In, Eh|].
  cbn [snd]. unfold setAdd. unfold setHas in Eh. rewrite Eh.
  apply in_or_app. right. left. reflexivity.
Qed.

Lemma pushUpTo_invariant n l st :
  (forall c, In c l -> In c clean) -> pickInvariant clean st ->
  pickInvariant clean (Dashboard.pushUpTo n l st).
Proof.
  unfold Dashboard.pushUpTo. revert st.
  induction l as [|c l IH]; intros st Hl Hi; [exact Hi|]. cbn [fold_left].
  apply IH; [intros c' Hc'; apply Hl; right; exact Hc'|].
  destruct (n <=? length (fst st))%nat; [exact Hi|].
  apply push_invariant; [exact Hi|]. intros c' E. injection E as <-. apply Hl. left. reflexivity.
Qed.

Lemma pushUpTo_grows n l st :
  (length (fst st) <= length (fst (Dashboard.pushUpTo n l st)))%nat /\
  (forall k, In k (snd st) -> In k (snd (Dashboard.pushUpTo n l st))).
Proof.
  unfold Dashboard.pushUpTo. revert st.
  induction l as [|c l IH]; intro st; [cbn [fold_left]; split; [lia|auto]|]. cbn [fold_left].
  destruct (n <=? length (fst st))%nat; [apply IH|].
  destruct (IH (Dashboard.push st (Some c))) as (L & G).
  pose proof (push_length st (Some c)). split; [lia|].
  intros k Hk. apply G, push_grows, Hk.
Qed.

Lemma pushUpTo_covers n l st :
  (n <= length (fst (Dashboard.pushUpTo n l st)))%nat \/
  (forall c, In c l -> In (Dashboard.keyOf c) (snd (Dashboard.pushUpTo n l st))).
Proof.
  revert st. induction l as [|c l IH]; intro st; [right; intros c []|].
  change (Dashboard.pushUpTo n (c :: l) st)
    with (Dashboard.pushUpTo n l
            (if (n <=? length (fst st))%nat then st else Dashboard.push st (Some c))).
  destruct (n <=? length (fst st))%nat eqn:E.
  - left. apply Nat.leb_le in E. pose proof (proj1 (pushUpTo_grows n l st)). lia.
  - destruct (IH (Dashboard.push st (Some c))) as [L|C]; [left; exact L|].
    right. intros c' [<-|Hc']; [|apply C, Hc'].
    apply (proj2 (pushUpTo_grows n l _)), push_sees.
Qed.

End PickFacts.

Lemma keys_all_seen (keys seen : list string) :
  NoDup seen -> incl seen keys -> (length keys <= length seen)%nat -> incl keys seen.
Proof. intros N I L. apply NoDup_length_incl; assumption. Qed.

Section DashboardFacts.
Context {H : Host}.

(** X25.  The dashboard shows at most 8 charts, all from [generateCharts].
    When one of these uses no identifier-like column, none of the charts
    shown does, no two of them have the same key, and every such chart has
    its key among those shown; when every generated chart uses an
    identifier-like column, all the generated charts are shown. *)
Theorem chosenCharts_prefers_charts_without_identifiers data meta eda :
  let p := Dashboard.mkPage (Some data) (Some meta) (Some eda) in
  let all := generateCharts data (Some eda) in
  let clean := filter (fun c => negb (Dashboard.chartUsesId p c)) all in
  let chosen := Dashboard.chosenCharts p in
  (length chosen <= 8)%nat /\
  (forall c, In c chosen -> In c all) /\
  (clean <> [] ->
     chosen <> [] /\
     (forall c, In c chosen -> Dashboard.chartUsesId p c = false) /\
     NoDup (map Dashboard.keyOf chosen) /\
     (forall c, In c clean -> In (Dashboard.keyOf c) (map Dashboard.keyOf chosen))) /\
  (clean = [] -> chosen = all).
Proof.
  cbv zeta. unfold Dashboard.chosenCharts.
  set (p := Dashboard.mkPage (Some data) (Some meta) (Some eda)).
  change (Dashboard.hasDataset p) with true. cbn [negb Dashboard.pg_data Dashboard.pg_eda p].
  fold p. cbv zeta.
  set (all := generateCharts data (Some eda)).
  set (clean := filter (fun c => negb (Dashboard.chartUsesId p c)) all).
  assert (L8 : (length all <= 8)%nat) by apply generateCharts_at_most_8.
  assert (Hclean : forall c, In c clean -> In c all /\ Dashboard.chartUsesId p c = false).
  { intros c Hc. apply filter_In in Hc. destruct Hc as (Hc & E).
    split; [exact Hc|]. apply negb_true_iff, E. }
  assert (Hhd : forall q c, hd_error (filter q clean) = Some c -> In c clean).
  { intros q c E. apply hd_error_In in E. apply filter_In in E. tauto. }
  assert (Hor : forall q q' c,
            Dashboard.orElse (hd_error (filter q clean)) (hd_error (filter q' clean)) = Some c
            -> In c clean).
  { intros q q' c. unfold Dashboard.orElse.
    destruct (hd_error (filter q clean)) eqn:Ea; [intro E; injection E as <-; eapply Hhd, Ea|].
    apply Hhd. }
  match goal with |- context [Dashboard.pushUpTo 8 clean ?s] => set (st4 := s) end.
  assert (I4 : pickInvariant clean st4).
  { unfold st4. repeat apply push_invariant; try (apply Hhd); try (apply Hor).
    split; [reflexivity|]. split; [constructor|]. intros c []. }
  set (st5 := Dashboard.pushUpTo 8 clean st4).
  assert (I5 : pickInvariant clean st5) by (apply pushUpTo_invariant; [auto|exact I4]).
  set (st6 := if (length (fst st5) <? 4)%nat then Dashboard.pushUpTo 4 clean st5 else st5).
  assert (I6 : pickInvariant clean st6).
  { unfold st6. destruct (length (fst st5) <? 4)%nat; [|exact I5].
    apply pushUpTo_invariant; [auto|exact I5]. }
  assert (G6 : (length (fst st5) <= length (fst st6))%nat /\
               (forall k, In k (snd st5) -> In k (snd st6))).
  { unfold st6. destruct (length (fst st5) <? 4)%nat; [apply pushUpTo_grows|].
    split; [lia|auto]. }
  destruct I6 as (E6 & N6 & In6).
  assert (Lc : (length clean <= 8)%nat).
  { pose proof (filter_length_le (fun c => negb (Dashboard.chartUsesId p c)) all) as Fl.
    fold clean in Fl. lia. }
  assert (Cov : forall c, In c clean -> In (Dashboard.keyOf c) (snd st6)).
  { destruct (pushUpTo_covers 8 clean st4) as [L|C].
    - fold st5 in L. intros c Hc.
      apply (@keys_all_seen (map Dashboard.keyOf clean) (snd st6)).
      + exact N6.
      + rewrite E6. intros k Hk. apply in_map_iff in Hk. destruct Hk as (c' & <- & Hc').
        apply in_map, In6, Hc'.
      + rewrite E6, !length_map. lia.
      + apply in_map, Hc.
    - fold st5 in C. intros c Hc. apply G6, C, Hc. }
  destruct (length (fst st6) =? 0)%nat eqn:E0; cbn [negb].
  - apply Nat.eqb_eq in E0.
    assert (Ec : clean = []).
    { destruct clean as [|c cl] eqn:Ecl; [reflexivity|]. exfalso.
      assert (Hk : In (Dashboard.keyOf c) (snd st6)) by (apply Cov; left; reflexivity).
      rewrite E6 in Hk. destruct (fst st6); [destruct Hk|simpl in E0; lia]. }
    rewrite Ec. cbn [length Nat.eqb negb].
    split; [apply firstn_le_length|].
    split; [intros c Hc; apply (firstn_In _ _ _ Hc)|].
    split; [congruence|]. intros _. apply firstn_all2, L8.
  - apply Nat.eqb_neq in E0.
    split; [apply firstn_le_length|].
    split; [intros c Hc; apply (Hclean c), In6, (firstn_In _ _ _ Hc)|].
    assert (L6 : (length (fst st6) <= 8)%nat).
    { assert (Ls : (length (snd st6) <= length (map Dashboard.keyOf clean))%nat).
      { apply NoDup_incl_length; [exact N6|]. rewrite E6. intros k Hk.
        apply in_map_iff in Hk. destruct Hk as (c' & <- & Hc'). apply in_map, In6, Hc'. }
      rewrite E6, !length_map in Ls. lia. }
    rewrite (firstn_all2 (fst st6)) by exact L6.
    split.
    + intros _. split; [intro E; rewrite E in E0; simpl in E0; lia|].
      split; [intros c Hc; apply (Hclean c), In6, Hc|].
      split; [rewrite <- E6; exact N6|]. intros c Hc. rewrite <- E6. apply Cov, Hc.
    + intro Ec. exfalso. destruct (fst st6) as [|c l] eqn:Ep; [simpl in E0; lia|].
      assert (Hin : In c clean) by (apply In6; left; reflexivity).
      rewrite Ec in Hin. destruct Hin.
Qed.

(** ** The insights of the dashboard *)

(** X26.  The insights of the dashboard are never empty and at most 6: the
    insights of [generateInsights] on the KPIs of the page, all of them,
    reordered with warnings first, information next and positive notes last,
    or the fallback insight when there are none (as without a dataset, when
    the page also has no KPI and no chart). *)
Theorem dashboard_insights_are_never_empty p :
  let shown := Dashboard.insights p in
  shown <> [] /\ (length shown <= 6)%nat /\
  (Dashboard.insightsAll p = [] -> shown = [Dashboard.fallbackInsight]) /\
  (Dashboard.insightsAll p <> [] ->
     Permutation shown (Dashboard.insightsAll p) /\
     StronglySorted
       (fun a b => (Dashboard.order (ins_severity a) <= Dashboard.order (ins_severity b))%nat)
       shown) /\
  (Dashboard.hasDataset p = false ->
     shown = [Dashboard.fallbackInsight] /\ Dashboard.chosenCharts p = [] /\
     Dashboard.visibleKpis p = []) /\
  (forall data eda, Dashboard.hasDataset p = true ->
     Dashboard.pg_data p = Some data -> Dashboard.pg_eda p = Some eda ->
     Dashboard.visibleKpis p = generateKPIs data (Some eda) /\
     Dashboard.insightsAll p = generateInsights eda (generateKPIs data (Some eda))).
Proof.
  cbv zeta. unfold Dashboard.insights. cbv zeta.
  set (le := fun a b : Insight =>
         (Dashboard.order (ins_severity a) <=? Dashboard.order (ins_severity b))%nat).
  set (allI := Dashboard.insightsAll p).
  assert (P : Permutation (sortBy le allI) allI) by apply sortBy_perm.
  assert (L6 : (length allI <= 6)%nat).
  { unfold allI, Dashboard.insightsAll. destruct (negb (Dashboard.hasDataset p)); [simpl; lia|].
    destruct (Dashboard.pg_eda p); [|simpl; lia]. unfold generateInsights.
    apply firstn_le_length. }
  assert (F : firstn 6 (sortBy le allI) = sortBy le allI).
  { apply firstn_all2. rewrite (Permutation_length P). exact L6. }
  assert (S : StronglySorted
                (fun a b => (Dashboard.order (ins_severity a)
                             <= Dashboard.order (ins_severity b))%nat) (sortBy le allI)).
  { pose proof (@sortBy_sorted Insight le) as S.
    eapply (@map_sorted Insight Insight _ _ (fun x => x)) in S.
    - rewrite map_id in S. exact S.
    - intros a b E. apply Nat.leb_le, E.
    - intros x y. unfold le. rewrite Nat.leb_gt, Nat.leb_le. lia.
    - intros x y z. unfold le. rewrite !Nat.leb_le. lia. }
  rewrite F.
  split; [destruct (sortBy le allI); discriminate|].
  split.
  { destruct (sortBy le allI) eqn:E; [simpl; lia|]. cbv iota.
    rewrite (Permutation_length P). exact L6. }
  split.
  { intro E. rewrite E. reflexivity. }
  split.
  { intro Hne. destruct (sortBy le allI) as [|i l] eqn:E.
    - apply Permutation_nil in P. contradiction.
    - split; [exact P|exact S]. }
  split.
  { intro Hd. unfold allI, Dashboard.insightsAll, Dashboard.chosenCharts, Dashboard.visibleKpis.
    rewrite Hd. repeat split. }
  intros data eda Hd Ed Ee.
  unfold allI, Dashboard.insightsAll, Dashboard.visibleKpis. rewrite Hd, Ed, Ee. cbn [negb].
  assert (K : firstn 6 (generateKPIs data (Some eda)) = generateKPIs data (Some eda))
    by (apply firstn_all2, generateKPIs_at_most_6).
  rewrite K. split; reflexivity.
Qed.

End DashboardFacts.

(** ** The bars that the dashboard draws *)

Lemma rawRows_counts labels counts :
  length labels = length counts ->
  map snd (Interactive.rawRows labels counts) = counts /\
  map fst (Interactive.rawRows labels counts) = labels.
Proof.
  unfold Interactive.rawRows. rewrite !map_map. cbn [fst snd].
  assert (G : forall k (ls : list string) (cs pre : list nat),
            length ls = length cs -> length pre = k ->
            map (fun e : nat * string => nth (fst e) (pre +++ cs) O)
              (combine (seq k (length ls)) ls) = cs /\
            map (fun e : nat * string => snd e) (combine (seq k (length ls)) ls) = ls).
  { intros k ls. revert k. induction ls as [|l ls IH]; intros k cs pre Hl Hp.
    - destruct cs; [split; reflexivity|discriminate].
    - destruct cs as [|c cs]; [discriminate|]. cbn [length seq combine map fst snd].
      injection Hl as Hl.
      destruct (IH (S k) cs (pre +++ [c]) Hl) as (I1 & I2).
      { rewrite length_app. simpl. lia. }
      rewrite <- app_assoc in I1. cbn [app] in I1. rewrite I1, I2.
      rewrite app_nth2 by lia. rewrite Hp, Nat.sub_diag. split; reflexivity. }
  intro Hl. exact (G O labels counts [] Hl eq_refl).
Qed.

(** What [topNWithOther] returns; the rows of a generated bar chart are read
    off this too. *)
Lemma topNWithOther_facts rows n :
  let shown := Interactive.topNWithOther rows n in
  list_sum (map snd shown) = list_sum (map snd rows) /\
  (length shown <= S n)%nat /\
  StronglySorted ge (map snd (firstn n shown)) /\
  (forall r, In r (firstn n shown) -> In r rows) /\
  ((length rows <= n)%nat -> Permutation shown rows) /\
  ((n < length shown)%nat ->
     exists other, nth_error shown n = Some ("Other", other) /\ (0 < other)%nat).
Proof.
  cbv zeta. unfold Interactive.topNWithOther. cbv zeta.
  set (le := fun a b : string * nat => (snd b <=? snd a)%nat).
  set (sorted := sortBy le rows).
  assert (P : Permutation sorted rows) by apply sortBy_perm.
  assert (Ss : StronglySorted (fun a b => le a b = true) sorted).
  { apply sortBy_sorted.
    - intros x y. unfold le. rewrite Nat.leb_gt, Nat.leb_le. lia.
    - intros x y z. unfold le. rewrite !Nat.leb_le. lia. }
  assert (Esum : (list_sum (map snd (firstn n sorted)) + list_sum (map snd (skipn n sorted)))%nat
                 = list_sum (map snd rows)).
  { rewrite <- list_sum_app, <- map_app, firstn_skipn.
    apply list_sum_perm, Permutation_map, P. }
  assert (Lt : (length (firstn n sorted) <= n)%nat) by apply firstn_le_length.
  assert (St : StronglySorted ge (map snd (firstn n sorted))).
  { apply map_sorted with (R := fun a b => le a b = true).
    - intros a b. unfold le. rewrite Nat.leb_le. lia.
    - apply firstn_sorted, Ss. }
  assert (Ft : forall r, In r (firstn n sorted) -> In r rows).
  { intros r Hr. apply (Permutation_in _ P), (firstn_In _ _ _ Hr). }
  destruct (0 <? list_sum (map snd (skipn n sorted)))%nat eqn:E.
  - apply Nat.ltb_lt in E.
    assert (Hn : length (firstn n sorted) = n).
    { rewrite length_firstn. destruct (Nat.le_gt_cases n (length sorted)) as [Hle|Hgt]; [lia|].
      rewrite skipn_all2 in E by lia. simpl in E. lia. }
    assert (Fn : firstn n (firstn n sorted +++ [("Other", list_sum (map snd (skipn n sorted)))])
                 = firstn n sorted).
    { rewrite firstn_app, Hn, Nat.sub_diag, firstn_all2 by lia. cbn [firstn]. apply app_nil_r. }
    rewrite Fn.
    split; [rewrite map_app, list_sum_app; cbn [map snd list_sum fold_right]; lia|].
    split; [rewrite length_app; cbn [length]; lia|].
    split; [exact St|]. split; [exact Ft|].
    split.
    + intro Hl. rewrite skipn_all2 in E by (rewrite (Permutation_length P); exact Hl).
      simpl in E. lia.
    + intros _. eexists. split; [|exact E].
      rewrite nth_error_app2 by lia. rewrite Hn, Nat.sub_diag. reflexivity.
  - apply Nat.ltb_ge in E.
    assert (Fn : firstn n (firstn n sorted) = firstn n sorted) by (apply firstn_all2; lia).
    rewrite Fn.
    split; [lia|]. split; [lia|]. split; [exact St|]. split; [exact Ft|].
    split.
    + intro Hl. rewrite firstn_all2 by (rewrite (Permutation_length P); exact Hl). exact P.
    + intro Hlt. lia.
Qed.

(** X27.  [topNWithOther] keeps the total of the counts.  It returns at most
    [n + 1] rows: the [n] largest in descending order, all rows of the
    input, and after them a row [Other] exactly when there are more than [n]
    rows in the result, with a count above 0; up to [n] input rows are
    returned as they are, reordered. *)
Theorem topNWithOther_keeps_the_total rows n :
  let shown := Interactive.topNWithOther rows n in
  list_sum (map snd shown) = list_sum (map snd rows) /\
  (length shown <= S n)%nat /\
  StronglySorted ge (map snd (firstn n shown)) /\
  (forall r, In r (firstn n shown) -> In r rows) /\
  ((length rows <= n)%nat -> Permutation shown rows) /\
  ((n < length shown)%nat ->
     exists other, nth_error shown n = Some ("Other", other) /\ (0 < other)%nat).
Proof. exact (topNWithOther_facts rows n). Qed.

Section BarFacts.
Context {H : Host}.

(** X28.  A bar chart of [generateCharts] has [maxBars = 10] and 1 to 11
    labels, as many as counts.  The rows that the dashboard draws for it are
    at most 11 and keep the total of its counts; up to 10 bars are drawn as
    they are, reordered. *)
Theorem generated_bar_charts_are_drawn_with_their_total data eda col labels counts maxBars :
  In (BarChart col labels counts maxBars) (generateCharts data (Some eda)) ->
  let drawn := Interactive.barRows labels counts maxBars in
  maxBars = 10%nat /\
  length labels = length counts /\ (1 <= length labels)%nat /\ (length labels <= 11)%nat /\
  list_sum (map snd drawn) = list_sum counts /\
  (length drawn <= 11)%nat /\
  ((length labels <= 10)%nat ->
     Permutation drawn (Interactive.rawRows labels counts) /\
     Permutation (map fst drawn) labels).
Proof.
  intro Hin. cbv zeta.
  destruct (generateCharts_wf _ _ _ Hin) as (e' & c & E & _ & Es & _ & W).
  rewrite Es in W. destruct W as (_ & _ & _ & _ & Hm & Hl & H1 & H11).
  subst maxBars. unfold Interactive.barRows.
  change (Nat.max 5 (Nat.min 12 10)) with 10%nat.
  destruct (topNWithOther_facts (Interactive.rawRows labels counts) 10)
    as (T1 & T2 & _ & _ & T5 & _).
  destruct (@rawRows_counts labels counts Hl) as (R1 & R2).
  assert (Lr : length (Interactive.rawRows labels counts) = length labels).
  { rewrite <- R2 at 2. symmetry. apply length_map. }
  split; [reflexivity|]. split; [exact Hl|]. split; [exact H1|]. split; [exact H11|].
  split; [rewrite T1, R1; reflexivity|]. split; [exact T2|].
  intro H10. assert (P := T5 ltac:(lia)). split; [exact P|].
  apply Permutation_trans with (map fst (Interactive.rawRows labels counts));
    [apply Permutation_map, P|rewrite R2; apply Permutation_refl].
Qed.

End BarFacts.

(** ** Examples *)

(** The histogram of four times [13] and twelve times [31] in eight bins. *)
Lemma histogram_edges_ascend_from_the_minimum_witness :
  exists h,
    computeHistogram (repeat 13 4 +++ repeat 31 12) 8 = Some h /\
    length (hg_edges h) = 9%nat /\
    In (hg_min h) (repeat 13 4 +++ repeat 31 12) /\
    nth 0 (hg_edges h) 0 == hg_min h /\
    nth 3 (hg_edges h) 0 <= nth 4 (hg_edges h) 0.
Proof.
  destruct (computeHistogram (repeat 13 4 +++ repeat 31 12) 8) as [h|] eqn:E;
    [|vm_compute in E; discriminate E].
  exists h. split; [reflexivity|].
  pose proof (@histogram_edges_ascend_from_the_minimum (repeat 13 4 +++ repeat 31 12) 8 h
                (le_S _ _ (le_S _ _ (le_S _ _ (le_S _ _ (le_S _ _ (le_S _ _ (le_S _ _ (le_n 1))))))))
                E) as (T1 & T2 & _ & _ & T5 & T6 & _).
  split; [exact T1|]. split; [exact T2|]. split; [exact T5|].
  apply (T6 3%nat). repeat constructor.
Defined.

(** Its first bin counts the four values [13] and its last the twelve
    values [31]. *)
Lemma histogram_end_values_fall_in_the_end_bins_witness :
  exists h,
    computeHistogram (repeat 13 4 +++ repeat 31 12) 8 = Some h /\
    length (hg_counts h) = 8%nat /\
    (4 <= nth 0 (hg_counts h) O)%nat /\
    (12 <= nth 7 (hg_counts h) O)%nat.
Proof.
  destruct (computeHistogram (repeat 13 4 +++ repeat 31 12) 8) as [h|] eqn:E;
    [|vm_compute in E; discriminate E].
  assert (Emin : hg_min h = 13) by (vm_compute in E; injection E as <-; reflexivity).
  assert (Emax : hg_max h = 31) by (vm_compute in E; injection E as <-; reflexivity).
  exists h. split; [reflexivity|].
  pose proof (@histogram_end_values_fall_in_the_end_bins (repeat 13 4 +++ repeat 31 12) 8 h
                (le_S _ _ (le_S _ _ (le_S _ _ (le_S _ _ (le_S _ _ (le_S _ _ (le_S _ _ (le_n 1))))))))
                E) as (T1 & T2 & T3 & _).
  split; [exact T1|]. rewrite Emin in T2, T3. rewrite Emax in T3.
  split; [exact T2|].
  apply T3. reflexivity.
Defined.

(** The quartiles of [13, 20, 31]. *)
Lemma quantileSorted_monotone_between_the_ends_witness :
  StronglySorted Qle [13; 20; 31] /\
  exists v v',
    quantileSorted [13; 20; 31] (1 # 4) = Some v /\
    quantileSorted [13; 20; 31] (3 # 4) = Some v' /\
    at_ [13; 20; 31] 0 <= v /\ v <= v' /\ v' <= at_ [13; 20; 31] 2.
Proof.
  assert (Hs : StronglySorted Qle [13; 20; 31]).
  { repeat constructor; discriminate. }
  split; [exact Hs|].
  refine (proj2 (@quantileSorted_monotone_between_the_ends [13; 20; 31] Hs _)
            (1 # 4) (3 # 4) _ _ _); discriminate.
Defined.

(** The median of [13, 20, 31]. *)
Lemma median_splits_a_sorted_array_in_halves_witness :
  StronglySorted Qle [13; 20; 31] /\
  median [13; 20; 31] = Some 20 /\
  at_ [13; 20; 31] 0 <= 20 /\ 20 <= at_ [13; 20; 31] 2 /\
  (3 <= 2 * length (filter (fun v => Num.leb v 20%Q) [13; 20; 31]%Q))%nat /\
  (3 <= 2 * length (filter (fun v => Num.leb 20%Q v) [13; 20; 31]%Q))%nat /\
  (true = true -> In 20 [13; 20; 31]).
Proof.
  assert (Hs : StronglySorted Qle [13; 20; 31]).
  { repeat constructor; discriminate. }
  split; [exact Hs|]. split; [reflexivity|].
  exact (proj2 (@median_splits_a_sorted_array_in_halves [13; 20; 31] Hs) 20 eq_refl).
Defined.

(** The series of the amounts of [Sales.rows] by day: every point is the
    day of a row. *)
Lemma buildTimeSeries_aggregates_the_pairs_witness :
  exists points g,
    buildTimeSeries (H := StdHost.host) Sales.rows "day" "amount" = Some (points, g) /\
    (8 <= length points)%nat /\ NoDup (map fst points) /\
    (forall k, In k (map fst points) ->
       exists p, In p (timePairs (H := StdHost.host) Sales.rows "day" "amount") /\
                 match g with
                 | Day => formatDayKey (H := StdHost.host)
                 | Month => formatMonthKey (H := StdHost.host)
                 end (fst p) = k).
Proof.
  destruct (buildTimeSeries (H := StdHost.host) Sales.rows "day" "amount")
    as [[points g]|] eqn:E; [|vm_compute in E; discriminate E].
  exists points, g. split; [reflexivity|].
  pose proof (@buildTimeSeries_aggregates_the_pairs StdHost.host Sales.rows "day" "amount"
                points g E) as T.
  cbv zeta in T. destruct T as (_ & T2 & _ & T4 & T5).
  split; [exact T2|]. split; [exact T4|].
  intros k Hk. exact (proj1 (T5 k) Hk).
Defined.

(** The six charts of [Sales.rows]. *)
Lemma generateCharts_keeps_the_caps_beyond_the_minimum_witness :
  (4 < length (generateCharts (H := StdHost.host) Sales.rows
                 (Some (runEDA (H := StdHost.host) Sales.rows))))%nat /\
  (countType TTime (generateCharts (H := StdHost.host) Sales.rows
                      (Some (runEDA (H := StdHost.host) Sales.rows))) <= 2)%nat /\
  (countType TBox (generateCharts (H := StdHost.host) Sales.rows
                     (Some (runEDA (H := StdHost.host) Sales.rows))) <= 1)%nat.
Proof.
  assert (Hl : (4 < length (generateCharts (H := StdHost.host) Sales.rows
                              (Some (runEDA (H := StdHost.host) Sales.rows))))%nat).
  { vm_compute. repeat constructor. }
  split; [exact Hl|].
  pose proof (@generateCharts_keeps_the_caps_beyond_the_minimum StdHost.host Sales.rows
                (Some (runEDA (H := StdHost.host) Sales.rows)) Hl) as T.
  cbv zeta in T. destruct T as (_ & T2 & _ & T4 & _).
  split; [exact T4|exact T2].
Defined.

(** The first chart of [Sales.rows], a time series over [day]. *)
Lemma generateCharts_never_plots_identifier_columns_witness :
  exists label x y points g,
    In (TimeChart label x y points g)
       (generateCharts (H := StdHost.host) Sales.rows
          (Some (runEDA (H := StdHost.host) Sales.rows))) /\
    nameHintsId x = false.
Proof.
  assert (Hc : exists label x y points g,
             In (TimeChart label x y points g)
                (generateCharts (H := StdHost.host) Sales.rows
                   (Some (runEDA (H := StdHost.host) Sales.rows)))).
  { vm_compute. do 5 eexists. left. reflexivity. }
  destruct Hc as (label & x & y & points & g & Hin).
  exists label, x, y, points, g. split; [exact Hin|].
  exact (@generateCharts_never_plots_identifier_columns StdHost.host Sales.rows
           (runEDA (H := StdHost.host) Sales.rows) (TimeChart label x y points g) Hin).
Defined.

Lemma generateCharts_charts_are_over_profile_columns_witness :
  exists label x y points g,
    In (TimeChart label x y points g)
       (generateCharts (H := StdHost.host) Sales.rows
          (Some (runEDA (H := StdHost.host) Sales.rows))) /\
    In x (map fst (columns (runEDA (H := StdHost.host) Sales.rows))) /\
    In y (map fst (columns (runEDA (H := StdHost.host) Sales.rows))) /\
    label = y ++ " over " ++ x.
Proof.
  assert (Hc : exists label x y points g,
             In (TimeChart label x y points g)
                (generateCharts (H := StdHost.host) Sales.rows
                   (Some (runEDA (H := StdHost.host) Sales.rows)))).
  { vm_compute. do 5 eexists. left. reflexivity. }
  destruct Hc as (label & x & y & points & g & Hin).
  exists label, x, y, points, g. split; [exact Hin|].
  exact (@generateCharts_charts_are_over_profile_columns StdHost.host Sales.rows
           (runEDA (H := StdHost.host) Sales.rows) (TimeChart label x y points g) Hin).
Defined.

(** The profile of [amount] in [Sales.rows]. *)
Lemma profileColumn_numeric_summary_is_ordered_witness :
  exists b mn mx mean md sd zeros negatives,
    profileColumn (H := StdHost.host) Sales.rows [] "amount"
    = NumericEDA b mn mx mean md sd zeros negatives /\
    exists lo hi m d,
      mn = Some lo /\ mx = Some hi /\ mean = Some m /\ md = Some d /\
      lo <= d /\ d <= hi /\ zeros = O.
Proof.
  destruct (profileColumn (H := StdHost.host) Sales.rows [] "amount")
    as [b mn mx mean md sd zeros negatives| |] eqn:E;
    try (vm_compute in E; discriminate E).
  exists b, mn, mx, mean, md, sd, zeros, negatives. split; [reflexivity|].
  destruct (@profileColumn_numeric_summary_is_ordered StdHost.host Sales.rows [] "amount"
              b mn mx mean md sd zeros negatives E)
    as (lo & hi & m & d & T1 & T2 & T3 & T4 & _ & _ & _ & T8 & T9 & _ & T11 & _).
  exists lo, hi, m, d.
  split; [exact T1|]. split; [exact T2|]. split; [exact T3|]. split; [exact T4|].
  split; [exact T8|]. split; [exact T9|].
  rewrite T11. vm_compute. reflexivity.
Defined.

(** The KPIs of [Sales.rows]: the total is the third. *)
Lemma generateKPIs_never_reports_identifier_columns_witness :
  exists k col info,
    In k (generateKPIs (H := StdHost.host) Sales.rows
            (Some (runEDA (H := StdHost.host) Sales.rows))) /\
    kpi_type k = KSum /\ kpi_column k = Some col /\
    In (col, info) (columns (runEDA (H := StdHost.host) Sales.rows)) /\
    isIdLikeColumn col info (length Sales.rows) = false.
Proof.
  assert (Hk : exists k,
             In k (generateKPIs (H := StdHost.host) Sales.rows
                     (Some (runEDA (H := StdHost.host) Sales.rows))) /\
             kpi_type k = KSum).
  { vm_compute. eexists. split; [right; right; left; reflexivity|reflexivity]. }
  destruct Hk as (k & Hin & Et).
  pose proof (@generateKPIs_never_reports_identifier_columns StdHost.host Sales.rows
                (runEDA (H := StdHost.host) Sales.rows) k Hin) as T.
  rewrite Et in T. destruct T as (col & info & T1 & T2 & _ & T4 & _).
  exists k, col, info. split; [exact Hin|]. split; [exact Et|].
  split; [exact T1|]. split; [exact T2|exact T4].
Defined.

(** The bar chart of [region] in [Sales.rows]. *)
Lemma generated_bar_charts_are_drawn_with_their_total_witness :
  exists labels counts,
    In (BarChart "region" labels counts 10)
       (generateCharts (H := StdHost.host) Sales.rows
          (Some (runEDA (H := StdHost.host) Sales.rows))) /\
    list_sum (map snd (Interactive.barRows labels counts 10)) = list_sum counts.
Proof.
  assert (Hb : exists labels counts,
             In (BarChart "region" labels counts 10)
                (generateCharts (H := StdHost.host) Sales.rows
                   (Some (runEDA (H := StdHost.host) Sales.rows)))).
  { vm_compute. do 2 eexists. right; right; left. reflexivity. }
  destruct Hb as (labels & counts & Hin).
  exists labels, counts. split; [exact Hin|].
  pose proof (@generated_bar_charts_are_drawn_with_their_total StdHost.host Sales.rows
                (runEDA (H := StdHost.host) Sales.rows) "region" labels counts 10 Hin) as T.
  cbv zeta in T. destruct T as (_ & _ & _ & _ & T5 & _). exact T5.
Defined.
